(* ===== verification/_CoqProject ===== *)
-Q . S2P
Prelude.v
Bitmap.v
Lists.v
Machine.v
Mips.v
Interp.v
Tables.v
CoreMap.v
Vm.v
Paging.v
Loading.v
Coff.v
UserMemory.v
Syscalls.v
Pipelines.v
Threads.v
Synch.v
System.v
Steps.v
Conditions.v
Monitor.v
SynchList.v
Objects.v
Mailbox.v
Whale.v
SharedPipe.v
Join.v
Requests.v
Interrupt.v
Timer.v
Console.v
Sectors.v
Network.v
PostOffice.v
Disk.v
SynchDisk.v
FileHdr.v
FreeMap.v
Directory.v
FileSys.v
