(* ===== verification/Prelude.v ===== *)
(** * Nachos: a model of the kernel, the machine it runs on, and what makes them correct

    The repository is Nachos, an instructional operating system: a kernel in C++
    that runs as one Unix process, on a MIPS machine with its devices that the same
    process simulates.  This library translates its C++ code into executable
    definitions and proves what each part promises to the others.  Code is cited by
    its file and function under src/code/.

    ** How the program is modelled

    A routine is a function from the state it reads to a result [res] (this file):
    a value, or the way the code leaves its defined behaviour - an ASSERT that
    fails, an access through a pointer or an index that denotes no object, a
    division the host traps on, the end of the process.  Integers are [Z] with the
    wrap-around of C++ written out ([u32], [s32], [u8], [s8]); what depends on the
    byte order of the host takes it from the class [Host].  Objects that are shared by
    pointer (list elements, core pages, page tables, address spaces) live in heaps,
    finite maps from addresses, so that aliasing is what it is in the code.  A
    routine of the thread system that blocks is given up to its Sleep and again from
    the wakeup.

    ** The files

    Data structures.
    - Bitmap.v: userprog/bitmap.cc, words of 32 bits against a list of booleans.
    - Lists.v: threads/list.cc, elements linked in a heap; the class [Queue] with its
      laws [QueueLaws] is what the scheduler, the wait queues and the interrupt
      controller use of it.
    - Tables.v: Table and Pipe of userprog/exception.cc.
    - CoreMap.v: CorePage and CoreMap of userprog/addrspace.cc.

    The machine.
    - Machine.v: machine/machine.cc and translate.cc; the class [Kernel] is the trap
      into the kernel.
    - Mips.v: machine/mipssim.cc, every instruction, and Run.
      Interp.v: bin/execute.c, an interpreter of the same instructions that knows no
      Nachos.
    - Interrupt.v: machine/interrupt.cc and stats.cc, the clock and the pending
      interrupts, for any devices that meet the class [Devices]; Timer.v:
      machine/timer.cc and its handler in threads/system.cc, next to any of them.
    - Disk.v, Console.v, Network.v: machine/disk.cc, console.cc, network.cc.

    Virtual memory and system calls.
    - Vm.v: MemoryManager, BackingStore and AddrSpace of userprog/addrspace.cc and the
      page-fault branch of ExceptionHandler (userprog/exception.cc).
    - Paging.v: the invariant of the pager and the contents of virtual pages.
    - Loading.v: a program added to the state of the pager; Coff.v: bin/coff2noff.c, which
      makes the programs.
    - UserMemory.v: how Read, Write and Exec (userprog/exception.cc) access the memory
      of the process.
    - Syscalls.v: the system calls and ExceptionHandler (userprog/exception.cc) and
      StartProcess (userprog/progtest.cc), on the pager, the tables and the pipes;
      Pipelines.v: processes connected by pipes, and the bytes that go through.

    Threads.
    - Threads.v: threads/thread.cc and scheduler.cc; Synch.v: threads/synch.cc, the
      semaphores, locks and condition variables.
    - System.v: the kernel running the code of many threads, with interrupts and time
      slices, as the relation [runs]; what a thread does between two calls of the
      kernel is given by a [Client].
    - Steps.v: the same runs seen by one lock or condition variable; Conditions.v: who
      waits for which condition variable, how a thread came to where it is, and what
      holds when nothing is left to run; Monitor.v: a type system for locks and the
      rule of monitors for any client.
    - SynchList.v: threads/synchlist.cc, lists that threads append to and wait on, as a
      monitor around any [Caller].
    - Objects.v: objects that threads call, each behind its own lock, and the rule that
      takes an invariant of their code to all runs; its instances are Mailbox.v and
      Whale.v (threads/synch.cc) and SharedPipe.v (Pipe of userprog/exception.cc,
      with its lock and its waits).
    - Join.v: Thread::Join and Thread::Finish (threads/thread.cc), for threads that are
      any [Worker] otherwise.
    - Requests.v: devices that serve one request at a time, behind a lock and a
      semaphore; its clients are SynchDisk.v (filesys/synchdisk.cc), the writers of
      Console.v (userprog/SynchConsole.cc, Write2) and the senders of Network.v
      (network/post.cc).
    - PostOffice.v: network/post.cc as a whole: Send and Receive of any threads, the
      postal worker and the interrupts, on the lists of SynchList.v.

    Files.
    - Sectors.v: the class [SectorStore], what the file system needs of a disk;
      SynchDisk.v implements it.
    - FileHdr.v: filesys/filehdr.cc and openfile.cc; FreeMap.v: the map of free
      sectors; Directory.v: filesys/directory.cc; FileSys.v: filesys/filesys.cc.

    ** What is shown

    Each component refines a plain specification: lists, tables, pipes, the core map,
    bit maps, open files, the directory and the whole file system (which, over any
    store of sectors, behaves as a finite map from names to contents).  The simulator
    and the interpreter of bin/execute.c agree with a reference semantics of the MIPS
    instructions, up to the deviations stated as such; the simulator is safe for any
    program, and keeps its registers, its memory and register 0 in order.
    Paging is transparent: whatever is evicted and brought back, the contents of every
    page of every process stay, and the instruction retried succeeds.  With the replacement
    policy LRU (the option -e) this leaves out one case, the last page of the queue as
    the victim, in which the core map breaks ([CoreMap.second_chance_dangling]);
    the invariant [Paging.Pager] is for both policies, [Paging.Inv] adds that it is
    first in, first out, which the theorems of UserMemory.v and on the bytes in
    Pipelines.v assume: the system calls then see memory as the process
    does.  StartProcess establishes that state, Exec keeps it
    and gives the new process the image of its program, which is that of the object
    file coff2noff was given, unless the table of processes is full, when it deletes
    an object twice; pipelines are connected as meant, and carry bytes from
    one memory to the next unchanged.  The thread system keeps every thread in the one
    place its status says, excludes threads from each other's critical sections,
    conserves the units of semaphores and loses no wakeup, in every run and under every
    order of interrupts; what threads put on a synchronized list is taken off it once and in
    order; a mailbox and a pipe pass on what they are given, each item once and in
    order, a call of a whale waits for its partners (though more calls may go than are matched), and the post office puts every message into its
    box; Join returns when the thread has ended, and neither is forgotten.  Clients that
    follow a lock discipline meet no failing ASSERT; the devices shared by threads
    serve them one after the other.  Interrupts that are
    due are served in order, the idle loop ends, and the timer makes whoever runs yield
    in time.  Where the code does something
    else than it means to, a theorem of kind "error" shows what it does.

    ** Bounds

    Loops whose end the code leaves to the data run on fuel: the length of a list or
    the number of elements of its heap, the threads for Broadcast, the frames for the
    second chance, the sectors of a file.  The theorems show that the fuel given is
    enough; [OutOfFuel] never appears in the result of an operation they speak of.
    Machine::Run, which does not end, is a number of steps.  [small] asks that a run is
    short enough for no semaphore to reach 2^31.

    ** Not modelled

    Input and output to the host (printf, DEBUG, Print, DumpState, the sockets and the
    signals of machine/sysdep.cc); the assembly of SWITCH and ThreadRoot
    (threads/switch.s), which appears as the change of the current thread; the command
    line and the start-up of threads/main.cc and system.cc; the destructors of objects
    that live as long as the kernel; the programs that only exercise the kernel
    (threads/threadtest.cc, filesys/fstest.cc, network/nettest.cc, ConsoleTest of
    userprog/progtest.cc, test/) and the other tools of bin/, which are not part of it. *)
From Stdlib Require Import ZArith Lia List Bool Btauto.
From stdpp Require Import base numbers list gmap strings fin_maps.

#[global] Open Scope Z_scope.

(** ** Outcomes of a C++ computation

    A routine of the kernel either returns a value or leaves the defined
    behaviour of the program.  The ways of leaving it that the code can
    take are kept apart: an [ASSERT] that fails (the macro of
    threads/utility.h, which aborts the simulator), an access through a
    pointer or an index that denotes no object, and a division the host traps
    on.  [Killed] is the end of the process: SysCallExit does not come back.
    [OutOfFuel] is none of them: it says that a bounded run of an unbounded loop
    or recursion was cut short. *)

Inductive fault :=
| AssertionFailed
| WildAccess
| DivideError
| Killed
| OutOfFuel.

#[global] Instance fault_eq_dec : EqDecision fault.
Proof. solve_decision. Defined.

Inductive res (A : Type) : Type :=
| Ok (a : A)
| Err (f : fault).
Arguments Ok {A} a.
Arguments Err {A} f.

#[global] Instance res_eq_dec {A} `{EqDecision A} : EqDecision (res A).
Proof. solve_decision. Defined.

(** Sequencing, written [x <- m ;; k]. *)
Definition bindr {A B} (m : res A) (k : A -> res B) : res B :=
  match m with Ok a => k a | Err e => Err e end.

Declare Scope res_scope.
Delimit Scope res_scope with res.
Notation "x <- m ;; k" := (bindr m (fun x => k))
  (at level 100, m at next level, right associativity) : res_scope.
Notation "' p <- m ;; k" := (bindr m (fun p => k))
  (at level 100, p pattern, m at next level, right associativity, only parsing) : res_scope.
#[global] Open Scope res_scope.

(** [ASSERT(condition)]. *)
Definition ASSERT (condition : bool) : res unit :=
  if condition then Ok tt else Err AssertionFailed.

Definition is_ok {A} (m : res A) : Prop := exists a, m = Ok a.

Lemma bind_Ok {A B} (f : A -> res B) (m : res A) (b : B) :
  bindr m f = Ok b <-> exists a, m = Ok a /\ f a = Ok b.
Proof. destruct m; cbn; naive_solver. Qed.

Lemma bind_ret_l {A B} (a : A) (f : A -> res B) : bindr (Ok a) f = f a.
Proof. reflexivity. Qed.

Lemma ASSERT_true b : b = true -> ASSERT b = Ok tt.
Proof. by intros ->. Qed.

Lemma ASSERT_Ok b u : ASSERT b = Ok u <-> b = true.
Proof. destruct b; cbn; split; try done; by destruct u. Qed.

(** Takes a hypothesis [x <- m1 ;; ... = Ok _] apart into its successful steps. *)
Ltac inv_bind H :=
  let a := fresh "v" in let H1 := fresh H in
  apply bind_Ok in H as (a & H1 & H).

(** ** Arrays

    A C++ array is a list; reading or writing outside of it is a
    [WildAccess], never a default value. *)

Definition aget {A} (l : list A) (i : Z) : res A :=
  if i <? 0 then Err WildAccess
  else match l !! Z.to_nat i with Some a => Ok a | None => Err WildAccess end.

Definition aset {A} (l : list A) (i : Z) (a : A) : res (list A) :=
  if (0 <=? i) && (i <? Z.of_nat (length l))
  then Ok (<[Z.to_nat i := a]> l) else Err WildAccess.

(** stdpp's [last], under a name no record field shadows. *)
Abbreviation list_last := last.

Abbreviation zlen l := (Z.of_nat (length l)).

Lemma aget_Ok {A} (l : list A) i a :
  aget l i = Ok a <-> 0 <= i /\ l !! Z.to_nat i = Some a.
Proof.
  unfold aget. destruct (Z.ltb_spec i 0); [naive_solver lia|].
  destruct (l !! Z.to_nat i); naive_solver.
Qed.

Lemma aget_in {A} (l : list A) i :
  0 <= i < zlen l -> exists a, aget l i = Ok a /\ l !! Z.to_nat i = Some a.
Proof.
  intros Hi. destruct (lookup_lt_is_Some_2 l (Z.to_nat i)) as [a Ha]; [lia|].
  exists a. rewrite aget_Ok. split; [split; [lia|done]|done].
Qed.

Lemma aget_range {A} (l : list A) i a : aget l i = Ok a -> 0 <= i < zlen l.
Proof. rewrite aget_Ok. intros [? Hl%lookup_lt_Some]. lia. Qed.

Lemma aset_in {A} (l : list A) i a :
  0 <= i < zlen l -> aset l i a = Ok (<[Z.to_nat i := a]> l).
Proof.
  intros. unfold aset. by rewrite (proj2 (andb_true_iff _ _)) by
    (split; [apply Z.leb_le|apply Z.ltb_lt]; lia).
Qed.

Lemma aset_Ok {A} (l l' : list A) i a :
  aset l i a = Ok l' <-> 0 <= i < zlen l /\ l' = <[Z.to_nat i := a]> l.
Proof.
  unfold aset. destruct (Z.leb_spec 0 i), (Z.ltb_spec i (zlen l)); cbn; naive_solver lia.
Qed.

Lemma aget_insert_eq {A} (l : list A) i a :
  0 <= i < zlen l -> aget (<[Z.to_nat i := a]> l) i = Ok a.
Proof. intros. rewrite aget_Ok, list_lookup_insert_eq; [naive_solver lia|lia]. Qed.

Lemma aget_insert_ne {A} (l : list A) i j a :
  0 <= i -> i <> j -> aget (<[Z.to_nat i := a]> l) j = aget l j.
Proof.
  intros. unfold aget. destruct (Z.ltb_spec j 0); [done|].
  by rewrite list_lookup_insert_ne by lia.
Qed.

(** ** Counting loops

    [for (i = lo; i < hi; i++) body], with a state threaded through the
    iterations; [for_ret] is the same loop whose body may [return]. *)

Fixpoint for_n {S} (n : nat) (i : Z) (body : Z -> S -> res S) (s : S) : res S :=
  match n with
  | O => Ok s
  | Datatypes.S n => s' <- body i s ;; for_n n (i + 1) body s'
  end.

Definition for_range {S} (lo hi : Z) (body : Z -> S -> res S) (s : S) : res S :=
  for_n (Z.to_nat (hi - lo)) lo body s.

Fixpoint for_ret_n {S R} (n : nat) (i : Z) (body : Z -> S -> res (S + R)) (s : S)
  : res (S + R) :=
  match n with
  | O => Ok (inl s)
  | Datatypes.S n =>
      r <- body i s ;;
      match r with inl s' => for_ret_n n (i + 1) body s' | inr v => Ok (inr v) end
  end.

Definition for_ret {S R} (lo hi : Z) (body : Z -> S -> res (S + R)) (s : S)
  : res (S + R) := for_ret_n (Z.to_nat (hi - lo)) lo body s.

(** The invariant rule of the two loops. *)
Lemma for_n_inv {S} (P : Z -> S -> Prop) n i body s :
  P i s ->
  (forall j s, i <= j < i + Z.of_nat n -> P j s ->
     exists s', body j s = Ok s' /\ P (j + 1) s') ->
  exists s', for_n n i body s = Ok s' /\ P (i + Z.of_nat n) s'.
Proof.
  revert i s. induction n as [|n IH]; intros i s HP Hb.
  - exists s. rewrite Z.add_0_r. done.
  - destruct (Hb i s) as (s1 & E1 & H1); [lia|done|]. cbn. rewrite E1. cbn.
    destruct (IH (i + 1) s1) as (s2 & E2 & H2); [done| |].
    + intros. apply Hb; [lia|done].
    + exists s2. split; [done|]. by replace (i + Z.of_nat (Datatypes.S n))
        with (i + 1 + Z.of_nat n) by lia.
Qed.

Lemma for_range_inv {S} (P : Z -> S -> Prop) lo hi body s :
  lo <= hi -> P lo s ->
  (forall i s, lo <= i < hi -> P i s -> exists s', body i s = Ok s' /\ P (i + 1) s') ->
  exists s', for_range lo hi body s = Ok s' /\ P hi s'.
Proof.
  intros Hle HP Hb. unfold for_range.
  destruct (for_n_inv P (Z.to_nat (hi - lo)) lo body s HP) as (s' & E & H).
  - intros. apply Hb; [lia|done].
  - exists s'. split; [done|]. by replace hi with (lo + Z.of_nat (Z.to_nat (hi - lo))) by lia.
Qed.

Lemma for_ret_n_inv {S R} (P : Z -> S -> Prop) (Q : R -> Prop) n i body s :
  P i s ->
  (forall j s, i <= j < i + Z.of_nat n -> P j s ->
     (exists s', body j s = Ok (inl s') /\ P (j + 1) s') \/
     (exists r, body j s = Ok (inr r) /\ Q r)) ->
  (exists s', for_ret_n n i body s = Ok (inl s') /\ P (i + Z.of_nat n) s') \/
  (exists r, for_ret_n n i body s = Ok (inr r) /\ Q r).
Proof.
  revert i s. induction n as [|n IH]; intros i s HP Hb.
  - left. exists s. rewrite Z.add_0_r. done.
  - destruct (Hb i s) as [(s1 & E1 & H1)|(r & E1 & H1)]; [lia|done| |]; cbn; rewrite E1; cbn.
    + replace (i + Z.of_nat (Datatypes.S n)) with (i + 1 + Z.of_nat n) by lia.
      apply IH; [done|]. intros. apply Hb; [lia|done].
    + right. eauto.
Qed.

Lemma for_ret_inv {S R} (P : Z -> S -> Prop) (Q : R -> Prop) lo hi body s :
  lo <= hi -> P lo s ->
  (forall i s, lo <= i < hi -> P i s ->
     (exists s', body i s = Ok (inl s') /\ P (i + 1) s') \/
     (exists r, body i s = Ok (inr r) /\ Q r)) ->
  (exists s', for_ret lo hi body s = Ok (inl s') /\ P hi s') \/
  (exists r, for_ret lo hi body s = Ok (inr r) /\ Q r).
Proof.
  intros Hle HP Hb. unfold for_ret.
  pose proof (for_ret_n_inv P Q (Z.to_nat (hi - lo)) lo body s HP) as H.
  replace (lo + Z.of_nat (Z.to_nat (hi - lo))) with hi in H by lia.
  apply H. auto with lia.
Qed.

Lemma for_range_step {S} lo hi body (s : S) :
  lo < hi -> for_range lo hi body s = (s' <- body lo s ;; for_range (lo + 1) hi body s').
Proof.
  intros. unfold for_range.
  replace (Z.to_nat (hi - lo)) with (Datatypes.S (Z.to_nat (hi - (lo + 1)))) by lia.
  done.
Qed.

Lemma for_range_stop {S} lo hi body (s : S) : hi <= lo -> for_range lo hi body s = Ok s.
Proof. intros. unfold for_range. by replace (Z.to_nat (hi - lo)) with O by lia. Qed.

(** ** Machine integers

    [int] and [unsigned int] are 32 bits wide on every host the simulator is
    built for, [short] 16 and [char] 8; [char] is signed (i386).  A value of
    such a type is the integer it denotes and the conversions wrap. *)

Definition u32 (z : Z) : Z := z mod 2 ^ 32.
Definition s32 (z : Z) : Z := (z + 2 ^ 31) mod 2 ^ 32 - 2 ^ 31.
Definition u16 (z : Z) : Z := z mod 2 ^ 16.
Definition u8 (z : Z) : Z := z mod 2 ^ 8.
Definition s8 (z : Z) : Z := (z + 2 ^ 7) mod 2 ^ 8 - 2 ^ 7.

Definition is_s32 (z : Z) : Prop := - 2 ^ 31 <= z < 2 ^ 31.
Definition is_u32 (z : Z) : Prop := 0 <= z < 2 ^ 32.

Ltac unfold_words :=
  unfold u32, s32, u16, u8, s8, is_s32, is_u32 in *;
  change (2 ^ 32) with 4294967296 in *; change (2 ^ 31) with 2147483648 in *;
  change (2 ^ 16) with 65536 in *; change (2 ^ 8) with 256 in *;
  change (2 ^ 7) with 128 in *.

(** Decides goals about wrapped integers by linear arithmetic. *)
Ltac word_lia := unfold_words; Z.div_mod_to_equations; lia.

Lemma s32_range z : is_s32 (s32 z).
Proof. word_lia. Qed.
Lemma u32_range z : is_u32 (u32 z).
Proof. word_lia. Qed.
Lemma u8_range z : 0 <= u8 z < 256.
Proof. word_lia. Qed.
Lemma s32_small z : is_s32 z -> s32 z = z.
Proof. word_lia. Qed.
Lemma u32_small z : is_u32 z -> u32 z = z.
Proof. word_lia. Qed.
Lemma u8_small z : 0 <= z < 256 -> u8 z = z.
Proof. word_lia. Qed.
Lemma s32_u32 z : s32 (u32 z) = s32 z.
Proof. word_lia. Qed.
Lemma u32_s32 z : u32 (s32 z) = u32 z.
Proof. word_lia. Qed.
Lemma u8_s8 z : u8 (s8 z) = u8 z.
Proof. word_lia. Qed.

Create HintDb words.
#[export] Hint Resolve s32_range u32_range u8_range : words.
#[export] Hint Rewrite s32_u32 u32_s32 u8_s8 : words.

Lemma s32_eq_mod a b : s32 a = s32 b <-> a mod 2 ^ 32 = b mod 2 ^ 32.
Proof. word_lia. Qed.

Lemma s32_add_mod a b : s32 (s32 a + b) = s32 (a + b).
Proof. word_lia. Qed.

(** ** Bits *)

Lemma testbit_mod_pow2 z n i :
  0 <= n -> 0 <= i -> Z.testbit (z mod 2 ^ n) i = (i <? n) && Z.testbit z i.
Proof.
  intros Hn Hi. destruct (Z.ltb_spec i n).
  - by rewrite Z.mod_pow2_bits_low by lia.
  - by rewrite Z.mod_pow2_bits_high by lia.
Qed.

Lemma testbit_u32 z i : 0 <= i -> Z.testbit (u32 z) i = (i <? 32) && Z.testbit z i.
Proof. intros. apply testbit_mod_pow2; lia. Qed.

Lemma testbit_s32_low z i : 0 <= i < 32 -> Z.testbit (s32 z) i = Z.testbit z i.
Proof.
  intros Hi. pose proof (testbit_u32 (s32 z) i) as H1. pose proof (testbit_u32 z i) as H2.
  rewrite u32_s32, H2 in H1 by lia.
  destruct (Z.ltb_spec i 32); [cbn in H1; symmetry; apply H1; lia|lia].
Qed.

Lemma testbit_pow2 k i : 0 <= k -> Z.testbit (Z.shiftl 1 k) i = (i =? k).
Proof.
  intros. rewrite Z.shiftl_1_l. destruct (Z.eqb_spec i k) as [->|].
  - by apply Z.pow2_bits_true.
  - by apply Z.pow2_bits_false.
Qed.

(** The sign bit of a 32-bit integer. *)
Lemma testbit_sign z : is_s32 z -> Z.testbit z 31 = (z <? 0).
Proof.
  intros Hz. destruct (Z.ltb_spec z 0).
  - rewrite Z.testbit_true by lia. change (2 ^ 31) with 2147483648. word_lia.
  - rewrite Z.testbit_false by lia. change (2 ^ 31) with 2147483648. word_lia.
Qed.

Lemma testbit_high_u32 z i : is_u32 z -> 32 <= i -> Z.testbit z i = false.
Proof. intros. rewrite <- (u32_small z) by done. rewrite testbit_u32 by lia.
  by rewrite (proj2 (Z.ltb_ge i 32)) by lia. Qed.

(** Two 32-bit words with the same 32 bits are equal. *)
Lemma u32_bits_eq a b :
  is_u32 a -> is_u32 b -> (forall i, 0 <= i < 32 -> Z.testbit a i = Z.testbit b i) -> a = b.
Proof.
  intros Ha Hb H. apply Z.bits_inj'. intros i Hi. destruct (Z.lt_ge_cases i 32).
  - apply H; lia.
  - by rewrite !testbit_high_u32.
Qed.

#[export] Hint Rewrite Z.land_spec Z.lor_spec Z.lxor_spec : bits.
#[export] Hint Rewrite Z.lnot_spec Z.shiftr_spec testbit_pow2 testbit_u32 using lia : bits.

Lemma range_intro n z :
  0 <= n -> (forall i, n <= i -> Z.testbit z i = false) -> 0 <= z < 2 ^ n.
Proof.
  intros Hn Hz. replace z with (z mod 2 ^ n); [apply Z.mod_pos_bound; by apply Z.pow_pos_nonneg|].
  apply Z.bits_inj'. intros i Hi. rewrite testbit_mod_pow2 by done.
  destruct (Z.ltb_spec i n); [done|]. cbn. symmetry. by apply Hz.
Qed.

Lemma is_u32_intro z : (forall i, 32 <= i -> Z.testbit z i = false) -> is_u32 z.
Proof. apply range_intro. lia. Qed.

(** Masking bounds a word by the width of the mask. *)
Lemma land_range n z m : 0 <= n -> 0 <= m < 2 ^ n -> 0 <= Z.land z m < 2 ^ n.
Proof.
  intros Hn Hm. apply range_intro; [done|]. intros i Hi. rewrite Z.land_spec.
  rewrite <- (Z.mod_small m (2 ^ n)), testbit_mod_pow2 by lia.
  by rewrite (proj2 (Z.ltb_ge i n)), andb_false_r by lia.
Qed.

Lemma lor_range n a b : 0 <= n -> 0 <= a < 2 ^ n -> 0 <= b < 2 ^ n -> 0 <= Z.lor a b < 2 ^ n.
Proof.
  intros Hn Ha Hb. apply range_intro; [done|]. intros i Hi. rewrite Z.lor_spec.
  rewrite <- (Z.mod_small a (2 ^ n)), <- (Z.mod_small b (2 ^ n)), !testbit_mod_pow2 by lia.
  by rewrite (proj2 (Z.ltb_ge i n)) by lia.
Qed.

Lemma is_u32_land a b : is_u32 a -> is_u32 (Z.land a b).
Proof. intros. apply is_u32_intro. intros. by rewrite Z.land_spec, testbit_high_u32. Qed.

Lemma is_u32_lor a b : is_u32 a -> is_u32 b -> is_u32 (Z.lor a b).
Proof. intros. apply is_u32_intro. intros. by rewrite Z.lor_spec, !testbit_high_u32. Qed.

#[export] Hint Resolve is_u32_land is_u32_lor : words.

(** Filters that agree on the elements of a list. *)
Lemma filter_ext_in {A} (P Q : A -> Prop) `{!forall x, Decision (P x)}
    `{!forall x, Decision (Q x)} (l : list A) :
  (forall x, x ∈ l -> P x <-> Q x) -> filter P l = filter Q l.
Proof.
  induction l as [|x l IH]; intros Hpq; [done|].
  rewrite !filter_cons, IH by (intros; apply Hpq; by right).
  assert (P x <-> Q x) by (apply Hpq; left). repeat case_decide; naive_solver.
Qed.

(** ** threads/utility.h *)

(** [divRoundUp] of threads/utility.h, on C's truncating division. *)
Definition divRoundUp (n s : Z) : Z :=
  Z.quot n s + (if Z.rem n s >? 0 then 1 else 0).
Definition divRoundDown (n s : Z) : Z := Z.quot n s.

Lemma divRoundUp_bounds n s :
  0 <= n -> 0 < s -> n <= divRoundUp n s * s < n + s.
Proof.
  intros Hn Hs. unfold divRoundUp.
  rewrite Z.quot_div_nonneg, Z.rem_mod_nonneg by lia.
  pose proof (Z.mod_pos_bound n s). pose proof (Z.div_mod n s).
  destruct (Z.gtb_spec (n mod s) 0); nia.
Qed.


(** ** Filters that keep or drop everything *)

Lemma filter_keep {A} (P : A -> Prop) `{!forall x, Decision (P x)} (l : list A) :
  Forall P l -> filter P l = l.
Proof. induction 1; [done|]. rewrite filter_cons_True by done. by f_equal. Qed.

Lemma filter_drop {A} (P : A -> Prop) `{!forall x, Decision (P x)} (l : list A) :
  Forall (fun x => ~ P x) l -> filter P l = [].
Proof. induction 1; [done|]. by rewrite filter_cons_False. Qed.
