(* ===== verification/Bitmap.v ===== *)
(** Bit maps (userprog/bitmap.h, userprog/bitmap.cc): an array of 32-bit words
    in which every bit records whether a disk sector or a physical page is in
    use.  The operations are the ones of the class, and each is related to the
    same operation on the plain list of booleans the words represent. *)
From Stdlib Require Import ZArith Lia Bool.
From stdpp Require Import base numbers list.
From S2P Require Import Prelude.

(** ** One word *)

Lemma testbit_mark w k j :
  is_u32 w -> 0 <= k < 32 -> 0 <= j < 32 ->
  Z.testbit (Z.lor w (u32 (Z.shiftl 1 k))) j = (j =? k) || Z.testbit w j.
Proof.
  intros. autorewrite with bits.
  rewrite (proj2 (Z.ltb_lt j 32)) by lia. apply orb_comm.
Qed.

Lemma testbit_clear w k j :
  is_u32 w -> 0 <= k < 32 -> 0 <= j < 32 ->
  Z.testbit (Z.land w (u32 (Z.lnot (Z.shiftl 1 k)))) j = negb (j =? k) && Z.testbit w j.
Proof.
  intros. autorewrite with bits.
  rewrite (proj2 (Z.ltb_lt j 32)) by lia. apply andb_comm.
Qed.

Lemma test_word w k :
  is_u32 w -> 0 <= k < 32 ->
  negb (Z.land w (u32 (Z.shiftl 1 k)) =? 0) = Z.testbit w k.
Proof.
  intros Hw Hk.
  assert (Hb : forall i, 0 <= i ->
    Z.testbit (Z.land w (u32 (Z.shiftl 1 k))) i = (i =? k) && Z.testbit w k).
  { intros i Hi. autorewrite with bits.
    destruct (Z.eqb_spec i k) as [->|]; [|by rewrite !andb_false_r].
    rewrite (proj2 (Z.ltb_lt k 32)) by lia. by rewrite andb_true_r. }
  destruct (Z.testbit w k) eqn:E.
  - destruct (Z.eqb_spec (Z.land w (u32 (Z.shiftl 1 k))) 0) as [H0|]; [|done].
    specialize (Hb k). rewrite H0, Z.bits_0, Z.eqb_refl in Hb. by discriminate Hb; lia.
  - rewrite (proj2 (Z.eqb_eq _ 0)); [done|].
    apply Z.bits_inj'. intros i Hi. by rewrite Hb, Z.bits_0, andb_false_r.
Qed.

Module BitMap.

Definition BitsInByte : Z := 8.
Definition BitsInWord : Z := 32.

Record BitMap := mkBitMap {
  numBits : Z;
  numWords : Z;
  map : list Z
}.

Definition set_map (b : BitMap) (m : list Z) : BitMap :=
  mkBitMap (numBits b) (numWords b) m.

Definition Mark (b : BitMap) (which : Z) : res BitMap :=
  _ <- ASSERT ((0 <=? which) && (which <? numBits b)) ;;
  w <- aget (map b) (Z.quot which BitsInWord) ;;
  m <- aset (map b) (Z.quot which BitsInWord)
        (Z.lor w (u32 (Z.shiftl 1 (Z.rem which BitsInWord)))) ;;
  Ok (set_map b m).

Definition Clear (b : BitMap) (which : Z) : res BitMap :=
  _ <- ASSERT ((0 <=? which) && (which <? numBits b)) ;;
  w <- aget (map b) (Z.quot which BitsInWord) ;;
  m <- aset (map b) (Z.quot which BitsInWord)
        (Z.land w (u32 (Z.lnot (Z.shiftl 1 (Z.rem which BitsInWord))))) ;;
  Ok (set_map b m).

Definition Test (b : BitMap) (which : Z) : res bool :=
  _ <- ASSERT ((0 <=? which) && (which <? numBits b)) ;;
  w <- aget (map b) (Z.quot which BitsInWord) ;;
  Ok (negb (Z.land w (u32 (Z.shiftl 1 (Z.rem which BitsInWord))) =? 0)).

(** [BitMap::BitMap]: [new unsigned int[numWords]] leaves the words as the
    allocator found them, here [fresh]; only the [nitems] bits are cleared. *)
Definition BitMap_new (fresh : nat -> Z) (nitems : Z) : res BitMap :=
  let nw := divRoundUp nitems BitsInWord in
  for_range 0 nitems (fun i b => Clear b i)
    (mkBitMap nitems nw ((fun i => u32 (fresh i)) <$> seq 0 (Z.to_nat nw))).

Definition Find (b : BitMap) : res (BitMap * Z) :=
  r <- for_ret 0 (numBits b) (fun i b =>
        t <- Test b i ;;
        if negb t then b' <- Mark b i ;; Ok (inr (b', i)) else Ok (inl b)) b ;;
  match r with inl b' => Ok (b', -1) | inr v => Ok v end.

Definition NumClear (b : BitMap) : res Z :=
  for_range 0 (numBits b) (fun i count =>
    t <- Test b i ;; Ok (if negb t then count + 1 else count)) 0.

(** [BitMap::Print]: the numbers printed, in order. *)
Definition Print (b : BitMap) : res (list Z) :=
  for_range 0 (numBits b) (fun i out =>
    t <- Test b i ;; Ok (if t : bool then out ++ [i] else out)) [].

(** ** The bits a map represents *)

Definition bit (b : BitMap) (i : Z) : bool :=
  Z.testbit (map b !!! Z.to_nat (i / 32)) (i mod 32).

Definition bits (b : BitMap) : list bool :=
  (fun i => bit b (Z.of_nat i)) <$> seq 0 (Z.to_nat (numBits b)).

Record wf (b : BitMap) : Prop := {
  wf_bits : 0 <= numBits b;
  wf_words : numWords b = divRoundUp (numBits b) 32;
  wf_len : zlen (map b) = numWords b;
  wf_word : Forall is_u32 (map b)
}.

Lemma wf_index b i : wf b -> 0 <= i < numBits b -> 0 <= i / 32 < zlen (map b).
Proof.
  intros [Hb Hw Hl _] Hi. rewrite Hl, Hw.
  pose proof (divRoundUp_bounds (numBits b) 32 Hb).
  Z.div_mod_to_equations; lia.
Qed.

Lemma length_bits b : length (bits b) = Z.to_nat (numBits b).
Proof. unfold bits. by rewrite length_fmap, length_seq. Qed.

Lemma lookup_bits b i :
  0 <= i < numBits b -> bits b !! Z.to_nat i = Some (bit b i).
Proof.
  intros. unfold bits. rewrite list_lookup_fmap.
  rewrite (proj2 (lookup_seq 0 (Z.to_nat (numBits b)) (Z.to_nat i) (Z.to_nat i))) by lia.
  cbn. by rewrite Z2Nat.id by lia.
Qed.

Lemma index_ok b i :
  (0 <=? i) && (i <? numBits b) = true <-> 0 <= i < numBits b.
Proof. rewrite andb_true_iff, Z.leb_le, Z.ltb_lt. lia. Qed.

(** Reading the word that holds bit [i]. *)
Lemma word_of b i :
  wf b -> 0 <= i < numBits b ->
  exists w, map b !! Z.to_nat (i / 32) = Some w /\ is_u32 w /\
            aget (map b) (Z.quot i BitsInWord) = Ok w /\
            Z.rem i BitsInWord = i mod 32 /\ Z.quot i BitsInWord = i / 32.
Proof.
  intros Hwf Hi. unfold BitsInWord.
  rewrite Z.quot_div_nonneg, Z.rem_mod_nonneg by lia.
  destruct (aget_in (map b) (i / 32)) as (w & Hw & Hl); [by apply wf_index|].
  exists w. split_and!; try done.
  eapply Forall_lookup_1; [apply Hwf|done].
Qed.

(** What one word update does to all the bits. *)
Lemma update_word b i w w' :
  wf b -> 0 <= i < numBits b -> map b !! Z.to_nat (i / 32) = Some w -> is_u32 w' ->
  (forall j, 0 <= j < 32 -> j <> i mod 32 -> Z.testbit w' j = Z.testbit w j) ->
  let b' := set_map b (<[Z.to_nat (i / 32) := w']> (map b)) in
  wf b' /\ bits b' = <[Z.to_nat i := Z.testbit w' (i mod 32)]> (bits b).
Proof.
  intros Hwf Hi Hw Hw' Hsame b'. pose proof (wf_index b i Hwf Hi) as Hix. split.
  - destruct Hwf as [H1 H2 H3 H4]. split; cbn; try done.
    + by rewrite length_insert.
    + by apply Forall_insert.
  - apply list_eq_same_length with (n := length (bits b)).
    { by rewrite length_insert. } { by rewrite !length_bits. }
    intros k x y Hk. rewrite length_bits in Hk.
    assert (Hz : 0 <= Z.of_nat k < numBits b) by lia.
    replace k with (Z.to_nat (Z.of_nat k)) by lia.
    rewrite lookup_bits by done. intros [= <-].
    destruct (decide (Z.of_nat k = i)) as [->|Hne].
    + rewrite list_lookup_insert_eq by (rewrite length_bits; lia). intros [= <-].
      unfold bit, b'; cbn. by rewrite list_lookup_total_insert_eq by lia.
    + rewrite list_lookup_insert_ne by lia. rewrite lookup_bits by done. intros [= <-].
      unfold bit, b'; cbn.
      destruct (decide (Z.of_nat k / 32 = i / 32)) as [E|E].
      * rewrite E, list_lookup_total_insert_eq by lia.
        rewrite (list_lookup_total_correct _ _ _ Hw).
        apply Hsame; [apply Z.mod_pos_bound; lia|].
        intros E2. apply Hne. rewrite (Z.div_mod (Z.of_nat k) 32), (Z.div_mod i 32) by lia.
        by rewrite E, E2.
      * rewrite list_lookup_total_insert_ne; [done|].
        pose proof (wf_index b (Z.of_nat k) Hwf Hz). lia.
Qed.

(** ** The operations on the represented bits *)

Section Operations.
Context (b : BitMap) (Hwf : wf b).

Lemma Mark_bits i :
  0 <= i < numBits b ->
  exists b', Mark b i = Ok b' /\ wf b' /\ numBits b' = numBits b /\
             bits b' = <[Z.to_nat i := true]> (bits b).
Proof.
  intros Hi. destruct (word_of b i Hwf Hi) as (w & Hw & Hu & Hg & Hr & Hq).
  unfold Mark. rewrite ASSERT_true by (by apply index_ok). cbn [bindr].
  rewrite Hg. cbn [bindr]. rewrite Hq, Hr.
  rewrite aset_in by (by apply wf_index). cbn [bindr].
  pose proof (Z.mod_pos_bound i 32).
  edestruct (update_word b i w) as [H1 H2]; [done..| | |].
  3: { eexists. split; [done|]. split; [exact H1|]. split; [done|]. rewrite H2. f_equal.
       rewrite testbit_mark, Z.eqb_refl by (done || lia). done. }
  - apply is_u32_lor; [done|]. apply u32_range.
  - intros j Hj Hne. rewrite testbit_mark by (done || lia).
    by rewrite (proj2 (Z.eqb_neq j _)).
Qed.

Lemma Clear_bits i :
  0 <= i < numBits b ->
  exists b', Clear b i = Ok b' /\ wf b' /\ numBits b' = numBits b /\
             bits b' = <[Z.to_nat i := false]> (bits b).
Proof.
  intros Hi. destruct (word_of b i Hwf Hi) as (w & Hw & Hu & Hg & Hr & Hq).
  unfold Clear. rewrite ASSERT_true by (by apply index_ok). cbn [bindr].
  rewrite Hg. cbn [bindr]. rewrite Hq, Hr.
  rewrite aset_in by (by apply wf_index). cbn [bindr].
  pose proof (Z.mod_pos_bound i 32).
  edestruct (update_word b i w) as [H1 H2]; [done..| | |].
  3: { eexists. split; [done|]. split; [exact H1|]. split; [done|]. rewrite H2. f_equal.
       rewrite testbit_clear, Z.eqb_refl by (done || lia). done. }
  - by apply is_u32_land.
  - intros j Hj Hne. rewrite testbit_clear by (done || lia).
    by rewrite (proj2 (Z.eqb_neq j _)).
Qed.

Lemma Test_bits i : 0 <= i < numBits b -> Test b i = Ok (bit b i).
Proof.
  intros Hi. destruct (word_of b i Hwf Hi) as (w & Hw & Hu & Hg & Hr & Hq).
  unfold Test. rewrite ASSERT_true by (by apply index_ok). cbn [bindr].
  rewrite Hg. cbn [bindr]. rewrite Hr.
  pose proof (Z.mod_pos_bound i 32).
  rewrite test_word by (done || lia). unfold bit.
  by rewrite (list_lookup_total_correct _ _ _ Hw).
Qed.

Lemma out_of_range i :
  ~ (0 <= i < numBits b) ->
  Mark b i = Err AssertionFailed /\ Clear b i = Err AssertionFailed /\
  Test b i = Err AssertionFailed.
Proof.
  intros Hi. unfold Mark, Clear, Test, ASSERT.
  destruct ((0 <=? i) && (i <? numBits b)) eqn:E; [|done].
  exfalso. apply Hi. by apply index_ok.
Qed.
End Operations.

(** The first clear bit at or after [i]. *)
Lemma for_ret_Find b n i :
  wf b -> 0 <= i -> i + Z.of_nat n = numBits b ->
  for_ret_n n i (fun i b =>
        t <- Test b i ;;
        if negb t then b' <- Mark b i ;; Ok (inr (b', i)) else Ok (inl b)) b =
  match list_find (fun x => x = false) (drop (Z.to_nat i) (bits b)) with
  | None => Ok (inl b)
  | Some (k, _) => b' <- Mark b (i + Z.of_nat k) ;; Ok (inr (b', i + Z.of_nat k))
  end.
Proof.
  intros Hwf. revert i. induction n as [|n IH]; intros i Hi Hn.
  - rewrite drop_ge by (rewrite length_bits; lia). done.
  - cbn [for_ret_n]. rewrite Test_bits by (done || lia).
    rewrite (drop_S _ (bit b i)) by (apply lookup_bits; lia). cbn.
    destruct (decide (bit b i = false)) as [E|E].
    + rewrite E. cbn. rewrite Z.add_0_r. by destruct (Mark b i).
    + apply not_false_is_true in E. rewrite E. cbn.
      rewrite IH by lia. replace (Z.to_nat (i + 1)) with (S (Z.to_nat i)) by lia.
      destruct (list_find _ (drop (S (Z.to_nat i)) (bits b))) as [[k x]|] eqn:EF; [|done].
      cbn. replace (i + 1 + Z.of_nat k) with (i + Z.of_nat (S k)) by lia. done.
Qed.

Lemma Find_unfold b :
  wf b ->
  Find b = match list_find (fun x => x = false) (bits b) with
           | None => Ok (b, -1)
           | Some (k, _) => b' <- Mark b (Z.of_nat k) ;; Ok (b', Z.of_nat k)
           end.
Proof.
  intros Hwf. unfold Find, for_ret. rewrite Z.sub_0_r.
  rewrite for_ret_Find by (done || (pose proof (wf_bits b Hwf); lia)).
  change (drop (Z.to_nat 0) (bits b)) with (bits b).
  destruct (list_find _ (bits b)) as [[k x]|]; [|done].
  rewrite Z.add_0_l. by destruct (Mark b (Z.of_nat k)).
Qed.

(** The same facts bit by bit. *)
Lemma bits_pointwise b b' i v :
  numBits b' = numBits b -> 0 <= i < numBits b -> bits b' = <[Z.to_nat i := v]> (bits b) ->
  forall j, 0 <= j < numBits b -> bit b' j = if j =? i then v else bit b j.
Proof.
  intros Hn Hi Hb j Hj.
  assert (Some (bit b' j) = <[Z.to_nat i := v]> (bits b) !! Z.to_nat j) as H.
  { rewrite <- Hb. symmetry. apply lookup_bits. lia. }
  destruct (Z.eqb_spec j i) as [->|].
  - rewrite list_lookup_insert_eq in H by (rewrite length_bits; lia). by injection H.
  - rewrite list_lookup_insert_ne, lookup_bits in H by lia. by injection H.
Qed.

Lemma Mark_bit b i :
  wf b -> 0 <= i < numBits b ->
  exists b', Mark b i = Ok b' /\ wf b' /\ numBits b' = numBits b /\
    forall j, 0 <= j < numBits b -> bit b' j = if j =? i then true else bit b j.
Proof.
  intros Hwf Hi. destruct (Mark_bits b Hwf i Hi) as (b' & E & Hw & Hn & Hb).
  exists b'. split_and!; try done. by apply bits_pointwise.
Qed.

Lemma Clear_bit b i :
  wf b -> 0 <= i < numBits b ->
  exists b', Clear b i = Ok b' /\ wf b' /\ numBits b' = numBits b /\
    forall j, 0 <= j < numBits b -> bit b' j = if j =? i then false else bit b j.
Proof.
  intros Hwf Hi. destruct (Clear_bits b Hwf i Hi) as (b' & E & Hw & Hn & Hb).
  exists b'. split_and!; try done. by apply bits_pointwise.
Qed.

Lemma Find_bit b j :
  wf b -> 0 <= j < numBits b -> bit b j = false ->
  exists b' i, Find b = Ok (b', i) /\ 0 <= i < numBits b /\ bit b i = false /\
    wf b' /\ numBits b' = numBits b /\
    forall j, 0 <= j < numBits b -> bit b' j = if j =? i then true else bit b j.
Proof.
  intros Hwf Hj Hb. rewrite Find_unfold by done.
  destruct (list_find (fun x => x = false) (bits b)) as [[k x]|] eqn:E.
  - apply list_find_Some in E as (Hk & -> & _).
    assert (0 <= Z.of_nat k < numBits b) as Hr
      by (apply lookup_lt_Some in Hk; rewrite length_bits in Hk; lia).
    rewrite <- (Nat2Z.id k), lookup_bits in Hk by done.
    destruct (Mark_bit b (Z.of_nat k) Hwf Hr) as (b' & -> & ? & ? & ?). cbn.
    exists b', (Z.of_nat k). split_and!; try done; try lia. by injection Hk.
  - exfalso. apply list_find_None in E. pose proof (lookup_bits b j Hj) as Hl.
    eapply Forall_lookup_1 in E; [|exact Hl]. by apply E.
Qed.

Lemma for_n_NumClear b n i c :
  wf b -> 0 <= i -> i + Z.of_nat n = numBits b ->
  for_n n i (fun i count =>
    t <- Test b i ;; Ok (if negb t then count + 1 else count)) c =
  Ok (c + zlen (filter (fun x => x = false) (drop (Z.to_nat i) (bits b)))).
Proof.
  intros Hwf. revert i c. induction n as [|n IH]; intros i c Hi Hn.
  - rewrite drop_ge by (rewrite length_bits; lia). cbn. f_equal. lia.
  - cbn [for_n]. rewrite Test_bits by (done || lia).
    rewrite (drop_S _ (bit b i)) by (apply lookup_bits; lia). cbn [bindr].
    rewrite IH by lia. replace (Z.to_nat (i + 1)) with (S (Z.to_nat i)) by lia.
    rewrite filter_cons. destruct (bit b i); cbn [negb]; case_decide; try done;
      rewrite ?length_cons; f_equal; lia.
Qed.

Lemma for_n_Print b n i out :
  wf b -> 0 <= i -> i + Z.of_nat n = numBits b ->
  for_n n i (fun i out => t <- Test b i ;; Ok (if t : bool then out ++ [i] else out)) out =
  Ok (out ++ filter (fun k => bit b k = true) (seqZ i (Z.of_nat n))).
Proof.
  intros Hwf. revert i out. induction n as [|n IH]; intros i out Hi Hn.
  - cbn. by rewrite app_nil_r.
  - cbn [for_n]. rewrite Test_bits by (done || lia). cbn [bindr].
    rewrite IH by lia. rewrite (seqZ_cons i (Z.of_nat (S n))) by lia.
    rewrite filter_cons. replace (Z.succ i) with (i + 1) by lia.
    replace (Z.pred (Z.of_nat (S n))) with (Z.of_nat n) by lia.
    destruct (bit b i); case_decide; try done. by rewrite <- app_assoc.
Qed.

(** The constructor: after the clearing loop every bit below [k] is clear. *)
Lemma for_range_Clear b n :
  wf b -> 0 <= n <= numBits b ->
  exists b', for_range 0 n (fun i b => Clear b i) b = Ok b' /\ wf b' /\
             numBits b' = numBits b /\
             forall j, 0 <= j < numBits b -> bit b' j = (n <=? j) && bit b j.
Proof.
  intros Hwf Hn.
  apply (for_range_inv (fun i b' => wf b' /\ numBits b' = numBits b /\
    forall j, 0 <= j < numBits b -> bit b' j = (i <=? j) && bit b j)); [lia| |].
  - split_and!; try done. intros j Hj. by rewrite (proj2 (Z.leb_le 0 j)) by lia.
  - intros i s Hi (Hs & Hl & Hb).
    destruct (Clear_bits s Hs i) as (s' & E & Hs' & Hl' & Hb'); [lia|].
    exists s'. split_and!; [done..|congruence|]. intros j Hj.
    assert (Some (bit s' j) = <[Z.to_nat i:=false]> (bits s) !! Z.to_nat j) as H.
    { rewrite <- Hb'. symmetry. apply lookup_bits. lia. }
    destruct (decide (i = j)) as [->|].
    + rewrite list_lookup_insert_eq in H by (rewrite length_bits; lia).
      injection H as ->. by rewrite (proj2 (Z.leb_gt (j + 1) j)) by lia.
    + rewrite list_lookup_insert_ne in H by lia. rewrite lookup_bits in H by lia.
      injection H as ->. rewrite Hb by lia.
      destruct (Z.leb_spec i j), (Z.leb_spec (i + 1) j); try lia; done.
Qed.

Lemma BitMap_new_bits fresh n :
  0 <= n ->
  exists b, BitMap_new fresh n = Ok b /\ wf b /\ numBits b = n /\
            bits b = replicate (Z.to_nat n) false.
Proof.
  intros Hn. unfold BitMap_new.
  set (b0 := mkBitMap _ _ _).
  pose proof (divRoundUp_bounds n 32 Hn).
  assert (Hwf : wf b0).
  { split; cbn; [done|done| |].
    - rewrite length_fmap, length_seq. unfold BitsInWord. lia.
    - apply Forall_fmap, Forall_true. intros; apply u32_range. }
  destruct (for_range_Clear b0 n Hwf) as (b & E & Hb & Hl & Hbit); [cbn; lia|].
  exists b. split_and!; [done..|]. cbn in Hl.
  apply list_eq_same_length with (n := Z.to_nat n);
    [by rewrite length_replicate|by rewrite length_bits, Hl|].
  intros k x y Hk. replace k with (Z.to_nat (Z.of_nat k)) by lia.
  rewrite lookup_bits by lia. intros [= <-]. rewrite lookup_replicate. intros [-> _].
  rewrite Hbit by (cbn; lia). by rewrite (proj2 (Z.leb_gt n (Z.of_nat k))) by lia.
Qed.

(** ** Refinement

    A client sees a bit map through the results of its calls.  [spec] answers
    them on a list of booleans; [impl] runs the methods above. *)

Inductive request :=
| RMark (which : Z)
| RClear (which : Z)
| RTest (which : Z)
| RFind
| RNumClear
| RPrint.

Definition impl (b : BitMap) (r : request) : res (BitMap * list Z) :=
  match r with
  | RMark i => b' <- Mark b i ;; Ok (b', [])
  | RClear i => b' <- Clear b i ;; Ok (b', [])
  | RTest i => t <- Test b i ;; Ok (b, [Z.b2z t])
  | RFind => '(b', i) <- Find b ;; Ok (b', [i])
  | RNumClear => n <- NumClear b ;; Ok (b, [n])
  | RPrint => l <- Print b ;; Ok (b, l)
  end.

Definition in_range (l : list bool) (i : Z) : bool := (0 <=? i) && (i <? zlen l).

Definition spec (l : list bool) (r : request) : res (list bool * list Z) :=
  match r with
  | RMark i => _ <- ASSERT (in_range l i) ;; Ok (<[Z.to_nat i := true]> l, [])
  | RClear i => _ <- ASSERT (in_range l i) ;; Ok (<[Z.to_nat i := false]> l, [])
  | RTest i => _ <- ASSERT (in_range l i) ;; Ok (l, [Z.b2z (l !!! Z.to_nat i)])
  | RFind => match list_find (fun x => x = false) l with
             | Some (k, _) => Ok (<[k := true]> l, [Z.of_nat k])
             | None => Ok (l, [-1])
             end
  | RNumClear => Ok (l, [zlen (filter (fun x => x = false) l)])
  | RPrint => Ok (l, filter (fun k => l !!! Z.to_nat k = true) (seqZ 0 (zlen l)))
  end.

Fixpoint run {S} (step : S -> request -> res (S * list Z)) (s : S) (rs : list request)
  : res (list (list Z)) :=
  match rs with
  | [] => Ok []
  | r :: rs => '(s', v) <- step s r ;; vs <- run step s' rs ;; Ok (v :: vs)
  end.

(** The two machines are in simulation: same answer, related states. *)
Definition agree (m : res (BitMap * list Z)) (m' : res (list bool * list Z)) : Prop :=
  match m, m' with
  | Ok (b, v), Ok (l, v') => wf b /\ bits b = l /\ v = v'
  | Err e, Err e' => e = e'
  | _, _ => False
  end.

Lemma in_range_bits b i : wf b -> in_range (bits b) i = (0 <=? i) && (i <? numBits b).
Proof.
  intros Hwf. unfold in_range. pose proof (wf_bits b Hwf).
  rewrite length_bits. by replace (Z.of_nat (Z.to_nat (numBits b))) with (numBits b) by lia.
Qed.

Lemma bits_total b i : 0 <= i < numBits b -> bits b !!! Z.to_nat i = bit b i.
Proof. intros. by apply list_lookup_total_correct, lookup_bits. Qed.

Lemma impl_agrees_spec b r : wf b -> agree (impl b r) (spec (bits b) r).
Proof.
  intros Hwf. pose proof (wf_bits b Hwf) as Hn.
  assert (Hrange : forall i, in_range (bits b) i = true /\ 0 <= i < numBits b \/
                        in_range (bits b) i = false /\ ~ (0 <= i < numBits b)).
  { intros i. rewrite in_range_bits by done.
    destruct ((0 <=? i) && (i <? numBits b)) eqn:E; [left; by rewrite <- index_ok|].
    right. split; [done|]. rewrite <- index_ok. by rewrite E. }
  destruct r as [i|i|i| | |]; cbn [impl spec].
  - destruct (Hrange i) as [[E Hi]|[E Hi]]; rewrite E; cbn.
    + destruct (Mark_bits b Hwf i Hi) as (b' & -> & ? & ? & ?). done.
    + by destruct (out_of_range b i Hi) as (-> & _ & _).
  - destruct (Hrange i) as [[E Hi]|[E Hi]]; rewrite E; cbn.
    + destruct (Clear_bits b Hwf i Hi) as (b' & -> & ? & ? & ?). done.
    + by destruct (out_of_range b i Hi) as (_ & -> & _).
  - destruct (Hrange i) as [[E Hi]|[E Hi]]; rewrite E; cbn.
    + rewrite Test_bits by done. cbn. by rewrite bits_total.
    + by destruct (out_of_range b i Hi) as (_ & _ & ->).
  - rewrite Find_unfold by done.
    destruct (list_find _ (bits b)) as [[k x]|] eqn:E; [|done].
    apply list_find_Some in E as (Hk & _ & _). apply lookup_lt_Some in Hk.
    rewrite length_bits in Hk.
    destruct (Mark_bits b Hwf (Z.of_nat k)) as (b' & -> & ? & ? & Hb); [lia|].
    cbn. split_and!; [done| |done]. by rewrite Hb, Nat2Z.id.
  - unfold NumClear, for_range. rewrite Z.sub_0_r, for_n_NumClear by (done || lia). done.
  - unfold Print, for_range. rewrite Z.sub_0_r, for_n_Print by (done || lia). cbn.
    split_and!; try done. rewrite length_bits. apply filter_ext_in.
    intros k Hk. apply elem_of_seqZ in Hk. by rewrite bits_total by lia.
Qed.

(** C32: whatever sequence of calls a client makes on a bit map it has just
    constructed with [nitems] bits, on memory with any contents, the answers
    (the failed assertions included) are those of [nitems] booleans that all
    start clear. *)
Theorem BitMap_refines (fresh : nat -> Z) (nitems : Z) (rs : list request) :
  0 <= nitems ->
  (b <- BitMap_new fresh nitems ;; run impl b rs) =
  run spec (replicate (Z.to_nat nitems) false) rs.
Proof.
  intros Hn. destruct (BitMap_new_bits fresh nitems Hn) as (b & -> & Hwf & _ & Hb).
  cbn. rewrite <- Hb. clear Hb. revert b Hwf.
  induction rs as [|r rs IH]; intros b Hwf; [done|]. cbn.
  pose proof (impl_agrees_spec b r Hwf) as Ha. unfold agree in Ha.
  destruct (impl b r) as [[b' v]|e], (spec (bits b) r) as [[l v']|e']; try done; cbn.
  - destruct Ha as (Hwf' & <- & ->). by rewrite IH.
  - by subst.
Qed.

Example BitMap_refines_witness :
  0 <= 70 /\
  (b <- BitMap_new (fun _ => -1) 70 ;;
   run impl b [RMark 0; RMark 1; RFind; RTest 2; RClear 1; RFind; RNumClear; RPrint]) =
  Ok [[]; []; [2]; [1]; []; [1]; [67]; [0; 1; 2]].
Proof. split; [lia|]. rewrite BitMap_refines by lia. reflexivity. Defined.

End BitMap.
