(* ===== verification/Lists.v ===== *)
(** Singly linked lists (threads/list.h, threads/list.cc).  A [List] owns the
    [ListElement]s it allocates; they live in a heap, linked by [next] pointers,
    and every method reads and writes that heap as the code does.  [rep] relates
    a list to the sequence of its elements.  The class [Queue] is what the other
    components (ready list, wait queues, pending interrupts) rely on. *)
From Stdlib Require Import ZArith Lia Bool Sorting.Sorted.
From stdpp Require Import base numbers list gmap fin_maps.
From S2P Require Import Prelude.

(** ** Ordered insertion on sequences *)

Section Sequences.
Context {A : Type}.

(** Insert in front of the first element with a greater key. *)
Fixpoint insert_sorted (k : Z) (x : A) (l : list (Z * A)) : list (Z * A) :=
  match l with
  | [] => [(k, x)]
  | (k', y) :: l' => if k <? k' then (k, x) :: l else (k', y) :: insert_sorted k x l'
  end.

Definition key_le (p q : Z * A) : Prop := p.1 <= q.1.

(** Stable: the new element goes behind everything with a key at most its own. *)
Lemma insert_sorted_split k x l :
  Sorted key_le l ->
  insert_sorted k x l = filter (fun p => p.1 <= k) l ++ (k, x) :: filter (fun p => k < p.1) l.
Proof.
  intros Hs. apply Sorted_StronglySorted in Hs; [|unfold key_le; intros ???; lia].
  induction Hs as [|[k' y] l Hs IH Hall]; [done|]. cbn [insert_sorted].
  rewrite !filter_cons. cbn. destruct (Z.ltb_spec k k').
  - rewrite decide_False, decide_True by lia.
    rewrite filter_drop, filter_keep; [done| |].
    all: eapply Forall_impl; [exact Hall|]; unfold key_le; cbn; intros; lia.
  - rewrite decide_True, decide_False by lia. by rewrite IH.
Qed.

Lemma insert_sorted_hd k x k' y l :
  k' <= k -> HdRel key_le (k', y) l -> HdRel key_le (k', y) (insert_sorted k x l).
Proof.
  intros Hk Hl. destruct l as [|[k2 z] l]; cbn; [by constructor|].
  destruct (Z.ltb_spec k k2); constructor; [done|]. by inversion Hl.
Qed.

Lemma insert_sorted_sorted k x l :
  Sorted key_le l -> Sorted key_le (insert_sorted k x l).
Proof.
  induction l as [|[k' y] l IH]; cbn; intros Hs; [by repeat constructor|].
  inversion Hs as [|? ? Hl Hh]; subst. destruct (Z.ltb_spec k k').
  - constructor; [done|]. constructor. unfold key_le; cbn; lia.
  - constructor; [by apply IH|]. apply insert_sorted_hd; [lia|done].
Qed.

Lemma insert_sorted_perm k x l : insert_sorted k x l ≡ₚ (k, x) :: l.
Proof.
  induction l as [|[k' y] l IH]; cbn; [done|].
  destruct (Z.ltb_spec k k'); [done|]. rewrite IH. apply Permutation_swap.
Qed.
End Sequences.

(** ** The interface of a queue with priorities *)

Class Queue (Q : Type -> Type) := {
  q_new : forall {A}, Q A;
  q_append : forall {A}, Q A -> A -> res (Q A);
  q_prepend : forall {A}, Q A -> A -> res (Q A);
  q_is_empty : forall {A}, Q A -> bool;
  q_sorted_insert : forall {A}, Q A -> A -> Z -> res (Q A);
  q_sorted_remove : forall {A}, Q A -> res (Q A * option (Z * A))
}.

Class QueueLaws (Q : Type -> Type) `{!Queue Q} := {
  q_rep : forall {A}, Q A -> list (Z * A) -> Prop;
  q_new_rep : forall A, q_rep (q_new (A := A)) [];
  q_append_rep : forall A (q : Q A) l x,
    q_rep q l -> exists q', q_append q x = Ok q' /\ q_rep q' (l ++ [(0, x)]);
  q_prepend_rep : forall A (q : Q A) l x,
    q_rep q l -> exists q', q_prepend q x = Ok q' /\ q_rep q' ((0, x) :: l);
  q_is_empty_rep : forall A (q : Q A) l,
    q_rep q l -> q_is_empty q = bool_decide (l = []);
  q_sorted_insert_rep : forall A (q : Q A) l x k,
    q_rep q l -> exists q', q_sorted_insert q x k = Ok q' /\ q_rep q' (insert_sorted k x l);
  q_sorted_remove_rep : forall A (q : Q A) l,
    q_rep q l -> exists q', q_sorted_remove q = Ok (q', head l) /\ q_rep q' (tail l)
}.

Module NList.
Section NList.
Context {A : Type}.

Record ListElement := mkListElement {
  next : option positive;
  key : Z;
  item : A
}.

Record List := mkList {
  heap : gmap positive ListElement;
  first : option positive;
  last : option positive
}.

(** Dereference of a [ListElement *]. *)
Definition load (h : gmap positive ListElement) (p : option positive) : res ListElement :=
  match p with
  | None => Err WildAccess
  | Some a => match h !! a with Some e => Ok e | None => Err WildAccess end
  end.

(** [p->next = n]. *)
Definition set_next (h : gmap positive ListElement) (p n : option positive)
  : res (gmap positive ListElement) :=
  e <- load h p ;;
  match p with
  | None => Err WildAccess
  | Some a => Ok (<[a := mkListElement n (key e) (item e)]> h)
  end.

(** [new ListElement(itemPtr, sortKey)]. *)
Definition ListElement_new (h : gmap positive ListElement) (itemPtr : A) (sortKey : Z)
  : gmap positive ListElement * positive :=
  let a := fresh (dom h) in (<[a := mkListElement None sortKey itemPtr]> h, a).

Definition List_new : List := mkList ∅ None None.

Definition IsEmpty (l : List) : bool :=
  match first l with None => true | Some _ => false end.

Definition Append (l : List) (x : A) : res List :=
  let '(h, element) := ListElement_new (heap l) x 0 in
  if IsEmpty l then Ok (mkList h (Some element) (Some element))
  else h' <- set_next h (last l) (Some element) ;;
       Ok (mkList h' (first l) (Some element)).

Definition Prepend (l : List) (x : A) : res List :=
  let '(h, element) := ListElement_new (heap l) x 0 in
  if IsEmpty l then Ok (mkList h (Some element) (Some element))
  else h' <- set_next h (Some element) (first l) ;;
       Ok (mkList h' (Some element) (last l)).

(** The [for] loop of [SortedInsert], at element [ptr]: [inr h] when the element
    was linked in front of a bigger one, [inl tt] when [ptr] reached the end. *)
Fixpoint insert_loop (fuel : nat) (h : gmap positive ListElement) (sortKey : Z)
    (element : positive) (ptr : option positive)
  : res (unit + gmap positive ListElement) :=
  match fuel with
  | O => Err OutOfFuel
  | S fuel =>
      p <- load h ptr ;;
      match next p with
      | None => Ok (inl tt)
      | Some n =>
          pn <- load h (Some n) ;;
          if sortKey <? key pn then
            h1 <- set_next h (Some element) (Some n) ;;
            h2 <- set_next h1 ptr (Some element) ;;
            Ok (inr h2)
          else insert_loop fuel h sortKey element (Some n)
      end
  end.

Definition SortedInsert (l : List) (x : A) (sortKey : Z) : res List :=
  let '(h, element) := ListElement_new (heap l) x sortKey in
  if IsEmpty l then Ok (mkList h (Some element) (Some element))
  else
    f <- load h (first l) ;;
    if sortKey <? key f then
      h' <- set_next h (Some element) (first l) ;;
      Ok (mkList h' (Some element) (last l))
    else
      r <- insert_loop (size h) h sortKey element (first l) ;;
      match r with
      | inr h' => Ok (mkList h' (first l) (last l))
      | inl _ => h' <- set_next h (last l) (Some element) ;;
                 Ok (mkList h' (first l) (Some element))
      end.

(** The item removed and, for the caller that passes a [keyPtr], its key. *)
Definition SortedRemove (l : List) : res (List * option (Z * A)) :=
  if IsEmpty l then Ok (l, None)
  else
    element <- load (heap l) (first l) ;;
    let thing := (key element, item element) in
    let h := match first l with Some a => delete a (heap l) | None => heap l end in
    if decide (first l = last l)
    then Ok (mkList h None None, Some thing)
    else Ok (mkList h (next element) (last l), Some thing).

Definition Remove (l : List) : res (List * option A) :=
  '(l', r) <- SortedRemove l ;; Ok (l', snd <$> r).

(** The items [Mapcar] applies its function to, in order. *)
Fixpoint map_loop (fuel : nat) (h : gmap positive ListElement) (ptr : option positive)
  : res (list A) :=
  match ptr with
  | None => Ok []
  | Some _ =>
      match fuel with
      | O => Err OutOfFuel
      | S fuel => e <- load h ptr ;; xs <- map_loop fuel h (next e) ;; Ok (item e :: xs)
      end
  end.

Definition Mapcar (l : List) : res (list A) := map_loop (size (heap l)) (heap l) (first l).

(** [List::~List]: remove until [Remove] answers NULL. *)
Fixpoint List_delete (fuel : nat) (l : List) : res List :=
  match fuel with
  | O => Err OutOfFuel
  | S fuel => '(l', r) <- Remove l ;;
              match r with None => Ok l' | Some _ => List_delete fuel l' end
  end.

(** ** Representation *)

Fixpoint chain (h : gmap positive ListElement) (p : option positive)
    (ns : list (positive * (Z * A))) : Prop :=
  match ns with
  | [] => p = None
  | (a, (k, x)) :: ns' =>
      p = Some a /\ exists n, h !! a = Some (mkListElement n k x) /\ chain h n ns'
  end.

Record nodes (l : List) (ns : list (positive * (Z * A))) : Prop := {
  nodes_chain : chain (heap l) (first l) ns;
  nodes_nodup : NoDup ns.*1;
  nodes_last : last l = list.last ns.*1;
  nodes_dom : dom (heap l) = list_to_set ns.*1
}.

Definition rep (l : List) (xs : list (Z * A)) : Prop :=
  exists ns, nodes l ns /\ ns.*2 = xs.

(** A chain only depends on its own cells. *)
Lemma chain_frame h h' p ns :
  (forall a, a ∈ ns.*1 -> h' !! a = h !! a) -> chain h p ns -> chain h' p ns.
Proof.
  revert p. induction ns as [|[a [k x]] ns IH]; intros p Hf; cbn; [done|].
  intros (-> & n & Hn & Hc). split; [done|]. exists n. split.
  - rewrite Hf; [done|]. cbn. left.
  - apply IH; [|done]. intros b Hb. apply Hf. cbn. by right.
Qed.

(** Redirecting the last cell of a chain to [a] extends it. *)
Lemma chain_snoc h p ns a k x z :
  chain h p ns -> NoDup ns.*1 -> list.last ns.*1 = Some z -> a ∉ ns.*1 ->
  h !! a = Some (mkListElement None k x) ->
  exists h', set_next h (Some z) (Some a) = Ok h' /\
             chain h' p (ns ++ [(a, (k, x))]) /\ dom h' = dom h.
Proof.
  intros Hc Hn Hz Ha Hh.
  assert (Hex : exists e, h !! z = Some e).
  { clear -Hc Hz. revert p Hc Hz. induction ns as [|[b [kb y]] ns IH]; [done|].
    intros p (-> & n & Hb & Hc) Hz. destruct ns; [injection Hz as <-; eauto|].
    eapply IH; [exact Hc|exact Hz]. }
  destruct Hex as [e He]. unfold set_next, load. rewrite He. cbn.
  eexists. split; [done|]. split.
  2: { rewrite dom_insert_L. apply elem_of_dom_2 in He. set_solver. }
  revert p Hc Hn Hz Ha. induction ns as [|[b [kb y]] ns IH]; intros p Hc Hn Hz Ha; [done|].
  destruct Hc as (-> & n & Hb & Hc). cbn in *. apply NoDup_cons in Hn as [Hbn Hn].
  destruct ns as [|[c [kc w]] ns].
  - injection Hz as ->. rewrite Hb in He. injection He as <-. split; [done|].
    exists (Some a). cbn. rewrite lookup_insert_eq. split; [done|].
    split; [done|]. exists None. rewrite lookup_insert_ne; [done|]. set_solver.
  - split; [done|]. exists n. split.
    + rewrite lookup_insert_ne; [done|]. intros ->.
      apply Hbn. change (b ∈ ((c, (kc, w)) :: ns).*1).
      eapply list_elem_of_lookup_2. rewrite <- last_lookup. exact Hz.
    + apply IH; [done|done|done|set_solver].
Qed.

(** Ordered insertion of the cell [e] in a sequence of cells. *)
Fixpoint insert_nodes (sk : Z) (e : positive) (y : A) (ns : list (positive * (Z * A))) :=
  match ns with
  | [] => [(e, (sk, y))]
  | (a, (k, x)) :: ns' =>
      if sk <? k then (e, (sk, y)) :: ns else (a, (k, x)) :: insert_nodes sk e y ns'
  end.

Lemma insert_nodes_snd sk e y ns : (insert_nodes sk e y ns).*2 = insert_sorted sk y ns.*2.
Proof.
  induction ns as [|[a [k x]] ns IH]; cbn; [done|].
  destruct (sk <? k); cbn; [done|]. by rewrite IH.
Qed.

Lemma insert_nodes_perm sk e y ns : (insert_nodes sk e y ns).*1 ≡ₚ e :: ns.*1.
Proof.
  induction ns as [|[a [k x]] ns IH]; cbn; [done|].
  destruct (sk <? k); cbn; [done|]. rewrite IH. apply Permutation_swap.
Qed.

Lemma insert_nodes_end sk e y ns :
  Forall (fun n => n.2.1 <= sk) ns -> insert_nodes sk e y ns = ns ++ [(e, (sk, y))].
Proof.
  induction 1 as [|[a [k x]] ns Hk Hns IH]; cbn in *; [done|].
  rewrite (proj2 (Z.ltb_ge sk k)) by done. by rewrite IH.
Qed.

Lemma load_in h a e : h !! a = Some e -> load h (Some a) = Ok e.
Proof. intros H. unfold load. by rewrite H. Qed.

Lemma set_next_in h a n e :
  h !! a = Some e -> set_next h (Some a) n = Ok (<[a := mkListElement n (key e) (item e)]> h).
Proof. intros H. unfold set_next, load. by rewrite H. Qed.

Lemma insert_loop_spec fuel h sk e y ns a k x :
  chain h (Some a) ((a, (k, x)) :: ns) -> NoDup (a :: ns.*1) -> e ∉ a :: ns.*1 ->
  h !! e = Some (mkListElement None sk y) -> (length ns < fuel)%nat ->
  (Forall (fun n => n.2.1 <= sk) ns /\ insert_loop fuel h sk e (Some a) = Ok (inl tt)) \/
  exists h', insert_loop fuel h sk e (Some a) = Ok (inr h') /\
    chain h' (Some a) ((a, (k, x)) :: insert_nodes sk e y ns) /\ dom h' = dom h /\
    list_last (insert_nodes sk e y ns).*1 = list_last ns.*1 /\
    forall c, c ∉ a :: e :: ns.*1 -> h' !! c = h !! c.
Proof.
  revert fuel a k x. induction ns as [|[b [kb z]] ns IH]; intros fuel a k x Hc Hnd He Hh Hf;
    (destruct fuel as [|fuel]; [cbn in Hf; lia|]);
    destruct Hc as (_ & n & Ha & Hc).
  - left. split; [constructor|]. cbn in Hc. subst n. cbn. by rewrite Ha.
  - destruct Hc as (-> & n2 & Hb & Hc). cbn in Hnd, He.
    apply NoDup_cons in Hnd as [Hab Hnd]. cbn [insert_loop]. rewrite (load_in _ _ _ Ha).
    cbn [bindr next]. rewrite (load_in _ _ _ Hb). cbn [bindr key]. cbn [insert_nodes].
    destruct (Z.ltb_spec sk kb) as [Hk|Hk].
    + right. rewrite (set_next_in _ _ _ _ Hh). cbn [bindr key item].
      assert (a <> e) by set_solver. assert (b <> e) by set_solver.
      assert (a <> b) by set_solver.
      rewrite (set_next_in _ a _ (mkListElement (Some b) k x)) by (by rewrite lookup_insert_ne).
      eexists. split; [done|]. cbn [key item]. split_and!.
      * cbn. split; [done|]. exists (Some e). rewrite lookup_insert_eq. split; [done|].
        split; [done|]. exists (Some b).
        rewrite lookup_insert_ne, lookup_insert_eq by done. split; [done|].
        split; [done|]. exists n2. rewrite !lookup_insert_ne by done. split; [done|].
        eapply chain_frame; [|exact Hc]. intros c Hc'.
        rewrite !lookup_insert_ne; [done|set_solver|set_solver].
      * rewrite !dom_insert_L. apply elem_of_dom_2 in Ha, Hh. set_solver.
      * by rewrite !fmap_cons.
      * intros c Hc'. rewrite !lookup_insert_ne; [done|set_solver|set_solver].
    + destruct (IH fuel b kb z) as [[Hall Hl]|(h' & Hl & Hch & Hd & Hla & Hfr)].
      * split; [done|]. exists n2. done.
      * done.
      * set_solver.
      * done.
      * cbn in Hf; lia.
      * left. split; [|done]. constructor; [cbn; lia|done].
      * right. exists h'. split; [done|]. split_and!; [|done| |].
        -- split; [done|]. exists (Some b). rewrite Hfr; [done|]. set_solver.
        -- rewrite !fmap_cons, !last_cons. by rewrite Hla.
        -- intros c Hc'. apply Hfr. set_solver.
Qed.

(** ** The methods on the represented sequence *)

Lemma ListElement_new_spec h x k h' e :
  ListElement_new h x k = (h', e) ->
  e ∉ dom h /\ h' = <[e := mkListElement None k x]> h.
Proof. intros [= <- <-]. split; [|done]. apply is_fresh. Qed.

Lemma nodes_empty l ns : nodes l ns -> IsEmpty l = bool_decide (ns = []).
Proof.
  intros [Hc _ _ _]. unfold IsEmpty. destruct ns as [|[a [k x]] ns]; cbn in Hc.
  - by rewrite Hc.
  - destruct Hc as [-> _]. done.
Qed.

(** A new cell leaves the old ones in place. *)
Lemma chain_alloc h p ns e v :
  chain h p ns -> dom h = list_to_set ns.*1 -> e ∉ dom h -> chain (<[e := v]> h) p ns.
Proof.
  intros Hc Hd He. eapply chain_frame; [|exact Hc]. intros a Ha.
  apply lookup_insert_ne. intros ->. apply He. rewrite Hd. by apply elem_of_list_to_set.
Qed.

Ltac start_op Hn :=
  destruct Hn as [Hc Hnd Hl Hd].

Lemma Append_nodes l ns x :
  nodes l ns -> exists l' e, Append l x = Ok l' /\ nodes l' (ns ++ [(e, (0, x))]).
Proof.
  intros Hn. pose proof (nodes_empty _ _ Hn) as Hemp. start_op Hn.
  unfold Append. destruct (ListElement_new (heap l) x 0) as [h e] eqn:E.
  apply ListElement_new_spec in E as [He ->]. rewrite Hemp.
  destruct ns as [|[a [k y]] ns]; cbn [bool_decide decide].
  - eexists _, e. split; [done|]. cbn in Hd. split; cbn.
    + split; [done|]. exists None. by rewrite lookup_insert_eq.
    + apply NoDup_singleton.
    + done.
    + rewrite dom_insert_L, Hd. set_solver.
  - set (ns1 := (a, (k, y)) :: ns) in *.
    destruct (list_last ns1.*1) as [z|] eqn:Hz; [|apply last_None in Hz; done].
    destruct (chain_snoc (<[e:=mkListElement None 0 x]> (heap l)) (first l) ns1 e 0 x z)
      as (h' & Hs & Hch & Hdom).
    { by apply chain_alloc. } { done. } { done. }
    { intros H. apply He. rewrite Hd. by apply elem_of_list_to_set. }
    { apply lookup_insert_eq. }
    rewrite bool_decide_eq_false_2 by done. rewrite Hl, Hs. cbn [bindr].
    eexists _, e. split; [done|]. split; cbn [heap first last].
    + done.
    + rewrite fmap_app. apply NoDup_app. split_and!; [done| |apply NoDup_singleton].
      intros b Hb Hb'. apply list_elem_of_singleton in Hb'. cbn in Hb'. subst.
      apply He. rewrite Hd. by apply elem_of_list_to_set.
    + rewrite fmap_app. symmetry. exact (last_snoc e ns1.*1).
    + rewrite Hdom, dom_insert_L, Hd, fmap_app, list_to_set_app_L. set_solver.
Qed.

Lemma Prepend_nodes l ns x :
  nodes l ns -> exists l' e, Prepend l x = Ok l' /\ nodes l' ((e, (0, x)) :: ns).
Proof.
  intros Hn. pose proof (nodes_empty _ _ Hn) as Hemp. start_op Hn.
  unfold Prepend. destruct (ListElement_new (heap l) x 0) as [h e] eqn:E.
  apply ListElement_new_spec in E as [He ->]. rewrite Hemp.
  destruct ns as [|[a [k y]] ns]; cbn [bool_decide decide].
  - eexists _, e. split; [done|]. cbn in Hd. split; cbn.
    + split; [done|]. exists None. by rewrite lookup_insert_eq.
    + apply NoDup_singleton.
    + done.
    + rewrite dom_insert_L, Hd. set_solver.
  - set (ns1 := (a, (k, y)) :: ns) in *. rewrite bool_decide_eq_false_2 by done.
    rewrite (set_next_in _ e _ (mkListElement None 0 x)) by apply lookup_insert_eq.
    cbn [bindr key item]. eexists _, e. split; [done|].
    assert (Hen : e ∉ ns1.*1) by (intros H; apply He; rewrite Hd; by apply elem_of_list_to_set).
    split; cbn [heap first last].
    + split; [done|]. exists (first l). rewrite lookup_insert_eq. split; [done|].
      rewrite insert_insert_eq. by apply chain_alloc.
    + rewrite fmap_cons. by apply NoDup_cons.
    + rewrite Hl. unfold ns1. rewrite !fmap_cons. by rewrite last_cons_cons.
    + rewrite !dom_insert_L, Hd, fmap_cons. set_solver.
Qed.

Lemma size_nodes l ns : nodes l ns -> size (heap l) = length ns.
Proof.
  intros [_ Hnd _ Hd]. rewrite <- size_dom, Hd.
  rewrite size_list_to_set by done. by rewrite length_fmap.
Qed.

Lemma SortedInsert_nodes l ns x k :
  nodes l ns ->
  exists l' e, SortedInsert l x k = Ok l' /\ nodes l' (insert_nodes k e x ns).
Proof.
  intros Hn. pose proof (nodes_empty _ _ Hn) as Hemp.
  pose proof (size_nodes _ _ Hn) as Hsz. start_op Hn.
  unfold SortedInsert. destruct (ListElement_new (heap l) x k) as [h e] eqn:E.
  apply ListElement_new_spec in E as [He Hh]. rewrite Hemp.
  assert (Hen : e ∉ ns.*1) by (intros H; apply He; rewrite Hd; by apply elem_of_list_to_set).
  assert (Hhe : h !! e = Some (mkListElement None k x)) by (rewrite Hh; apply lookup_insert_eq).
  assert (Hdh : dom h = {[e]} ∪ list_to_set ns.*1) by (by rewrite Hh, dom_insert_L, Hd).
  assert (Hch : chain h (first l) ns) by (rewrite Hh; by apply chain_alloc).
  assert (Hnd' : NoDup (insert_nodes k e x ns).*1)
    by (rewrite insert_nodes_perm; by apply NoDup_cons).
  assert (Hd' : list_to_set (C := gset positive) (insert_nodes k e x ns).*1
                = {[e]} ∪ list_to_set ns.*1).
  { apply set_eq. intros b. rewrite elem_of_list_to_set, insert_nodes_perm. set_solver. }
  destruct ns as [|[a [ka y]] ns].
  { rewrite bool_decide_eq_true_2 by done. eexists _, e. split; [done|].
    split; cbn [heap first last insert_nodes]; [|done|done|].
    - split; [done|]. by exists None.
    - by rewrite Hdh, <- Hd'. }
  rewrite bool_decide_eq_false_2 by done. pose proof Hch as (Hf & n & Ha & Hcn).
  rewrite Hf, (load_in _ _ _ Ha). cbn [bindr key]. cbn [insert_nodes] in *.
  destruct (Z.ltb_spec k ka) as [Hk|Hk].
  { rewrite (set_next_in _ _ _ _ Hhe). cbn [bindr key item]. eexists _, e. split; [done|].
    split; cbn [heap first last]; [|done| |].
    - split; [done|]. exists (Some a). rewrite lookup_insert_eq. split; [done|].
      eapply chain_frame; [|rewrite <- Hf; exact Hch]. intros b Hb.
      apply lookup_insert_ne. by intros ->.
    - rewrite Hl, !fmap_cons. by rewrite last_cons_cons.
    - rewrite dom_insert_L, Hdh, Hd'. set_solver. }
  rewrite Hf in Hch.
  destruct (insert_loop_spec (size h) h k e x ns a ka y) as
    [[Hall Hlp]|(h' & Hlp & Hch' & Hdom & Hla & _)]; [done|done|done|done| | |].
  { rewrite Hh, map_size_insert_None, Hsz by (by apply not_elem_of_dom). cbn. lia. }
  - rewrite Hlp. cbn [bindr].
    set (ns1 := (a, (ka, y)) :: ns) in *.
    destruct (list_last ns1.*1) as [z|] eqn:Hz; [|apply last_None in Hz; done].
    destruct (chain_snoc h (Some a) ns1 e k x z) as (h' & Hs & Hc' & Hdom); try done.
    rewrite Hl, Hs. cbn [bindr]. eexists _, e. split; [done|].
    rewrite (insert_nodes_end k e x ns) in * by done.
    split; cbn [heap first last]; [done|done| |].
    + change ((a, (ka, y)) :: ns ++ [(e, (k, x))]) with (ns1 ++ [(e, (k, x))]).
      rewrite fmap_app. symmetry. exact (last_snoc e ns1.*1).
    + by rewrite Hdom, Hdh, <- Hd'.
  - rewrite Hlp. cbn [bindr]. eexists _, e. split; [done|].
    split; cbn [heap first last]; [done|done| |].
    + rewrite Hl, !fmap_cons, !last_cons. by rewrite Hla.
    + by rewrite Hdom, Hdh, <- Hd'.
Qed.

Lemma SortedRemove_nodes l ns :
  nodes l ns ->
  exists l', SortedRemove l = Ok (l', head ns.*2) /\ nodes l' (tail ns).
Proof.
  intros Hn. pose proof (nodes_empty _ _ Hn) as Hemp. pose proof Hn as Hn'. start_op Hn.
  unfold SortedRemove. rewrite Hemp. destruct ns as [|[a [k x]] ns].
  { rewrite bool_decide_eq_true_2 by done. eauto. }
  rewrite bool_decide_eq_false_2 by done. pose proof Hc as (Hf & n & Ha & Hcn).
  rewrite Hf, (load_in _ _ _ Ha). cbn [bindr key item next]. rewrite Hl.
  rewrite fmap_cons in *. cbn [fst] in *. apply NoDup_cons in Hnd as [Hna Hnd].
  assert (Hdd : dom (delete a (heap l)) = list_to_set ns.*1).
  { rewrite dom_delete_L, Hd. set_solver. }
  destruct ns as [|[b [kb y]] ns].
  - rewrite decide_True by done. eexists. split; [done|]. by split.
  - rewrite decide_False.
    + eexists. split; [done|]. split; cbn [heap first last tail].
      * eapply chain_frame; [|exact Hcn]. intros c Hc'. apply lookup_delete_ne. by intros ->.
      * done.
      * by rewrite fmap_cons, last_cons_cons, <- fmap_cons.
      * done.
    + intros Heq. apply Hna, last_Some_elem_of. symmetry. exact Heq.
Qed.

Lemma Append_rep l xs x : rep l xs -> exists l', Append l x = Ok l' /\ rep l' (xs ++ [(0, x)]).
Proof.
  intros (ns & Hn & <-). destruct (Append_nodes l ns x Hn) as (l' & e & ? & ?).
  exists l'. split; [done|]. eexists. split; [done|]. by rewrite fmap_app.
Qed.

Lemma Prepend_rep l xs x : rep l xs -> exists l', Prepend l x = Ok l' /\ rep l' ((0, x) :: xs).
Proof.
  intros (ns & Hn & <-). destruct (Prepend_nodes l ns x Hn) as (l' & e & ? & ?).
  exists l'. split; [done|]. by eexists.
Qed.

Lemma SortedInsert_rep l xs x k :
  rep l xs -> exists l', SortedInsert l x k = Ok l' /\ rep l' (insert_sorted k x xs).
Proof.
  intros (ns & Hn & <-). destruct (SortedInsert_nodes l ns x k Hn) as (l' & e & ? & ?).
  exists l'. split; [done|]. eexists. split; [done|]. apply insert_nodes_snd.
Qed.

Lemma SortedRemove_rep l xs :
  rep l xs -> exists l', SortedRemove l = Ok (l', head xs) /\ rep l' (tail xs).
Proof.
  intros (ns & Hn & <-). destruct (SortedRemove_nodes l ns Hn) as (l' & ? & ?).
  exists l'. split; [done|]. eexists. split; [done|]. by destruct ns.
Qed.

Lemma IsEmpty_rep l xs : rep l xs -> IsEmpty l = bool_decide (xs = []).
Proof.
  intros (ns & Hn & <-). rewrite (nodes_empty _ _ Hn). apply bool_decide_ext.
  by destruct ns.
Qed.

Lemma List_new_rep : rep List_new [].
Proof. exists []. split; [|done]. split; cbn; [done|constructor|done|]. by rewrite dom_empty_L. Qed.

Lemma map_loop_chain fuel h p ns :
  chain h p ns -> (length ns <= fuel)%nat -> map_loop fuel h p = Ok ns.*2.*2.
Proof.
  revert p fuel. induction ns as [|[a [k x]] ns IH]; intros p fuel Hc Hf; cbn in Hc.
  - subst. by destruct fuel.
  - destruct Hc as (-> & n & Ha & Hc). destruct fuel as [|fuel]; [cbn in Hf; lia|].
    cbn [map_loop]. rewrite (load_in _ _ _ Ha). cbn [bindr next item].
    rewrite (IH n); [done|done|cbn in Hf; lia].
Qed.

Lemma Mapcar_rep l xs : rep l xs -> Mapcar l = Ok xs.*2.
Proof.
  intros (ns & Hn & <-). unfold Mapcar. rewrite (size_nodes _ _ Hn).
  by apply map_loop_chain; [apply Hn|].
Qed.

(** The destructor frees every cell. *)
Lemma List_delete_rep l xs fuel :
  rep l xs -> (length xs < fuel)%nat -> exists l', List_delete fuel l = Ok l' /\ heap l' = ∅.
Proof.
  revert l fuel. induction xs as [|[k x] xs IH]; intros l fuel Hr Hf;
    (destruct fuel as [|fuel]; [cbn in Hf; lia|]); cbn [List_delete]; unfold Remove;
    destruct (SortedRemove_rep l _ Hr) as (l' & -> & Hr'); cbn.
  - exists l'. split; [done|]. destruct Hr' as (ns & Hn & Hns).
    apply dom_empty_inv_L. rewrite (nodes_dom _ _ Hn). by destruct ns.
  - apply IH; [done|]. cbn in Hf; lia.
Qed.
End NList.
Arguments List : clear implicits.
End NList.

#[export] Instance NList_queue : Queue NList.List := {
  q_new := @NList.List_new;
  q_append := @NList.Append;
  q_prepend := @NList.Prepend;
  q_is_empty := @NList.IsEmpty;
  q_sorted_insert := @NList.SortedInsert;
  q_sorted_remove := @NList.SortedRemove
}.

#[export] Instance NList_laws : QueueLaws NList.List := {|
  q_rep := @NList.rep;
  q_new_rep := @NList.List_new_rep;
  q_append_rep := fun A q l x => NList.Append_rep q l x;
  q_prepend_rep := fun A q l x => NList.Prepend_rep q l x;
  q_is_empty_rep := fun A q l => NList.IsEmpty_rep q l;
  q_sorted_insert_rep := fun A q l x k => NList.SortedInsert_rep q l x k;
  q_sorted_remove_rep := fun A q l => NList.SortedRemove_rep q l
|}.

(** ** Refinement

    A client sees a list through the answers of its methods; [seq_step] answers
    the same requests on a plain sequence of (key, item) pairs. *)

Section Refinement.
Context {A : Type}.

Inductive list_request :=
| LAppend (x : A)
| LPrepend (x : A)
| LSortedInsert (x : A) (sortKey : Z)
| LRemove
| LSortedRemove
| LIsEmpty
| LMapcar.

Inductive list_answer :=
| ANone
| AItem (r : option A)
| AKeyItem (r : option (Z * A))
| ABool (b : bool)
| AItems (l : list A).

Definition list_step (l : NList.List A) (r : list_request) : res (NList.List A * list_answer) :=
  match r with
  | LAppend x => l' <- NList.Append l x ;; Ok (l', ANone)
  | LPrepend x => l' <- NList.Prepend l x ;; Ok (l', ANone)
  | LSortedInsert x k => l' <- NList.SortedInsert l x k ;; Ok (l', ANone)
  | LRemove => '(l', v) <- NList.Remove l ;; Ok (l', AItem v)
  | LSortedRemove => '(l', v) <- NList.SortedRemove l ;; Ok (l', AKeyItem v)
  | LIsEmpty => Ok (l, ABool (NList.IsEmpty l))
  | LMapcar => v <- NList.Mapcar l ;; Ok (l, AItems v)
  end.

Definition seq_step (s : list (Z * A)) (r : list_request) : list (Z * A) * list_answer :=
  match r with
  | LAppend x => (s ++ [(0, x)], ANone)
  | LPrepend x => ((0, x) :: s, ANone)
  | LSortedInsert x k => (insert_sorted k x s, ANone)
  | LRemove => (tail s, AItem (snd <$> head s))
  | LSortedRemove => (tail s, AKeyItem (head s))
  | LIsEmpty => (s, ABool (bool_decide (s = [])))
  | LMapcar => (s, AItems s.*2)
  end.

Fixpoint list_run (l : NList.List A) (rs : list list_request) : res (list list_answer) :=
  match rs with
  | [] => Ok []
  | r :: rs => '(l', v) <- list_step l r ;; vs <- list_run l' rs ;; Ok (v :: vs)
  end.

Fixpoint seq_run (s : list (Z * A)) (rs : list list_request) : list list_answer :=
  match rs with
  | [] => []
  | r :: rs => let '(s', v) := seq_step s r in v :: seq_run s' rs
  end.

Lemma list_step_rep l s r :
  NList.rep l s ->
  exists l', list_step l r = Ok (l', (seq_step s r).2) /\ NList.rep l' (seq_step s r).1.
Proof.
  intros Hr. destruct r as [x|x|x k| | | |]; cbn [list_step seq_step fst snd].
  - destruct (NList.Append_rep l s x Hr) as (l' & -> & ?). by exists l'.
  - destruct (NList.Prepend_rep l s x Hr) as (l' & -> & ?). by exists l'.
  - destruct (NList.SortedInsert_rep l s x k Hr) as (l' & -> & ?). by exists l'.
  - unfold NList.Remove. destruct (NList.SortedRemove_rep l s Hr) as (l' & -> & ?). by exists l'.
  - destruct (NList.SortedRemove_rep l s Hr) as (l' & -> & ?). by exists l'.
  - rewrite (NList.IsEmpty_rep l s Hr). by exists l.
  - rewrite (NList.Mapcar_rep l s Hr). by exists l.
Qed.

(** C33: the linked list with its [first] and [last] pointers behaves, for every
    sequence of calls on a new list, as the sequence of its (key, item) pairs;
    no call ever follows a dangling or NULL pointer. *)
Theorem List_refines (rs : list list_request) :
  list_run NList.List_new rs = Ok (seq_run [] rs).
Proof.
  assert (H : forall l s, NList.rep l s -> list_run l rs = Ok (seq_run s rs)).
  { induction rs as [|r rs' IH]; intros l s Hr; [done|]. cbn [list_run seq_run].
    destruct (list_step_rep l s r Hr) as (l' & -> & Hr'). cbn [bindr].
    destruct (seq_step s r) as [s' v]. by rewrite (IH l' s'). }
  apply H, NList.List_new_rep.
Qed.
End Refinement.
Arguments list_request : clear implicits.
Arguments list_answer : clear implicits.

(** ** Priority queues

    Filling a list with [SortedInsert] and draining it with [SortedRemove], as
    the scheduler, the wait queues and the pending interrupts do. *)

Section PriorityQueue.
Context {A : Type}.

Fixpoint fill (l : NList.List A) (ps : list (Z * A)) : res (NList.List A) :=
  match ps with
  | [] => Ok l
  | (k, x) :: ps => l' <- NList.SortedInsert l x k ;; fill l' ps
  end.

Fixpoint drain (fuel : nat) (l : NList.List A) : res (list (Z * A)) :=
  match fuel with
  | O => Err OutOfFuel
  | S fuel =>
      '(l', r) <- NList.SortedRemove l ;;
      match r with
      | None => Ok []
      | Some p => ps <- drain fuel l' ;; Ok (p :: ps)
      end
  end.

Definition with_key (k : Z) (ps : list (Z * A)) := filter (fun p => p.1 = k) ps.

Lemma with_key_insert k0 k x l :
  Sorted key_le l ->
  with_key k0 (insert_sorted k x l) = with_key k0 l ++ with_key k0 [(k, x)].
Proof.
  intros Hs. rewrite insert_sorted_split by done. unfold with_key.
  rewrite filter_app, filter_cons, !list_filter_filter.
  assert (Hsplit : Sorted key_le l -> filter (fun p => p.1 = k0) l =
    filter (fun a => a.1 = k0 /\ a.1 <= k) l ++ filter (fun a => a.1 = k0 /\ k < a.1) l).
  { intros _. destruct (Z.le_gt_cases k0 k).
    - rewrite (filter_drop (fun a => a.1 = k0 /\ k < a.1)), app_nil_r
        by (apply Forall_true; intros; lia).
      apply filter_ext_in. intros; lia.
    - rewrite (filter_drop (fun a => a.1 = k0 /\ a.1 <= k))
        by (apply Forall_true; intros; lia).
      apply filter_ext_in. intros; lia. }
  rewrite (Hsplit Hs), filter_cons, filter_nil. cbn [fst].
  case_decide as E; [|by rewrite app_nil_r].
  rewrite (filter_drop (fun a => a.1 = k0 /\ k < a.1)) by (apply Forall_true; intros; lia).
  by rewrite app_nil_r.
Qed.

Lemma fill_rep ps l s :
  NList.rep l s -> Sorted key_le s ->
  exists l' s', fill l ps = Ok l' /\ NList.rep l' s' /\ Sorted key_le s' /\ s' ≡ₚ s ++ ps /\
    forall k, with_key k s' = with_key k s ++ with_key k ps.
Proof.
  revert l s. induction ps as [|[k x] ps IH]; intros l s Hr Hs; cbn [fill].
  - exists l, s. rewrite app_nil_r. split_and!; try done. intros. by rewrite app_nil_r.
  - destruct (NList.SortedInsert_rep l s x k Hr) as (l1 & -> & Hr1). cbn [bindr].
    destruct (IH l1 _ Hr1 (insert_sorted_sorted k x s Hs)) as (l' & s' & E & Hr' & Hs' & Hp & Hk).
    exists l', s'. split_and!; try done.
    { rewrite Hp, insert_sorted_perm. apply Permutation_middle. }
    intros k0. rewrite Hk, with_key_insert by done.
    rewrite <- app_assoc. f_equal. unfold with_key. by rewrite <- filter_app.
Qed.

Lemma drain_rep s l fuel :
  NList.rep l s -> (length s < fuel)%nat -> drain fuel l = Ok s.
Proof.
  revert l fuel. induction s as [|p s IH]; intros l fuel Hr Hf;
    (destruct fuel as [|fuel]; [cbn in Hf; lia|]); cbn [drain];
    destruct (NList.SortedRemove_rep l _ Hr) as (l' & -> & Hr'); cbn; [done|].
  rewrite (IH l'); [done|done|cbn in Hf; lia].
Qed.

(** A list filled by [SortedInsert] and emptied by [SortedRemove] delivers
    the elements in increasing order of key, and those of the same key in the
    order in which they were inserted. *)
Theorem SortedInsert_stable (ps : list (Z * A)) :
  exists out, (l <- fill NList.List_new ps ;; drain (S (length ps)) l) = Ok out /\
    Sorted key_le out /\ out ≡ₚ ps /\ forall k, with_key k out = with_key k ps.
Proof.
  destruct (fill_rep ps NList.List_new [] NList.List_new_rep) as (l & s & E & Hr & Hs & Hp & Hk);
    [constructor|].
  exists s. rewrite E. cbn [bindr].
  split_and!; [apply drain_rep; [done|rewrite Hp; cbn; lia]|done|done|done].
Qed.
End PriorityQueue.
