(* ===== verification/Machine.v ===== *)
(** The simulated hardware (machine/machine.h, machine.cc, translate.h,
    translate.cc): registers, main memory, address translation, and the trap
    into the kernel.  Page tables are objects of the kernel heap that the
    machine and the address spaces share by pointer, so a [use] or [dirty] bit
    set by a memory access is visible to the pager. *)
From Stdlib Require Import ZArith Lia Bool.
From stdpp Require Import base numbers list gmap fin_maps.
From coqutil Require Import Z.prove_Zeq_bitwise.
From S2P Require Import Prelude.

(** machine/disk.h and machine/machine.h. *)
Definition SectorSize : Z := 128.
Definition PageSize : Z := SectorSize.
Definition NumPhysPages : Z := 32.
Definition MemorySize : Z := NumPhysPages * PageSize.
Definition TLBSize : Z := 4.

Inductive ExceptionType :=
| NoException
| SyscallException
| PageFaultException
| ReadOnlyException
| BusErrorException
| AddressErrorException
| OverflowException
| IllegalInstrException
| NumExceptionTypes.

#[export] Instance ExceptionType_eq_dec : EqDecision ExceptionType.
Proof. solve_decision. Defined.

(** machine/interrupt.h *)
Inductive MachineStatus := IdleMode | SystemMode | UserMode.

#[export] Instance MachineStatus_eq_dec : EqDecision MachineStatus.
Proof. solve_decision. Defined.

Definition StackReg : Z := 29.
Definition RetAddrReg : Z := 31.
Definition NumGPRegs : Z := 32.
Definition HiReg : Z := 32.
Definition LoReg : Z := 33.
Definition PCReg : Z := 34.
Definition NextPCReg : Z := 35.
Definition PrevPCReg : Z := 36.
Definition LoadReg : Z := 37.
Definition LoadValueReg : Z := 38.
Definition BadVAddrReg : Z := 39.
Definition NumTotalRegs : Z := 40.

(** machine/translate.h *)
Record TranslationEntry := mkTE {
  virtualPage : Z;
  physicalPage : Z;
  valid : bool;
  readOnly : bool;
  use : bool;
  dirty : bool
}.

#[export] Instance TranslationEntry_eq_dec : EqDecision TranslationEntry.
Proof. solve_decision. Defined.

Definition set_use (b : bool) (e : TranslationEntry) : TranslationEntry :=
  mkTE (virtualPage e) (physicalPage e) (valid e) (readOnly e) b (dirty e).
Definition set_dirty (b : bool) (e : TranslationEntry) : TranslationEntry :=
  mkTE (virtualPage e) (physicalPage e) (valid e) (readOnly e) (use e) b.
Definition set_valid (b : bool) (e : TranslationEntry) : TranslationEntry :=
  mkTE (virtualPage e) (physicalPage e) b (readOnly e) (use e) (dirty e).
Definition set_physicalPage (p : Z) (e : TranslationEntry) : TranslationEntry :=
  mkTE (virtualPage e) p (valid e) (readOnly e) (use e) (dirty e).

(** [class Machine].  [tables] is the part of the kernel heap that holds the
    arrays of [TranslationEntry]; [pageTable] points into it.  A byte of
    [mainMemory] is its value as an unsigned char. *)
Record Machine := mkMachine {
  mainMemory : list Z;
  registers : list Z;
  tlb : option (list TranslationEntry);
  pageTable : option positive;
  pageTableSize : Z;
  tables : gmap positive (list TranslationEntry)
}.

Definition set_mainMemory (m : Machine) (mem : list Z) : Machine :=
  mkMachine mem (registers m) (tlb m) (pageTable m) (pageTableSize m) (tables m).
Definition set_registers (m : Machine) (r : list Z) : Machine :=
  mkMachine (mainMemory m) r (tlb m) (pageTable m) (pageTableSize m) (tables m).
Definition set_tlb (m : Machine) (t : list TranslationEntry) : Machine :=
  mkMachine (mainMemory m) (registers m) (Some t) (pageTable m) (pageTableSize m) (tables m).
Definition set_tables (m : Machine) (t : gmap positive (list TranslationEntry)) : Machine :=
  mkMachine (mainMemory m) (registers m) (tlb m) (pageTable m) (pageTableSize m) t.
Definition set_pageTable (m : Machine) (p : option positive) (n : Z) : Machine :=
  mkMachine (mainMemory m) (registers m) (tlb m) p n (tables m).

(** [Machine::Machine]; [use_tlb] is the build option USE_TLB, [fresh] what the
    allocator leaves in the TLB entries before their valid bits are cleared. *)
Definition Machine_new (use_tlb : bool) (fresh : nat -> TranslationEntry) : Machine :=
  mkMachine (replicate (Z.to_nat MemorySize) 0) (replicate (Z.to_nat NumTotalRegs) 0)
    (if use_tlb then Some ((fun i => set_valid false (fresh i)) <$> seq 0 (Z.to_nat TLBSize))
     else None)
    None 0 ∅.

(** Register accesses whose index is a constant of machine.h or a 5-bit field of
    an instruction, both below [NumTotalRegs], the size of the array. *)
Definition reg (m : Machine) (i : Z) : Z := registers m !!! Z.to_nat i.
Definition set_reg (i v : Z) (m : Machine) : Machine :=
  set_registers m (<[Z.to_nat i := v]> (registers m)).

Definition ReadRegister (m : Machine) (num : Z) : res Z :=
  _ <- ASSERT ((0 <=? num) && (num <? NumTotalRegs)) ;; Ok (reg m num).

Definition WriteRegister (m : Machine) (num value : Z) : res Machine :=
  _ <- ASSERT ((0 <=? num) && (num <? NumTotalRegs)) ;; Ok (set_reg num value m).

(** [Machine::DelayedLoad] (machine/mipssim.cc): the register loaded is whatever
    number LoadReg holds, so it may be out of the array. *)
Definition DelayedLoad (m : Machine) (nextReg nextValue : Z) : res Machine :=
  r <- aset (registers m) (reg m LoadReg) (reg m LoadValueReg) ;;
  Ok (set_reg 0 0 (set_reg LoadValueReg nextValue (set_reg LoadReg nextReg
        (set_registers m r)))).

(** ** Byte order *)

(** The configuration macro HOST_IS_BIG_ENDIAN of the build. *)
Class Host := HOST_IS_BIG_ENDIAN : bool.
Definition i386 : Host := false.

Section Translation.
Context {host : Host}.

Definition WordToHost (word : Z) : Z :=
  if HOST_IS_BIG_ENDIAN then
    Z.lor (Z.lor (Z.lor (Z.land (Z.shiftr word 24) 0xff)
                        (Z.land (Z.shiftr word 8) 0xff00))
                 (Z.land (u32 (Z.shiftl word 8)) 0xff0000))
          (Z.land (u32 (Z.shiftl word 24)) 0xff000000)
  else word.

Definition ShortToHost (shortword : Z) : Z :=
  if HOST_IS_BIG_ENDIAN then
    Z.lor (Z.land (u16 (Z.shiftl shortword 8)) 0xff00)
          (Z.land (Z.shiftr shortword 8) 0xff)
  else shortword.

Definition WordToMachine (word : Z) : Z := WordToHost word.
Definition ShortToMachine (shortword : Z) : Z := ShortToHost shortword.

(** An [unsigned] object of [n] bytes, as the host stores it. *)
Fixpoint le_bytes (n : nat) (w : Z) : list Z :=
  match n with O => [] | S n => w mod 256 :: le_bytes n (w / 256) end.
Fixpoint le_value (bs : list Z) : Z :=
  match bs with [] => 0 | b :: bs => b + 256 * le_value bs end.

Definition host_bytes (n : nat) (w : Z) : list Z :=
  if HOST_IS_BIG_ENDIAN then reverse (le_bytes n w) else le_bytes n w.
Definition host_value (bs : list Z) : Z :=
  if HOST_IS_BIG_ENDIAN then le_value (reverse bs) else le_value bs.

(** The object representation at [&mainMemory[a]]. *)
Definition load_bytes (mem : list Z) (a : Z) (n : nat) : res (list Z) :=
  if (0 <=? a) && (a + Z.of_nat n <=? zlen mem)
  then Ok (take n (drop (Z.to_nat a) mem)) else Err WildAccess.
Definition store_bytes (mem : list Z) (a : Z) (bs : list Z) : res (list Z) :=
  if (0 <=? a) && (a + zlen bs <=? zlen mem)
  then Ok (take (Z.to_nat a) mem ++ bs ++ drop (Z.to_nat a + length bs) mem)
  else Err WildAccess.

(** [CheckEndian]: the bytes 1, 2, 3, 4 read as an [unsigned int]. *)
Definition CheckEndian : res unit :=
  ASSERT (host_value [1; 2; 3; 4] =? (if HOST_IS_BIG_ENDIAN then 0x01020304 else 0x04030201)).

(** ** Address translation *)

(** The entry the translation uses and how to put it back: the page table
    entry, or the first valid TLB entry for the page. *)
Inductive entry_ref :=
| InPageTable (table : positive) (vpn : Z)
| InTLB (i : nat).

Definition table_entry (m : Machine) (vpn : Z) : res (TranslationEntry * entry_ref) :=
  match pageTable m with
  | None => Err WildAccess
  | Some p =>
      match tables m !! p with
      | None => Err WildAccess
      | Some t => e <- aget t vpn ;; Ok (e, InPageTable p vpn)
      end
  end.

Definition find_tlb (t : list TranslationEntry) (vpn : Z) : option (nat * TranslationEntry) :=
  list_find (fun e => valid e = true /\ u32 (virtualPage e) = vpn) t.

Definition store_entry (m : Machine) (r : entry_ref) (e : TranslationEntry) : Machine :=
  match r with
  | InPageTable p vpn => set_tables m (alter (fun t => <[Z.to_nat vpn := e]> t) p (tables m))
  | InTLB i => match tlb m with Some t => set_tlb m (<[i := e]> t) | None => m end
  end.

(** The lookup of [Machine::Translate]: an exception or an entry. *)
Definition lookup_entry (m : Machine) (vpn : Z)
  : res (ExceptionType + (TranslationEntry * entry_ref)) :=
  match tlb m with
  | None =>
      if vpn >=? pageTableSize m then Ok (inl AddressErrorException)
      else
        '(e, r) <- table_entry m vpn ;;
        if negb (valid e) then Ok (inl PageFaultException) else Ok (inr (e, r))
  | Some t =>
      match find_tlb t vpn with
      | None => Ok (inl PageFaultException)
      | Some (i, e) => Ok (inr (e, InTLB i))
      end
  end.

Definition is_some {A} (o : option A) : bool := match o with Some _ => true | None => false end.

(** The exception, or the physical address when the code is NoException. *)
Definition Translate (m : Machine) (virtAddr size : Z) (writing : bool)
  : res (Machine * (ExceptionType + Z)) :=
  if ((size =? 4) && negb (Z.land virtAddr 0x3 =? 0))
     || ((size =? 2) && negb (Z.land virtAddr 0x1 =? 0))
  then Ok (m, inl AddressErrorException)
  else
    _ <- ASSERT (negb (is_some (tlb m)) || negb (is_some (pageTable m))) ;;
    _ <- ASSERT (is_some (tlb m) || is_some (pageTable m)) ;;
    let vpn := u32 virtAddr / PageSize in
    let offset := u32 virtAddr mod PageSize in
    l <- lookup_entry m vpn ;;
    match l with
    | inl exception => Ok (m, inl exception)
    | inr (entry, r) =>
        if readOnly entry && writing then Ok (m, inl ReadOnlyException)
        else
          let pageFrame := u32 (physicalPage entry) in
          if pageFrame >=? NumPhysPages then Ok (m, inl BusErrorException)
          else
            let entry := set_use true entry in
            let entry := if writing then set_dirty true entry else entry in
            let physAddr := s32 (u32 (pageFrame * PageSize + offset)) in
            _ <- ASSERT ((physAddr >=? 0) && (physAddr + size <=? MemorySize)) ;;
            Ok (store_entry m r entry, inr physAddr)
    end.

(** ** Memory accesses

    The machine traps into the kernel; [Kernel] is what it needs from it:
    the exception handler of the user-program component and the clock tick of the
    interrupt component. *)

Definition read_data (m : Machine) (physicalAddress size : Z) : res Z :=
  if size =? 1 then
    b <- aget (mainMemory m) physicalAddress ;; Ok (s8 b)
  else if size =? 2 then
    bs <- load_bytes (mainMemory m) physicalAddress 2 ;; Ok (ShortToHost (host_value bs))
  else if size =? 4 then
    bs <- load_bytes (mainMemory m) physicalAddress 4 ;; Ok (s32 (WordToHost (host_value bs)))
  else Err AssertionFailed.

Definition write_data (m : Machine) (physicalAddress size value : Z) : res Machine :=
  if size =? 1 then
    mem <- aset (mainMemory m) physicalAddress (u8 (Z.land value 0xff)) ;;
    Ok (set_mainMemory m mem)
  else if size =? 2 then
    mem <- store_bytes (mainMemory m) physicalAddress
             (host_bytes 2 (ShortToMachine (u16 (Z.land value 0xffff)))) ;;
    Ok (set_mainMemory m mem)
  else if size =? 4 then
    mem <- store_bytes (mainMemory m) physicalAddress
             (host_bytes 4 (WordToMachine (u32 value))) ;;
    Ok (set_mainMemory m mem)
  else Err AssertionFailed.
End Translation.

Class Kernel (K : Type) := {
  machine : K -> Machine;
  set_machine : Machine -> K -> K;
  getStatus : K -> MachineStatus;
  setStatus : MachineStatus -> K -> K;
  ExceptionHandler : ExceptionType -> K -> res K;
  OneTick : K -> res K
}.

Class KernelLaws (K : Type) `{!Kernel K} := {
  machine_set_machine : forall m k, machine (set_machine m k) = m;
  set_machine_set_machine : forall m m' k, set_machine m (set_machine m' k) = set_machine m k;
  machine_setStatus : forall s k, machine (setStatus s k) = machine k;
  getStatus_setStatus : forall s k, getStatus (setStatus s k) = s;
  getStatus_set_machine : forall m k, getStatus (set_machine m k) = getStatus k
}.

Section Accesses.
Context {host : Host} {K : Type} `{!Kernel K}.

Definition RaiseException (which : ExceptionType) (badVAddr : Z) (k : K) : res K :=
  m <- DelayedLoad (set_reg BadVAddrReg badVAddr (machine k)) 0 0 ;;
  let k := setStatus SystemMode (set_machine m k) in
  k <- ExceptionHandler which k ;;
  Ok (setStatus UserMode k).

(** [None] is the FALSE of the code. *)
Definition ReadMem (addr size : Z) (k : K) : res (K * option Z) :=
  '(m, t) <- Translate (machine k) addr size false ;;
  let k := set_machine m k in
  match t with
  | inl exception => k <- RaiseException exception addr k ;; Ok (k, None)
  | inr physicalAddress =>
      value <- read_data (machine k) physicalAddress size ;; Ok (k, Some value)
  end.

Definition WriteMem (addr size value : Z) (k : K) : res (K * bool) :=
  '(m, t) <- Translate (machine k) addr size true ;;
  let k := set_machine m k in
  match t with
  | inl exception => k <- RaiseException exception addr k ;; Ok (k, false)
  | inr physicalAddress =>
      m <- write_data (machine k) physicalAddress size value ;; Ok (set_machine m k, true)
  end.
End Accesses.

(** ** Byte order *)

Section ByteOrder.
Context {host : Host}.

Lemma length_le_bytes n w : length (le_bytes n w) = n.
Proof. revert w. induction n as [|n IH]; intros w; cbn; [done|]. by rewrite IH. Qed.

Lemma length_host_bytes n w : length (host_bytes n w) = n.
Proof.
  unfold host_bytes. destruct HOST_IS_BIG_ENDIAN; rewrite ?length_reverse; apply length_le_bytes.
Qed.

Lemma le_value_bytes n w : le_value (le_bytes n w) = w mod 256 ^ Z.of_nat n.
Proof.
  revert w. induction n as [|n IH]; intros w; cbn [le_bytes le_value].
  - by rewrite Z.mod_1_r.
  - rewrite IH, Nat2Z.inj_succ, Z.pow_succ_r by lia.
    rewrite Z.rem_mul_r; [done|lia|]. pose proof (Z.pow_pos_nonneg 256 (Z.of_nat n)). lia.
Qed.

Lemma host_value_bytes n w : host_value (host_bytes n w) = w mod 256 ^ Z.of_nat n.
Proof.
  unfold host_value, host_bytes. destruct HOST_IS_BIG_ENDIAN; rewrite ?reverse_involutive;
    apply le_value_bytes.
Qed.

Lemma le_bytes_mod n w : le_bytes n (w mod 256 ^ Z.of_nat n) = le_bytes n w.
Proof.
  revert w. induction n as [|n IH]; intros w; [done|]. cbn [le_bytes].
  rewrite Nat2Z.inj_succ, Z.pow_succ_r, Z.rem_mul_r by
    (try lia; pose proof (Z.pow_pos_nonneg 256 (Z.of_nat n)); lia).
  rewrite (Z.mul_comm 256), Z.mod_add, Z.div_add, Z.mod_mod by lia.
  rewrite (Z.div_small (w mod 256)) by (apply Z.mod_pos_bound; lia).
  by rewrite Z.add_0_l, IH.
Qed.

Lemma land_255 z : Z.land z 255 = z mod 256.
Proof. exact (Z.land_ones z 8 ltac:(lia)). Qed.

Lemma le_bytes_4 w :
  le_bytes 4 w = [Z.land w 255; Z.land (Z.shiftr w 8) 255;
                  Z.land (Z.shiftr w 16) 255; Z.land (Z.shiftr w 24) 255].
Proof.
  cbn [le_bytes]. by rewrite !land_255, !Z.shiftr_div_pow2, !Z.div_div by lia.
Qed.

Lemma le_bytes_2 w : le_bytes 2 w = [Z.land w 255; Z.land (Z.shiftr w 8) 255].
Proof. cbn [le_bytes]. by rewrite !land_255, !Z.shiftr_div_pow2 by lia. Qed.

(** The masks of machine/machine.cc as shifted blocks of ones. *)
Ltac masks :=
  change 0xff00 with (Z.shiftl (Z.ones 8) 8); change 0xff0000 with (Z.shiftl (Z.ones 8) 16);
  change 0xff000000 with (Z.shiftl (Z.ones 8) 24); change 255 with (Z.ones 8);
  unfold u32, u16; rewrite <- ?Z.land_ones by lia.

Lemma WordToHost_bytes w :
  HOST_IS_BIG_ENDIAN = true -> le_bytes 4 (WordToHost w) = reverse (le_bytes 4 w).
Proof.
  intros Hbe. rewrite !le_bytes_4. unfold WordToHost, reverse. rewrite Hbe. cbn [rev_append].
  masks. repeat apply (f_equal2 cons); try done; prove_Zeq_bitwise.
Qed.

Lemma ShortToHost_bytes w :
  HOST_IS_BIG_ENDIAN = true -> le_bytes 2 (ShortToHost w) = reverse (le_bytes 2 w).
Proof.
  intros Hbe. rewrite !le_bytes_2. unfold ShortToHost, reverse. rewrite Hbe. cbn [rev_append].
  masks. repeat apply (f_equal2 cons); try done; prove_Zeq_bitwise.
Qed.

(** Whatever the host, an [unsigned] put into simulated byte order lies in
    memory least significant byte first. *)
Lemma host_bytes_word w : host_bytes 4 (WordToMachine w) = le_bytes 4 w.
Proof.
  unfold host_bytes, WordToMachine. destruct HOST_IS_BIG_ENDIAN eqn:E.
  - by rewrite WordToHost_bytes, reverse_involutive.
  - unfold WordToHost. by rewrite E.
Qed.

Lemma host_bytes_short w : host_bytes 2 (ShortToMachine w) = le_bytes 2 w.
Proof.
  unfold host_bytes, ShortToMachine. destruct HOST_IS_BIG_ENDIAN eqn:E.
  - by rewrite ShortToHost_bytes, reverse_involutive.
  - unfold ShortToHost. by rewrite E.
Qed.

Lemma le_bytes_le_value bs :
  Forall (fun b => 0 <= b < 256) bs -> le_bytes (length bs) (le_value bs) = bs.
Proof.
  induction 1 as [|b bs Hb _ IH]; cbn [length le_bytes le_value]; [done|].
  rewrite (Z.mul_comm 256), Z.mod_add, Z.div_add by lia.
  by rewrite Z.mod_small, Z.div_small, Z.add_0_l, IH by lia.
Qed.

Lemma le_bytes_range n w : Forall (fun b => 0 <= b < 256) (le_bytes n w).
Proof.
  revert w. induction n as [|n IH]; intros w; cbn [le_bytes]; constructor; [|done].
  apply Z.mod_pos_bound. lia.
Qed.

Lemma le_value_range bs :
  Forall (fun b => 0 <= b < 256) bs -> 0 <= le_value bs < 256 ^ zlen bs.
Proof.
  induction 1 as [|b bs Hb _ IH]; cbn [length le_value]; [lia|].
  rewrite Nat2Z.inj_succ, Z.pow_succ_r by lia. lia.
Qed.

Lemma WordToHost_u32 w : is_u32 w -> is_u32 (WordToHost w).
Proof.
  intros. unfold WordToHost. destruct HOST_IS_BIG_ENDIAN; [|done].
  repeat apply is_u32_lor; apply (land_range 32); lia.
Qed.

Lemma ShortToHost_u16 w : 0 <= w < 2 ^ 16 -> 0 <= ShortToHost w < 2 ^ 16.
Proof.
  intros. unfold ShortToHost. destruct HOST_IS_BIG_ENDIAN; [|done].
  apply lor_range; [lia| |]; apply (land_range 16); lia.
Qed.

(** Reading an object back turns it into host order. *)
Lemma word_of_bytes bs :
  length bs = 4%nat -> Forall (fun b => 0 <= b < 256) bs ->
  WordToHost (host_value bs) = le_value bs.
Proof.
  intros Hlen Hbs. unfold host_value. destruct HOST_IS_BIG_ENDIAN eqn:E.
  - assert (Forall (fun b => 0 <= b < 256) (reverse bs)) as Hr by by apply Forall_reverse.
    pose proof (le_value_range _ Hr) as Hv. rewrite length_reverse, Hlen in Hv.
    rewrite <- (reverse_involutive bs) at 2. rewrite <- (le_bytes_le_value (reverse bs)) at 2 by done.
    rewrite length_reverse, Hlen, <- WordToHost_bytes, le_value_bytes by done.
    symmetry. apply (u32_small (WordToHost _)). by apply WordToHost_u32.
  - unfold WordToHost. by rewrite E.
Qed.

Lemma short_of_bytes bs :
  length bs = 2%nat -> Forall (fun b => 0 <= b < 256) bs ->
  ShortToHost (host_value bs) = le_value bs.
Proof.
  intros Hlen Hbs. unfold host_value. destruct HOST_IS_BIG_ENDIAN eqn:E.
  - assert (Forall (fun b => 0 <= b < 256) (reverse bs)) as Hr by by apply Forall_reverse.
    pose proof (le_value_range _ Hr) as Hv. rewrite length_reverse, Hlen in Hv.
    rewrite <- (reverse_involutive bs) at 2. rewrite <- (le_bytes_le_value (reverse bs)) at 2 by done.
    rewrite length_reverse, Hlen, <- ShortToHost_bytes, le_value_bytes by done.
    symmetry. apply Z.mod_small. by apply ShortToHost_u16.
  - unfold ShortToHost. by rewrite E.
Qed.

(** [CheckEndian] accepts exactly the hosts whose order the macro states. *)
Lemma CheckEndian_Ok : CheckEndian = Ok tt.
Proof. unfold CheckEndian, host_value. by destruct HOST_IS_BIG_ENDIAN. Qed.

(** The value a load of [size] bytes gives for the bytes it finds, and the
    bytes a store of [size] bytes leaves. *)
Definition extend (size v : Z) : Z :=
  if size =? 1 then s8 v else if size =? 2 then u16 v else s32 v.

Definition access_size (size : Z) : Prop := size = 1 \/ size = 2 \/ size = 4.

Definition is_byte (b : Z) : Prop := 0 <= b < 256.

(** [mem] with the bytes [bs] at [a]. *)
Definition patch (mem : list Z) (a : Z) (bs : list Z) : list Z :=
  take (Z.to_nat a) mem ++ bs ++ drop (Z.to_nat a + length bs) mem.

Lemma store_bytes_in mem a bs :
  0 <= a -> a + zlen bs <= zlen mem -> store_bytes mem a bs = Ok (patch mem a bs).
Proof.
  intros. unfold store_bytes.
  by rewrite (proj2 (andb_true_iff _ _)) by (split; apply Z.leb_le; lia).
Qed.

Lemma load_bytes_in mem a n :
  0 <= a -> a + Z.of_nat n <= zlen mem ->
  load_bytes mem a n = Ok (take n (drop (Z.to_nat a) mem)).
Proof.
  intros. unfold load_bytes.
  by rewrite (proj2 (andb_true_iff _ _)) by (split; apply Z.leb_le; lia).
Qed.

Lemma aset_patch mem a b : 0 <= a < zlen mem -> aset mem a b = Ok (patch mem a [b]).
Proof.
  intros. rewrite aset_in, insert_take_drop by lia. unfold patch. cbn [length].
  by rewrite Nat.add_1_r.
Qed.

Lemma write_data_le m a size v :
  access_size size -> 0 <= a -> a + size <= zlen (mainMemory m) ->
  write_data m a size v =
  Ok (set_mainMemory m (patch (mainMemory m) a (le_bytes (Z.to_nat size) v))).
Proof.
  intros [->|[->| ->]] Ha Hlen; unfold write_data; cbn [Z.eqb Pos.eqb Z.to_nat].
  - rewrite aset_patch by lia. cbn [bindr]. rewrite land_255. unfold u8.
    by rewrite Z.mod_mod by done.
  - rewrite host_bytes_short, store_bytes_in by (rewrite ?length_le_bytes; lia). cbn [bindr].
    change (Z.land v 65535) with (Z.land v (Z.ones 16)). rewrite Z.land_ones by lia.
    unfold u16. rewrite Z.mod_mod by done. change (2 ^ 16) with (256 ^ Z.of_nat 2).
    by rewrite le_bytes_mod.
  - rewrite host_bytes_word, store_bytes_in by (rewrite ?length_le_bytes; lia). cbn [bindr].
    change (u32 v) with (v mod 256 ^ Z.of_nat 4). by rewrite le_bytes_mod.
Qed.

Lemma bytes_at mem a n :
  Forall is_byte mem -> 0 <= a -> a + Z.of_nat n <= zlen mem ->
  Forall is_byte (take n (drop (Z.to_nat a) mem)) /\ length (take n (drop (Z.to_nat a) mem)) = n.
Proof.
  intros. split; [by apply Forall_take, Forall_drop|]. rewrite length_take, length_drop. lia.
Qed.

Lemma read_data_le m a size :
  access_size size -> Forall is_byte (mainMemory m) ->
  0 <= a -> a + size <= zlen (mainMemory m) ->
  read_data m a size =
  Ok (extend size (le_value (take (Z.to_nat size) (drop (Z.to_nat a) (mainMemory m))))).
Proof.
  intros [->|[->| ->]] Hb Ha Hlen; unfold read_data, extend; cbn [Z.eqb Pos.eqb].
  - destruct (aget_in (mainMemory m) a) as (b & -> & Hl); [lia|]. cbn [bindr].
    rewrite (drop_S _ _ _ Hl). change (Z.to_nat 1) with 1%nat. cbn [take le_value].
    by rewrite firstn_O, Z.mul_0_r, Z.add_0_r.
  - destruct (bytes_at (mainMemory m) a 2) as [Hf Hl]; [done..|].
    rewrite load_bytes_in by lia. cbn [bindr]. rewrite short_of_bytes by done. f_equal.
    symmetry. apply Z.mod_small. pose proof (le_value_range _ Hf) as Hr. by rewrite Hl in Hr.
  - destruct (bytes_at (mainMemory m) a 4) as [Hf Hl]; [done..|].
    rewrite load_bytes_in by lia. cbn [bindr]. by rewrite word_of_bytes.
Qed.

End ByteOrder.

(** ** Well-formed machines and what the translation promises *)

(** The arrays have their declared sizes, and exactly one of the two lookup
    mechanisms is in place; the page table is an array of the kernel heap of at
    least [pageTableSize] entries. *)
Record wf (m : Machine) : Prop := {
  wf_memory : zlen (mainMemory m) = MemorySize;
  wf_bytes : Forall is_byte (mainMemory m);
  wf_registers : zlen (registers m) = NumTotalRegs;
  wf_lookup :
    (exists t, tlb m = Some t /\ pageTable m = None) \/
    (tlb m = None /\ exists p t, pageTable m = Some p /\ tables m !! p = Some t /\
       0 <= pageTableSize m <= zlen t)
}.

(** The valid entry that maps virtual page [vpn], abstracting from the two
    lookup mechanisms. *)
Definition page_map (m : Machine) (vpn : Z) : option TranslationEntry :=
  match tlb m with
  | Some t => snd <$> find_tlb t vpn
  | None =>
      if vpn <? pageTableSize m then
        p ← pageTable m; t ← tables m !! p; e ← t !! Z.to_nat vpn;
        if valid e then Some e else None
      else None
  end.

(** The entry after an access. *)
Definition touch (writing : bool) (e : TranslationEntry) : TranslationEntry :=
  let e := set_use true e in if writing then set_dirty true e else e.

Definition aligned (va size : Z) : Prop := va mod size = 0.
#[export] Instance aligned_dec va size : Decision (aligned va size).
Proof. unfold aligned. apply _. Defined.

Lemma misaligned_spec va size :
  access_size size ->
  ((size =? 4) && negb (Z.land va 0x3 =? 0)) || ((size =? 2) && negb (Z.land va 0x1 =? 0)) = true
  <-> ~ aligned va size.
Proof.
  assert (Z.land va 3 = va mod 4) as -> by exact (Z.land_ones va 2 ltac:(lia)).
  assert (Z.land va 1 = va mod 2) as -> by exact (Z.land_ones va 1 ltac:(lia)).
  unfold aligned. intros [->|[->| ->]]; cbn [Z.eqb Pos.eqb andb orb];
    rewrite ?orb_false_r, ?negb_true_iff, ?Z.eqb_neq; try done.
  rewrite Z.mod_1_r. done.
Qed.

(** An aligned access stays inside its page. *)
Lemma aligned_fits va size :
  access_size size -> aligned va size -> u32 va mod PageSize + size <= PageSize.
Proof.
  unfold aligned, PageSize, SectorSize. intros [->|[->| ->]] Hal; word_lia.
Qed.

Lemma list_find_insert {A} (P : A -> Prop) `{!forall x, Decision (P x)} (l : list A) i x y :
  l !! i = Some x -> (P y <-> P x) ->
  fst <$> list_find P (<[i := y]> l) = fst <$> list_find P l.
Proof.
  revert i. induction l as [|z l IH]; intros i Hi Hxy; [done|].
  destruct i as [|i]; cbn in *.
  - simplify_eq. repeat case_decide; naive_solver.
  - case_decide; [done|]. specialize (IH i Hi Hxy).
    destruct (list_find P (<[i:=y]> l)) as [[]|], (list_find P l) as [[]|]; naive_solver.
Qed.

Lemma find_tlb_Some t vpn i e :
  find_tlb t vpn = Some (i, e) -> t !! i = Some e /\ valid e = true /\ u32 (virtualPage e) = vpn.
Proof. unfold find_tlb. intros (? & ? & _)%list_find_Some. naive_solver. Qed.

Lemma find_tlb_touch t vpn i e b vpn' :
  find_tlb t vpn = Some (i, e) ->
  snd <$> find_tlb (<[i := touch b e]> t) vpn' =
  if decide (vpn' = vpn) then Some (touch b e) else snd <$> find_tlb t vpn'.
Proof.
  intros Hf. destruct (find_tlb_Some _ _ _ _ Hf) as (Hi & Hv & Hp).
  assert (fst <$> find_tlb (<[i := touch b e]> t) vpn' = fst <$> find_tlb t vpn') as Hfst.
  { apply list_find_insert with e; [done|]. by destruct b. }
  destruct (decide (vpn' = vpn)) as [->|Hne].
  - rewrite Hf in Hfst. cbn in Hfst.
    destruct (find_tlb (<[i := touch b e]> t) vpn) as [[j e']|] eqn:E; [|done].
    cbn in *. simplify_eq. apply find_tlb_Some in E as [E _].
    rewrite list_lookup_insert_eq in E by (by eapply lookup_lt_Some). cbn. congruence.
  - destruct (find_tlb (<[i := touch b e]> t) vpn') as [[j e']|] eqn:E,
             (find_tlb t vpn') as [[j0 e0]|] eqn:E0; cbn in *; simplify_eq; [|done].
    apply find_tlb_Some in E as [E _], E0 as (E0 & _ & Hp0). f_equal.
    rewrite list_lookup_insert_ne in E; [congruence|]. intros ->. congruence.
Qed.

Section TranslateFacts.
Context {host : Host}.

(** What one call of [Translate] may do. *)
Inductive translates (m : Machine) (va size : Z) (writing : bool) : Machine -> ExceptionType + Z -> Prop :=
| tr_misaligned :
    ~ aligned va size -> translates m va size writing m (inl AddressErrorException)
| tr_beyond :
    aligned va size -> tlb m = None -> pageTableSize m <= u32 va / PageSize ->
    translates m va size writing m (inl AddressErrorException)
| tr_fault :
    aligned va size -> (tlb m = None -> u32 va / PageSize < pageTableSize m) ->
    page_map m (u32 va / PageSize) = None ->
    translates m va size writing m (inl PageFaultException)
| tr_readonly e :
    aligned va size -> page_map m (u32 va / PageSize) = Some e ->
    readOnly e = true -> writing = true ->
    translates m va size writing m (inl ReadOnlyException)
| tr_bus e :
    aligned va size -> page_map m (u32 va / PageSize) = Some e ->
    readOnly e && writing = false -> NumPhysPages <= u32 (physicalPage e) ->
    translates m va size writing m (inl BusErrorException)
| tr_ok m' e :
    aligned va size -> page_map m (u32 va / PageSize) = Some e ->
    readOnly e && writing = false -> u32 (physicalPage e) < NumPhysPages ->
    (forall vpn, 0 <= vpn ->
       page_map m' vpn = if decide (vpn = u32 va / PageSize) then Some (touch writing e)
                         else page_map m vpn) ->
    mainMemory m' = mainMemory m -> registers m' = registers m ->
    pageTable m' = pageTable m -> pageTableSize m' = pageTableSize m ->
    (forall q, pageTable m <> Some q -> tables m' !! q = tables m !! q) ->
    wf m' ->
    translates m va size writing m' (inr (u32 (physicalPage e) * PageSize + u32 va mod PageSize)).
Lemma store_entry_fields m r e :
  mainMemory (store_entry m r e) = mainMemory m /\
  registers (store_entry m r e) = registers m /\
  pageTable (store_entry m r e) = pageTable m /\
  pageTableSize (store_entry m r e) = pageTableSize m.
Proof. destruct r; cbn; [done|]. by destruct (tlb m). Qed.

(** Putting the touched entry back changes that entry's view of the mapping and
    nothing else. *)
Lemma store_entry_map m vpn e r b :
  wf m -> 0 <= vpn -> lookup_entry m vpn = Ok (inr (e, r)) ->
  page_map m vpn = Some e /\
  (forall vpn', 0 <= vpn' -> page_map (store_entry m r (touch b e)) vpn' =
    if decide (vpn' = vpn) then Some (touch b e) else page_map m vpn') /\
  (forall q, pageTable m <> Some q -> tables (store_entry m r (touch b e)) !! q = tables m !! q) /\
  wf (store_entry m r (touch b e)).
Proof.
  intros [Hmem Hby Hreg [(t & Ht & Hp)|(Ht & p & t & Hp & Htab & Hsz)]] Hvpn;
    unfold lookup_entry, page_map; rewrite Ht.
  - destruct (find_tlb t vpn) as [[i e0]|] eqn:Ef; [|done]. intros [= -> <-].
    split; [done|]. split; [|split].
    + intros vpn' _. cbn. rewrite Ht. cbn. by apply find_tlb_touch.
    + intros q _. cbn. by rewrite Ht.
    + cbn. rewrite Ht. split; cbn; eauto.
  - destruct (Z.geb_spec vpn (pageTableSize m)); [done|].
    unfold table_entry. rewrite Hp, Htab. intros Hl.
    destruct (aget_in t vpn) as (e0 & He & Hl0); [lia|]. rewrite He in Hl. cbn [bindr] in Hl.
    destruct (valid e0) eqn:Hv; cbn in Hl; [|done]. simplify_eq.
    rewrite (proj2 (Z.ltb_lt _ _)) by lia. cbn. rewrite Htab. cbn. rewrite Hl0. cbn.
    rewrite Hv. split; [done|]. split; [|split].
    + intros vpn' Hvpn'. rewrite Ht, Hp. cbn. rewrite lookup_alter_eq, Htab. cbn.
      destruct (decide (vpn' = vpn)) as [->|Hne].
      * rewrite (proj2 (Z.ltb_lt _ _)), list_lookup_insert_eq by lia. cbn.
        by destruct b; cbn; rewrite Hv.
      * rewrite list_lookup_insert_ne by lia. destruct (vpn' <? pageTableSize m); [|done].
        done.
    + intros q Hq. cbn. rewrite lookup_alter_ne; [done|]. congruence.
    + split; cbn; try done. right. split; [done|]. exists p, (<[Z.to_nat vpn:=touch b e]> t).
      rewrite lookup_alter_eq, Htab, length_insert. naive_solver.
Qed.

Lemma lookup_entry_spec m vpn :
  wf m -> 0 <= vpn ->
  (tlb m = None /\ pageTableSize m <= vpn /\ lookup_entry m vpn = Ok (inl AddressErrorException)) \/
  ((tlb m = None -> vpn < pageTableSize m) /\ page_map m vpn = None /\
   lookup_entry m vpn = Ok (inl PageFaultException)) \/
  (exists e r, lookup_entry m vpn = Ok (inr (e, r))).
Proof.
  intros [_ _ _ [(t & Ht & Hp)|(Ht & p & t & Hp & Htab & Hsz)]] Hvpn;
    unfold lookup_entry, page_map; rewrite Ht.
  - destruct (find_tlb t vpn) as [[i e0]|] eqn:Ef; eauto 10.
    right. left. cbn. done.
  - destruct (Z.geb_spec vpn (pageTableSize m)); [left; split; [done|split; [lia|done]]|].
    rewrite (proj2 (Z.ltb_lt _ _)) by lia. unfold table_entry. rewrite Hp. cbn. rewrite Htab. cbn.
    destruct (aget_in t vpn) as (e0 & He & Hl0); [lia|]. rewrite He, Hl0. cbn.
    destruct (valid e0); cbn; [by eauto 10|]. right. left. done.
Qed.

Lemma translates_total m va size writing :
  wf m -> access_size size ->
  exists m' r, Translate m va size writing = Ok (m', r) /\ translates m va size writing m' r.
Proof.
  intros Hwf Hsize. unfold Translate. pose proof (misaligned_spec va size Hsize) as Hmis.
  destruct (_ || _) eqn:Hal; [exists m; eexists; split; [done|]; apply tr_misaligned; by apply Hmis|].
  assert (aligned va size) as Ha.
  { destruct (decide (aligned va size)) as [|Hn]; [done|]. by apply Hmis in Hn. }
  clear Hmis Hal.
  rewrite !ASSERT_true by (destruct (wf_lookup _ Hwf) as [(t & -> & ->)|(-> & p & t & -> & _)]; done).
  cbn [bindr]. assert (0 <= u32 va / PageSize) as Hvpn.
  { apply Z.div_pos; [apply u32_range|done]. }
  destruct (lookup_entry_spec m _ Hwf Hvpn) as [(Ht & Hge & ->)|[(Hlt & Hnone & ->)|(e & r & El)]];
    cbn [bindr]; [eexists _, _; split; [done|]; by constructor..|].
  rewrite El. cbn [bindr].
  destruct (store_entry_map m _ e r writing Hwf Hvpn El) as (Hmap & Hst & Hq & Hwf').
  destruct (store_entry_fields m r (touch writing e)) as (F1 & F2 & F3 & F4).
  destruct (readOnly e && writing) eqn:Hro.
  { apply andb_true_iff in Hro as [Hr Hw]. eexists _, _; split; [done|]. by eapply tr_readonly. }
  destruct (Z.geb_spec (u32 (physicalPage e)) NumPhysPages) as [Hfr|Hfr].
  { eexists _, _; split; [done|]. by eapply tr_bus. }
  pose proof (aligned_fits va size Hsize Ha) as Hfit.
  assert (0 <= u32 va mod PageSize) as Hoff by by apply Z.mod_pos_bound.
  assert (0 <= u32 (physicalPage e)) as Hf0 by (destruct (u32_range (physicalPage e)); lia).
  assert (1 <= size) as Hs1 by (destruct Hsize as [->|[->| ->]]; lia).
  unfold NumPhysPages, MemorySize, NumPhysPages, PageSize, SectorSize in *.
  rewrite u32_small by (unfold is_u32; lia). rewrite s32_small by (unfold is_s32; lia).
  rewrite ASSERT_true by lia.
  cbn [bindr]. eexists _, _; split; [done|].
  by apply (tr_ok _ _ _ _ (store_entry m r (touch writing e)) e).
Qed.

End TranslateFacts.

(** ** Loads and stores *)

(** The physical address behind a virtual one. *)
Definition phys (m : Machine) (va : Z) : option Z :=
  e ← page_map m (u32 va / PageSize);
  if u32 (physicalPage e) <? NumPhysPages
  then Some (u32 (physicalPage e) * PageSize + u32 va mod PageSize) else None.

(** The page of [va] may be written. *)
Definition may_write (m : Machine) (va : Z) : Prop :=
  exists e, page_map m (u32 va / PageSize) = Some e /\ readOnly e = false.

(** The bytes of an access at physical address [pa]. *)
Definition bytes_of (mem : list Z) (pa size : Z) : list Z :=
  take (Z.to_nat size) (drop (Z.to_nat pa) mem).

Lemma length_patch mem a bs :
  0 <= a -> a + zlen bs <= zlen mem -> length (patch mem a bs) = length mem.
Proof.
  intros. unfold patch. rewrite !length_app, length_take, length_drop. lia.
Qed.

Lemma patch_bytes mem a bs :
  Forall is_byte mem -> Forall is_byte bs -> Forall is_byte (patch mem a bs).
Proof.
  intros. unfold patch. repeat apply Forall_app_2; auto using Forall_take, Forall_drop.
Qed.

Lemma bytes_of_patch mem a bs :
  0 <= a -> a + zlen bs <= zlen mem -> bytes_of (patch mem a bs) a (zlen bs) = bs.
Proof.
  intros. unfold bytes_of, patch. rewrite drop_app_length' by (rewrite length_take; lia).
  rewrite Nat2Z.id. by rewrite take_app_length.
Qed.

Lemma bytes_of_patch_other mem a bs pa size :
  0 <= a -> a + zlen bs <= zlen mem -> 0 <= pa -> 0 <= size ->
  pa + size <= a \/ a + zlen bs <= pa ->
  bytes_of (patch mem a bs) pa size = bytes_of mem pa size.
Proof.
  intros Ha Hlen Hpa Hsize Hd. unfold bytes_of. apply list_eq. intros i.
  destruct (decide (i < Z.to_nat size)%nat) as [Hi|Hi];
    [|by rewrite !lookup_take_ge by lia].
  rewrite !lookup_take_lt, !lookup_drop by done. unfold patch.
  destruct Hd.
  - rewrite lookup_app_l by (rewrite length_take; lia). by rewrite lookup_take_lt by lia.
  - rewrite lookup_app_r by (rewrite length_take; lia).
    rewrite lookup_app_r by (rewrite length_take; lia).
    rewrite lookup_drop, length_take. f_equal. lia.
Qed.

Lemma extend_le_bytes size v :
  access_size size -> extend size (le_value (le_bytes (Z.to_nat size) v)) = extend size v.
Proof.
  rewrite le_value_bytes. unfold extend.
  intros [->|[->| ->]]; cbn [Z.eqb Pos.eqb]; rewrite Z2Nat.id by lia.
  - change (256 ^ 1) with 256. word_lia.
  - change (256 ^ 2) with 65536. word_lia.
  - change (256 ^ 4) with 4294967296. word_lia.
Qed.

Section LoadStore.
Context {host : Host} {K : Type} `{!Kernel K, !KernelLaws K}.
Implicit Types (k : K) (va size v : Z).

Lemma phys_range m va pa : phys m va = Some pa -> 0 <= pa < MemorySize.
Proof.
  unfold phys. destruct (page_map _ _) as [e|]; cbn; [|done].
  destruct (Z.ltb_spec (u32 (physicalPage e)) NumPhysPages); [|done]. intros [= <-].
  pose proof (u32_range (physicalPage e)) as [? _].
  pose proof (Z.mod_pos_bound (u32 va) PageSize ltac:(done)).
  unfold NumPhysPages, MemorySize, NumPhysPages, PageSize, SectorSize in *. lia.
Qed.

Lemma phys_fits m va size pa :
  access_size size -> aligned va size -> phys m va = Some pa ->
  0 <= pa /\ pa + size <= MemorySize.
Proof.
  intros Hs Ha. pose proof (aligned_fits va size Hs Ha). intros Hp. split.
  - by apply phys_range in Hp as [? _].
  - revert Hp. unfold phys. destruct (page_map _ _) as [e|]; cbn; [|done].
    destruct (Z.ltb_spec (u32 (physicalPage e)) NumPhysPages); [|done]. intros [= <-].
    unfold NumPhysPages, MemorySize, NumPhysPages, PageSize, SectorSize in *. lia.
Qed.

(** An access to a mapped page translates, and leaves the mapping, the memory
    and the registers as they were. *)
Lemma Translate_mapped m va size w pa :
  wf m -> access_size size -> aligned va size -> phys m va = Some pa ->
  (w = true -> may_write m va) ->
  exists m', Translate m va size w = Ok (m', inr pa) /\ wf m' /\
    mainMemory m' = mainMemory m /\ registers m' = registers m /\
    (forall va', phys m' va' = phys m va') /\ (forall va', may_write m va' -> may_write m' va').
Proof.
  intros Hwf Hs Ha Hp Hw. destruct (translates_total m va size w Hwf Hs) as (m' & r & Ht & Hr).
  exists m'. rewrite Ht. revert Hp. unfold phys.
  destruct (page_map m (u32 va / PageSize)) as [e|] eqn:He; cbn; [|done].
  destruct (Z.ltb_spec (u32 (physicalPage e)) NumPhysPages) as [Hfr|]; [|done]. intros [= <-].
  assert (0 <= u32 va / PageSize) as Hpos by (apply Z.div_pos; [apply u32_range|done]).
  destruct Hr as [|? Htlb Hsz| |e' ? He' Hro ->|e' ? He'|m' e' ? He' ? ? Hmap ? ? ? ? ? ?];
    try done; try congruence.
  - exfalso. unfold page_map in He. rewrite Htlb in He.
    by rewrite (proj2 (Z.ltb_ge _ _)) in He by lia.
  - destruct (Hw eq_refl) as (e1 & ? & ?). congruence.
  - assert (e' = e) as -> by congruence. lia.
  - assert (e' = e) as -> by congruence. split; [done|]. split; [done|]. split; [done|]. split; [done|].
    assert (forall va', 0 <= u32 va' / PageSize) as Hpos'
      by (intros; apply Z.div_pos; [apply u32_range|done]).
    split; intros va'.
    + rewrite Hmap by done. case_decide as Hd; [|done]. rewrite Hd, He. by destruct w.
    + intros (e1 & He1 & Hr1). unfold may_write. rewrite Hmap by done.
      case_decide as Hd; [|by eauto]. eexists; split; [done|].
      rewrite Hd, He in He1. simplify_eq. by destruct w.
Qed.

Lemma ReadMem_mapped k va size pa :
  wf (machine k) -> access_size size -> aligned va size -> phys (machine k) va = Some pa ->
  exists m', ReadMem va size k =
      Ok (set_machine m' k, Some (extend size (le_value (bytes_of (mainMemory (machine k)) pa size)))) /\
    wf m' /\ mainMemory m' = mainMemory (machine k) /\ registers m' = registers (machine k) /\
    (forall va', phys m' va' = phys (machine k) va') /\
    (forall va', may_write (machine k) va' -> may_write m' va').
Proof.
  intros Hwf Hs Ha Hp. destruct (phys_fits _ _ _ _ Hs Ha Hp) as [Hp0 Hp1].
  destruct (Translate_mapped (machine k) va size false pa) as (m' & Ht & Hwf' & Hm & Hr & Hrest);
    [done..|]. exists m'. unfold ReadMem. rewrite Ht. cbn [bindr].
  rewrite machine_set_machine, read_data_le; [|done|apply Hwf'|done|].
  - cbn [bindr]. by rewrite Hm.
  - by rewrite (wf_memory _ Hwf').
Qed.

Lemma wf_set_mainMemory m mem :
  wf m -> zlen mem = MemorySize -> Forall is_byte mem -> wf (set_mainMemory m mem).
Proof. intros [? ? ? ?] ? ?. by constructor. Qed.

Lemma WriteMem_mapped k va size v pa :
  wf (machine k) -> access_size size -> aligned va size -> phys (machine k) va = Some pa ->
  may_write (machine k) va ->
  exists m', WriteMem va size v k = Ok (set_machine m' k, true) /\
    wf m' /\
    mainMemory m' = patch (mainMemory (machine k)) pa (le_bytes (Z.to_nat size) v) /\
    registers m' = registers (machine k) /\
    (forall va', phys m' va' = phys (machine k) va') /\
    (forall va', may_write (machine k) va' -> may_write m' va').
Proof.
  intros Hwf Hs Ha Hp Hw. destruct (phys_fits _ _ _ _ Hs Ha Hp) as [Hp0 Hp1].
  destruct (Translate_mapped (machine k) va size true pa) as (m' & Ht & Hwf' & Hm & Hr & Hph & Hmw);
    [done..|]. unfold WriteMem. rewrite Ht. cbn [bindr].
  rewrite machine_set_machine, write_data_le; [|done|done|by rewrite (wf_memory _ Hwf')].
  cbn [bindr]. rewrite set_machine_set_machine, Hm.
  eexists; split; [done|]. split; [|done].
  assert (zlen (le_bytes (Z.to_nat size) v) = size) as Hl
    by (rewrite length_le_bytes; destruct Hs as [->|[->| ->]]; done).
  pose proof (wf_memory _ Hwf) as Hlen.
  apply wf_set_mainMemory; [done|rewrite length_patch; lia|].
  apply patch_bytes; [apply Hwf|apply le_bytes_range].
Qed.
End LoadStore.

(** ** A kernel that ignores every trap

    It instantiates the interface for concrete runs of the machine alone. *)
Definition bare : Type := Machine * MachineStatus.

#[export] Instance bare_kernel : Kernel bare := {
  machine := fst;
  set_machine m k := (m, snd k);
  getStatus := snd;
  setStatus s k := (fst k, s);
  ExceptionHandler _ k := Ok k;
  OneTick k := Ok k
}.

#[export] Instance bare_laws : KernelLaws bare.
Proof. by constructor. Qed.

(** Two pages at frames 3 and 5, the second read-only, and nothing else. *)
Definition demo_machine : Machine :=
  mkMachine (replicate 4096 0) (replicate 40 0) None (Some 1%positive) 3
    {[ 1%positive := [mkTE 0 3 true false false false; mkTE 1 5 true true false false;
                      mkTE 2 0 false false false false] ]}.

Lemma demo_wf : wf demo_machine.
Proof.
  constructor; [done|by apply Forall_replicate|done|]. right. split; [done|].
  eexists _, _. split_and!; done.
Qed.

Section Results.
Context {host : Host} {K : Type} `{!Kernel K, !KernelLaws K}.

(** C34: address translation is safe and does what it promises: on a
    well-formed machine and an access of 1, 2 or 4 bytes, Machine::Translate
    never fails one of its ASSERTs and never leaves an array, whatever the
    virtual address; it reports exactly the exception its conditions describe
    and then changes nothing, or it returns frame * PageSize + offset of the
    valid entry, an address whose bytes all lie in main memory, and only the
    use and dirty bits of that one entry change. *)
Theorem Translate_spec (m : Machine) (va size : Z) (writing : bool) :
  wf m -> access_size size ->
  exists m' r, Translate m va size writing = Ok (m', r) /\
    translates m va size writing m' r /\
    (forall pa, r = inr pa -> 0 <= pa /\ pa + size <= MemorySize /\ phys m va = Some pa).
Proof.
  intros Hwf Hs. destruct (translates_total m va size writing Hwf Hs) as (m' & r & Ht & Hr).
  exists m', r. split; [done|]. split; [done|]. intros pa ->.
  inversion Hr as [| | | | |m1 e Ha He Hro Hfr]; subst.
  assert (phys m va = Some (u32 (physicalPage e) * PageSize + u32 va mod PageSize)) as Hp.
  { unfold phys. rewrite He. cbn. by rewrite (proj2 (Z.ltb_lt _ _)) by lia. }
  destruct (phys_fits _ _ _ _ Hs Ha Hp). done.
Qed.

(** C29: memory behaves as memory, on either kind of host: a store of [size]
    bytes to a writable mapped page succeeds, puts the value's bytes at the
    physical address least significant first and changes no other byte; a load
    of the same size from the same address then gives the value back, sign
    extended from one byte, zero extended from two; and a load whose bytes do
    not overlap the store gives what it gave before. *)
Theorem store_load (k : K) (va size v pa : Z) :
  wf (machine k) -> access_size size -> aligned va size ->
  phys (machine k) va = Some pa -> may_write (machine k) va ->
  exists k', WriteMem va size v k = Ok (k', true) /\
    wf (machine k') /\
    bytes_of (mainMemory (machine k')) pa size = le_bytes (Z.to_nat size) v /\
    (exists k1, ReadMem va size k' = Ok (k1, Some (extend size v))) /\
    (forall va2 size2 pa2, access_size size2 -> aligned va2 size2 ->
       phys (machine k) va2 = Some pa2 -> pa2 + size2 <= pa \/ pa + size <= pa2 ->
       exists k1 k2 b, ReadMem va2 size2 k' = Ok (k1, Some b) /\
                       ReadMem va2 size2 k = Ok (k2, Some b)).
Proof.
  intros Hwf Hs Ha Hp Hw. destruct (phys_fits _ _ _ _ Hs Ha Hp) as [Hp0 Hp1].
  destruct (WriteMem_mapped k va size v pa) as (m' & -> & Hwf' & Hm & _ & Hph & _); [done..|].
  exists (set_machine m' k). rewrite machine_set_machine. split; [done|]. split; [done|].
  assert (zlen (le_bytes (Z.to_nat size) v) = size) as Hl
    by (rewrite length_le_bytes; destruct Hs as [->|[->| ->]]; done).
  pose proof (wf_memory _ Hwf) as Hlen.
  assert (bytes_of (mainMemory m') pa size = le_bytes (Z.to_nat size) v) as Hb.
  { pose proof (bytes_of_patch (mainMemory (machine k)) pa (le_bytes (Z.to_nat size) v)) as Hb.
    rewrite Hl in Hb. rewrite Hm. apply Hb; lia. }
  split; [done|]. split.
  - destruct (ReadMem_mapped (set_machine m' k) va size pa) as (m1 & -> & _);
      rewrite ?machine_set_machine, ?Hph; try done.
    rewrite Hb, extend_le_bytes by done. by eexists.
  - intros va2 size2 pa2 Hs2 Ha2 Hp2 Hd. destruct (phys_fits _ _ _ _ Hs2 Ha2 Hp2) as [Hq0 Hq1].
    destruct (ReadMem_mapped (set_machine m' k) va2 size2 pa2) as (m1 & -> & _);
      rewrite ?machine_set_machine, ?Hph; try done.
    destruct (ReadMem_mapped k va2 size2 pa2) as (m2 & -> & _); [done..|].
    rewrite Hm, bytes_of_patch_other by (rewrite ?Hl; try lia; destruct Hs2 as [->|[->| ->]]; lia).
    eauto.
Qed.
End Results.

Lemma Translate_spec_witness :
  wf demo_machine /\
  exists m' r, Translate demo_machine 132 4 false = Ok (m', r) /\
    translates demo_machine 132 4 false m' r /\
    (forall pa, r = inr pa -> 0 <= pa /\ pa + 4 <= MemorySize /\ phys demo_machine 132 = Some pa).
Proof.
  split; [exact demo_wf|]. apply (Translate_spec demo_machine 132 4 false demo_wf). right. by right.
Defined.

Lemma store_load_witness :
  exists k', WriteMem (host := i386) 8 4 (-2) (demo_machine, UserMode) = Ok (k', true) /\
    wf (machine k') /\ bytes_of (mainMemory (machine k')) 392 4 = [254; 255; 255; 255] /\
    (exists k1, ReadMem (host := i386) 8 4 k' = Ok (k1, Some (-2))).
Proof.
  destruct (store_load (host := i386) (K := bare) (demo_machine, UserMode) 8 4 (-2) 392)
    as (k' & H1 & H2 & H3 & H4 & _).
  - exact demo_wf.
  - right; right; reflexivity.
  - reflexivity.
  - reflexivity.
  - eexists. split; reflexivity.
  - exists k'. split; [exact H1|]. split; [exact H2|]. split; [exact H3|exact H4].
Defined.

(** ** What running user code may change *)

(** Two entries that map the same page in the same way. *)
Record entry_like (e e' : TranslationEntry) : Prop := {
  like_virtual : virtualPage e' = virtualPage e;
  like_physical : physicalPage e' = physicalPage e;
  like_valid : valid e' = valid e;
  like_readOnly : readOnly e' = readOnly e
}.

#[export] Instance entry_like_equiv : Equivalence entry_like.
Proof.
  split.
  - intros e. by split.
  - intros e e' []. by split.
  - intros e1 e2 e3 [] []. split; congruence.
Qed.

Lemma touch_like b e : entry_like e (touch b e).
Proof. by destruct b. Qed.

(** The machine was used, but neither the kernel's tables nor the choice of a
    table changed: registers, memory and the use and dirty bits are free. *)
Record user_change (m m' : Machine) : Prop := {
  uc_pageTable : pageTable m' = pageTable m;
  uc_size : pageTableSize m' = pageTableSize m;
  uc_tlb : option_Forall2 (Forall2 entry_like) (tlb m) (tlb m');
  uc_tables : forall p, option_Forall2 (Forall2 entry_like) (tables m !! p) (tables m' !! p);
  uc_wf : wf m -> wf m'
}.

#[export] Instance user_change_refl : Reflexive user_change.
Proof. intros m. split; try done. Qed.

#[export] Instance user_change_trans : Transitive user_change.
Proof.
  intros m1 m2 m3 [] []. split; try congruence; auto.
  - by transitivity (tlb m2).
  - intros p. by transitivity (tables m2 !! p).
Qed.

Lemma Forall2_insert_like t i e b :
  t !! i = Some e -> Forall2 entry_like t (<[i := touch b e]> t).
Proof.
  intros Hi. rewrite <- (list_insert_id t i e Hi) at 1.
  apply Forall2_insert; [done|apply touch_like].
Qed.

Lemma store_entry_change m vpn e r b :
  wf m -> 0 <= vpn -> lookup_entry m vpn = Ok (inr (e, r)) ->
  user_change m (store_entry m r (touch b e)).
Proof.
  intros Hwf Hv Hl. destruct (store_entry_map m vpn e r b Hwf Hv Hl) as (_ & _ & Hother & Hwf').
  destruct (store_entry_fields m r (touch b e)) as (F1 & F2 & F3 & F4).
  split; try done; revert Hl; unfold lookup_entry.
  - destruct (tlb m) as [t|] eqn:Ht.
    + destruct (find_tlb t vpn) as [[i e0]|] eqn:Ef; [|done]. intros [= -> <-].
      apply find_tlb_Some in Ef as (Hi & _). cbn. rewrite Ht. constructor.
      by apply Forall2_insert_like.
    + intros Hl. destruct r as [p v|i]; cbn; rewrite ?Ht; cbn; rewrite ?Ht; constructor.
  - destruct (tlb m) as [t|] eqn:Ht.
    + destruct (find_tlb t vpn) as [[i e0]|]; [|done]. intros [= -> <-] p. cbn. by rewrite Ht.
    + destruct (_ >=? _); [done|]. unfold table_entry.
      destruct (pageTable m) as [p|]; [|done]. destruct (tables m !! p) as [t|] eqn:Hp; [|done].
      destruct (aget t vpn) as [e0|] eqn:Ha; [|done]. cbn [bindr].
      destruct (negb (valid e0)); [done|]. intros [= -> <-] q. cbn.
      destruct (decide (p = q)) as [->|]; [|by rewrite lookup_alter_ne].
      rewrite lookup_alter_eq, Hp. cbn. constructor. apply aget_Ok in Ha as [_ Ha].
      by apply Forall2_insert_like.
Qed.

Section Changes.
Context {host : Host}.

Lemma Translate_change m va size w m' r :
  wf m -> Translate m va size w = Ok (m', r) ->
  user_change m m' /\ registers m' = registers m /\ mainMemory m' = mainMemory m.
Proof.
  intros Hwf. unfold Translate. destruct (_ || _); [by intros [= <- _]|].
  intros Ht. inv_bind Ht. inv_bind Ht. inv_bind Ht.
  destruct v1 as [e|[e rf]]; [by simplify_eq|].
  destruct (readOnly e && w); [by simplify_eq|]. destruct (_ >=? _); [by simplify_eq|].
  inv_bind Ht. simplify_eq.
  destruct (store_entry_fields m rf (if w then set_dirty true (set_use true e) else set_use true e))
    as (F1 & F2 & F3 & F4).
  split; [|done]. apply (store_entry_change m (u32 va / PageSize) e rf w); [done| |done].
  apply Z.div_pos; [apply u32_range|done].
Qed.

Lemma set_registers_change m r : length r = length (registers m) -> user_change m (set_registers m r).
Proof.
  intros Hl. split; try done. intros [H1 H2 H3 H4]. split; try done. cbn. by rewrite Hl.
Qed.

Lemma set_reg_change i v m : user_change m (set_reg i v m).
Proof. apply set_registers_change. apply length_insert. Qed.
End Changes.
