(* ===== verification/Mips.v ===== *)
(** The simulated MIPS R2/3000 processor (machine/mipssim.h, mipssim.cc):
    instruction decoding, the effect of every instruction, the multiplier, and
    the fetch-execute loop with its delayed loads and branch delay slots. *)
From Stdlib Require Import ZArith Lia Bool.
From stdpp Require Import base numbers list.
From coqutil Require Import Z.prove_Zeq_bitwise.
From S2P Require Import Prelude Machine.

(** The opcodes of machine/mipssim.h; [SPECIAL] and [BCOND] are the two values
    of the first table that ask for further decoding. *)
Inductive OpCode :=
| OP_ADD | OP_ADDI | OP_ADDIU | OP_ADDU | OP_AND | OP_ANDI | OP_BEQ | OP_BGEZ
| OP_BGEZAL | OP_BGTZ | OP_BLEZ | OP_BLTZ | OP_BLTZAL | OP_BNE | OP_DIV
| OP_DIVU | OP_J | OP_JAL | OP_JALR | OP_JR | OP_LB | OP_LBU | OP_LH | OP_LHU
| OP_LUI | OP_LW | OP_LWL | OP_LWR | OP_MFHI | OP_MFLO | OP_MTHI | OP_MTLO
| OP_MULT | OP_MULTU | OP_NOR | OP_OR | OP_ORI | OP_RFE | OP_SB | OP_SH | OP_SLL
| OP_SLLV | OP_SLT | OP_SLTI | OP_SLTIU | OP_SLTU | OP_SRA | OP_SRAV | OP_SRL
| OP_SRLV | OP_SUB | OP_SUBU | OP_SW | OP_SWL | OP_SWR | OP_XOR | OP_XORI
| OP_SYSCALL | OP_UNIMP | OP_RES | SPECIAL | BCOND.

#[export] Instance OpCode_eq_dec : EqDecision OpCode.
Proof. solve_decision. Defined.

Inductive Format := IFMT | JFMT | RFMT.

Definition SIGN_BIT : Z := 0x80000000.
Definition R31 : Z := 31.
Definition IndexToAddr (x : Z) : Z := s32 (Z.shiftl x 2).

Definition opTable : list (OpCode * Format) :=
  [(SPECIAL, RFMT); (BCOND, IFMT); (OP_J, JFMT); (OP_JAL, JFMT);
   (OP_BEQ, IFMT); (OP_BNE, IFMT); (OP_BLEZ, IFMT); (OP_BGTZ, IFMT);
   (OP_ADDI, IFMT); (OP_ADDIU, IFMT); (OP_SLTI, IFMT); (OP_SLTIU, IFMT);
   (OP_ANDI, IFMT); (OP_ORI, IFMT); (OP_XORI, IFMT); (OP_LUI, IFMT);
   (OP_UNIMP, IFMT); (OP_UNIMP, IFMT); (OP_UNIMP, IFMT); (OP_UNIMP, IFMT);
   (OP_RES, IFMT); (OP_RES, IFMT); (OP_RES, IFMT); (OP_RES, IFMT);
   (OP_RES, IFMT); (OP_RES, IFMT); (OP_RES, IFMT); (OP_RES, IFMT);
   (OP_RES, IFMT); (OP_RES, IFMT); (OP_RES, IFMT); (OP_RES, IFMT);
   (OP_LB, IFMT); (OP_LH, IFMT); (OP_LWL, IFMT); (OP_LW, IFMT);
   (OP_LBU, IFMT); (OP_LHU, IFMT); (OP_LWR, IFMT); (OP_RES, IFMT);
   (OP_SB, IFMT); (OP_SH, IFMT); (OP_SWL, IFMT); (OP_SW, IFMT);
   (OP_RES, IFMT); (OP_RES, IFMT); (OP_SWR, IFMT); (OP_RES, IFMT);
   (OP_UNIMP, IFMT); (OP_UNIMP, IFMT); (OP_UNIMP, IFMT); (OP_UNIMP, IFMT);
   (OP_RES, IFMT); (OP_RES, IFMT); (OP_RES, IFMT); (OP_RES, IFMT);
   (OP_UNIMP, IFMT); (OP_UNIMP, IFMT); (OP_UNIMP, IFMT); (OP_UNIMP, IFMT);
   (OP_RES, IFMT); (OP_RES, IFMT); (OP_RES, IFMT); (OP_RES, IFMT)].

Definition specialTable : list OpCode :=
  [OP_SLL; OP_RES; OP_SRL; OP_SRA; OP_SLLV; OP_RES; OP_SRLV; OP_SRAV;
   OP_JR; OP_JALR; OP_RES; OP_RES; OP_SYSCALL; OP_UNIMP; OP_RES; OP_RES;
   OP_MFHI; OP_MTHI; OP_MFLO; OP_MTLO; OP_RES; OP_RES; OP_RES; OP_RES;
   OP_MULT; OP_MULTU; OP_DIV; OP_DIVU; OP_RES; OP_RES; OP_RES; OP_RES;
   OP_ADD; OP_ADDU; OP_SUB; OP_SUBU; OP_AND; OP_OR; OP_XOR; OP_NOR;
   OP_RES; OP_RES; OP_SLT; OP_SLTU; OP_RES; OP_RES; OP_RES; OP_RES;
   OP_RES; OP_RES; OP_RES; OP_RES; OP_RES; OP_RES; OP_RES; OP_RES;
   OP_RES; OP_RES; OP_RES; OP_RES; OP_RES; OP_RES; OP_RES; OP_RES].

Record Instruction := mkInstruction {
  value : Z;
  opCode : OpCode;
  rs : Z;
  rt : Z;
  rd : Z;
  extra : Z
}.

#[export] Instance Instruction_eq_dec : EqDecision Instruction.
Proof. solve_decision. Defined.

(** [Instruction::Decode], on the instruction word [w].  Both tables have 64
    entries, so the six-bit indices are inside. *)
Definition Decode (w : Z) : Instruction :=
  let '(op, format) := List.nth (Z.to_nat (Z.land (Z.shiftr w 26) 0x3f)) opTable (OP_RES, IFMT) in
  let extra :=
    match format with
    | IFMT =>
        let extra := Z.land w 0xffff in
        if negb (Z.land extra 0x8000 =? 0) then s32 (Z.lor extra 0xffff0000) else extra
    | RFMT => Z.land (Z.shiftr w 6) 0x1f
    | JFMT => Z.land w 0x3ffffff
    end in
  let op :=
    match op with
    | SPECIAL => List.nth (Z.to_nat (Z.land w 0x3f)) specialTable OP_RES
    | BCOND =>
        let i := Z.land w 0x1f0000 in
        if i =? 0 then OP_BLTZ
        else if i =? 0x10000 then OP_BGEZ
        else if i =? 0x100000 then OP_BLTZAL
        else if i =? 0x110000 then OP_BGEZAL
        else OP_UNIMP
    | op => op
    end in
  mkInstruction w op (Z.land (Z.shiftr w 21) 0x1f) (Z.land (Z.shiftr w 16) 0x1f)
    (Z.land (Z.shiftr w 11) 0x1f) extra.

(** The debugging view of an instruction. *)
Inductive RegType := NONE | RS | RT | RD | EXTRA.

Definition TypeToReg (reg : RegType) (instr : Instruction) : Z :=
  match reg with
  | RS => rs instr
  | RT => rt instr
  | RD => rd instr
  | EXTRA => extra instr
  | NONE => -1
  end.

(** ** Multiplication *)

(** The state of the shift-and-add loop: [a] shrinks as a signed [int], the
    rest are [unsigned int]. *)
Record mult_state := mkMult { ma : Z; mbLo : Z; mbHi : Z; mlo : Z; mhi : Z }.

Definition Mult_step (i : Z) (s : mult_state) : res (mult_state + mult_state) :=
  let '(mkMult a bLo bHi lo hi) := s in
  let odd := negb (Z.land a 1 =? 0) in
  let lo' := if odd then u32 (lo + bLo) else lo in
  let hi' := if odd then
               let hi := if lo' <? bLo then u32 (hi + 1) else hi in u32 (hi + bHi)
             else hi in
  if odd && (Z.land (u32 a) 0xfffffffe =? 0) then Ok (inr (mkMult a bLo bHi lo' hi'))
  else
    let bHi' := u32 (Z.shiftl bHi 1) in
    let bHi' := if negb (Z.land bLo 0x80000000 =? 0) then Z.lor bHi' 1 else bHi' in
    Ok (inl (mkMult (Z.shiftr a 1) (u32 (Z.shiftl bLo 1)) bHi' lo' hi')).

(** [Mult]: the pair of the words left at [hiPtr] and [loPtr]. *)
Definition Mult (a b : Z) (signedArith : bool) : res (Z * Z) :=
  if (a =? 0) || (b =? 0) then Ok (0, 0)
  else
    let negative := false in
    let '(negative, a) :=
      if signedArith && (a <? 0) then (negb negative, s32 (- a)) else (negative, a) in
    let '(negative, b) :=
      if signedArith && (b <? 0) then (negb negative, s32 (- b)) else (negative, b) in
    r <- for_ret 0 32 Mult_step (mkMult a (u32 b) 0 0 0) ;;
    let s := match r with inl s => s | inr s => s end in
    let '(lo, hi) :=
      if negative then
        let hi := u32 (Z.lnot (mhi s)) in
        let lo := u32 (u32 (Z.lnot (mlo s)) + 1) in
        (lo, if lo =? 0 then u32 (hi + 1) else hi)
      else (mlo s, mhi s) in
    Ok (s32 hi, s32 lo).

(** ** Execution *)

(** An instruction either traps and returns from [OneInstruction], or breaks
    out of the switch with the next-next program counter and the load to be
    delayed. *)
Inductive outcome (K : Type) :=
| Return (k : K)
| Break (k : K) (pcAfter nextLoadReg nextLoadValue : Z).
Arguments Return {K} k.
Arguments Break {K} k pcAfter nextLoadReg nextLoadValue.

Section Execute.
Context {host : Host} {K : Type} `{!Kernel K}.

Definition R (k : K) (i : Z) : Z := reg (machine k) i.
Definition setR (i v : Z) (k : K) : K := set_machine (set_reg i v (machine k)) k.

(** [registers[i] = v; break;] *)
Definition assign (i v : Z) (k : K) (pcAfter : Z) : res (outcome K) :=
  Ok (Break (setR i v k) pcAfter 0 0).

(** [RaiseException(which, badVAddr); return;] *)
Definition trap (which : ExceptionType) (badVAddr : Z) (k : K) : res (outcome K) :=
  k <- RaiseException which badVAddr k ;; Ok (Return k).

(** [machine->WriteMem(addr, size, value)] and its early return. *)
Definition store (addr size v : Z) (k : K) (pcAfter : Z) : res (outcome K) :=
  '(k, ok) <- WriteMem addr size v k ;;
  if ok : bool then Ok (Break k pcAfter 0 0) else Ok (Return k).

(** The end of the switch. *)
Definition exec_system (i : Instruction) (k : K) (pcAfter : Z) : res (outcome K) :=
  match opCode i with
  | OP_SYSCALL => trap SyscallException 0 k
  | OP_XOR => assign (rd i) (Z.lxor (R k (rs i)) (R k (rt i))) k pcAfter
  | OP_XORI => assign (rt i) (Z.lxor (R k (rs i)) (Z.land (extra i) 0xffff)) k pcAfter
  | OP_RES | OP_UNIMP => trap IllegalInstrException 0 k
  | _ => Err AssertionFailed
  end.

(** OP_SW, OP_SWL, OP_SWR. *)
Definition exec_store_word (i : Instruction) (k : K) (pcAfter : Z) : res (outcome K) :=
  let tmp := s32 (R k (rs i) + extra i) in
  match opCode i with
  | OP_SW => store tmp 4 (R k (rt i)) k pcAfter
  | OP_SWL =>
      _ <- ASSERT (Z.land tmp 0x3 =? 0) ;;
      '(k, v) <- ReadMem (Z.land tmp (Z.lnot 0x3)) 4 k ;;
      match v with
      | None => Ok (Return k)
      | Some v =>
          let low := Z.land tmp 0x3 in
          let v :=
            if low =? 0 then R k (rt i)
            else if low =? 1 then
              s32 (Z.lor (Z.land v 0xff000000) (Z.land (Z.shiftr (R k (rt i)) 8) 0xffffff))
            else if low =? 2 then
              s32 (Z.lor (Z.land v 0xffff0000) (Z.land (Z.shiftr (R k (rt i)) 16) 0xffff))
            else
              s32 (Z.lor (Z.land v 0xffffff00) (Z.land (Z.shiftr (R k (rt i)) 24) 0xff)) in
          store (Z.land tmp (Z.lnot 0x3)) 4 v k pcAfter
      end
  | OP_SWR =>
      _ <- ASSERT (Z.land tmp 0x3 =? 0) ;;
      '(k, v) <- ReadMem (Z.land tmp (Z.lnot 0x3)) 4 k ;;
      match v with
      | None => Ok (Return k)
      | Some v =>
          let low := Z.land tmp 0x3 in
          let v :=
            if low =? 0 then
              s32 (Z.lor (Z.land v 0xffffff) (s32 (Z.shiftl (R k (rt i)) 24)))
            else if low =? 1 then
              s32 (Z.lor (Z.land v 0xffff) (s32 (Z.shiftl (R k (rt i)) 16)))
            else if low =? 2 then
              s32 (Z.lor (Z.land v 0xff) (s32 (Z.shiftl (R k (rt i)) 8)))
            else R k (rt i) in
          store (Z.land tmp (Z.lnot 0x3)) 4 v k pcAfter
      end
  | _ => exec_system i k pcAfter
  end.

(** OP_SLL to OP_SUBU. *)
Definition exec_shift_compare (i : Instruction) (k : K) (pcAfter : Z) : res (outcome K) :=
  let bool_to_int (b : bool) := if b then 1 else 0 in
  match opCode i with
  | OP_SLL => assign (rd i) (s32 (Z.shiftl (R k (rt i)) (extra i))) k pcAfter
  | OP_SLLV =>
      assign (rd i) (s32 (Z.shiftl (R k (rt i)) (Z.land (R k (rs i)) 0x1f))) k pcAfter
  | OP_SLT => assign (rd i) (bool_to_int (R k (rs i) <? R k (rt i))) k pcAfter
  | OP_SLTI => assign (rt i) (bool_to_int (R k (rs i) <? extra i)) k pcAfter
  | OP_SLTIU => assign (rt i) (bool_to_int (u32 (R k (rs i)) <? u32 (extra i))) k pcAfter
  | OP_SLTU => assign (rd i) (bool_to_int (u32 (R k (rs i)) <? u32 (R k (rt i)))) k pcAfter
  | OP_SRA => assign (rd i) (Z.shiftr (R k (rt i)) (extra i)) k pcAfter
  | OP_SRAV => assign (rd i) (Z.shiftr (R k (rt i)) (Z.land (R k (rs i)) 0x1f)) k pcAfter
  | OP_SRL =>
      let tmp := R k (rt i) in
      let tmp := Z.shiftr tmp (extra i) in
      assign (rd i) tmp k pcAfter
  | OP_SRLV =>
      let tmp := R k (rt i) in
      let tmp := Z.shiftr tmp (Z.land (R k (rs i)) 0x1f) in
      assign (rd i) tmp k pcAfter
  | OP_SUB =>
      let diff := s32 (R k (rs i) - R k (rt i)) in
      if negb (Z.land (u32 (Z.lxor (R k (rs i)) (R k (rt i)))) SIGN_BIT =? 0) &&
         negb (Z.land (u32 (Z.lxor (R k (rs i)) diff)) SIGN_BIT =? 0)
      then trap OverflowException 0 k
      else assign (rd i) diff k pcAfter
  | OP_SUBU => assign (rd i) (s32 (R k (rs i) - R k (rt i))) k pcAfter
  | _ => exec_store_word i k pcAfter
  end.

(** OP_MFHI to OP_SH. *)
Definition exec_mult_logic (i : Instruction) (k : K) (pcAfter : Z) : res (outcome K) :=
  let mult (signedArith : bool) :=
    '(hi, lo) <- Mult (R k (rs i)) (R k (rt i)) signedArith ;;
    Ok (Break (setR LoReg lo (setR HiReg hi k)) pcAfter 0 0) in
  match opCode i with
  | OP_MFHI => assign (rd i) (R k HiReg) k pcAfter
  | OP_MFLO => assign (rd i) (R k LoReg) k pcAfter
  | OP_MTHI => assign HiReg (R k (rs i)) k pcAfter
  | OP_MTLO => assign LoReg (R k (rs i)) k pcAfter
  | OP_MULT => mult true
  | OP_MULTU => mult false
  | OP_NOR => assign (rd i) (Z.lnot (Z.lor (R k (rs i)) (R k (rt i)))) k pcAfter
  | OP_OR => assign (rd i) (Z.lor (R k (rs i)) (R k (rs i))) k pcAfter
  | OP_ORI => assign (rt i) (Z.lor (R k (rs i)) (Z.land (extra i) 0xffff)) k pcAfter
  | OP_SB => store (s32 (R k (rs i) + extra i)) 1 (R k (rt i)) k pcAfter
  | OP_SH => store (s32 (R k (rs i) + extra i)) 2 (R k (rt i)) k pcAfter
  | _ => exec_shift_compare i k pcAfter
  end.

(** OP_LB to OP_LWR. *)
Definition exec_load (i : Instruction) (k : K) (pcAfter : Z) : res (outcome K) :=
  let tmp := s32 (R k (rs i) + extra i) in
  match opCode i with
  | OP_LB | OP_LBU =>
      '(k, v) <- ReadMem tmp 1 k ;;
      match v with
      | None => Ok (Return k)
      | Some v =>
          let v := if negb (Z.land v 0x80 =? 0) && bool_decide (opCode i = OP_LB)
                   then s32 (Z.lor v 0xffffff00) else Z.land v 0xff in
          Ok (Break k pcAfter (rt i) v)
      end
  | OP_LH | OP_LHU =>
      if negb (Z.land tmp 0x1 =? 0) then trap AddressErrorException tmp k
      else
        '(k, v) <- ReadMem tmp 2 k ;;
        match v with
        | None => Ok (Return k)
        | Some v =>
            let v := if negb (Z.land v 0x8000 =? 0) && bool_decide (opCode i = OP_LH)
                     then s32 (Z.lor v 0xffff0000) else Z.land v 0xffff in
            Ok (Break k pcAfter (rt i) v)
        end
  | OP_LUI => assign (rt i) (s32 (Z.shiftl (extra i) 16)) k pcAfter
  | OP_LW =>
      if negb (Z.land tmp 0x3 =? 0) then trap AddressErrorException tmp k
      else
        '(k, v) <- ReadMem tmp 4 k ;;
        match v with
        | None => Ok (Return k)
        | Some v => Ok (Break k pcAfter (rt i) v)
        end
  | OP_LWL =>
      _ <- ASSERT (Z.land tmp 0x3 =? 0) ;;
      '(k, v) <- ReadMem tmp 4 k ;;
      match v with
      | None => Ok (Return k)
      | Some v =>
          let next := if R k LoadReg =? rt i then R k LoadValueReg else R k (rt i) in
          let low := Z.land tmp 0x3 in
          let next :=
            if low =? 0 then v
            else if low =? 1 then s32 (Z.lor (Z.land next 0xff) (s32 (Z.shiftl v 8)))
            else if low =? 2 then s32 (Z.lor (Z.land next 0xffff) (s32 (Z.shiftl v 16)))
            else s32 (Z.lor (Z.land next 0xffffff) (s32 (Z.shiftl v 24))) in
          Ok (Break k pcAfter (rt i) next)
      end
  | OP_LWR =>
      _ <- ASSERT (Z.land tmp 0x3 =? 0) ;;
      '(k, v) <- ReadMem tmp 4 k ;;
      match v with
      | None => Ok (Return k)
      | Some v =>
          let next := if R k LoadReg =? rt i then R k LoadValueReg else R k (rt i) in
          let low := Z.land tmp 0x3 in
          let next :=
            if low =? 0 then
              s32 (Z.lor (Z.land next 0xffffff00) (Z.land (Z.shiftr v 24) 0xff))
            else if low =? 1 then
              s32 (Z.lor (Z.land next 0xffff0000) (Z.land (Z.shiftr v 16) 0xffff))
            else if low =? 2 then
              s32 (Z.lor (Z.land next 0xff000000) (Z.land (Z.shiftr v 8) 0xffffff))
            else v in
          Ok (Break k pcAfter (rt i) next)
      end
  | _ => exec_mult_logic i k pcAfter
  end.

(** OP_DIV to OP_JR. [INT_MIN / -1] traps on the host. *)
Definition exec_div_jump (i : Instruction) (k : K) (pcAfter : Z) : res (outcome K) :=
  let link (r : Z) (k : K) := setR r (s32 (R k NextPCReg + 4)) k in
  let jump := s32 (Z.lor (Z.land pcAfter 0xf0000000) (IndexToAddr (extra i))) in
  match opCode i with
  | OP_DIV =>
      if R k (rt i) =? 0 then Ok (Break (setR HiReg 0 (setR LoReg 0 k)) pcAfter 0 0)
      else if (R k (rs i) =? - 2 ^ 31) && (R k (rt i) =? -1) then Err DivideError
      else
        let k := setR LoReg (Z.quot (R k (rs i)) (R k (rt i))) k in
        let k := setR HiReg (Z.rem (R k (rs i)) (R k (rt i))) k in
        Ok (Break k pcAfter 0 0)
  | OP_DIVU =>
      let rs := u32 (R k (rs i)) in
      let rt := u32 (R k (rt i)) in
      if rt =? 0 then Ok (Break (setR HiReg 0 (setR LoReg 0 k)) pcAfter 0 0)
      else
        let tmp := s32 (rs / rt) in
        let k := setR LoReg tmp k in
        let tmp := s32 (rs mod rt) in
        Ok (Break (setR HiReg tmp k) pcAfter 0 0)
  | OP_JAL => Ok (Break (link R31 k) jump 0 0)
  | OP_J => Ok (Break k jump 0 0)
  | OP_JALR => let k := link (rd i) k in Ok (Break k (R k (rs i)) 0 0)
  | OP_JR => Ok (Break k (R k (rs i)) 0 0)
  | _ => exec_load i k pcAfter
  end.

(** The whole switch; here OP_ADD to OP_BNE. *)
Definition execute (i : Instruction) (k : K) (pcAfter : Z) : res (outcome K) :=
  let branch (b : bool) (k : K) :=
    Ok (Break k (if b then s32 (R k NextPCReg + IndexToAddr (extra i)) else pcAfter) 0 0) in
  let link (k : K) := setR R31 (s32 (R k NextPCReg + 4)) k in
  let negative (v : Z) := negb (Z.land (u32 v) SIGN_BIT =? 0) in
  match opCode i with
  | OP_ADD =>
      let sum := s32 (R k (rs i) + R k (rt i)) in
      if negb (negative (Z.lxor (R k (rs i)) (R k (rt i)))) &&
         negative (Z.lxor (R k (rs i)) sum)
      then trap OverflowException 0 k
      else assign (rd i) sum k pcAfter
  | OP_ADDI =>
      let sum := s32 (R k (rs i) + extra i) in
      if negb (negative (Z.lxor (R k (rs i)) (extra i))) &&
         negative (Z.lxor (extra i) sum)
      then trap OverflowException 0 k
      else assign (rt i) sum k pcAfter
  | OP_ADDIU => assign (rt i) (s32 (R k (rs i) + extra i)) k pcAfter
  | OP_ADDU => assign (rd i) (s32 (R k (rs i) + R k (rt i))) k pcAfter
  | OP_AND => assign (rd i) (Z.land (R k (rs i)) (R k (rt i))) k pcAfter
  | OP_ANDI => assign (rt i) (Z.land (R k (rs i)) (Z.land (extra i) 0xffff)) k pcAfter
  | OP_BEQ => branch (R k (rs i) =? R k (rt i)) k
  | OP_BGEZAL => let k := link k in branch (negb (negative (R k (rs i)))) k
  | OP_BGEZ => branch (negb (negative (R k (rs i)))) k
  | OP_BGTZ => branch (R k (rs i) >? 0) k
  | OP_BLEZ => branch (R k (rs i) <=? 0) k
  | OP_BLTZAL => let k := link k in branch (negative (R k (rs i))) k
  | OP_BLTZ => branch (negative (R k (rs i))) k
  | OP_BNE => branch (negb (R k (rs i) =? R k (rt i))) k
  | _ => exec_div_jump i k pcAfter
  end.

(** [Machine::OneInstruction] *)
Definition OneInstruction (k : K) : res K :=
  '(k, raw) <- ReadMem (R k PCReg) 4 k ;;
  match raw with
  | None => Ok k
  | Some raw =>
      let instr := Decode (u32 raw) in
      let pcAfter := s32 (R k NextPCReg + 4) in
      r <- execute instr k pcAfter ;;
      match r with
      | Return k => Ok k
      | Break k pcAfter nextLoadReg nextLoadValue =>
          m <- DelayedLoad (machine k) nextLoadReg nextLoadValue ;;
          let k := set_machine m k in
          let k := setR PrevPCReg (R k PCReg) k in
          let k := setR PCReg (R k NextPCReg) k in
          Ok (setR NextPCReg pcAfter k)
      end
  end.

(** [n] rounds of the endless loop of [Machine::Run]. *)
Fixpoint Run_rounds (n : nat) (k : K) : res K :=
  match n with
  | O => Ok k
  | S n => k <- OneInstruction k ;; k <- OneTick k ;; Run_rounds n k
  end.

Definition Run (n : nat) (k : K) : res K := Run_rounds n (setStatus UserMode k).
End Execute.

(** ** The multiplier *)

(** The double word held in a pair of registers. *)
Definition dword (hi lo : Z) : Z := hi * 2 ^ 32 + lo.

Lemma dword_add hi lo bHi bLo :
  is_u32 hi -> is_u32 lo -> is_u32 bHi -> is_u32 bLo ->
  dword (u32 ((if u32 (lo + bLo) <? bLo then u32 (hi + 1) else hi) + bHi)) (u32 (lo + bLo)) =
  (dword hi lo + dword bHi bLo) mod 2 ^ 64.
Proof.
  unfold dword. change (2 ^ 64) with 18446744073709551616. unfold_words. intros.
  destruct (Z.ltb_spec ((lo + bLo) mod 4294967296) bLo); Z.div_mod_to_equations; lia.
Qed.

Lemma bit31_test b : is_u32 b -> (Z.land b 0x80000000 =? 0) = (b <? 2 ^ 31).
Proof.
  intros Hb. replace (Z.land b 0x80000000) with ((b / 2 ^ 31) * 2 ^ 31).
  - change (2 ^ 31) with 2147483648. unfold_words. destruct (Z.ltb_spec b 2147483648);
      [apply Z.eqb_eq|apply Z.eqb_neq]; Z.div_mod_to_equations; lia.
  - rewrite <- (Z.mod_small b (2 ^ 32)) by exact Hb.
    change 0x80000000 with (Z.shiftl (Z.ones 1) 31).
    rewrite <- Z.shiftr_div_pow2, <- Z.shiftl_mul_pow2, <- Z.land_ones by lia. prove_Zeq_bitwise.
Qed.

Lemma lor_1_even z : Z.lor (2 * z) 1 = 2 * z + 1.
Proof.
  apply Z.bits_inj'. intros i Hi. rewrite Z.lor_spec.
  destruct (Z.eq_dec i 0) as [->|]; [by rewrite Z.testbit_even_0, Z.testbit_odd_0|].
  replace i with (Z.succ (i - 1)) by lia.
  rewrite Z.testbit_even_succ, Z.testbit_odd_succ by lia.
  change 1 with (2 * 0 + 1) at 2. rewrite Z.testbit_odd_succ, Z.bits_0 by lia. by rewrite orb_false_r.
Qed.

Lemma dword_shift bHi bLo :
  is_u32 bHi -> is_u32 bLo ->
  dword (if negb (Z.land bLo 0x80000000 =? 0) then Z.lor (u32 (Z.shiftl bHi 1)) 1
         else u32 (Z.shiftl bHi 1)) (u32 (Z.shiftl bLo 1)) =
  (2 * dword bHi bLo) mod 2 ^ 64.
Proof.
  intros H1 H2. rewrite bit31_test, !Z.shiftl_mul_pow2 by (done || lia).
  replace (u32 (bHi * 2 ^ 1)) with (2 * (bHi mod 2 ^ 31)) by word_lia.
  rewrite lor_1_even. unfold dword. change (2 ^ 64) with 18446744073709551616.
  unfold_words. destruct (Z.ltb_spec bLo 2147483648); cbn [negb]; Z.div_mod_to_equations; lia.
Qed.

Lemma dword_neg hi lo :
  is_u32 hi -> is_u32 lo ->
  dword (if u32 (u32 (Z.lnot lo) + 1) =? 0 then u32 (u32 (Z.lnot hi) + 1) else u32 (Z.lnot hi))
        (u32 (u32 (Z.lnot lo) + 1)) = (- dword hi lo) mod 2 ^ 64.
Proof.
  unfold dword, Z.lnot. change (2 ^ 64) with 18446744073709551616. unfold_words. intros.
  destruct (Z.eqb_spec ((Z.pred (- lo) mod 4294967296 + 1) mod 4294967296) 0);
    Z.div_mod_to_equations; lia.
Qed.

(** The loop invariant: after [i] rounds the multiplicand is shifted [i] places
    and the accumulator holds the product by the [i] low bits of [a]. *)
Definition mult_inv (a b i : Z) (s : mult_state) : Prop :=
  ma s = Z.shiftr a i /\
  is_u32 (mbLo s) /\ is_u32 (mbHi s) /\ is_u32 (mlo s) /\ is_u32 (mhi s) /\
  dword (mbHi s) (mbLo s) = (b * 2 ^ i) mod 2 ^ 64 /\
  dword (mhi s) (mlo s) = (a mod 2 ^ i * b) mod 2 ^ 64.

Definition mult_done (a b : Z) (s : mult_state) : Prop :=
  is_u32 (mlo s) /\ is_u32 (mhi s) /\ dword (mhi s) (mlo s) = (u32 a * b) mod 2 ^ 64.

Lemma land_1_odd z : negb (Z.land z 1 =? 0) = Z.odd z.
Proof.
  change 1 with (Z.ones 1). rewrite Z.land_ones by lia. change (2 ^ 1) with 2.
  rewrite Zodd_mod. pose proof (Z.mod_pos_bound z 2). by destruct (Z.eqb_spec (z mod 2) 0),
    (Z.eqb_spec (z mod 2) 1); lia || done.
Qed.

(** One more bit of the multiplier. *)
Lemma mod_pow2_succ a i :
  0 <= i -> a mod 2 ^ (i + 1) = a mod 2 ^ i + (if Z.odd (Z.shiftr a i) then 2 ^ i else 0).
Proof.
  intros Hi. rewrite Z.shiftr_div_pow2, Z.pow_add_r, Z.rem_mul_r by
    (try lia; pose proof (Z.pow_pos_nonneg 2 i); lia).
  change (2 ^ 1) with 2. rewrite Zodd_mod. pose proof (Z.mod_pos_bound (a / 2 ^ i) 2).
  destruct (Z.eqb_spec ((a / 2 ^ i) mod 2) 1); nia.
Qed.

(** The early exit: the last one bit of the multiplier. *)
Lemma last_bit a i :
  is_s32 a -> 0 <= i < 32 -> Z.odd (Z.shiftr a i) = true ->
  Z.land (u32 (Z.shiftr a i)) 0xfffffffe = 0 -> a mod 2 ^ (i + 1) = u32 a.
Proof.
  intros Ha Hi Hodd Hz. set (s := Z.shiftr a i) in *.
  assert (u32 s = 1) as Hs.
  { apply u32_bits_eq; [apply u32_range|done|]. intros j Hj.
    destruct (Z.eq_dec j 0) as [->|].
    - rewrite testbit_u32 by lia. by rewrite Z.bit0_odd, Hodd.
    - assert (Z.testbit (Z.land (u32 s) 0xfffffffe) j = false) as Hb by by rewrite Hz, Z.bits_0.
      rewrite Z.land_spec in Hb. replace (Z.testbit 0xfffffffe j) with true in Hb.
      + rewrite andb_true_r in Hb. rewrite Hb. symmetry. change 1 with (2 ^ 0).
        apply Z.pow2_bits_false. lia.
      + replace 0xfffffffe with (Z.ones 32 - 2 ^ 0) by done.
        change (Z.ones 32 - 2 ^ 0) with (Z.shiftl (Z.ones 31) 1).
        rewrite Z.shiftl_spec, Z.ones_spec_low by lia. done. }
  assert (0 <= a) as Ha0.
  { destruct (Z.lt_ge_cases a 0); [|done]. exfalso.
    assert (- 2 ^ 31 <= s < 0) as Hneg; [|revert Hs; clear -Hneg; word_lia].
    unfold s. rewrite Z.shiftr_div_pow2 by lia. pose proof (Z.pow_pos_nonneg 2 i).
    unfold is_s32 in Ha. split.
    - apply Z.div_le_lower_bound; [lia|]. nia.
    - apply Z.div_lt_upper_bound; nia. }
  rewrite (u32_small a) by (revert Ha; clear -Ha0; word_lia).
  apply Z.mod_small. split; [done|].
  assert (0 <= s <= a) as Hsr.
  { unfold s. rewrite Z.shiftr_div_pow2 by lia. pose proof (Z.pow_pos_nonneg 2 i).
    split; [by apply Z.div_pos; lia|]. apply Z.div_le_upper_bound; nia. }
  rewrite u32_small in Hs by (revert Ha Hsr; clear; word_lia).
  unfold s in Hs. rewrite Z.shiftr_div_pow2 in Hs by lia.
  rewrite Z.pow_add_r by lia. pose proof (Z.pow_pos_nonneg 2 i).
  pose proof (Z.mul_succ_div_gt a (2 ^ i)). lia.
Qed.

Lemma Mult_step_inv a b i s :
  is_s32 a -> 0 <= i < 32 -> mult_inv a b i s ->
  (exists s', Mult_step i s = Ok (inl s') /\ mult_inv a b (i + 1) s') \/
  (exists s', Mult_step i s = Ok (inr s') /\ mult_done a b s').
Proof.
  intros Ha Hi (Hma & H1 & H2 & H3 & H4 & Hb & Hacc). destruct s as [m bLo bHi lo hi].
  cbn in *. subst m. unfold Mult_step. rewrite !land_1_odd.
  set (odd := Z.odd (Z.shiftr a i)).
  set (lo' := if odd then u32 (lo + bLo) else lo).
  set (hi' := if odd then _ else hi).
  assert (is_u32 lo' /\ is_u32 hi' /\ dword hi' lo' = (a mod 2 ^ (i + 1) * b) mod 2 ^ 64)
    as (Hlo & Hhi & Hnew).
  { rewrite mod_pow2_succ by lia. fold odd. unfold hi', lo'. destruct odd; cbv zeta.
    - split; [apply u32_range|]. split; [apply u32_range|].
      rewrite dword_add, Hacc, Hb, <- Z.add_mod by done. f_equal. ring.
    - by rewrite Z.add_0_r. }
  destruct (odd && (Z.land (u32 (Z.shiftr a i)) 0xfffffffe =? 0)) eqn:Hbrk.
  - right. eexists; split; [done|]. apply andb_true_iff in Hbrk as [Hodd Hz%Z.eqb_eq].
    split_and!; cbn; [done..|]. by rewrite Hnew, (last_bit a i).
  - left. eexists; split; [done|]. unfold mult_inv. cbn [ma mbLo mbHi mlo mhi].
    split_and!; [by rewrite Z.shiftr_shiftr by lia|apply u32_range| |done|done| |done].
    + destruct (negb _); [|apply u32_range]. apply is_u32_lor; [apply u32_range|done].
    + rewrite dword_shift, Hb, Z.mul_mod_idemp_r by done. f_equal.
      rewrite Z.pow_add_r by lia. ring.
Qed.

Lemma Mult_loop a b :
  is_s32 a -> is_u32 b ->
  exists r, for_ret 0 32 Mult_step (mkMult a b 0 0 0) = Ok r /\
    mult_done a b (match r with inl s => s | inr s => s end).
Proof.
  intros Ha Hb.
  destruct (for_ret_inv (mult_inv a b) (mult_done a b) 0 32 Mult_step (mkMult a b 0 0 0))
    as [(s & E & Hs)|(s & E & Hs)].
  - lia.
  - unfold mult_inv, dword. cbn [ma mbLo mbHi mlo mhi]. rewrite Z.pow_0_r, Z.mod_1_r, Z.mul_1_r.
    unfold is_u32 in *. split_and!; try lia; [by rewrite Z.shiftr_0_r| |done].
    rewrite Z.mod_small by lia. lia.
  - intros. by apply Mult_step_inv.
  - exists (inl s). split; [done|]. destruct Hs as (_ & _ & _ & ? & ? & _ & ?). by split_and!.
  - by exists (inr s).
Qed.

(** The double word of a result within range is the product itself. *)
Lemma Mult_core a b (negative : bool) :
  is_s32 a -> is_u32 b ->
  exists hi lo,
    (r <- for_ret 0 32 Mult_step (mkMult a b 0 0 0) ;;
     let s := match r with inl s => s | inr s => s end in
     let '(lo, hi) :=
       if negative then
         let hi := u32 (Z.lnot (mhi s)) in
         let lo := u32 (u32 (Z.lnot (mlo s)) + 1) in
         (lo, if lo =? 0 then u32 (hi + 1) else hi)
       else (mlo s, mhi s) in
     Ok (s32 hi, s32 lo)) = Ok (s32 hi, s32 lo) /\ is_u32 hi /\ is_u32 lo /\
    dword hi lo = ((if negative then -1 else 1) * (u32 a * b)) mod 2 ^ 64.
Proof.
  intros Ha Hb. destruct (Mult_loop a b Ha Hb) as (r & -> & Hlo & Hhi & Hd). cbn [bindr].
  destruct negative.
  - eexists _, _. split; [done|]. split_and!; [|apply u32_range|].
    + destruct (_ =? 0); apply u32_range.
    + rewrite dword_neg, Hd by done. generalize (u32 a * b). intros x.
      change (2 ^ 64) with 18446744073709551616. Z.div_mod_to_equations. lia.
  - eexists _, _. split; [done|]. split_and!; [done..|]. rewrite Hd. f_equal. lia.
Qed.

Lemma Mult_product (a b : Z) :
  is_s32 a -> is_s32 b ->
  (exists hi lo, Mult a b true = Ok (hi, lo) /\ is_s32 hi /\ is_s32 lo /\
     dword hi (u32 lo) = a * b) /\
  (exists hi lo, Mult a b false = Ok (hi, lo) /\ is_s32 hi /\ is_s32 lo /\
     dword (u32 hi) (u32 lo) = u32 a * u32 b).
Proof.
  intros Ha Hb. unfold Mult.
  destruct (Z.eqb_spec a 0) as [->|Ha0].
  { split; eexists _, _; (split; [done|]); split_and!; done. }
  destruct (Z.eqb_spec b 0) as [->|Hb0].
  { cbn [orb]. split; eexists _, _; (split; [done|]); split_and!; try done; unfold dword;
    change (u32 0) with 0; lia. }
  cbn [orb andb]. split.
  - assert (forall z, is_s32 z -> u32 (if z <? 0 then s32 (- z) else z) = Z.abs z /\
      is_s32 (if z <? 0 then s32 (- z) else z)) as Habs.
    { intros z Hz. destruct (Z.ltb_spec z 0); split; word_lia. }
    destruct (Habs a Ha) as [Hua Hsa], (Habs b Hb) as [Hub Hsb].
    destruct (Mult_core _ _ (xorb (a <? 0) (b <? 0)) Hsa (u32_range (if b <? 0 then s32 (- b) else b)))
      as (hi & lo & E & Hhi & Hlo & Hd).
    exists (s32 hi), (s32 lo). split; [|split; [apply s32_range|split; [apply s32_range|]]].
    + rewrite <- E. by destruct (a <? 0), (b <? 0).
    + rewrite Hua, Hub in Hd. revert Hd. rewrite u32_s32, (u32_small lo) by done.
      replace ((if xorb (a <? 0) (b <? 0) then -1 else 1) * (Z.abs a * Z.abs b)) with (a * b)
        by (destruct (Z.ltb_spec a 0), (Z.ltb_spec b 0); cbn; lia).
      assert (- 2 ^ 63 < a * b < 2 ^ 63) as Hab by (unfold is_s32 in *; nia).
      unfold dword. revert Hhi Hlo Hab. generalize (a * b). clear.
      change (2 ^ 64) with 18446744073709551616. change (2 ^ 63) with 9223372036854775808.
      unfold_words. intros. Z.div_mod_to_equations. lia.
  - destruct (Mult_core a (u32 b) false Ha (u32_range b)) as (hi & lo & E & Hhi & Hlo & Hd).
    exists (s32 hi), (s32 lo). split; [exact E|]. split; [apply s32_range|]. split; [apply s32_range|].
    rewrite !u32_s32, (u32_small hi), (u32_small lo), Hd by done.
    rewrite Z.mul_1_l. apply Z.mod_small. pose proof (u32_range a). pose proof (u32_range b).
    unfold is_u32 in *. nia.
Qed.

Lemma Mult_s32 a b signedArith :
  is_s32 a -> is_s32 b ->
  exists hi lo, Mult a b signedArith = Ok (hi, lo) /\ is_s32 hi /\ is_s32 lo.
Proof.
  intros Ha Hb. destruct (Mult_product a b Ha Hb) as [(h & l & ? & ? & ? & _) (h' & l' & ? & ? & ? & _)].
  destruct signedArith; eauto.
Qed.

(** C35: the multiplier computes the exact 64-bit product, with or without
    sign, on every pair of 32-bit operands (the most negative one included): its
    32-round loop with carries, its early exit and its final negation never
    lose a bit. *)
Theorem Mult_exact (a b : Z) :
  is_s32 a -> is_s32 b ->
  (exists hi lo, Mult a b true = Ok (hi, lo) /\ is_s32 hi /\ is_s32 lo /\
     dword hi (u32 lo) = a * b) /\
  (exists hi lo, Mult a b false = Ok (hi, lo) /\ is_s32 hi /\ is_s32 lo /\
     dword (u32 hi) (u32 lo) = u32 a * u32 b).
Proof. apply Mult_product. Qed.

Lemma Mult_exact_witness :
  (exists hi lo, Mult (- 2 ^ 31) (- 2 ^ 31) true = Ok (hi, lo) /\ is_s32 hi /\ is_s32 lo /\
     dword hi (u32 lo) = - 2 ^ 31 * - 2 ^ 31) /\
  (exists hi lo, Mult (- 2 ^ 31) (- 2 ^ 31) false = Ok (hi, lo) /\ is_s32 hi /\ is_s32 lo /\
     dword (u32 hi) (u32 lo) = u32 (- 2 ^ 31) * u32 (- 2 ^ 31)).
Proof. apply (Mult_exact (- 2 ^ 31) (- 2 ^ 31)); unfold is_s32; lia. Defined.

(** ** Decoding *)

Lemma field_spec w k n : 0 <= k -> 0 <= n -> Z.land (Z.shiftr w k) (Z.ones n) = (w / 2 ^ k) mod 2 ^ n.
Proof. intros. by rewrite Z.land_ones, Z.shiftr_div_pow2. Qed.

Lemma low_spec w n : 0 <= n -> Z.land w (Z.ones n) = w mod 2 ^ n.
Proof. intros. by rewrite Z.land_ones. Qed.

(** The masks of [Decode] as field extractions. *)
Ltac decode_fields :=
  change 0x3f with (Z.ones 6); change 0x1f with (Z.ones 5); change 0xffff with (Z.ones 16);
  change 0x3ffffff with (Z.ones 26);
  rewrite ?field_spec, ?low_spec by lia.

Lemma Decode_rs w : rs (Decode w) = (w / 2 ^ 21) mod 2 ^ 5.
Proof. unfold Decode. destruct (List.nth _ _ _). cbn [rs]. by decode_fields. Qed.
Lemma Decode_rt w : rt (Decode w) = (w / 2 ^ 16) mod 2 ^ 5.
Proof. unfold Decode. destruct (List.nth _ _ _). cbn [rt]. by decode_fields. Qed.
Lemma Decode_rd w : rd (Decode w) = (w / 2 ^ 11) mod 2 ^ 5.
Proof. unfold Decode. destruct (List.nth _ _ _). cbn [rd]. by decode_fields. Qed.

(** Sign extension of a 16-bit field. *)
Lemma sign_extend_16 e :
  0 <= e < 2 ^ 16 ->
  (if negb (Z.land e 0x8000 =? 0) then s32 (Z.lor e 0xffff0000) else e) =
  (e + 2 ^ 15) mod 2 ^ 16 - 2 ^ 15.
Proof.
  intros He. assert (Z.land e 0x8000 = (e / 2 ^ 15) * 2 ^ 15) as ->.
  { rewrite <- (Z.mod_small e (2 ^ 16)) by done. change 0x8000 with (Z.shiftl (Z.ones 1) 15).
    rewrite <- Z.shiftr_div_pow2, <- Z.shiftl_mul_pow2, <- Z.land_ones by lia. prove_Zeq_bitwise. }
  assert (Z.lor e 0xffff0000 = e + 0xffff0000) as ->.
  { symmetry. apply Z.add_nocarry_lor. rewrite <- (Z.mod_small e (2 ^ 16)) by done.
    change 0xffff0000 with (Z.shiftl (Z.ones 16) 16). rewrite <- Z.land_ones by lia. prove_Zeq_bitwise. }
  change (2 ^ 15) with 32768. change (2 ^ 16) with 65536 in *.
  destruct (Z.eqb_spec (e / 32768 * 32768) 0); cbn [negb]; word_lia.
Qed.

Definition format_of (op : Z) : Format := snd (List.nth (Z.to_nat op) opTable (OP_RES, IFMT)).
Definition opcode_of (op : Z) : OpCode := fst (List.nth (Z.to_nat op) opTable (OP_RES, IFMT)).

(** The three instruction layouts of the MIPS manual. *)
Definition encode_R (op rs rt rd shamt funct : Z) : Z :=
  op * 2 ^ 26 + rs * 2 ^ 21 + rt * 2 ^ 16 + rd * 2 ^ 11 + shamt * 2 ^ 6 + funct.
Definition encode_I (op rs rt imm : Z) : Z :=
  op * 2 ^ 26 + rs * 2 ^ 21 + rt * 2 ^ 16 + u16 imm.
Definition encode_J (op target : Z) : Z := op * 2 ^ 26 + target.

Definition executable_op (op : OpCode) : bool :=
  match op with SPECIAL | BCOND | OP_RFE => false | _ => true end.

Lemma Decode_op w : 0 <= w ->
  List.nth (Z.to_nat (Z.land (Z.shiftr w 26) 0x3f)) opTable (OP_RES, IFMT) =
  (opcode_of ((w / 2 ^ 26) mod 2 ^ 6), format_of ((w / 2 ^ 26) mod 2 ^ 6)).
Proof.
  intros. decode_fields. unfold opcode_of, format_of. by destruct (List.nth _ _ _).
Qed.

(** The shape of a word of each layout. *)
Lemma Decode_R_shape funct w :
  0 <= w -> (w / 2 ^ 26) mod 2 ^ 6 = 0 -> w mod 2 ^ 6 = funct ->
  opCode (Decode w) = List.nth (Z.to_nat funct) specialTable OP_RES /\
  extra (Decode w) = (w / 2 ^ 6) mod 2 ^ 5.
Proof.
  intros Hw Hop Hf. unfold Decode. rewrite Decode_op, Hop by done. cbn -[Z.land Z.shiftr].
  decode_fields. by rewrite Hf.
Qed.

Lemma Decode_I_shape op w :
  0 <= w -> (w / 2 ^ 26) mod 2 ^ 6 = op -> format_of op = IFMT -> opcode_of op <> BCOND ->
  opCode (Decode w) = opcode_of op /\
  extra (Decode w) = (w + 2 ^ 15) mod 2 ^ 16 - 2 ^ 15.
Proof.
  intros Hw Hop Hf Hb. unfold Decode. rewrite Decode_op, Hop, Hf by done. cbn [extra opCode].
  split.
  - destruct (opcode_of op) eqn:E; try done. exfalso. revert E Hf. unfold opcode_of, format_of.
    rewrite <- Hop. generalize (Z.to_nat ((w / 2 ^ 26) mod 2 ^ 6)). clear.
    intros n. do 64 (destruct n as [|n]; [done|]). by destruct n.
  - decode_fields. rewrite sign_extend_16 by (apply Z.mod_pos_bound; lia).
    by rewrite Z.add_mod_idemp_l.
Qed.

Lemma Decode_J_shape op w :
  0 <= w -> (w / 2 ^ 26) mod 2 ^ 6 = op -> format_of op = JFMT ->
  opCode (Decode w) = opcode_of op /\ extra (Decode w) = w mod 2 ^ 26.
Proof.
  intros Hw Hop Hf. unfold Decode. rewrite Decode_op, Hop, Hf by done. cbn [extra opCode].
  split; [|by decode_fields].
  revert Hf. unfold opcode_of, format_of. generalize (Z.to_nat op). clear.
  intros n. do 64 (destruct n as [|n]; [done|]). by destruct n.
Qed.

Lemma opcode_of_executable op :
  opcode_of op = SPECIAL \/ opcode_of op = BCOND \/ executable_op (opcode_of op) = true.
Proof.
  unfold opcode_of. generalize (Z.to_nat op). intros n.
  do 64 (destruct n as [|n]; [cbn; auto|]). destruct n; cbn; auto.
Qed.

Lemma special_executable n : executable_op (List.nth n specialTable OP_RES) = true.
Proof. do 64 (destruct n as [|n]; [done|]). by destruct n. Qed.

Lemma Decode_executable w : 0 <= w -> executable_op (opCode (Decode w)) = true.
Proof.
  intros Hw. unfold Decode. rewrite Decode_op by done. cbn [opCode].
  destruct (opcode_of_executable ((w / 2 ^ 26) mod 2 ^ 6)) as [->|[->|E]].
  - apply special_executable.
  - by repeat destruct (_ =? _).
  - destruct (opcode_of _); done.
Qed.

(** The fields of a decoded word have the width of their bit fields. *)
Record instruction_ok (i : Instruction) : Prop := {
  ok_op : executable_op (opCode i) = true;
  ok_rs : 0 <= rs i < 32;
  ok_rt : 0 <= rt i < 32;
  ok_rd : 0 <= rd i < 32;
  ok_extra : is_s32 (extra i);
  ok_shamt : opCode i = OP_SLL \/ opCode i = OP_SRL \/ opCode i = OP_SRA -> 0 <= extra i < 32;
  ok_target : opCode i = OP_J \/ opCode i = OP_JAL -> 0 <= extra i < 2 ^ 26
}.

Lemma opcode_of_shift op :
  ~ (opcode_of op = OP_SLL \/ opcode_of op = OP_SRL \/ opcode_of op = OP_SRA) /\
  (opcode_of op = SPECIAL -> format_of op = RFMT).
Proof.
  unfold opcode_of, format_of. generalize (Z.to_nat op). intros n.
  do 64 (destruct n as [|n]; [cbn; naive_solver|]). destruct n; cbn; naive_solver.
Qed.

Lemma Decode_shamt w :
  0 <= w -> opCode (Decode w) = OP_SLL \/ opCode (Decode w) = OP_SRL \/ opCode (Decode w) = OP_SRA ->
  0 <= extra (Decode w) < 32.
Proof.
  intros Hw. unfold Decode. rewrite Decode_op by done. cbn [opCode extra].
  destruct (opcode_of_shift ((w / 2 ^ 26) mod 2 ^ 6)) as [Hno Hsp].
  destruct (opcode_of _) eqn:E; try tauto; intros Hsh.
  - rewrite Hsp by done. decode_fields. by apply Z.mod_pos_bound.
  - exfalso. revert Hsh. repeat destruct (_ =? _); naive_solver.
Qed.

Lemma special_jump n : ~ (List.nth n specialTable OP_RES = OP_J \/ List.nth n specialTable OP_RES = OP_JAL).
Proof. do 64 (destruct n as [|n]; [cbn; naive_solver|]). destruct n; cbn; naive_solver. Qed.

Lemma opcode_of_jump op : opcode_of op = OP_J \/ opcode_of op = OP_JAL -> format_of op = JFMT.
Proof.
  unfold opcode_of, format_of. generalize (Z.to_nat op). intros n.
  do 64 (destruct n as [|n]; [cbn; naive_solver|]). destruct n; cbn; naive_solver.
Qed.

Lemma Decode_target w :
  0 <= w -> opCode (Decode w) = OP_J \/ opCode (Decode w) = OP_JAL -> 0 <= extra (Decode w) < 2 ^ 26.
Proof.
  intros Hw. unfold Decode. rewrite Decode_op by done. cbn [opCode extra].
  pose proof (opcode_of_jump ((w / 2 ^ 26) mod 2 ^ 6)) as Hj.
  destruct (opcode_of _) eqn:E; try (by intros [|]); intros Hop.
  - rewrite Hj by auto. decode_fields. by apply Z.mod_pos_bound.
  - rewrite Hj by auto. decode_fields. by apply Z.mod_pos_bound.
  - by apply special_jump in Hop.
  - exfalso. revert Hop. repeat destruct (_ =? _); naive_solver.
Qed.

Lemma Decode_ok w : 0 <= w -> instruction_ok (Decode w).
Proof.
  intros Hw. split; [by apply Decode_executable|rewrite ?Decode_rs, ?Decode_rt, ?Decode_rd;
    by apply Z.mod_pos_bound..| | |].
  2: by apply Decode_shamt.
  2: by apply Decode_target.
  unfold Decode. destruct (List.nth _ _ _) as [op []]; cbn [extra]; decode_fields.
  - rewrite sign_extend_16 by (apply Z.mod_pos_bound; lia).
    change (2 ^ 15) with 32768. word_lia.
  - pose proof (Z.mod_pos_bound w (2 ^ 26)). word_lia.
  - pose proof (Z.mod_pos_bound (w / 2 ^ 6) (2 ^ 5)). word_lia.
Qed.

Ltac pow_consts :=
  change (2 ^ 26) with 67108864 in *; change (2 ^ 21) with 2097152 in *;
  change (2 ^ 16) with 65536 in *; change (2 ^ 15) with 32768 in *;
  change (2 ^ 11) with 2048 in *;
  change (2 ^ 6) with 64 in *; change (2 ^ 5) with 32 in *.

(** Decoding inverts the encoding of the MIPS manual for each of the three
    layouts - register fields, shift amount, sign-extended immediate, jump
    target and both opcode tables - and for every 32-bit word gives register
    numbers below 32 and an opcode the switch of OneInstruction handles, so its
    default branch, an ASSERT(FALSE), is never reached. *)
Theorem Decode_encode (op s t d shamt funct imm target : Z) :
  0 <= s < 32 -> 0 <= t < 32 -> 0 <= d < 32 -> 0 <= shamt < 32 -> 0 <= funct < 64 ->
  0 <= op < 64 -> - 2 ^ 15 <= imm < 2 ^ 15 -> 0 <= target < 2 ^ 26 ->
  Decode (encode_R 0 s t d shamt funct) =
    mkInstruction (encode_R 0 s t d shamt funct)
      (List.nth (Z.to_nat funct) specialTable OP_RES) s t d shamt /\
  (format_of op = IFMT -> opcode_of op <> BCOND ->
   opCode (Decode (encode_I op s t imm)) = opcode_of op /\
   rs (Decode (encode_I op s t imm)) = s /\ rt (Decode (encode_I op s t imm)) = t /\
   extra (Decode (encode_I op s t imm)) = imm) /\
  (format_of op = JFMT ->
   opCode (Decode (encode_J op target)) = opcode_of op /\
   extra (Decode (encode_J op target)) = target) /\
  (forall w, is_u32 w -> instruction_ok (Decode w)).
Proof.
  intros Hs Ht Hd Hsh Hf Hop Himm Htg. split; [|split; [|split]].
  - set (w := encode_R 0 s t d shamt funct).
    assert (0 <= w) as Hw by (unfold w, encode_R; lia).
    destruct (Decode_R_shape funct w) as [E1 E2]; [done|..];
      [unfold w, encode_R; pow_consts; Z.div_mod_to_equations; lia..|].
    pose proof (Decode_rs w) as E3. pose proof (Decode_rt w) as E4. pose proof (Decode_rd w) as E5.
    destruct (Decode w) as [v o rs0 rt0 rd0 ex] eqn:E. cbn in *. 
    assert (v = w) as -> by (revert E; unfold Decode; destruct (List.nth _ _ _); congruence).
    subst o rs0 rt0 rd0 ex. f_equal;
      unfold w, encode_R; pow_consts; Z.div_mod_to_equations; lia.
  - intros Hfm Hb. set (w := encode_I op s t imm).
    assert (0 <= w) as Hw by (unfold w, encode_I; word_lia).
    destruct (Decode_I_shape op w) as [E1 E2]; [done|..|done|done|];
      [unfold w, encode_I, u16; pow_consts; Z.div_mod_to_equations; lia|].
    rewrite Decode_rs, Decode_rt, E1, E2.
    split_and!; [done|..]; unfold w, encode_I, u16; pow_consts; Z.div_mod_to_equations; lia.
  - intros Hfm. set (w := encode_J op target).
    assert (0 <= w) as Hw by (unfold w, encode_J; lia).
    destruct (Decode_J_shape op w) as [E1 E2]; [done|..|done|];
      [unfold w, encode_J; pow_consts; Z.div_mod_to_equations; lia|].
    rewrite E1, E2. split; [done|]. unfold w, encode_J. pow_consts. Z.div_mod_to_equations. lia.
  - intros w [Hw _]. by apply Decode_ok.
Qed.

Lemma Decode_encode_witness :
  Decode (encode_R 0 29 31 2 0 0x21) = mkInstruction 0x3bf1021 OP_ADDU 29 31 2 0 /\
  extra (Decode (encode_I 9 29 29 (-24))) = -24.
Proof.
  destruct (Decode_encode 9 29 31 2 0 0x21 (-24) 0) as (H1 & H2 & _); try lia.
  destruct (Decode_encode 9 29 29 2 0 0x21 (-24) 0) as (_ & H3 & _); try lia.
  split; [exact H1|]. apply H3; [reflexivity|discriminate].
Defined.

(** ** Running user code is safe *)

(** The value is as [P] says, or the fault is one [F] allows. *)
Definition outcome_in {A} (P : A -> Prop) (F : fault -> Prop) (r : res A) : Prop :=
  match r with Ok a => P a | Err f => F f end.

Lemma outcome_bind {A B} (P : A -> Prop) (Q : B -> Prop) F (m : res A) (f : A -> res B) :
  outcome_in P F m -> (forall a, P a -> outcome_in Q F (f a)) -> outcome_in Q F (bindr m f).
Proof. destruct m; cbn; auto. Qed.

Lemma outcome_mono {A} (P Q : A -> Prop) (F G : fault -> Prop) r :
  (forall a, P a -> Q a) -> (forall f, F f -> G f) -> outcome_in P F r -> outcome_in Q G r.
Proof. destruct r; cbn; auto. Qed.

(** The register file is well typed; LoadReg holds a register number. *)
Record regs_ok (m : Machine) : Prop := {
  regs_len : length (registers m) = 40%nat;
  regs_s32 : Forall is_s32 (registers m);
  regs_load : 0 <= reg m LoadReg < 32
}.

(** What the processor needs of a kernel: an invariant that user code cannot
    break and that the trap handler and the clock tick keep. *)
Class SafeKernel (K : Type) `{!Kernel K} := {
  KInv : K -> Prop;
  KFault : fault -> Prop;
  KInv_machine : forall k, KInv k -> wf (machine k) /\ regs_ok (machine k);
  KInv_user : forall k m, KInv k -> user_change (machine k) m -> regs_ok m -> KInv (set_machine m k);
  KInv_status : forall k s, KInv k -> KInv (setStatus s k);
  KInv_handler : forall e k, KInv k -> reg (machine k) 0 = 0 ->
    outcome_in (fun k' => KInv k' /\ reg (machine k') 0 = 0) KFault (ExceptionHandler e k);
  KInv_tick : forall k, KInv k -> reg (machine k) 0 = 0 ->
    outcome_in (fun k' => KInv k' /\ reg (machine k') 0 = 0) KFault (OneTick k)
}.

Lemma reg_set_reg i j v m :
  0 <= i < zlen (registers m) -> 0 <= j ->
  reg (set_reg i v m) j = if decide (i = j) then v else reg m j.
Proof.
  intros Hi Hj. unfold reg, set_reg. cbn. case_decide as E.
  - subst. apply list_lookup_total_insert_eq. lia.
  - apply list_lookup_total_insert_ne. lia.
Qed.

Lemma reg_s32 m i : regs_ok m -> 0 <= i < 40 -> is_s32 (reg m i).
Proof.
  intros [Hl Hs _] Hi. unfold reg.
  destruct (lookup_lt_is_Some_2 (registers m) (Z.to_nat i)) as [v Hv]; [lia|].
  rewrite (list_lookup_total_correct _ _ _ Hv). eapply Forall_lookup_1; done.
Qed.

Lemma set_reg_ok i v m :
  regs_ok m -> 0 <= i < 40 -> is_s32 v -> (i = LoadReg -> 0 <= v < 32) -> regs_ok (set_reg i v m).
Proof.
  intros Hm Hi Hv Hl. pose proof (regs_len _ Hm) as Hlen. split.
  - cbn. by rewrite length_insert.
  - cbn. apply Forall_insert; [apply Hm|done].
  - rewrite reg_set_reg by (rewrite ?Hlen; unfold LoadReg in *; lia).
    case_decide as E; [auto|apply Hm].
Qed.

(** The closure of the 32-bit integers under the operators of the simulator. *)
Lemma s32_top z : is_s32 z <-> Z.shiftr z 31 = 0 \/ Z.shiftr z 31 = -1.
Proof.
  rewrite Z.shiftr_div_pow2 by lia. change (2 ^ 31) with 2147483648.
  split; word_lia.
Qed.

Lemma s32_land a b : is_s32 a -> is_s32 b -> is_s32 (Z.land a b).
Proof. rewrite !s32_top, Z.shiftr_land. intros [->| ->] [->| ->]; cbn; auto. Qed.
Lemma s32_lor a b : is_s32 a -> is_s32 b -> is_s32 (Z.lor a b).
Proof. rewrite !s32_top, Z.shiftr_lor. intros [->| ->] [->| ->]; cbn; auto. Qed.
Lemma s32_lxor a b : is_s32 a -> is_s32 b -> is_s32 (Z.lxor a b).
Proof. rewrite !s32_top, Z.shiftr_lxor. intros [->| ->] [->| ->]; cbn; auto. Qed.
Lemma s32_lnot a : is_s32 a -> is_s32 (Z.lnot a).
Proof. unfold is_s32, Z.lnot. lia. Qed.
Lemma s32_shiftr a n : 0 <= n -> is_s32 a -> is_s32 (Z.shiftr a n).
Proof.
  intros Hn Ha. rewrite Z.shiftr_div_pow2 by lia. pose proof (Z.pow_pos_nonneg 2 n).
  unfold is_s32 in *. split; [apply Z.div_le_lower_bound; nia|apply Z.div_lt_upper_bound; nia].
Qed.
Lemma s32_mask a m : 0 <= m < 2 ^ 31 -> is_s32 (Z.land a m).
Proof. intros. pose proof (land_range 31 a m ltac:(lia) ltac:(lia)). unfold is_s32. lia. Qed.
Lemma s32_of_bool (b : bool) : is_s32 (if b then 1 else 0).
Proof. by destruct b. Qed.
Lemma s32_quot a b :
  is_s32 a -> b <> 0 -> ~ (a = - 2 ^ 31 /\ b = -1) -> is_s32 (Z.quot a b).
Proof.
  intros Ha Hb Hn. assert (Z.abs a <= 2 ^ 31) as Habs by (unfold is_s32 in *; lia).
  pose proof (Z.quot_abs a b Hb) as Hq. rewrite Z.quot_div_nonneg in Hq by lia.
  destruct (Z.eq_dec b 1) as [->|]; [by rewrite Z.quot_1_r|].
  destruct (Z.eq_dec b (-1)) as [->|].
  - change (-1) with (- (1)). rewrite Z.quot_opp_r, Z.quot_1_r by done. unfold is_s32 in *. lia.
  - assert (Z.abs a / Z.abs b <= 2 ^ 30) by (apply Z.div_le_upper_bound; lia).
    unfold is_s32 in *. lia.
Qed.
Lemma s32_rem a b : is_s32 a -> b <> 0 -> is_s32 (Z.rem a b).
Proof.
  intros Ha Hb. pose proof (Z.rem_abs a b Hb) as Hr. rewrite Z.rem_mod_nonneg in Hr by lia.
  pose proof (Z.mod_le (Z.abs a) (Z.abs b)). pose proof (Z.rem_sign_nz a b Hb).
  pose proof (Z.rem_sign a b).
  destruct (Z.eq_dec (Z.rem a b) 0) as [->|]; [done|]. unfold is_s32 in *. lia.
Qed.
#[export] Hint Resolve s32_land s32_lor s32_lxor s32_lnot s32_shiftr s32_of_bool s32_quot s32_rem : words.

Section Safety.
Context {host : Host} {K : Type} `{!Kernel K, !KernelLaws K, !SafeKernel K}.
Implicit Types k : K.

Definition Trapped k : Prop := KInv k /\ reg (machine k) 0 = 0.

Lemma R_s32 k i : KInv k -> 0 <= i < 40 -> is_s32 (R k i).
Proof. intros [_ Hr]%KInv_machine. by apply reg_s32. Qed.

Lemma setR_inv i v k :
  KInv k -> 0 <= i < 40 -> is_s32 v -> i <> LoadReg -> KInv (setR i v k).
Proof.
  intros Hk Hi Hv Hl. destruct (KInv_machine _ Hk) as [_ Hr].
  apply KInv_user; [done|apply set_reg_change|]. by apply set_reg_ok.
Qed.

Lemma DelayedLoad_inv m r v :
  regs_ok m -> 0 <= r < 32 -> is_s32 v ->
  exists m', DelayedLoad m r v = Ok m' /\ user_change m m' /\ regs_ok m' /\ reg m' 0 = 0.
Proof.
  intros Hm Hr Hv. pose proof (regs_load _ Hm) as Hl. pose proof (regs_len _ Hm) as Hlen.
  unfold DelayedLoad. rewrite aset_in by lia. cbn [bindr]. eexists. split; [done|].
  assert (regs_ok (set_reg (reg m LoadReg) (reg m LoadValueReg) m)) as H1.
  { apply set_reg_ok; [done|lia|by apply reg_s32|]. unfold LoadReg in *. lia. }
  assert (regs_ok (set_reg LoadReg r (set_reg (reg m LoadReg) (reg m LoadValueReg) m))) as H2.
  { apply set_reg_ok; [done|done| |done]. unfold is_s32. lia. }
  assert (regs_ok (set_reg LoadValueReg v (set_reg LoadReg r
            (set_reg (reg m LoadReg) (reg m LoadValueReg) m)))) as H3 by by apply set_reg_ok.
  split; [|split].
  - repeat (etransitivity; [|apply set_reg_change]). done.
  - by apply set_reg_ok.
  - pose proof (regs_len _ H3) as Hl3. unfold reg, set_reg in *. cbn in *.
    apply list_lookup_total_insert_eq. lia.
Qed.

Lemma RaiseException_safe e bad k :
  KInv k -> is_s32 bad -> outcome_in Trapped KFault (RaiseException e bad k).
Proof.
  intros Hk Hb. destruct (KInv_machine _ Hk) as [_ Hr]. unfold RaiseException.
  destruct (DelayedLoad_inv (set_reg BadVAddrReg bad (machine k)) 0 0) as (m & -> & Hu & Hm & H0);
    [by apply set_reg_ok|done..|]. cbn [bindr].
  apply outcome_bind with Trapped.
  - apply KInv_handler.
    + apply KInv_status, KInv_user; [done| |done]. etransitivity; [apply set_reg_change|done].
    + by rewrite machine_setStatus, machine_set_machine.
  - intros k' [Hk' H0']. cbn. split; [by apply KInv_status|]. by rewrite machine_setStatus.
Qed.

Lemma Translate_safe k addr size w :
  KInv k -> access_size size ->
  exists m r, Translate (machine k) addr size w = Ok (m, r) /\ KInv (set_machine m k) /\
    (forall pa, r = inr pa -> 0 <= pa /\ pa + size <= MemorySize) /\
    wf m /\ registers m = registers (machine k).
Proof.
  intros Hk Hs. destruct (KInv_machine _ Hk) as [Hwf Hr].
  destruct (translates_total (machine k) addr size w Hwf Hs) as (m & r & Ht & Htr).
  exists m, r. split; [done|].
  destruct (Translate_change _ _ _ _ _ _ Hwf Ht) as (Hu & Hreg & Hmem).
  split; [|split; [|split; [by apply Hu|done]]].
  - apply KInv_user; [done|done|]. destruct Hr. split; unfold reg in *; by rewrite Hreg.
  - intros pa ->. inversion Htr as [| | | | |m1 e Ha He Hro Hfr]; subst.
    apply (phys_fits (machine k) addr); [done|done|]. unfold phys. rewrite He. cbn.
    by rewrite (proj2 (Z.ltb_lt _ _)) by lia.
Qed.

Lemma extend_s32 size v : access_size size -> is_s32 (extend size v).
Proof. unfold extend. intros [->|[->| ->]]; cbn [Z.eqb Pos.eqb]; word_lia. Qed.

Lemma ReadMem_safe addr size k :
  KInv k -> is_s32 addr -> access_size size ->
  outcome_in (fun r => KInv (fst r) /\
    match snd r with None => reg (machine (fst r)) 0 = 0 | Some v => is_s32 v end)
    KFault (ReadMem addr size k).
Proof.
  intros Hk Ha Hs. unfold ReadMem.
  destruct (Translate_safe k addr size false Hk Hs) as (m & r & -> & Hk' & Hpa & Hwf & _).
  cbn [bindr]. destruct r as [e|pa].
  - apply outcome_bind with Trapped; [by apply RaiseException_safe|]. done.
  - destruct (Hpa pa eq_refl) as [H0 H1].
    rewrite machine_set_machine, read_data_le; [|done|apply Hwf|done|by rewrite (wf_memory _ Hwf)].
    cbn. split; [done|]. by apply extend_s32.
Qed.

Lemma WriteMem_safe addr size v k :
  KInv k -> is_s32 addr -> access_size size ->
  outcome_in (fun r => KInv (fst r) /\ (snd r = false -> reg (machine (fst r)) 0 = 0))
    KFault (WriteMem addr size v k).
Proof.
  intros Hk Ha Hs. unfold WriteMem.
  destruct (Translate_safe k addr size true Hk Hs) as (m & r & -> & Hk' & Hpa & Hwf & Hreg).
  cbn [bindr]. destruct r as [e|pa].
  - apply outcome_bind with Trapped; [by apply RaiseException_safe|]. by intros k' [??].
  - destruct (Hpa pa eq_refl) as [H0 H1].
    rewrite machine_set_machine, write_data_le; [|done|done|by rewrite (wf_memory _ Hwf)].
    cbn. split; [|done]. apply KInv_user; [done| |].
    + rewrite machine_set_machine. split; try done. intros _.
      assert (zlen (le_bytes (Z.to_nat size) v) = size) as Hl
        by (rewrite length_le_bytes; destruct Hs as [->|[->| ->]]; done).
      pose proof (wf_memory _ Hwf) as Hlen.
      apply wf_set_mainMemory; [done|rewrite length_patch; lia|].
      apply patch_bytes; [apply Hwf|apply le_bytes_range].
    + destruct (KInv_machine _ Hk) as [_ []]. split; unfold reg in *; cbn; by rewrite Hreg.
Qed.


(** The state in which the switch may be left. *)
Definition switch_ok (o : outcome K) : Prop :=
  match o with
  | Return k => Trapped k
  | Break k pcAfter nextLoadReg nextLoadValue =>
      KInv k /\ is_s32 pcAfter /\ 0 <= nextLoadReg < 32 /\ is_s32 nextLoadValue
  end.

(** The faults of the processor itself: the ASSERT on an unaligned LWL, LWR,
    SWL or SWR, and the host's trap on INT_MIN / -1. *)
Definition switch_fault (i : Instruction) (k : K) (f : fault) : Prop :=
  KFault f \/
  (f = AssertionFailed /\
   (opCode i = OP_LWL \/ opCode i = OP_LWR \/ opCode i = OP_SWL \/ opCode i = OP_SWR) /\
   Z.land (s32 (R k (rs i) + extra i)) 0x3 <> 0) \/
  (f = DivideError /\ opCode i = OP_DIV /\ R k (rs i) = - 2 ^ 31 /\ R k (rt i) = -1).

Definition safe_switch (i : Instruction) (k : K) (r : res (outcome K)) : Prop :=
  outcome_in switch_ok (switch_fault i k) r.

Lemma Break_ok i k0 k pc r v :
  KInv k -> is_s32 pc -> 0 <= r < 32 -> is_s32 v -> safe_switch i k0 (Ok (Break k pc r v)).
Proof. done. Qed.

Lemma assign_safe i k0 j v k pc :
  KInv k -> is_s32 pc -> 0 <= j < 37 -> is_s32 v -> safe_switch i k0 (assign j v k pc).
Proof.
  intros. split_and!; [|done..]. apply setR_inv; try done; [lia|]. unfold LoadReg. lia.
Qed.

Lemma trap_safe i k0 e bad k : KInv k -> is_s32 bad -> safe_switch i k0 (trap e bad k).
Proof.
  intros. unfold trap. apply outcome_bind with Trapped; [|done].
  eapply outcome_mono; [| |by apply RaiseException_safe]; [done|]. by left.
Qed.

Lemma store_safe i k0 addr size v k pc :
  KInv k -> is_s32 addr -> access_size size -> is_s32 pc -> safe_switch i k0 (store addr size v k pc).
Proof.
  intros Hk Ha Hs Hpc. unfold store, safe_switch.
  pose proof (WriteMem_safe addr size v k Hk Ha Hs) as Hw.
  destruct (WriteMem addr size v k) as [[k' []]|f]; cbn in *.
  - destruct Hw. by split_and!.
  - destruct Hw. split; auto.
  - by left.
Qed.

Lemma read_safe i k0 addr size k (f : K -> Z -> res (outcome K)) :
  KInv k -> is_s32 addr -> access_size size ->
  (forall k' v, KInv k' -> is_s32 v -> safe_switch i k0 (f k' v)) ->
  safe_switch i k0 ('(k', v) <- ReadMem addr size k ;;
                    match v with None => Ok (Return k') | Some v => f k' v end).
Proof.
  intros Hk Ha Hs Hf. pose proof (ReadMem_safe addr size k Hk Ha Hs) as Hr.
  destruct (ReadMem addr size k) as [[k' [v|]]|e]; cbn in *.
  - destruct Hr. auto.
  - destruct Hr. by split.
  - by left.
Qed.

Lemma assert_safe i k0 b (r : res (outcome K)) :
  (b = false -> switch_fault i k0 AssertionFailed) -> (b = true -> safe_switch i k0 r) ->
  safe_switch i k0 (_ <- ASSERT b ;; r).
Proof. destruct b; cbn; auto. Qed.

Lemma size_1 : access_size 1.
Proof. by left. Qed.
Lemma size_2 : access_size 2.
Proof. right. by left. Qed.
Lemma size_4 : access_size 4.
Proof. right. by right. Qed.

Lemma s32_IndexToAddr x : is_s32 (IndexToAddr x).
Proof. apply s32_range. Qed.

Lemma R_setR_ne j i v k : KInv k -> 0 <= i < 40 -> 0 <= j < 40 -> i <> j -> R (setR i v k) j = R k j.
Proof.
  intros Hk Hi Hj Hne. destruct (KInv_machine _ Hk) as [_ Hr]. unfold R, setR.
  rewrite machine_set_machine, reg_set_reg by (rewrite ?(regs_len _ Hr); lia).
  by case_decide.
Qed.

Context (i : Instruction) (Hi : instruction_ok i).

Ltac reg_tac :=
  first [ done | lia | apply Hi | apply Z.land_nonneg; right; done | unfold NextPCReg, HiReg, LoReg, LoadReg, LoadValueReg in *; lia
        | destruct Hi; lia ].

Ltac s32_tac :=
  repeat first
    [ apply s32_range | apply s32_IndexToAddr | assumption
    | apply R_s32;
        [first [assumption | apply setR_inv; [assumption|reg_tac|s32_tac|unfold R31, LoReg, HiReg, LoadReg; reg_tac]]
        |reg_tac]
    | apply ok_extra; exact Hi
    | apply s32_mask; done
    | apply s32_land | apply s32_lor | apply s32_lxor | apply s32_lnot
    | apply s32_shiftr; [reg_tac|]
    | match goal with |- is_s32 (if ?b then _ else _) => destruct b end
    | done ].

Ltac inv_tac :=
  repeat first [ assumption | apply setR_inv; [|reg_tac| |unfold R31, LoReg, HiReg, LoadReg; reg_tac] ];
  try s32_tac.

Ltac case_tac :=
  cbv zeta;
  repeat first
    [ apply assign_safe; [inv_tac|s32_tac|destruct Hi; unfold HiReg, LoReg in *; lia|s32_tac]
    | apply trap_safe; [inv_tac|s32_tac]
    | apply store_safe; [inv_tac|s32_tac|solve [apply size_1|apply size_2|apply size_4]|s32_tac]
    | apply read_safe; [inv_tac|s32_tac|solve [apply size_1|apply size_2|apply size_4]|intros]
    | apply Break_ok; [inv_tac|s32_tac|destruct Hi; lia|s32_tac]
    | apply assert_safe; [intros ?%Z.eqb_neq; right; left; tauto|intros _]
    | match goal with |- safe_switch _ _ (if ?b then _ else _) => destruct b eqn:? end ].

Lemma execute_safe k pc : KInv k -> is_s32 pc -> safe_switch i k (execute i k pc).
Proof.
  intros Hk Hpc. pose proof (ok_op _ Hi) as Hex. unfold execute.
  destruct (opCode i) eqn:E; try discriminate Hex; cbv iota beta;
    try (unfold exec_div_jump; rewrite E; cbv iota beta);
    try (unfold exec_load; rewrite E; cbv iota beta);
    try (unfold exec_mult_logic; rewrite E; cbv iota beta);
    try (unfold exec_shift_compare; rewrite E; cbv iota beta);
    try (unfold exec_store_word; rewrite E; cbv iota beta);
    try (unfold exec_system; rewrite E; cbv iota beta);
    try pose proof (ok_shamt _ Hi ltac:(auto)); try (case_tac; fail).
  - case_tac.
    + apply andb_true_iff in Heqb0 as [?%Z.eqb_eq ?%Z.eqb_eq]. right. right. done.
    + apply Z.eqb_neq in Heqb. apply s32_quot; [by apply R_s32; reg_tac..|done|].
      intros [E1 E2]. rewrite E1, E2 in Heqb0. done.
    + rewrite !R_setR_ne by (try done; destruct Hi; unfold LoReg; lia).
      apply Z.eqb_neq in Heqb. apply s32_rem; [apply R_s32; reg_tac|done].
  - destruct (Mult_s32 (R k (rs i)) (R k (rt i)) true) as (hi & lo & -> & ? & ?);
      [apply R_s32; reg_tac..|]. cbn [bindr]. case_tac.
  - destruct (Mult_s32 (R k (rs i)) (R k (rt i)) false) as (hi & lo & -> & ? & ?);
      [apply R_s32; reg_tac..|]. cbn [bindr]. case_tac.
Qed.
End Safety.

Section RunSafety.
Context {host : Host} {K : Type} `{!Kernel K, !KernelLaws K, !SafeKernel K}.
Implicit Types k : K.

(** The faults of one instruction: those of the kernel it traps into and those
    of the instruction fetched. *)
Definition step_fault k (f : fault) : Prop :=
  KFault f \/
  exists k1 raw, ReadMem (R k PCReg) 4 k = Ok (k1, Some raw) /\
                 switch_fault (Decode (u32 raw)) k1 f.

Lemma OneInstruction_inv k : KInv k -> outcome_in Trapped (step_fault k) (OneInstruction k).
Proof.
  intros Hk. unfold OneInstruction.
  pose proof (ReadMem_safe (R k PCReg) 4 k Hk (R_s32 k PCReg Hk ltac:(done)) size_4) as Hr.
  destruct (ReadMem (R k PCReg) 4 k) as [[k1 [raw|]]|f] eqn:E; cbn in Hr |- *;
    [|by destruct Hr; split|by left].
  destruct Hr as [Hk1 Hraw].
  pose proof (execute_safe (Decode (u32 raw)) (Decode_ok _ (proj1 (u32_range raw))) k1
    (s32 (R k1 NextPCReg + 4)) Hk1 (s32_range _)) as Hx.
  destruct (execute _ _ _) as [[k2|k2 pc r v]|f]; cbn in Hx |- *; [done| |by right; eauto].
  destruct Hx as (Hk2 & Hpc & Hr & Hv). destruct (KInv_machine _ Hk2) as [_ Hm2].
  destruct (DelayedLoad_inv (machine k2) r v Hm2 Hr Hv) as (m & -> & Hu & Hm & H0). cbn.
  assert (KInv (set_machine m k2)) as Hk3 by by apply KInv_user.
  assert (R (set_machine m k2) 0 = 0) as R0 by (unfold R; by rewrite machine_set_machine).
  match goal with |- Trapped (setR _ _ (setR _ _ (setR _ ?v1 ?k3))) =>
    assert (KInv (setR PrevPCReg v1 k3)) as Hk4
      by (apply setR_inv; [done|done|by apply R_s32|done]);
    assert (KInv (setR PCReg (R (setR PrevPCReg v1 k3) NextPCReg) (setR PrevPCReg v1 k3))) as Hk5
      by (apply setR_inv; [done|done|by apply R_s32|done]);
    assert (R (setR PrevPCReg v1 k3) 0 = 0) as R1 by by rewrite R_setR_ne
  end.
  split; [by apply setR_inv|]. change (reg (machine ?x) 0) with (R x 0).
  by rewrite !R_setR_ne.
Qed.

Lemma Run_rounds_inv n k :
  Trapped k ->
  outcome_in Trapped
    (fun f => exists j k', (j < n)%nat /\ Run_rounds j k = Ok k' /\ step_fault k' f) (Run_rounds n k).
Proof.
  revert k. induction n as [|n IH]; intros k Hk; [done|]. cbn [Run_rounds].
  pose proof (OneInstruction_inv k (proj1 Hk)) as H1.
  destruct (OneInstruction k) as [k1|f] eqn:E1; cbn in H1 |- *; [|by exists 0%nat, k; eauto with lia].
  pose proof (KInv_tick k1 (proj1 H1) (proj2 H1)) as H2.
  destruct (OneTick k1) as [k2|f] eqn:E2; cbn in H2 |- *.
  - eapply outcome_mono; [| |by apply IH]; [done|]. cbn. intros f (j & k' & Hj & Hr & Hf).
    exists (S j), k'. cbn. rewrite E1. cbn. rewrite E2. cbn. eauto with lia.
  - exists 0%nat, k. split; [lia|]. split; [done|]. by left.
Qed.

(** C28: simulating user code is safe: from any state that satisfies the
    kernel's invariant, however many instructions are run and whatever words
    they are, the simulator keeps its registers 32-bit integers, R0 zero and
    memory and page tables well formed, never reads or writes outside its
    arrays, and never reaches the ASSERT(FALSE) of an unknown opcode; the only
    faults are the kernel's own, the ASSERT on an unaligned LWL, LWR, SWL or
    SWR, and the host's trap on a division of INT_MIN by -1. *)
Theorem Run_safe (n : nat) (k : K) :
  KInv k -> reg (machine k) 0 = 0 ->
  match Run n k with
  | Ok k' => KInv k' /\ reg (machine k') 0 = 0
  | Err f => exists j k', (j < n)%nat /\ Run j k = Ok k' /\ step_fault k' f
  end.
Proof.
  intros Hk H0. unfold Run.
  pose proof (Run_rounds_inv n (setStatus UserMode k)) as Hr.
  destruct (Run_rounds n (setStatus UserMode k)); apply Hr;
    (split; [by apply KInv_status|by rewrite machine_setStatus]).
Qed.
End RunSafety.

#[export] Instance bare_safe : SafeKernel bare.
Proof.
  refine (Build_SafeKernel bare _ (fun k => wf (fst k) /\ regs_ok (fst k)) (fun _ => False) _ _ _ _ _).
  - done.
  - intros k m [Hwf _] Hu Hm. split; [by apply Hu|done].
  - done.
  - done.
  - done.
Defined.

(** addu $2, $0, $0 at address 0. *)
Lemma Run_safe_witness :
  match Run (host := i386) (K := bare) 3 (demo_machine, SystemMode) with
  | Ok k' => KInv k' /\ reg (machine k') 0 = 0
  | Err f => exists j k', (j < 3)%nat /\ Run (host := i386) (K := bare) j (demo_machine, SystemMode) = Ok k' /\
      step_fault (host := i386) k' f
  end.
Proof.
  apply (Run_safe (host := i386) (K := bare) 3 (demo_machine, SystemMode)).
  - split; [exact demo_wf|]. split; [reflexivity| |].
    + apply Forall_replicate. unfold is_s32. lia.
    + vm_compute. split; congruence.
  - reflexivity.
Defined.

(** ** The instruction set as the manual states it

    What an instruction computes, in terms of integers rather than of the bit
    tricks of the simulator. *)
Inductive effect :=
| Writes (r v : Z)
| Overflows
| Goes (pc : Z)
| Links (r pc : Z).

Definition in_range (v : Z) : bool := (- 2 ^ 31 <=? v) && (v <? 2 ^ 31).

Section Reference.
(** [a] and [b] are the registers rs and rt, [hi] and [lo] the results of the
    multiplier, [next] the address of the delay slot. *)
Variables (i : Instruction) (a b hi lo next : Z).

Definition checked (r v : Z) : effect := if in_range v then Writes r v else Overflows.
Definition branch_if (c : bool) : effect :=
  Goes (s32 (if c then next + 4 * extra i else next + 4)).

Definition reference : option effect :=
  match opCode i with
  | OP_ADD => Some (checked (rd i) (a + b))
  | OP_ADDI => Some (checked (rt i) (a + extra i))
  | OP_SUB => Some (checked (rd i) (a - b))
  | OP_ADDU => Some (Writes (rd i) (s32 (a + b)))
  | OP_ADDIU => Some (Writes (rt i) (s32 (a + extra i)))
  | OP_SUBU => Some (Writes (rd i) (s32 (a - b)))
  | OP_AND => Some (Writes (rd i) (Z.land a b))
  | OP_XOR => Some (Writes (rd i) (Z.lxor a b))
  | OP_MFHI => Some (Writes (rd i) hi)
  | OP_MFLO => Some (Writes (rd i) lo)
  | OP_MTHI => Some (Writes HiReg a)
  | OP_MTLO => Some (Writes LoReg a)
  | OP_ANDI => Some (Writes (rt i) (Z.land a (u16 (extra i))))
  | OP_ORI => Some (Writes (rt i) (Z.lor a (u16 (extra i))))
  | OP_XORI => Some (Writes (rt i) (Z.lxor a (u16 (extra i))))
  | OP_NOR => Some (Writes (rd i) (-1 - Z.lor a b))
  | OP_LUI => Some (Writes (rt i) (s32 (extra i * 2 ^ 16)))
  | OP_SLLV => Some (Writes (rd i) (s32 (b * 2 ^ (a mod 32))))
  | OP_SRAV => Some (Writes (rd i) (b / 2 ^ (a mod 32)))
  | OP_SLL => Some (Writes (rd i) (s32 (b * 2 ^ extra i)))
  | OP_SRA => Some (Writes (rd i) (b / 2 ^ extra i))
  | OP_SLT => Some (Writes (rd i) (if a <? b then 1 else 0))
  | OP_SLTI => Some (Writes (rt i) (if a <? extra i then 1 else 0))
  | OP_SLTU => Some (Writes (rd i) (if a mod 2 ^ 32 <? b mod 2 ^ 32 then 1 else 0))
  | OP_SLTIU => Some (Writes (rt i) (if a mod 2 ^ 32 <? extra i mod 2 ^ 32 then 1 else 0))
  | OP_BEQ => Some (branch_if (a =? b))
  | OP_BNE => Some (branch_if (negb (a =? b)))
  | OP_BGEZ => Some (branch_if (0 <=? a))
  | OP_BLTZ => Some (branch_if (a <? 0))
  | OP_BGTZ => Some (branch_if (0 <? a))
  | OP_BLEZ => Some (branch_if (a <=? 0))
  | OP_J => Some (Goes (s32 (u32 next / 2 ^ 28 * 2 ^ 28 + 4 * extra i)))
  | OP_JAL => Some (Links R31 (s32 (u32 next / 2 ^ 28 * 2 ^ 28 + 4 * extra i)))
  | OP_JR => Some (Goes a)
  | _ => None
  end.
End Reference.

Definition perform {host : Host} {K} `{!Kernel K} (e : effect) (k : K) : res (outcome K) :=
  let pcAfter := s32 (R k NextPCReg + 4) in
  match e with
  | Writes r v => Ok (Break (setR r v k) pcAfter 0 0)
  | Overflows => trap OverflowException 0 k
  | Goes pc => Ok (Break k pc 0 0)
  | Links r pc => Ok (Break (setR r pcAfter k) pc 0 0)
  end.

(** The sign-bit test of the simulator. *)
Lemma sign_bit_test v : is_s32 v -> negb (Z.land (u32 v) SIGN_BIT =? 0) = (v <? 0).
Proof.
  intros Hv. unfold SIGN_BIT. rewrite bit31_test by apply u32_range.
  change (2 ^ 31) with 2147483648.
  destruct (Z.ltb_spec v 0), (Z.ltb_spec (u32 v) 2147483648); try done; word_lia.
Qed.

Lemma lxor_sign a b : is_s32 a -> is_s32 b -> (Z.lxor a b <? 0) = xorb (a <? 0) (b <? 0).
Proof.
  intros Ha Hb. destruct (Z.ltb_spec a 0), (Z.ltb_spec b 0); cbn;
    [apply Z.ltb_ge|apply Z.ltb_lt|apply Z.ltb_lt|apply Z.ltb_ge];
    rewrite ?Z.lxor_nonneg; try lia.
  - destruct (Z.lt_ge_cases (Z.lxor a b) 0) as [|Hn]; [done|]. apply Z.lxor_nonneg in Hn. lia.
  - destruct (Z.lt_ge_cases (Z.lxor a b) 0) as [|Hn]; [done|]. apply Z.lxor_nonneg in Hn. lia.
Qed.

(** The overflow tests of OP_ADD, OP_ADDI and OP_SUB are exact. *)
Lemma add_overflow_test a b c :
  is_s32 a -> is_s32 b -> c = a \/ c = b ->
  negb (negb (Z.land (u32 (Z.lxor a b)) SIGN_BIT =? 0)) &&
  negb (Z.land (u32 (Z.lxor c (s32 (a + b)))) SIGN_BIT =? 0) = negb (in_range (a + b)).
Proof.
  intros Ha Hb Hc. assert (is_s32 c) by (destruct Hc; subst; done).
  pose proof (s32_range (a + b)) as Hs.
  rewrite !sign_bit_test, !lxor_sign by auto using s32_lxor.
  unfold in_range. change (2 ^ 31) with 2147483648. unfold_words.
  destruct Hc; subst c;
  destruct (Z.ltb_spec a 0), (Z.ltb_spec b 0),
    (Z.ltb_spec ((a + b + 2147483648) mod 4294967296 - 2147483648) 0),
    (Z.leb_spec (- (2147483648)) (a + b)), (Z.ltb_spec (a + b) 2147483648); cbn; try done;
    exfalso; Z.div_mod_to_equations; lia.
Qed.

Lemma sub_overflow_test a b :
  is_s32 a -> is_s32 b ->
  negb (Z.land (u32 (Z.lxor a b)) SIGN_BIT =? 0) &&
  negb (Z.land (u32 (Z.lxor a (s32 (a - b)))) SIGN_BIT =? 0) = negb (in_range (a - b)).
Proof.
  intros Ha Hb. pose proof (s32_range (a - b)) as Hs.
  rewrite !sign_bit_test, !lxor_sign by auto using s32_lxor.
  unfold in_range. change (2 ^ 31) with 2147483648. unfold_words.
  destruct (Z.ltb_spec a 0), (Z.ltb_spec b 0),
    (Z.ltb_spec ((a - b + 2147483648) mod 4294967296 - 2147483648) 0),
    (Z.leb_spec (- (2147483648)) (a - b)), (Z.ltb_spec (a - b) 2147483648); cbn; try done;
    exfalso; Z.div_mod_to_equations; lia.
Qed.

Lemma in_range_s32 v : in_range v = true -> s32 v = v.
Proof. unfold in_range. intros [?%Z.leb_le ?%Z.ltb_lt]%andb_true_iff. by apply s32_small. Qed.

(** The jump target, put together of bits: a place in the 256 MB region of [pc]. *)
Lemma jump_target pc t :
  0 <= t < 2 ^ 26 ->
  s32 (Z.lor (Z.land pc 0xf0000000) (IndexToAddr t)) = s32 (u32 pc / 2 ^ 28 * 2 ^ 28 + 4 * t).
Proof.
  intros Ht. unfold IndexToAddr. rewrite Z.shiftl_mul_pow2 by lia.
  change (2 ^ 2) with 4. rewrite (s32_small (t * 4)) by (unfold is_s32; lia).
  assert (Z.land pc 0xf0000000 = u32 pc / 2 ^ 28 * 2 ^ 28) as ->.
  { change 0xf0000000 with (Z.shiftl (Z.ones 4) 28). unfold u32.
    rewrite <- Z.shiftr_div_pow2, <- Z.shiftl_mul_pow2, <- Z.land_ones by lia. prove_Zeq_bitwise. }
  f_equal. assert (4 * t = (4 * t) mod 2 ^ 28) as Hx by (symmetry; apply Z.mod_small; lia).
  replace (t * 4) with (4 * t) by lia. rewrite Hx. generalize (4 * t). intros x.
  symmetry. apply Z.add_nocarry_lor.
  rewrite <- Z.shiftl_mul_pow2, <- Z.land_ones by lia. 
  apply Z.bits_inj'. intros j Hj. rewrite Z.land_spec, Z.land_spec, Z.bits_0.
  destruct (Z.lt_ge_cases j 28).
  - by rewrite Z.shiftl_spec_low.
  - by rewrite Z.ones_spec_high, !andb_false_r by lia.
Qed.

Section Conformance.
Context {host : Host} {K : Type} `{!Kernel K}.

Lemma land_0xffff a : Z.land a 0xffff = u16 a.
Proof. exact (Z.land_ones a 16 ltac:(lia)). Qed.
Lemma land_0x1f a : Z.land a 0x1f = a mod 32.
Proof. exact (Z.land_ones a 5 ltac:(lia)). Qed.

Lemma gtb_ltb' a b : (a >? b) = (b <? a).
Proof. apply Z.gtb_ltb. Qed.

Lemma branch_target (c : bool) n x :
  (if c then s32 (n + IndexToAddr x) else s32 (n + 4)) = s32 (if c then n + 4 * x else n + 4).
Proof.
  destruct c; [|done]. unfold IndexToAddr. rewrite Z.shiftl_mul_pow2 by lia.
  change (2 ^ 2) with 4. word_lia.
Qed.

(** The delay slot [next] is not the last word of its region. *)
Definition same_region (next : Z) : Prop := u32 next / 2 ^ 28 = u32 (next + 4) / 2 ^ 28.

(** C5: for every arithmetic, logical, shift, comparison, move, branch and
    jump instruction of the table [reference], the simulator does exactly what the
    MIPS manual says in terms of the integers in its registers: ADD, ADDI and
    SUB trap exactly when the mathematical result does not fit in 32 bits,
    immediates are sign or zero extended as they should, unsigned comparisons
    compare modulo 2^32, branch targets are the delay slot plus four times the
    displacement and jump targets stay in the delay slot's 256 MB region.  The last is so
    unless the delay slot is the last word of a region (see [jump_deviates]): the
    theorem asks of J and JAL that the word behind the delay slot is in its region. *)
Theorem execute_reference (i : Instruction) (k : K) (e : effect) :
  regs_ok (machine k) -> instruction_ok i ->
  (opCode i = OP_J \/ opCode i = OP_JAL -> same_region (R k NextPCReg)) ->
  reference i (R k (rs i)) (R k (rt i)) (R k HiReg) (R k LoReg) (R k NextPCReg) = Some e ->
  execute i k (s32 (R k NextPCReg + 4)) = perform e k.
Proof.
  intros Hm Hi Hreg. set (pc := s32 (R k NextPCReg + 4)).
  assert (is_s32 (R k (rs i)) /\ is_s32 (R k (rt i))) as [Ha Hb]
    by (split; apply reg_s32; try done; destruct Hi; lia).
  pose proof (ok_extra _ Hi) as Hx. unfold reference, execute.
  destruct (opCode i) eqn:E; try discriminate; cbv iota beta zeta;
    try (unfold exec_div_jump; rewrite E; cbv iota beta zeta);
    try (unfold exec_load; rewrite E; cbv iota beta zeta);
    try (unfold exec_mult_logic; rewrite E; cbv iota beta zeta);
    try (unfold exec_shift_compare; rewrite E; cbv iota beta zeta);
    try (unfold exec_store_word; rewrite E; cbv iota beta zeta);
    try (unfold exec_system; rewrite E; cbv iota beta zeta);
    intros [= <-]; unfold checked, branch_if, assign; cbn [perform]; try done;
    rewrite ?land_0xffff, ?land_0x1f, ?sign_bit_test, ?gtb_ltb' by done;
    rewrite ?Z.shiftl_mul_pow2, ?Z.shiftr_div_pow2 by
      (try apply Z.mod_pos_bound; pose proof (ok_shamt _ Hi); lia || naive_solver lia).
  all: subst pc; try done.
  - rewrite add_overflow_test by auto. destruct (in_range _) eqn:Hr; [|done].
    cbn. by rewrite (in_range_s32 _ Hr).
  - rewrite add_overflow_test by auto. destruct (in_range _) eqn:Hr; [|done].
    cbn. by rewrite (in_range_s32 _ Hr).
  - by rewrite branch_target.
  - by rewrite branch_target, Z.leb_antisym.
  - by rewrite branch_target.
  - by rewrite branch_target.
  - by rewrite branch_target.
  - by rewrite branch_target.
  - by rewrite jump_target, u32_s32, <- Hreg by (apply Hi || idtac; auto).
  - by rewrite jump_target, u32_s32, <- Hreg by (apply Hi || idtac; auto).
  - f_equal. f_equal. f_equal. unfold Z.lnot. lia.
  - rewrite sub_overflow_test by auto. destruct (in_range _) eqn:Hr; [|done].
    cbn. by rewrite (in_range_s32 _ Hr).
Qed.
End Conformance.

(** Nor does a jump whose delay slot is the last word of a region: the simulator takes
    the region of the word behind it, and lands 256 MB further on (or, from the last
    region of all, in the first). *)
Lemma jump_deviates {host : Host} {K} `{!Kernel K} (i : Instruction) (k : K) :
  instruction_ok i -> opCode i = OP_J -> ~ same_region (R k NextPCReg) ->
  exists there, reference i (R k (rs i)) (R k (rt i)) (R k HiReg) (R k LoReg) (R k NextPCReg) = Some (Goes there) /\
    execute i k (s32 (R k NextPCReg + 4)) = Ok (Break k (s32 (there + 2 ^ 28)) 0 0).
Proof.
  intros Hi Eo Hr. unfold reference, execute, exec_div_jump. rewrite Eo. eexists. split; [done|].
  cbv iota beta zeta. rewrite jump_target, u32_s32 by (apply Hi; auto). do 2 f_equal. unfold same_region in Hr.
  revert Hr. generalize (R k NextPCReg). intros n Hn. unfold_words. change (2 ^ 28) with 268435456 in *.
  change (2 ^ 32) with 4294967296 in *. Z.div_mod_to_equations. lia.
Qed.

(** Two instructions do not do what the manual says: OP_OR ignores its
    second operand, and OP_SRL and OP_SRLV shift in copies of the sign bit, so on
    a negative word shifted by at least one place the result differs from the
    logical shift the manual defines. *)
Theorem or_srl_deviate {host : Host} {K} `{!Kernel K} (i : Instruction) (k : K) (pc : Z) :
  regs_ok (machine k) -> instruction_ok i ->
  (opCode i = OP_OR -> execute i k pc = assign (rd i) (R k (rs i)) k pc) /\
  (opCode i = OP_SRL -> R k (rt i) < 0 -> 0 < extra i ->
     exists v, execute i k pc = assign (rd i) v k pc /\ v <> u32 (R k (rt i)) / 2 ^ extra i /\ v < 0) /\
  (opCode i = OP_SRLV -> R k (rt i) < 0 -> R k (rs i) mod 32 <> 0 ->
     exists v, execute i k pc = assign (rd i) v k pc /\
       v <> u32 (R k (rt i)) / 2 ^ (R k (rs i) mod 32) /\ v < 0).
Proof.
  intros Hm Hi.
  assert (forall n, 0 < n -> R k (rt i) < 0 ->
    Z.shiftr (R k (rt i)) n <> u32 (R k (rt i)) / 2 ^ n /\ Z.shiftr (R k (rt i)) n < 0) as Hsh.
  { intros n Hn Hneg. rewrite Z.shiftr_div_pow2 by lia. pose proof (Z.pow_pos_nonneg 2 n).
    assert (R k (rt i) / 2 ^ n < 0) by (apply Z.div_lt_upper_bound; lia).
    pose proof (u32_range (R k (rt i))) as [Hu _].
    assert (0 <= u32 (R k (rt i)) / 2 ^ n) by (apply Z.div_pos; lia). lia. }
  unfold execute. split; [|split]; intros E; rewrite E; cbv iota beta;
    unfold exec_div_jump; rewrite E; cbv iota beta; unfold exec_load; rewrite E; cbv iota beta;
    unfold exec_mult_logic; rewrite E; cbv iota beta; rewrite ?Z.lor_diag; try done;
    unfold exec_shift_compare; rewrite E; cbv iota beta zeta; intros Hneg Hn.
  - eexists. split; [done|]. by apply Hsh.
  - rewrite land_0x1f. eexists. split; [done|]. apply Hsh; [|done].
    pose proof (Z.mod_pos_bound (R k (rs i)) 32). lia.
Qed.

(** The register file used by the witnesses below. *)
Definition demo_registers : list Z := <[3%nat := - 2 ^ 31]> (<[4%nat := 1]> (replicate 40 0)).
Definition demo_cpu : bare := (set_registers demo_machine demo_registers, UserMode).

Lemma demo_cpu_ok : regs_ok (machine demo_cpu).
Proof.
  split; [reflexivity| |vm_compute; split; congruence].
  repeat apply Forall_insert; [apply Forall_replicate|..]; unfold is_s32; lia.
Qed.

Lemma demo_instruction_ok o x :
  executable_op o = true -> 0 <= x < 32 -> instruction_ok (mkInstruction 0 o 3 4 5 x) /\
  instruction_ok (mkInstruction 0 o 4 3 5 x).
Proof. intros. split; split; cbn; unfold is_s32; auto with lia. Qed.

Lemma execute_reference_witness :
  execute (host := i386) (K := bare) (mkInstruction 0 OP_SUB 3 4 5 0) demo_cpu
    (s32 (R (K := bare) demo_cpu NextPCReg + 4)) = perform (host := i386) Overflows demo_cpu.
Proof.
  apply (execute_reference (host := i386) (K := bare) (mkInstruction 0 OP_SUB 3 4 5 0) demo_cpu Overflows).
  - exact demo_cpu_ok.
  - apply demo_instruction_ok; [reflexivity|lia].
  - intros [H|H]; discriminate H.
  - reflexivity.
Defined.

Lemma or_srl_deviate_witness :
  exists v, execute (host := i386) (K := bare) (mkInstruction 0 OP_SRL 4 3 5 4) demo_cpu 4 =
              assign 5 v demo_cpu 4 /\ v <> u32 (- 2 ^ 31) / 2 ^ 4 /\ v < 0.
Proof.
  destruct (or_srl_deviate (host := i386) (K := bare) (mkInstruction 0 OP_SRL 4 3 5 4) demo_cpu 4
    demo_cpu_ok) as (_ & H & _).
  - apply demo_instruction_ok; [reflexivity|lia].
  - apply H; reflexivity.
Defined.
