(* ===== verification/Interp.v ===== *)
(** The stand-alone interpreter of MIPS programs (bin/execute.c with bin/instr.h,
    bin/int.h, bin/encode.h and bin/system.c): a program runs on a flat memory, without
    translation, exceptions or a kernel, and its system calls are those of the host.

    What the C of this file leaves to the machine it is compiled for are parameters:
    the byte order ([Host]), the count a shift makes of a number outside 0..31
    ([Shifts]), and the system calls of the host ([HostCalls]). *)
From Stdlib Require Import ZArith Lia Bool.
From stdpp Require Import base numbers list.
From coqutil Require Import Z.prove_Zeq_bitwise.
From S2P Require Import Prelude Machine Mips.

(** ** The instruction word *)
Module Encode.
Definition rd (i : Z) : Z := Z.land (Z.shiftr i 11) 0x1f.
Definition rt (i : Z) : Z := Z.land (Z.shiftr i 16) 0x1f.
Definition rs (i : Z) : Z := Z.land (Z.shiftr i 21) 0x1f.
Definition shamt (i : Z) : Z := Z.land (Z.shiftr i 6) 0x1f.
Definition immed (i : Z) : Z :=
  if negb (Z.land i 0x8000 =? 0) then Z.lor i (-0x8000) else Z.land i 0x7fff.

Definition I_SPECIAL : Z := 0.
Definition I_BCOND : Z := 1.
Definition I_J : Z := 2.
Definition I_JAL : Z := 3.
Definition I_BEQ : Z := 4.
Definition I_BNE : Z := 5.
Definition I_BLEZ : Z := 6.
Definition I_BGTZ : Z := 7.
Definition I_ADDI : Z := 8.
Definition I_ADDIU : Z := 9.
Definition I_SLTI : Z := 10.
Definition I_SLTIU : Z := 11.
Definition I_ANDI : Z := 12.
Definition I_ORI : Z := 13.
Definition I_XORI : Z := 14.
Definition I_LUI : Z := 15.
Definition I_COP0 : Z := 16.
Definition I_COP1 : Z := 17.
Definition I_COP2 : Z := 18.
Definition I_COP3 : Z := 19.
Definition I_LB : Z := 32.
Definition I_LH : Z := 33.
Definition I_LWL : Z := 34.
Definition I_LW : Z := 35.
Definition I_LBU : Z := 36.
Definition I_LHU : Z := 37.
Definition I_LWR : Z := 38.
Definition I_SB : Z := 40.
Definition I_SH : Z := 41.
Definition I_SWL : Z := 42.
Definition I_SW : Z := 43.
Definition I_SWR : Z := 46.
Definition I_LWC0 : Z := 48.
Definition I_LWC1 : Z := 49.
Definition I_LWC2 : Z := 50.
Definition I_LWC3 : Z := 51.
Definition I_SWC0 : Z := 56.
Definition I_SWC1 : Z := 57.
Definition I_SWC2 : Z := 58.
Definition I_SWC3 : Z := 59.
Definition I_SLL : Z := 0.
Definition I_SRL : Z := 2.
Definition I_SRA : Z := 3.
Definition I_SLLV : Z := 4.
Definition I_SRLV : Z := 6.
Definition I_SRAV : Z := 7.
Definition I_JR : Z := 8.
Definition I_JALR : Z := 9.
Definition I_SYSCALL : Z := 12.
Definition I_BREAK : Z := 13.
Definition I_MFHI : Z := 16.
Definition I_MTHI : Z := 17.
Definition I_MFLO : Z := 18.
Definition I_MTLO : Z := 19.
Definition I_MULT : Z := 24.
Definition I_MULTU : Z := 25.
Definition I_DIV : Z := 26.
Definition I_DIVU : Z := 27.
Definition I_ADD : Z := 32.
Definition I_ADDU : Z := 33.
Definition I_SUB : Z := 34.
Definition I_SUBU : Z := 35.
Definition I_AND : Z := 36.
Definition I_OR : Z := 37.
Definition I_XOR : Z := 38.
Definition I_NOR : Z := 39.
Definition I_SLT : Z := 42.
Definition I_SLTU : Z := 43.
Definition I_BLTZ : Z := 0.
Definition I_BGEZ : Z := 1.
Definition I_BLTZAL : Z := 16.
Definition I_BGEZAL : Z := 17.
End Encode.
Import Encode.

Class Shifts := shift_count : Z -> Z.
Class ShiftLaws `{!Shifts} := shift_count_ok : forall n, 0 <= n < 32 -> shift_count n = n.

(** A system call of the host, by its number, with three arguments and the memory. *)
Class HostCalls := host_call : Z -> Z -> Z -> Z -> list Z -> Z * list Z.

Definition MEMSIZE : Z := Z.shiftl 1 24.
Definition memoffset : Z := 0x10000000.

(** The registers, the memory and, of runprogram, the program counters. *)
Record interp := mkInterp {
  Reg : list Z;
  HI : Z;
  LO : Z;
  mem : list Z;
  pc : Z;
  npc : Z
}.

Definition get (r : Z) (s : interp) : Z := Reg s !!! Z.to_nat r.
Definition set (r v : Z) (s : interp) : interp :=
  mkInterp (<[Z.to_nat r := v]> (Reg s)) (HI s) (LO s) (mem s) (pc s) (npc s).
Definition set_HI (v : Z) (s : interp) : interp := mkInterp (Reg s) v (LO s) (mem s) (pc s) (npc s).
Definition set_LO (v : Z) (s : interp) : interp := mkInterp (Reg s) (HI s) v (mem s) (pc s) (npc s).
Definition set_mem (m : list Z) (s : interp) : interp := mkInterp (Reg s) (HI s) (LO s) m (pc s) (npc s).
Definition set_pc (v : Z) (s : interp) : interp := mkInterp (Reg s) (HI s) (LO s) (mem s) v (npc s).
Definition set_npc (v : Z) (s : interp) : interp := mkInterp (Reg s) (HI s) (LO s) (mem s) (pc s) v.

(** A switch of C whose cases break. *)
Fixpoint switch {A} (v : Z) (cases : list (Z * A)) (default : A) : A :=
  match cases with
  | [] => default
  | (c, a) :: cases => if v =? c then a else switch v cases default
  end.

Section Execute.
Context {host : Host} `{!Shifts, !HostCalls}.
Implicit Types s : interp.

(** ** Memory *)
Definition peek (n : nat) (addr : Z) s : res Z :=
  bs <- load_bytes (mem s) (addr - memoffset) n ;; Ok (host_value bs).
Definition poke (n : nat) (addr v : Z) s : res interp :=
  m <- store_bytes (mem s) (addr - memoffset) (host_bytes n v) ;; Ok (set_mem m s).

Definition ifetch (addr : Z) s : res Z := v <- peek 4 addr s ;; Ok (s32 v).
Definition fetch (addr : Z) s : res Z := v <- peek 4 addr s ;; Ok (s32 v).
Definition sfetch (addr : Z) s : res Z :=
  v <- peek 2 addr s ;; Ok ((v + 2 ^ 15) mod 2 ^ 16 - 2 ^ 15).
Definition usfetch (addr : Z) s : res Z := peek 2 addr s.
Definition cfetch (addr : Z) s : res Z := v <- peek 1 addr s ;; Ok (s8 v).
Definition ucfetch (addr : Z) s : res Z := peek 1 addr s.
Definition store (addr i : Z) s : res interp := poke 4 addr (u32 i) s.
Definition sstore (addr i : Z) s : res interp := poke 2 addr (u16 i) s.
Definition cstore (addr i : Z) s : res interp := poke 1 addr (u8 i) s.

(** ** System calls *)
Definition IOCPARM_MASK : Z := 0x7f.

(** The argument of an ioctl on a terminal is given the size the host has for it. *)
Definition ioctl_request (o1 : Z) : Z :=
  let size := Z.land (Z.shiftr o1 16) IOCPARM_MASK in
  let ioctl_group := s8 (Z.land (Z.shiftr o1 8) 0xff) in
  if (ioctl_group =? 0x74) && (size =? 8)
  then Z.lor (Z.land o1 (Z.lnot (Z.shiftl IOCPARM_MASK 16))) (Z.shiftl 6 16) else o1.

Definition system_trap s : res interp :=
  let syscallno := get 2 s in
  let o0 := get 4 s in
  let o1 := get 5 s in
  let o2 := get 6 s in
  let call (o1 : Z) := let '(r, m) := host_call syscallno o0 o1 o2 (mem s) in set 1 r (set_mem m s) in
  if syscallno =? 1 then Err Killed
  else if (syscallno =? 3) || (syscallno =? 4) || (syscallno =? 5) then Ok (call o1)
  else if syscallno =? 6 then Ok (set 1 0 s)
  else if syscallno =? 17 then Ok (set 1 (s32 ((Z.quot o0 8192 + 1) * 8192)) s)
  else if syscallno =? 19 then Ok (call o1)
  else if syscallno =? 54 then Ok (set 1 0 (call (ioctl_request o1)))
  else if (syscallno =? 62) || (syscallno =? 64) then Ok (call o1)
  else Err Killed.

Definition system_break s : res interp := system_trap s.

(** An instruction the interpreter does not have ends it. *)
Definition u : res interp := Err Killed.

(** ** The instructions *)

Definition shift_left (a n : Z) : Z := s32 (Z.shiftl a (shift_count n)).
Definition shift_right (a n : Z) : Z := Z.shiftr a (shift_count n).
Definition shift_right_unsigned (a n : Z) : Z := s32 (Z.shiftr (u32 a) (shift_count n)).
Definition int_of_bool (b : bool) : Z := if b then 1 else 0.

(** The high word from the four partial products of the halves. *)
Definition mult_high (t1 t2 : Z) : Z :=
  let t1l := Z.land t1 0xffff in
  let t1h := Z.land (Z.shiftr t1 16) 0xffff in
  let t2l := Z.land t2 0xffff in
  let t2h := Z.land (Z.shiftr t2 16) 0xffff in
  s32 (t1h * t2h + Z.shiftr (s32 (t1h * t2l)) 16 + Z.shiftr (s32 (t2h * t1l)) 16).

Definition mult (t1 t2 : Z) s : interp :=
  let '(t1, neg) := if t1 <? 0 then (s32 (- t1), true) else (t1, false) in
  let '(t2, neg) := if t2 <? 0 then (s32 (- t2), negb neg) else (t2, neg) in
  let lo := s32 (t1 * t2) in
  let hi := mult_high t1 t2 in
  if neg then
    let lo := s32 (Z.lnot lo + 1) in
    let hi := Z.lnot hi in
    set_HI (if lo =? 0 then s32 (hi + 1) else hi) (set_LO lo s)
  else set_HI hi (set_LO lo s).

Definition multu (t1 t2 : Z) s : interp := set_HI (mult_high t1 t2) (set_LO (s32 (t1 * t2)) s).

Definition div (a b : Z) s : res interp :=
  if (b =? 0) || ((a =? - 2 ^ 31) && (b =? -1)) then Err DivideError
  else Ok (set_HI (Z.rem a b) (set_LO (Z.quot a b) s)).
Definition divu (a b : Z) s : res interp :=
  if b =? 0 then Err DivideError
  else Ok (set_HI (s32 (u32 a mod u32 b)) (set_LO (s32 (u32 a / u32 b)) s)).

Definition special (instr xpc : Z) : interp -> res interp :=
  let a := get (rs instr) in
  let b := get (rt instr) in
  let to_rd (f : interp -> Z) := fun s => Ok (set (rd instr) (f s) s) in
  switch (Z.land instr 0x3f)
    [(I_SLL, to_rd (fun s => shift_left (b s) (shamt instr)));
     (I_SRL, to_rd (fun s => shift_right_unsigned (b s) (shamt instr)));
     (I_SRA, to_rd (fun s => shift_right (b s) (shamt instr)));
     (I_SLLV, to_rd (fun s => shift_left (b s) (a s)));
     (I_SRLV, to_rd (fun s => shift_right_unsigned (b s) (a s)));
     (I_SRAV, to_rd (fun s => shift_right (b s) (a s)));
     (I_JR, fun s => Ok (set_npc (a s) s));
     (I_JALR, fun s => Ok (set (rd instr) (s32 (xpc + 8)) (set_npc (a s) s)));
     (I_SYSCALL, system_trap);
     (I_BREAK, system_break);
     (I_MFHI, to_rd HI);
     (I_MTHI, fun s => Ok (set_HI (a s) s));
     (I_MFLO, to_rd LO);
     (I_MTLO, fun s => Ok (set_LO (a s) s));
     (I_MULT, fun s => Ok (mult (a s) (b s) s));
     (I_MULTU, fun s => Ok (multu (a s) (b s) s));
     (I_DIV, fun s => div (a s) (b s) s);
     (I_DIVU, fun s => divu (a s) (b s) s);
     (I_ADD, to_rd (fun s => s32 (a s + b s)));
     (I_ADDU, to_rd (fun s => s32 (a s + b s)));
     (I_SUB, to_rd (fun s => s32 (a s - b s)));
     (I_SUBU, to_rd (fun s => s32 (a s - b s)));
     (I_AND, to_rd (fun s => Z.land (a s) (b s)));
     (I_OR, to_rd (fun s => Z.lor (a s) (b s)));
     (I_XOR, to_rd (fun s => Z.lxor (a s) (b s)));
     (I_NOR, to_rd (fun s => Z.lnot (Z.lor (a s) (b s))));
     (I_SLT, to_rd (fun s => int_of_bool (a s <? b s)));
     (I_SLTU, to_rd (fun s => int_of_bool (u32 (a s) <? u32 (b s))))]
    (fun _ => u).

(** [if (c) npc = xpc + 4 + (immed(instr)<<2);] *)
Definition branch (instr xpc : Z) (c : bool) s : interp :=
  if c then set_npc (s32 (xpc + 4 + Z.shiftl (immed instr) 2)) s else s.

Definition bcond (instr xpc : Z) : interp -> res interp :=
  let a := get (rs instr) in
  let link s := set 31 (s32 (xpc + 8)) s in
  switch (rt instr)
    [(I_BLTZ, fun s => Ok (branch instr xpc (a s <? 0) s));
     (I_BGEZ, fun s => Ok (branch instr xpc (a s >=? 0) s));
     (I_BLTZAL, fun s => let s := link s in Ok (branch instr xpc (a s <? 0) s));
     (I_BGEZAL, fun s => let s := link s in Ok (branch instr xpc (a s >=? 0) s))]
    (fun _ => u).

(** Loads and stores, and what there is none of: SWL, SWR and coprocessors. *)
Definition memory_access (instr : Z) : interp -> res interp :=
  let a := get (rs instr) in
  let b := get (rt instr) in
  let addr s := s32 (a s + immed instr) in
  let load (f : Z -> interp -> res Z) := fun s => v <- f (addr s) s ;; Ok (set (rt instr) v s) in
  let or_rt (v : Z) s := set (rt instr) (s32 (Z.lor (b s) v)) s in
  switch (Z.land (Z.shiftr instr 26) 0x3f)
    [(I_LB, load cfetch);
     (I_LH, load sfetch);
     (I_LWL, fun s =>
        let i := addr s in
        let s := set (rt instr) (Z.land (b s) (Z.shiftr (-1) (8 * Z.land (- i) 3))) s in
        v <- fetch (Z.land (u32 i) 0xfffffffc) s ;; Ok (or_rt (s32 (Z.shiftl v (8 * Z.land i 3))) s));
     (I_LW, load fetch);
     (I_LBU, load ucfetch);
     (I_LHU, load usfetch);
     (I_LWR, fun s =>
        let i := addr s in
        let s := set (rt instr) (Z.land (b s) (s32 (Z.shiftl (-1) (8 * Z.land i 3)))) s in
        let s := if Z.land i 3 =? 0 then set (rt instr) 0 s else s in
        v <- fetch (Z.land (u32 i) 0xfffffffc) s ;; Ok (or_rt (Z.shiftr v (8 * Z.land (- i) 3)) s));
     (I_SB, fun s => cstore (addr s) (b s) s);
     (I_SH, fun s => sstore (addr s) (b s) s);
     (I_SW, fun s => store (addr s) (b s) s);
     (I_SWL, fun _ => u); (I_SWR, fun _ => u);
     (I_LWC0, fun _ => u); (I_LWC1, fun _ => u); (I_LWC2, fun _ => u); (I_LWC3, fun _ => u);
     (I_SWC0, fun _ => u); (I_SWC1, fun _ => u); (I_SWC2, fun _ => u); (I_SWC3, fun _ => u);
     (I_COP0, fun _ => u); (I_COP1, fun _ => u); (I_COP2, fun _ => u); (I_COP3, fun _ => u)]
    (fun _ => u).

Definition instruction (instr xpc : Z) : interp -> res interp :=
  let a := get (rs instr) in
  let b := get (rt instr) in
  let to_rt (f : interp -> Z) := fun s => Ok (set (rt instr) (f s) s) in
  let target := s32 (Z.lor (Z.land xpc 0xf0000000) (Z.shiftl (Z.land instr 0x03ffffff) 2)) in
  switch (Z.land (Z.shiftr instr 26) 0x3f)
    [(I_SPECIAL, special instr xpc);
     (I_BCOND, bcond instr xpc);
     (I_J, fun s => Ok (set_npc target s));
     (I_JAL, fun s => Ok (set_npc target (set 31 (s32 (xpc + 8)) s)));
     (I_BEQ, fun s => Ok (branch instr xpc (a s =? b s) s));
     (I_BNE, fun s => Ok (branch instr xpc (negb (a s =? b s)) s));
     (I_BLEZ, fun s => Ok (branch instr xpc (a s <=? 0) s));
     (I_BGTZ, fun s => Ok (branch instr xpc (a s >? 0) s));
     (I_ADDI, to_rt (fun s => s32 (a s + immed instr)));
     (I_ADDIU, to_rt (fun s => s32 (a s + immed instr)));
     (I_SLTI, to_rt (fun s => int_of_bool (a s <? immed instr)));
     (I_SLTIU, to_rt (fun s => int_of_bool (u32 (a s) <? u32 (immed instr))));
     (I_ANDI, to_rt (fun s => Z.land (a s) (immed instr)));
     (I_ORI, to_rt (fun s => Z.lor (a s) (immed instr)));
     (I_XORI, to_rt (fun s => Z.lxor (a s) (immed instr)));
     (I_LUI, to_rt (fun s => s32 (Z.shiftl instr 16)))]
    (memory_access instr).

(** ** The loop *)
Definition cycle s : res interp :=
  let xpc := pc s in
  let s := set_pc (npc s) s in
  let s := set_npc (s32 (pc s + 4)) s in
  instr <- ifetch xpc s ;;
  let s := set 0 0 s in
  if instr =? 0 then Ok s else instruction instr xpc s.

Fixpoint cycles (n : nat) s : res interp :=
  match n with
  | O => Ok s
  | S n => s <- cycle s ;; cycles n s
  end.

(** [strcpy((mem-memoffset)+ai, argv[j])] *)
Definition strcpy (ai : Z) (str : list Z) s : res interp :=
  m <- store_bytes (mem s) (ai - memoffset) (str ++ [0]) ;; Ok (set_mem m s).

(** The arguments of the program: the strings at [ai], the pointers to them at [aci]. *)
Fixpoint set_args (args : list (list Z)) (aci ai : Z) s : res interp :=
  match args with
  | [] => Ok s
  | str :: args =>
      s <- strcpy ai str s ;;
      s <- store aci ai s ;;
      set_args args (aci + 4) (ai + zlen str + 1) s
  end.

(** The first [n] instructions of a program. *)
Definition runprogram (startpc : Z) (argv : list (list Z)) (n : nat) s : res interp :=
  let s := set_npc (s32 (startpc + 4)) (set_pc startpc s) in
  let i := MEMSIZE - 1024 + memoffset in
  let s := set 29 i s in
  s <- store i (zlen argv) s ;;
  let aci := i + 4 in
  s <- set_args argv aci (aci + 32) s ;;
  cycles n s.
End Execute.

(** ** The interpreter and the instruction set

    [manual] is what the MIPS manual says of the instructions of the table
    [Mips.reference], and of those the simulator is not held to. *)
Definition manual (i : Instruction) (a b hi lo next : Z) : option effect :=
  match opCode i with
  | OP_OR => Some (Writes (Mips.rd i) (Z.lor a b))
  | OP_SRL => Some (Writes (Mips.rd i) (s32 (u32 b / 2 ^ extra i)))
  | OP_SRLV => Some (Writes (Mips.rd i) (s32 (u32 b / 2 ^ (a mod 32))))
  | OP_JALR => Some (Links (Mips.rd i) a)
  | _ => reference i a b hi lo next
  end.

(** Where the interpreter does as the manual says: it extends the sign of the immediates
    of ANDI, ORI and XORI, does not cut shift counts off, and takes the region of a jump
    from the jump itself. *)
Record covered (i : Instruction) (a xpc : Z) : Prop := {
  cov_immediate : opCode i = OP_ANDI \/ opCode i = OP_ORI \/ opCode i = OP_XORI -> 0 <= extra i;
  cov_shift : opCode i = OP_SLLV \/ opCode i = OP_SRLV \/ opCode i = OP_SRAV -> 0 <= a < 32;
  cov_region : opCode i = OP_J \/ opCode i = OP_JAL -> u32 xpc / 2 ^ 28 = u32 (xpc + 4) / 2 ^ 28
}.

(** The effect of an instruction on the state of the interpreter. *)
Definition does (e : effect) (s : interp) : interp :=
  match e with
  | Writes r v => if r =? HiReg then set_HI v s else if r =? LoReg then set_LO v s else set r v s
  | Overflows => s
  | Goes pc => set_npc pc s
  | Links r pc => set_npc pc (set r (npc s) s)
  end.

Record interp_ok (s : interp) : Prop := {
  io_regs : length (Reg s) = 32%nat;
  io_s32 : Forall is_s32 (Reg s)
}.

Lemma switch_eq {A} v c (a : A) cases default : v = c -> switch v ((c, a) :: cases) default = a.
Proof. intros ->. cbn. by rewrite Z.eqb_refl. Qed.
Lemma switch_ne {A} v c (a : A) cases default : v <> c -> switch v ((c, a) :: cases) default = switch v cases default.
Proof. intros H. cbn. by rewrite (proj2 (Z.eqb_neq _ _) H). Qed.

(** The case of a switch that a given value takes. *)
Ltac take_case :=
  repeat rewrite switch_ne by discriminate; first [rewrite switch_eq by reflexivity | cbn [switch]].

Lemma does_writes r v s : 0 <= r < 32 -> does (Writes r v) s = set r v s.
Proof.
  intros Hr. cbn. unfold HiReg, LoReg. by rewrite !(proj2 (Z.eqb_neq _ _)) by lia.
Qed.

Lemma get_s32 s r : interp_ok s -> 0 <= r < 32 -> is_s32 (get r s).
Proof.
  intros [Hl Hs] Hr. unfold get. destruct (lookup_lt_is_Some_2 (Reg s) (Z.to_nat r)) as [v Hv]; [lia|].
  rewrite (list_lookup_total_correct _ _ _ Hv). rewrite Forall_forall in Hs. by eapply Hs, list_elem_of_lookup_2.
Qed.

(** The fields of an instruction word, as an int. *)
Lemma field_s32 w k n : 0 <= k -> 0 <= n -> k + n <= 32 ->
  Z.land (Z.shiftr (s32 w) k) (Z.ones n) = (w / 2 ^ k) mod 2 ^ n.
Proof.
  intros. rewrite <- Z.shiftr_div_pow2, <- Z.land_ones by lia. apply Z.bits_inj'. intros i Hi.
  rewrite !Z.land_spec, !Z.shiftr_spec by lia. destruct (Z.lt_ge_cases i n).
  - by rewrite testbit_s32_low by lia.
  - by rewrite Z.ones_spec_high, !andb_false_r by lia.
Qed.

Lemma low_s32 w n : 0 <= n <= 32 -> Z.land (s32 w) (Z.ones n) = w mod 2 ^ n.
Proof. intros. pose proof (field_s32 w 0 n) as E. rewrite Z.shiftr_0_r, Z.div_1_r in E. apply E; lia. Qed.

Lemma rd_Decode w : rd (s32 w) = Mips.rd (Decode w).
Proof. rewrite Decode_rd. by apply (field_s32 w 11 5). Qed.
Lemma rt_Decode w : rt (s32 w) = Mips.rt (Decode w).
Proof. rewrite Decode_rt. by apply (field_s32 w 16 5). Qed.
Lemma rs_Decode w : rs (s32 w) = Mips.rs (Decode w).
Proof. rewrite Decode_rs. by apply (field_s32 w 21 5). Qed.
Lemma shamt_field w : shamt (s32 w) = (w / 2 ^ 6) mod 2 ^ 5.
Proof. by apply (field_s32 w 6 5). Qed.
Lemma op_field w : Z.land (Z.shiftr (s32 w) 26) 0x3f = (w / 2 ^ 26) mod 2 ^ 6.
Proof. by apply (field_s32 w 26 6). Qed.
Lemma funct_field w : Z.land (s32 w) 0x3f = w mod 2 ^ 6.
Proof. by apply (low_s32 w 6). Qed.
Lemma target_field w : Z.land (s32 w) 0x03ffffff = w mod 2 ^ 26.
Proof. by apply (low_s32 w 26). Qed.

Lemma immed_field w : immed (s32 w) = (w + 2 ^ 15) mod 2 ^ 16 - 2 ^ 15.
Proof.
  unfold immed. change 0x7fff with (Z.ones 15). rewrite low_s32 by lia.
  assert (Z.land (s32 w) 0x8000 = (w mod 2 ^ 16 / 2 ^ 15) * 2 ^ 15) as ->.
  { change 0x8000 with (Z.shiftl (Z.ones 1) 15).
    rewrite <- Z.shiftr_div_pow2, <- Z.shiftl_mul_pow2, <- Z.land_ones by lia.
    apply Z.bits_inj'. intros j Hj. rewrite Z.land_spec, !Z.shiftl_spec by lia.
    destruct (Z.lt_ge_cases j 15); [by rewrite !(Z.testbit_neg_r _ (j - 15)), andb_false_r by lia|].
    rewrite Z.shiftr_spec, Z.land_spec by lia. replace (j - 15 + 15) with j by lia.
    destruct (decide (j = 15)) as [->|]; [by rewrite testbit_s32_low by lia|].
    by rewrite !Z.ones_spec_high, !andb_false_r by lia. }
  assert (Z.lor (s32 w) (-0x8000) = w mod 2 ^ 15 - 2 ^ 15) as ->.
  { rewrite <- low_s32 by lia. change (-0x8000) with (Z.lnot (Z.ones 15)). 
    transitivity (Z.lor (Z.land (s32 w) (Z.ones 15)) (Z.lnot (Z.ones 15))).
    { apply Z.bits_inj'. intros j Hj. rewrite !Z.lor_spec, Z.land_spec, Z.lnot_spec by lia.
      by destruct (Z.testbit (s32 w) j), (Z.testbit (Z.ones 15) j). }
    rewrite <- Z.add_nocarry_lor; [unfold Z.lnot; rewrite Z.ones_equiv; lia|].
    apply Z.bits_inj'. intros j Hj. rewrite !Z.land_spec, Z.lnot_spec, Z.bits_0 by lia.
    by destruct (Z.testbit (s32 w) j), (Z.testbit (Z.ones 15) j). }
  change (2 ^ 15) with 32768. change (2 ^ 16) with 65536.
  destruct (Z.eqb_spec (w mod 65536 / 32768 * 32768) 0); cbn [negb]; Z.div_mod_to_equations; lia.
Qed.

Section Conforms.
Context {host : Host} `{!Shifts, !ShiftLaws, !HostCalls}.
Context (w xpc : Z) (s0 : interp).
Hypothesis Hw : is_u32 w.
Hypothesis Hs : interp_ok s0.
Hypothesis Hnpc : npc s0 = s32 (s32 (xpc + 4) + 4).

Lemma shift_left_count x n : 0 <= n < 32 -> shift_left x n = s32 (x * 2 ^ n).
Proof. intros Hn. unfold shift_left. rewrite shift_count_ok, Z.shiftl_mul_pow2 by lia. done. Qed.
Lemma shift_right_count x n : 0 <= n < 32 -> shift_right x n = x / 2 ^ n.
Proof. intros Hn. unfold shift_right. rewrite shift_count_ok, Z.shiftr_div_pow2 by lia. done. Qed.
Lemma shift_right_unsigned_count x n : 0 <= n < 32 -> shift_right_unsigned x n = s32 (u32 x / 2 ^ n).
Proof. intros Hn. unfold shift_right_unsigned. rewrite shift_count_ok, Z.shiftr_div_pow2 by lia. done. Qed.

Lemma checked_fits r v : checked r v <> Overflows -> checked r v = Writes r (s32 v).
Proof. unfold checked. destruct (in_range v) eqn:E; [|done]. by rewrite in_range_s32. Qed.

Lemma link_pc : s32 (xpc + 8) = npc s0.
Proof. rewrite Hnpc, s32_add_mod. f_equal. lia. Qed.

Notation i := (Decode w).
Notation a := (get (Mips.rs (Decode w)) s0).
Notation b := (get (Mips.rt (Decode w)) s0).

(** The function code of an opcode. *)
Lemma special_funct n op :
  List.nth n specialTable OP_RES = op -> op <> OP_RES -> op <> OP_UNIMP ->
  fst <$> list_find (op =.) specialTable = Some n.
Proof. intros <-. do 64 (destruct n as [|n]; [done|]). by destruct n. Qed.

Lemma special_conforms e :
  (w / 2 ^ 26) mod 2 ^ 6 = 0 -> manual i a b (HI s0) (LO s0) (s32 (xpc + 4)) = Some e -> e <> Overflows ->
  covered i a xpc -> special (s32 w) xpc s0 = Ok (does e s0).
Proof.
  intros Hop He Hno [_ Hcs _].
  destruct (Decode_R_shape (w mod 2 ^ 6) w) as [Eo Ex]; [apply Hw|done|done|].
  pose proof (Decode_ok w (proj1 Hw)) as [_ Hrs Hrt Hrd _ _ _].
  unfold special. rewrite funct_field, rs_Decode, rt_Decode, rd_Decode, shamt_field, <- Ex, link_pc.
  assert (0 <= extra i < 32) as Hx by (rewrite Ex; by apply Z.mod_pos_bound).
  unfold manual, reference in He.
  pose proof (special_funct _ _ (eq_sym Eo)) as Hf. clear Ex Eo.
  assert (w mod 2 ^ 6 = Z.of_nat (Z.to_nat (w mod 2 ^ 6))) as Ef.
  { pose proof (Z.mod_pos_bound w (2 ^ 6)). lia. }
  generalize dependent (Z.to_nat (w mod 2 ^ 6)). intros n Hf ->. 
  destruct (opCode i); try discriminate He;
    (specialize (Hf ltac:(discriminate) ltac:(discriminate));
     match type of Hf with ?x = _ => let v := eval vm_compute in x in change x with v in Hf end;
     first [discriminate Hf | injection Hf as <-]; apply (inj Some) in He; subst e; take_case;
     try rewrite checked_fits by exact Hno; rewrite ?does_writes by assumption;
     rewrite ?shift_left_count, ?shift_right_count, ?shift_right_unsigned_count by auto;
     rewrite ?(Z.mod_small a) by auto; try reflexivity).
  f_equal. f_equal. unfold Z.lnot. lia.
Qed.

Lemma u16_immediate : 0 <= extra i -> extra i = (w + 2 ^ 15) mod 2 ^ 16 - 2 ^ 15 -> u16 (extra i) = extra i.
Proof.
  intros Hx E. unfold u16. apply Z.mod_small. pose proof (Z.mod_pos_bound (w + 2 ^ 15) (2 ^ 16)). lia.
Qed.

(** The opcodes outside of the special ones. *)
Lemma opcode_number n op :
  opcode_of (Z.of_nat n) = op -> op <> OP_RES -> op <> OP_UNIMP ->
  fst <$> list_find (fun x => op = x.1) opTable = Some n.
Proof. unfold opcode_of. rewrite Nat2Z.id. intros <-. do 64 (destruct n as [|n]; [done|]). by destruct n. Qed.

Lemma target_conforms (jump := s32 (Z.lor (Z.land xpc 0xf0000000) (Z.shiftl (w mod 2 ^ 26) 2))) :
  u32 xpc / 2 ^ 28 = u32 (xpc + 4) / 2 ^ 28 -> extra i = w mod 2 ^ 26 ->
  jump = s32 (u32 (s32 (xpc + 4)) / 2 ^ 28 * 2 ^ 28 + 4 * extra i).
Proof.
  intros Hr Hx. subst jump. rewrite Hx. pose proof (jump_target xpc (w mod 2 ^ 26)) as Hj.
  unfold IndexToAddr in Hj. rewrite (s32_small (Z.shiftl _ _)) in Hj.
  - rewrite Hj by (by apply Z.mod_pos_bound). by rewrite u32_s32, Hr.
  - pose proof (Z.mod_pos_bound w (2 ^ 26)). rewrite Z.shiftl_mul_pow2 by lia. unfold is_s32. lia.
Qed.
Lemma branch_conforms c :
  extra i = (w + 2 ^ 15) mod 2 ^ 16 - 2 ^ 15 ->
  branch (s32 w) xpc c s0 = does (branch_if i (s32 (xpc + 4)) c) s0.
Proof.
  intros Hx. unfold branch, branch_if. rewrite immed_field, <- Hx. cbn [does].
  rewrite Z.shiftl_mul_pow2 by lia. destruct c.
  - f_equal. rewrite s32_add_mod. f_equal. lia.
  - rewrite <- Hnpc. by destruct s0.
Qed.

Lemma Decode_B_shape : (w / 2 ^ 26) mod 2 ^ 6 = 1 ->
  extra i = (w + 2 ^ 15) mod 2 ^ 16 - 2 ^ 15 /\
  (manual i a b (HI s0) (LO s0) (s32 (xpc + 4)) =
   if Mips.rt i =? 0 then Some (branch_if i (s32 (xpc + 4)) (a <? 0))
   else if Mips.rt i =? 1 then Some (branch_if i (s32 (xpc + 4)) (0 <=? a)) else None).
Proof.
  intros Hop. pose proof (Decode_rt w) as Ert.
  assert (Z.land w 0x1f0000 = Mips.rt i * 2 ^ 16) as Em.
  { rewrite Ert, <- Z.shiftr_div_pow2, <- Z.shiftl_mul_pow2, <- Z.land_ones by lia.
    change 0x1f0000 with (Z.shiftl (Z.ones 5) 16). prove_Zeq_bitwise. }
  assert (extra i = (w + 2 ^ 15) mod 2 ^ 16 - 2 ^ 15 /\
    opCode i = (if Mips.rt i =? 0 then OP_BLTZ else if Mips.rt i =? 1 then OP_BGEZ
                else if Mips.rt i =? 16 then OP_BLTZAL else if Mips.rt i =? 17 then OP_BGEZAL else OP_UNIMP)) as [Hx Eo].
  { clear Ert. revert Em. generalize (Mips.rt i) as r. intros r Em. unfold Decode.
    rewrite Decode_op, Hop by apply Hw. change (opcode_of 1) with BCOND. change (format_of 1) with IFMT.
    cbv iota beta. cbn [opCode extra]. rewrite Em. split.
    - decode_fields. rewrite sign_extend_16 by (apply Z.mod_pos_bound; lia). by rewrite Z.add_mod_idemp_l.
    - by repeat match goal with |- context [?x =? ?y] => destruct (Z.eqb_spec x y); try (exfalso; lia) end. }
  split; [done|]. unfold manual, reference. rewrite Eo.
  destruct (Z.eqb_spec (Mips.rt i) 0); [done|]. destruct (Z.eqb_spec (Mips.rt i) 1); [done|].
  by repeat destruct (_ =? _).
Qed.

Lemma bcond_conforms e :
  (w / 2 ^ 26) mod 2 ^ 6 = 1 -> manual i a b (HI s0) (LO s0) (s32 (xpc + 4)) = Some e ->
  bcond (s32 w) xpc s0 = Ok (does e s0).
Proof.
  intros Hop He. destruct (Decode_B_shape Hop) as [Hx Em]. rewrite Em in He.
  unfold bcond. rewrite rt_Decode, rs_Decode.
  destruct (Z.eqb_spec (Mips.rt i) 0) as [->|Hz]; [|destruct (Z.eqb_spec (Mips.rt i) 1) as [->|Hn]; [|done]];
    apply (inj Some) in He; subst e; take_case; rewrite branch_conforms by done; [done|].
  by rewrite Z.geb_leb.
Qed.

(** Every other opcode is that of the first table. *)
Lemma Decode_other n : (w / 2 ^ 26) mod 2 ^ 6 = Z.of_nat n -> n <> 0%nat -> n <> 1%nat ->
  opCode i = opcode_of (Z.of_nat n) /\
  (format_of (Z.of_nat n) = IFMT -> extra i = (w + 2 ^ 15) mod 2 ^ 16 - 2 ^ 15) /\
  (format_of (Z.of_nat n) = JFMT -> extra i = w mod 2 ^ 26).
Proof.
  intros Hop Hz Hn.
  assert (format_of (Z.of_nat n) <> RFMT /\ opcode_of (Z.of_nat n) <> BCOND) as [Hf Hb].
  { unfold format_of, opcode_of. rewrite Nat2Z.id. do 64 (destruct n as [|n]; [done|]). by destruct n. }
  destruct (format_of (Z.of_nat n)) eqn:E; [| |done].
  - destruct (Decode_I_shape _ w (proj1 Hw) Hop E Hb). by split_and!.
  - destruct (Decode_J_shape _ w (proj1 Hw) Hop E). by split_and!.
Qed.

Lemma lui_value : s32 (Z.shiftl (s32 w) 16) = s32 (((w + 2 ^ 15) mod 2 ^ 16 - 2 ^ 15) * 2 ^ 16).
Proof.
  rewrite Z.shiftl_mul_pow2 by lia. apply s32_eq_mod. unfold s32.
  change (2 ^ 15) with 32768. change (2 ^ 16) with 65536. change (2 ^ 31) with 2147483648.
  change (2 ^ 32) with 4294967296. Z.div_mod_to_equations. lia.
Qed.

Lemma instruction_conforms e :
  manual i a b (HI s0) (LO s0) (s32 (xpc + 4)) = Some e -> e <> Overflows ->
  covered i a xpc -> instruction (s32 w) xpc s0 = Ok (does e s0).
Proof.
  intros He Hno Hc. unfold instruction.
  assert (exists n, (w / 2 ^ 26) mod 2 ^ 6 = Z.of_nat n) as (n & Ef).
  { exists (Z.to_nat ((w / 2 ^ 26) mod 2 ^ 6)). pose proof (Z.mod_pos_bound (w / 2 ^ 26) (2 ^ 6)). lia. }
  rewrite op_field. destruct (decide (n = 0%nat)) as [->|Hn0].
  { rewrite Ef. take_case. by apply special_conforms. }
  destruct (decide (n = 1%nat)) as [->|Hn1].
  { rewrite Ef. take_case. by apply bcond_conforms. }
  destruct (Decode_other n Ef Hn0 Hn1) as (Eo & HxI & HxJ). destruct Hc as [Hci _ Hcr].
  pose proof (Decode_ok w (proj1 Hw)) as [_ Hrs Hrt Hrd _ _ _].
  rewrite Ef, rs_Decode, rt_Decode, target_field. clear Ef.
  unfold manual, reference in He. pose proof (opcode_number _ _ (eq_sym Eo)) as Hf.
  destruct (opCode i); try discriminate He;
    (specialize (Hf ltac:(discriminate) ltac:(discriminate));
     match type of Hf with ?x = _ => let v := eval vm_compute in x in change x with v in Hf end;
     first [discriminate Hf | injection Hf as <-]; apply (inj Some) in He; subst e; take_case;
     try specialize (HxI eq_refl); try specialize (HxJ eq_refl);
     try rewrite immed_field, <- HxI; try rewrite checked_fits by exact Hno;
     rewrite ?does_writes by assumption; rewrite ?u16_immediate by auto;
     try reflexivity; try (rewrite branch_conforms by exact HxI; reflexivity)).
  - rewrite branch_conforms by exact HxI. by rewrite Z.gtb_ltb.
  - cbn [does]. do 2 f_equal. apply target_conforms; auto.
  - cbn [does]. rewrite link_pc. do 2 f_equal. apply target_conforms; auto.
  - by rewrite lui_value, <- HxI.
Qed.
End Conforms.

(** What the loop does before it looks at the instruction. *)
Definition started (s : interp) : interp := set 0 0 (set_npc (s32 (npc s + 4)) (set_pc (npc s) s)).

Lemma get_started s : interp_ok s -> get 0 (started s) = 0.
Proof. intros [Hl _]. unfold get, started. cbn. apply list_lookup_total_insert_eq. lia. Qed.

Lemma started_ok s : interp_ok s -> interp_ok (started s).
Proof.
  intros [Hl Hs]. split; cbn; [by rewrite length_insert|]. apply Forall_insert; [done|]. unfold is_s32. lia.
Qed.


(** Where it is not held to the manual it does something else: ORI $2, $0, 0x8000 leaves
    a negative number; the high word of a product lacks the carries between the partial
    products; and what LWL should keep of the register it does not cut out. *)
Lemma interp_deviates {host : Host} `{!Shifts, !HostCalls} s :
  (exists s', instruction (encode_I 13 0 2 0x8000) (pc s) (started s) = Ok s' /\ s' = set 2 (Z.lor (get 0 (started s)) (- 2 ^ 15)) (started s)) /\
  HI (multu 0x1ffff 0x1ffff s) = 1 /\ 0x1ffff * 0x1ffff / 2 ^ 32 = 3 /\
  forall n, 0 <= n -> Z.shiftr (-1) n = -1.
Proof.
  split; [by eexists|]. split; [by vm_compute|]. split; [by vm_compute|].
  intros n Hn. rewrite Z.shiftr_div_pow2 by lia. pose proof (Z.pow_pos_nonneg 2 n). 
  symmetry. apply (Z.div_unique _ _ _ (2 ^ n - 1)); lia.
Qed.

(** or $5, $3, $4, as the first instruction, on a machine that cuts shift counts off. *)
#[export] Instance demo_shifts : Shifts := fun n => n mod 32.
#[export] Instance demo_shift_laws : ShiftLaws.
Proof. intros n Hn. by apply Z.mod_small. Qed.
#[export] Instance demo_host_calls : HostCalls := fun nr o0 o1 o2 m => (0, m).

Definition demo_or : Z := encode_R 0 3 4 5 0 37.
Definition demo_interp : interp :=
  mkInterp (<[3%nat := 12]> (<[4%nat := 3]> (replicate 32 0))) 0 0 (host_bytes (host := i386) 4 demo_or)
    memoffset (memoffset + 4).

