(* ===== verification/Tables.v ===== *)
(** The two passive data structures of userprog/exception.cc: the [Table] of
    threads and backing stores (userprog/Table.h) and the ring buffer of a
    [Pipe] (userprog/Pipe.h).  Their locks are not modelled here: every method
    holds its lock from its first to its last statement, so each is one atomic
    step; where [Pipe] waits on its condition the step is not enabled. *)
From Stdlib Require Import ZArith Lia Bool.
From stdpp Require Import base numbers list gmap fin_maps.
From S2P Require Import Prelude.

Module Table.
Section Table.
Context {A : Type}.

(** A slot is a [void *]; [None] is NULL. *)
Record Table := mkTable {
  tableSize : Z;
  tableptr : list (option A)
}.

Definition Table_new (size : Z) : Table := mkTable size (replicate (Z.to_nat size) None).

Definition Alloc (t : Table) (object : option A) : res (Table * Z) :=
  r <- for_ret 0 (tableSize t)
    (fun i t =>
       slot <- aget (tableptr t) i ;;
       match slot with
       | None => p <- aset (tableptr t) i object ;; Ok (inr (mkTable (tableSize t) p, i))
       | Some _ => Ok (inl t)
       end) t ;;
  Ok (match r with inl t => (t, -1) | inr r => r end).

Definition Get (t : Table) (index : Z) : res (option A) :=
  if (index >=? tableSize t) || (index <? 0) then Ok None
  else aget (tableptr t) index.

Definition Release (t : Table) (index : Z) : res Table :=
  if (index >=? tableSize t) || (index <? 0) then Ok t
  else p <- aset (tableptr t) index None ;; Ok (mkTable (tableSize t) p).

(** ** The table as a finite map *)

Definition rep (t : Table) (m : gmap Z A) : Prop :=
  zlen (tableptr t) = tableSize t /\
  forall i, m !! i = if decide (0 <= i) then mjoin (tableptr t !! Z.to_nat i) else None.

(** The least index below [n] that [m] leaves free. *)
Definition least_free (m : gmap Z A) (n : Z) (i : Z) : Prop :=
  0 <= i < n /\ m !! i = None /\ forall j, 0 <= j < i -> is_Some (m !! j).

Lemma rep_new size : 0 <= size -> rep (Table_new size) ∅.
Proof.
  intros Hs. split; cbn; [rewrite length_replicate; lia|]. intros i. rewrite lookup_empty.
  case_decide; [|done]. destruct (replicate _ _ !! _) as [o|] eqn:E; [|done].
  apply lookup_replicate in E as [-> _]. done.
Qed.

Lemma rep_lookup t m i : rep t m -> 0 <= i < tableSize t -> aget (tableptr t) i = Ok (m !! i).
Proof.
  intros [Hl Hm] Hi. destruct (aget_in (tableptr t) i) as (o & -> & Ho); [lia|].
  rewrite Hm, decide_True, Ho by lia. done.
Qed.

Lemma rep_out t m i : rep t m -> ~ (0 <= i < tableSize t) -> m !! i = None.
Proof.
  intros [Hl Hm] Hi. rewrite Hm. case_decide; [|done].
  by rewrite lookup_ge_None_2 by lia.
Qed.

Lemma rep_aset t m i o :
  rep t m -> 0 <= i < tableSize t ->
  exists p, aset (tableptr t) i o = Ok p /\ rep (mkTable (tableSize t) p) (partial_alter (fun _ => o) i m).
Proof.
  intros [Hl Hm] Hi. rewrite aset_in by lia. eexists; split; [done|]. split; cbn.
  - by rewrite length_insert.
  - intros j. destruct (decide (i = j)) as [->|Hne].
    + rewrite lookup_partial_alter_eq, decide_True, list_lookup_insert_eq by lia. done.
    + rewrite lookup_partial_alter_ne, Hm by done. case_decide; [|done].
      by rewrite list_lookup_insert_ne by lia.
Qed.

Lemma Get_rep t m i : rep t m -> Get t i = Ok (m !! i).
Proof.
  intros Hr. unfold Get. destruct (Z.geb_spec i (tableSize t)), (Z.ltb_spec i 0); cbn;
    try (rewrite (rep_out t m) by (done || lia); done).
  by apply rep_lookup; [|lia].
Qed.

Lemma Release_rep t m i :
  rep t m -> exists t', Release t i = Ok t' /\ rep t' (delete i m) /\ tableSize t' = tableSize t.
Proof.
  intros Hr. unfold Release.
  destruct (decide (0 <= i < tableSize t)) as [Hi|Hi].
  - rewrite (proj2 (orb_false_iff _ _)) by lia.
    destruct (rep_aset t m i None Hr Hi) as (p & -> & Hp). by eexists.
  - rewrite (proj2 (orb_true_iff _ _)) by lia. exists t. split; [done|]. split; [|done].
    by rewrite delete_id by by apply rep_out with t.
Qed.

Lemma Alloc_rep t m x :
  rep t m ->
  exists t' i, Alloc t (Some x) = Ok (t', i) /\ tableSize t' = tableSize t /\
    ((least_free m (tableSize t) i /\ rep t' (<[i := x]> m)) \/
     (i = -1 /\ t' = t /\ forall j, 0 <= j < tableSize t -> is_Some (m !! j))).
Proof.
  intros Hr. pose proof Hr as [Hl _]. unfold Alloc.
  match goal with |- context [for_ret _ _ ?body _] => destruct (for_ret_inv
    (fun i s => s = t /\ forall j, 0 <= j < i -> is_Some (m !! j))
    (fun r => tableSize r.1 = tableSize t /\ least_free m (tableSize t) r.2 /\ rep r.1 (<[r.2 := x]> m))
    0 (tableSize t) body t) as [(s & E & -> & Hall)|([t' i] & E & Hsz & Hf & Hrep)] end.
  - lia.
  - split; [done|]. lia.
  - intros i s Hi [-> Hall]. cbn beta. rewrite (rep_lookup t m i Hr Hi). cbn [bindr].
    destruct (m !! i) as [y|] eqn:Em.
    + left. exists t. split; [done|]. split; [done|]. intros j Hj.
      destruct (decide (j = i)) as [->|]; [by rewrite Em|]. apply Hall. lia.
    + right. destruct (rep_aset t m i (Some x) Hr Hi) as (p & -> & Hp).
      eexists; split; [done|]. cbn. split; [done|]. split; [done|done].
  - rewrite E. cbn. exists t, (-1). split; [done|]. split; [done|]. right. done.
  - rewrite E. cbn. exists t', i. split; [done|]. split; [done|]. left. done.
Qed.

(** ** Whole histories of calls *)

Inductive request := RAlloc (x : A) | RGet (i : Z) | RRelease (i : Z).
Inductive answer := Index (i : Z) | Object (o : option A) | Done.

Definition serve (t : Table) (r : request) : res (Table * answer) :=
  match r with
  | RAlloc x => '(t, i) <- Alloc t (Some x) ;; Ok (t, Index i)
  | RGet i => o <- Get t i ;; Ok (t, Object o)
  | RRelease i => t <- Release t i ;; Ok (t, Done)
  end.

(** What the comments of Table.h promise. *)
Inductive promises (n : Z) (m : gmap Z A) : request -> gmap Z A -> answer -> Prop :=
| P_alloc x i : least_free m n i -> promises n m (RAlloc x) (<[i := x]> m) (Index i)
| P_full x : (forall j, 0 <= j < n -> is_Some (m !! j)) -> promises n m (RAlloc x) m (Index (-1))
| P_get i : promises n m (RGet i) m (Object (m !! i))
| P_release i : promises n m (RRelease i) (delete i m) Done.

Fixpoint serves (t : Table) (rs : list request) : res (list answer) :=
  match rs with
  | [] => Ok []
  | r :: rs => '(t, a) <- serve t r ;; l <- serves t rs ;; Ok (a :: l)
  end.

Inductive promised (n : Z) : gmap Z A -> list request -> list answer -> Prop :=
| PP_nil m : promised n m [] []
| PP_cons m r m' a rs l : promises n m r m' a -> promised n m' rs l -> promised n m (r :: rs) (a :: l).

Lemma serve_rep t m r :
  rep t m ->
  exists t' a m', serve t r = Ok (t', a) /\ promises (tableSize t) m r m' a /\ rep t' m' /\
    tableSize t' = tableSize t.
Proof.
  intros Hr. destruct r as [x|i|i]; cbn.
  - destruct (Alloc_rep t m x Hr) as (t' & i & -> & Hsz & [[Hf Hr']|(-> & -> & Hall)]); cbn.
    + eexists _, _, _. split; [done|]. split; [by constructor|done].
    + eexists _, _, _. split; [done|]. split; [by constructor|done].
  - rewrite (Get_rep t m i Hr). cbn. eexists _, _, _. split; [done|]. split; [constructor|done].
  - destruct (Release_rep t m i Hr) as (t' & -> & Hr' & Hsz). cbn.
    eexists _, _, _. split; [done|]. split; [constructor|done].
Qed.

Lemma serves_rep rs t m :
  rep t m -> exists l, serves t rs = Ok l /\ promised (tableSize t) m rs l.
Proof.
  revert t m. induction rs as [|r rs IH]; intros t m Hr; cbn; [eexists; split; [done|constructor]|].
  destruct (serve_rep t m r Hr) as (t' & a & m' & -> & Hp & Hr' & Hsz). cbn.
  destruct (IH t' m' Hr') as (l & -> & Hl). cbn. eexists; split; [done|].
  econstructor; [done|]. by rewrite <- Hsz.
Qed.

(** For every sequence of calls on a new table, Table implements the finite
    map its header promises: Alloc stores the object in the lowest free slot and
    answers its index, or answers -1 exactly when all [size] slots are taken;
    Get answers the object of a taken slot and NULL for any other index,
    negative ones and ones past the end included; Release frees the slot; no
    call ever leaves the array. *)
Theorem Table_refines (size : Z) (rs : list request) :
  0 <= size -> exists l, serves (Table_new size) rs = Ok l /\ promised size ∅ rs l.
Proof. intros Hs. apply (serves_rep rs (Table_new size) ∅). by apply rep_new. Qed.
End Table.
Arguments Table : clear implicits.
Arguments request : clear implicits.
Arguments answer : clear implicits.

Lemma Table_refines_witness :
  exists l, serves (Table_new 2) [RAlloc 7; RAlloc 8; RAlloc 9; RRelease 0; RAlloc 9; RGet 5] = Ok l /\
    promised 2 ∅ [RAlloc 7; RAlloc 8; RAlloc 9; RRelease 0; RAlloc 9; RGet 5] l.
Proof. apply (Table_refines 2). lia. Defined.
End Table.

Module Pipe.

Record Pipe := mkPipe {
  buffer : list Z;
  capacity : Z;
  size : Z;
  start : Z;
  end_ : Z;
  inOpen : Z;
  outOpen : Z
}.

(** [Pipe::Pipe]; [fresh] is what [new char[capacity]] holds. *)
Definition Pipe_new (fresh : nat -> Z) (bufferSize : Z) : Pipe :=
  mkPipe (fresh <$> seq 0 (Z.to_nat bufferSize)) bufferSize 0 0 0 0 0.

Definition setInOpen (p : Pipe) (value : Z) : Pipe :=
  mkPipe (buffer p) (capacity p) (size p) (start p) (end_ p) value (outOpen p).
Definition setOutOpen (p : Pipe) (value : Z) : Pipe :=
  mkPipe (buffer p) (capacity p) (size p) (start p) (end_ p) (inOpen p) value.
Definition getInOpen (p : Pipe) : Z := inOpen p.
Definition getOutOpen (p : Pipe) : Z := outOpen p.

(** [Pipe::Read]; [None] when it has to wait on the condition. *)
Definition Read (p : Pipe) : res (option (Pipe * Z)) :=
  if size p =? 0 then
    if getOutOpen p =? 0 then Ok (Some (p, 1000000)) else Ok None
  else
    let size := size p - 1 in
    let start := if start p =? capacity p then 0 else start p in
    retVal <- aget (buffer p) start ;;
    b <- aset (buffer p) start 0 ;;
    Ok (Some (mkPipe b (capacity p) size (start + 1) (end_ p) (inOpen p) (outOpen p), retVal)).

(** [Pipe::Write] of a [char]. *)
Definition Write (p : Pipe) (ch : Z) : res (option (Pipe * Z)) :=
  if size p =? capacity p then
    if getInOpen p =? 0 then Ok (Some (p, 0)) else Ok None
  else
    b <- aset (buffer p) (end_ p) (s8 ch) ;;
    let end_ := end_ p + 1 in
    let size := size p + 1 in
    let end_ := if end_ =? capacity p then 0 else end_ in
    Ok (Some (mkPipe b (capacity p) size (start p) end_ (inOpen p) (outOpen p), 1)).

(** ** The pipe as a bounded queue *)

(** [start] wraps when it is next used, [end_] as soon as it reaches the end. *)
Record rep (p : Pipe) (q : list Z) : Prop := {
  rep_len : zlen (buffer p) = capacity p;
  rep_size : size p = zlen q;
  rep_cap : 0 < capacity p;
  rep_full : zlen q <= capacity p;
  rep_start : 0 <= start p <= capacity p;
  rep_end : end_ p = (start p + size p) mod capacity p;
  rep_at : forall j, 0 <= j < zlen q ->
    buffer p !! Z.to_nat ((start p + j) mod capacity p) = q !! Z.to_nat j
}.

Lemma rep_new_pipe fresh n : 0 < n -> rep (Pipe_new fresh n) [].
Proof.
  intros Hn. split; cbn; try lia; [by rewrite length_fmap, length_seq; lia|by rewrite Z.mod_small by lia].
Qed.

Lemma rep_open p q f : rep p q -> (f = setInOpen \/ f = setOutOpen) -> forall v, rep (f p v) q.
Proof. by intros [] [-> | ->] v; split. Qed.

Lemma mod_wrap c s : 0 < c -> 0 <= s <= c -> s mod c = if s =? c then 0 else s.
Proof.
  intros. destruct (Z.eqb_spec s c) as [->|]; [by apply Z.mod_same; lia|].
  apply Z.mod_small. lia.
Qed.

Lemma Read_nonempty p c q :
  rep p (c :: q) -> exists p', Read p = Ok (Some (p', c)) /\ rep p' q /\
    inOpen p' = inOpen p /\ outOpen p' = outOpen p /\ capacity p' = capacity p.
Proof.
  intros [Hlen Hsz Hcap Hfull Hst Hend Hat]. unfold Read. cbn [length] in *.
  rewrite (proj2 (Z.eqb_neq _ _)) by lia. rewrite <- mod_wrap by done.
  set (s := start p mod capacity p). assert (0 <= s < capacity p) as Hs by by apply Z.mod_pos_bound.
  pose proof (Hat 0 ltac:(lia)) as H0. rewrite Z.add_0_r in H0. fold s in H0.
  rewrite (proj2 (aget_Ok _ _ c)) by (split; [lia|by rewrite H0]). cbn [bindr].
  rewrite aset_in by lia. cbn [bindr]. eexists. split; [done|]. split; [|done].
  assert (forall j, (s + 1 + j) mod capacity p = (start p + (j + 1)) mod capacity p) as Hmod.
  { intros j. unfold s. rewrite <- !Z.add_assoc, Z.add_mod_idemp_l by lia. f_equal. lia. }
  split; cbn; try lia.
  - by rewrite length_insert.
  - rewrite Hmod, Hend. f_equal. lia.
  - intros j Hj. rewrite Hmod. rewrite list_lookup_insert_ne.
    + rewrite Hat by lia. by replace (Z.to_nat (j + 1)) with (S (Z.to_nat j)) by lia.
    + intros E. apply (f_equal Z.of_nat) in E.
      pose proof (Z.mod_pos_bound (start p + (j + 1)) (capacity p) Hcap).
      rewrite !Z2Nat.id in E by lia. unfold s in E.
      assert ((j + 1) mod capacity p = 0) as Hz.
      { replace (j + 1) with ((start p + (j + 1)) - start p) by lia.
        rewrite Zminus_mod, <- E, Z.sub_diag. apply Z.mod_0_l. lia. }
      rewrite Z.mod_small in Hz by lia. lia.
Qed.

Lemma Write_room p c q :
  rep p q -> zlen q < capacity p -> exists p', Write p c = Ok (Some (p', 1)) /\
    rep p' (q ++ [s8 c]) /\ inOpen p' = inOpen p /\ outOpen p' = outOpen p /\ capacity p' = capacity p.
Proof.
  intros [Hlen Hsz Hcap Hfull Hst Hend Hat] Hroom. unfold Write.
  rewrite (proj2 (Z.eqb_neq _ _)) by lia.
  pose proof (Z.mod_pos_bound (start p + size p) (capacity p) Hcap) as He. rewrite <- Hend in He.
  rewrite aset_in by lia. cbn [bindr]. eexists. split; [done|]. split; [|done].
  rewrite <- mod_wrap by lia.
  split; cbn; rewrite ?length_app; cbn; try lia.
  - by rewrite length_insert.
  - rewrite Hend, Z.add_mod_idemp_l by lia. f_equal. lia.
  - intros j Hj. destruct (decide (j = zlen q)) as [->|Hne].
    + rewrite <- Hsz at 1. rewrite <- Hend, list_lookup_insert_eq by lia.
      rewrite Nat2Z.id, lookup_app_r, Nat.sub_diag by lia. done.
    + rewrite lookup_app_l by lia. rewrite <- Hat by lia.
      apply list_lookup_insert_ne. intros E. apply (f_equal Z.of_nat) in E.
      pose proof (Z.mod_pos_bound (start p + j) (capacity p) Hcap).
      rewrite !Z2Nat.id, Hend in E by lia.
      assert ((size p - j) mod capacity p = 0) as Hz.
      { replace (size p - j) with ((start p + size p) - (start p + j)) by lia.
        rewrite Zminus_mod, E, Z.sub_diag. apply Z.mod_0_l. lia. }
      rewrite Z.mod_small in Hz by lia. lia.
Qed.

(** ** Whole histories *)

Inductive pipe_call := CRead | CWrite (ch : Z) | CSetIn (v : Z) | CSetOut (v : Z).

Definition pipe_step (p : Pipe) (c : pipe_call) : res (Pipe * option Z) :=
  let of_call (r : option (Pipe * Z)) :=
    match r with Some (p, v) => (p, Some v) | None => (p, None) end in
  match c with
  | CRead => r <- Read p ;; Ok (of_call r)
  | CWrite ch => r <- Write p ch ;; Ok (of_call r)
  | CSetIn v => Ok (setInOpen p v, Some v)
  | CSetOut v => Ok (setOutOpen p v, Some v)
  end.

(** A queue of at most [cap] characters and its two flags. *)
Record fifo := mkFifo { chars : list Z; reader : Z; writer : Z }.

Definition fifo_step (cap : Z) (f : fifo) (c : pipe_call) : fifo * option Z :=
  match c with
  | CRead =>
      match chars f with
      | c :: q => (mkFifo q (reader f) (writer f), Some c)
      | [] => (f, if writer f =? 0 then Some 1000000 else None)
      end
  | CWrite ch =>
      if zlen (chars f) <? cap then (mkFifo (chars f ++ [s8 ch]) (reader f) (writer f), Some 1)
      else (f, if reader f =? 0 then Some 0 else None)
  | CSetIn v => (mkFifo (chars f) v (writer f), Some v)
  | CSetOut v => (mkFifo (chars f) (reader f) v, Some v)
  end.

Fixpoint pipe_run (p : Pipe) (cs : list pipe_call) : res (list (option Z)) :=
  match cs with
  | [] => Ok []
  | c :: cs => '(p, a) <- pipe_step p c ;; l <- pipe_run p cs ;; Ok (a :: l)
  end.

Fixpoint fifo_run (cap : Z) (f : fifo) (cs : list pipe_call) : list (option Z) :=
  match cs with
  | [] => []
  | c :: cs => let '(f, a) := fifo_step cap f c in a :: fifo_run cap f cs
  end.

Definition pipe_rep (p : Pipe) (cap : Z) (f : fifo) : Prop :=
  rep p (chars f) /\ capacity p = cap /\ inOpen p = reader f /\ outOpen p = writer f.

Lemma pipe_step_rep p cap f c :
  pipe_rep p cap f ->
  exists p', pipe_step p c = Ok (p', (fifo_step cap f c).2) /\ pipe_rep p' cap (fifo_step cap f c).1.
Proof.
  intros (Hr & Hc & Hi & Ho). destruct f as [q r w]; cbn in *. destruct c as [|ch|v|v]; cbn.
  - destruct q as [|c q].
    + unfold Read, getOutOpen. rewrite (rep_size _ _ Hr), Ho. cbn.
      destruct (w =? 0); eexists; (split; [done|]); by split.
    + destruct (Read_nonempty p c q Hr) as (p' & -> & Hr' & ? & ? & ?). cbn.
      eexists; split; [done|]. split_and!; cbn; try congruence; done.
  - destruct (Z.ltb_spec (zlen q) cap).
    + destruct (Write_room p ch q Hr ltac:(lia)) as (p' & -> & Hr' & ? & ? & ?). cbn.
      eexists; split; [done|]. split_and!; cbn; try congruence; done.
    + unfold Write, getInOpen. rewrite (rep_size _ _ Hr), Hi.
      pose proof (rep_full _ _ Hr). rewrite (proj2 (Z.eqb_eq _ _)) by lia. cbn.
      destruct (r =? 0); eexists; (split; [done|]); by split.
  - eexists; split; [done|]. split_and!; try done. apply (rep_open p q setInOpen); auto.
  - eexists; split; [done|]. split_and!; try done. apply (rep_open p q setOutOpen); auto.
Qed.

(** For every sequence of calls, the ring buffer of a pipe is a FIFO queue
    of at most [capacity] characters: characters come out once each, in the
    order they went in; a reader of an empty pipe waits exactly while the
    writer's side is open and otherwise gets the end mark 1000000; a writer to a
    full pipe waits exactly while the reader's side is open and otherwise gets 0;
    no call ever indexes outside the buffer, whatever the positions of [start]
    and [end]. *)
Theorem Pipe_refines (fresh : nat -> Z) (cap : Z) (cs : list pipe_call) :
  0 < cap -> pipe_run (Pipe_new fresh cap) cs = Ok (fifo_run cap (mkFifo [] 0 0) cs).
Proof.
  intros Hcap. assert (pipe_rep (Pipe_new fresh cap) cap (mkFifo [] 0 0)) as Hr
    by (split_and!; [by apply rep_new_pipe|done..]).
  revert Hr. generalize (Pipe_new fresh cap), (mkFifo [] 0 0).
  induction cs as [|c cs IH]; intros p f Hr; cbn; [done|].
  destruct (pipe_step_rep p cap f c Hr) as (p' & -> & Hr'). cbn.
  destruct (fifo_step cap f c) as [f' a]. cbn in *. by rewrite (IH _ _ Hr').
Qed.

Lemma Pipe_refines_witness :
  pipe_run (Pipe_new (fun _ => 0) 2) [CSetOut 1; CRead; CWrite 65; CWrite 66; CRead; CWrite 200; CRead; CRead] =
  Ok [Some 1; None; Some 1; Some 1; Some 65; Some 1; Some 66; Some (-56)].
Proof.
  apply (Pipe_refines (fun _ => 0) 2
    [CSetOut 1; CRead; CWrite 65; CWrite 66; CRead; CWrite 200; CRead; CRead]). lia.
Defined.
End Pipe.
