(* ===== verification/CoreMap.v ===== *)
(** The queue of resident pages (CorePage and CoreMap of userprog/addrspace.h,
    addrspace.cc): a singly linked list of kernel-heap nodes with [head] and
    [tail] pointers, from which the page-fault handler takes its victims, first
    in first out or, when [LRU] is set, by second chance on the use bits. *)
From Stdlib Require Import ZArith Lia Bool.
From stdpp Require Import base numbers list gmap fin_maps.
From S2P Require Import Prelude.

Record CorePage := mkCorePage {
  next : option positive;
  backingStore : positive;
  physicalPage : Z;
  virtualPage : Z
}.

Definition CorePage_new (bs : positive) (physPage virtPage : Z) : CorePage :=
  mkCorePage None bs physPage virtPage.

Definition set_next (p : CorePage) (n : option positive) : CorePage :=
  mkCorePage n (backingStore p) (physicalPage p) (virtualPage p).

(** [nodes] is the part of the kernel heap that holds CorePage objects. *)
Record CoreMap := mkCoreMap {
  nodes : gmap positive CorePage;
  head : option positive;
  tail : option positive;
  size : Z;
  capacity : Z
}.

Definition CoreMap_new (physPages : Z) : CoreMap := mkCoreMap ∅ None None 0 physPages.

Definition with_nodes (c : CoreMap) (h : gmap positive CorePage) : CoreMap :=
  mkCoreMap h (head c) (tail c) (size c) (capacity c).
Definition with_ends (c : CoreMap) (hd tl : option positive) : CoreMap :=
  mkCoreMap (nodes c) hd tl (size c) (capacity c).
Definition with_size (c : CoreMap) (n : Z) : CoreMap :=
  mkCoreMap (nodes c) (head c) (tail c) n (capacity c).

(** [p->...] for a CorePage pointer. *)
Definition load (c : CoreMap) (p : option positive) : res CorePage :=
  match p with
  | None => Err WildAccess
  | Some a => match nodes c !! a with Some n => Ok n | None => Err WildAccess end
  end.

(** [p->setNext(n)] *)
Definition setNext (c : CoreMap) (p n : option positive) : res CoreMap :=
  match p with
  | None => Err WildAccess
  | Some a =>
      match nodes c !! a with
      | Some e => Ok (with_nodes c (<[a := set_next e n]> (nodes c)))
      | None => Err WildAccess
      end
  end.

(** [new CorePage(...)] and [delete corePage]. *)
Definition new_page (c : CoreMap) (p : CorePage) : CoreMap * positive :=
  let a := fresh (dom (nodes c)) in (with_nodes c (<[a := p]> (nodes c)), a).
Definition delete_page (c : CoreMap) (a : positive) : CoreMap :=
  with_nodes c (delete a (nodes c)).

(** [CoreMap::addCorePage] *)
Definition addCorePage (c : CoreMap) (corePage : positive) : res (CoreMap * Z) :=
  if size c =? capacity c then Ok (c, 1)
  else
    let c := with_size c (size c + 1) in
    match head c with
    | None => Ok (with_ends c (Some corePage) (Some corePage), 0)
    | Some _ =>
        c <- setNext c (tail c) (Some corePage) ;;
        n <- load c (tail c) ;;
        Ok (with_ends c (head c) (next n), 0)
    end.

Definition isFull (c : CoreMap) : Z := if size c =? capacity c then 1 else 0.

(** The use bits of the page tables, as the pager reaches them from a
    CorePage: through its backing store, its address space and the entry of its
    virtual page. *)
Class UseBits (S : Type) := {
  getUse : S -> positive -> Z -> res bool;
  clearUse : S -> positive -> Z -> res S
}.

Section Evict.
Context {S : Type} `{!UseBits S}.

Definition page_used (s : S) (p : CorePage) : res bool := getUse s (backingStore p) (virtualPage p).
Definition page_clear (s : S) (p : CorePage) : res S := clearUse s (backingStore p) (virtualPage p).

(** The while loop over the pages after the head. *)
Fixpoint evict_loop (fuel : nat) (c : CoreMap) (s : S) (travel nxt : option positive)
  : res (CoreMap * S * option positive) :=
  match fuel with
  | O => Err OutOfFuel
  | Datatypes.S fuel =>
      match nxt with
      | None =>
          let corePage := head c in
          hd <- load c (head c) ;;
          Ok (with_ends c (next hd) (tail c), s, corePage)
      | Some _ =>
          n <- load c nxt ;;
          u <- page_used s n ;;
          if u : bool then
            s <- page_clear s n ;;
            t <- load c travel ;;
            evict_loop fuel c s (next t) (next n)
          else
            c <- setNext c travel (next n) ;;
            Ok (c, s, nxt)
      end
  end.

(** [CoreMap::evictCorePage]; the result is the evicted page, NULL when there is
    none. *)
Definition evictCorePage (LRU : bool) (c : CoreMap) (s : S)
  : res (CoreMap * S * option positive) :=
  if size c =? 0 then Ok (c, s, None)
  else
    let c := with_size c (size c - 1) in
    if decide (head c = tail c) then Ok (with_ends c None None, s, head c)
    else if negb LRU then
      hd <- load c (head c) ;;
      Ok (with_ends c (next hd) (tail c), s, head c)
    else
      hd <- load c (head c) ;;
      u <- page_used s hd ;;
      if negb u then Ok (with_ends c (next hd) (tail c), s, head c)
      else
        s <- page_clear s hd ;;
        evict_loop (Datatypes.S (Datatypes.S (base.size (nodes c)))) c s (head c) (next hd).

(** [CoreMap::evictAll]; [FreePage] is what the memory manager does to [s]. *)
Context (FreePage : S -> Z -> res S).

Fixpoint evictAll_head (fuel : nat) (c : CoreMap) (s : S) (bs : positive) : res (CoreMap * S) :=
  match fuel with
  | O => Err OutOfFuel
  | Datatypes.S fuel =>
      match head c with
      | None => Ok (c, s)
      | Some _ =>
          hd <- load c (head c) ;;
          if decide (backingStore hd = bs) then
            s <- FreePage s (physicalPage hd) ;;
            evictAll_head fuel (with_size (with_ends c (next hd) (tail c)) (size c - 1)) s bs
          else Ok (c, s)
      end
  end.

Fixpoint evictAll_rest (fuel : nat) (c : CoreMap) (s : S) (bs : positive)
    (travel nxt : option positive) : res (CoreMap * S) :=
  match fuel with
  | O => Err OutOfFuel
  | Datatypes.S fuel =>
      match nxt with
      | None => Ok (c, s)
      | Some _ =>
          n <- load c nxt ;;
          '(c, s, nxt) <-
            (if decide (backingStore n = bs) then
               s <- FreePage s (physicalPage n) ;;
               c <- setNext c travel (next n) ;;
               t <- load c travel ;;
               Ok (with_size c (size c - 1), s, next t)
             else Ok (c, s, nxt)) ;;
          t <- load c travel ;;
          let travel := next t in
          match nxt with
          | None => evictAll_rest fuel c s bs travel None
          | Some _ => n <- load c nxt ;; evictAll_rest fuel c s bs travel (next n)
          end
      end
  end.

Definition evictAll (c : CoreMap) (s : S) (bs : positive) : res (CoreMap * S) :=
  let fuel := Datatypes.S (base.size (nodes c)) in
  '(c, s) <- evictAll_head fuel c s bs ;;
  match head c with
  | None => Ok (with_ends c None None, s)
  | Some _ =>
      hd <- load c (head c) ;;
      evictAll_rest fuel c s bs (head c) (next hd)
  end.
End Evict.

(** ** Evicting, over two kinds of use bits

    The loop goes the same way over any two states that agree on the bits it reads. *)
Section Simulation.
Context {S1 S2 : Type} `{!UseBits S1, !UseBits S2} (R : S1 -> S2 -> Prop).
Hypothesis R_get : forall s1 s2 b v u, R s1 s2 -> getUse s1 b v = Ok u -> getUse s2 b v = Ok u.
Hypothesis R_clear : forall s1 s2 b v s1', R s1 s2 -> getUse s1 b v = Ok true -> clearUse s1 b v = Ok s1' ->
  exists s2', clearUse s2 b v = Ok s2' /\ R s1' s2'.

Lemma evict_loop_sim fuel c s1 s2 travel nxt c' s1' p :
  R s1 s2 -> evict_loop fuel c s1 travel nxt = Ok (c', s1', p) ->
  exists s2', evict_loop fuel c s2 travel nxt = Ok (c', s2', p) /\ R s1' s2'.
Proof.
  revert c s1 s2 travel nxt. induction fuel as [|fuel IH]; intros c s1 s2 travel nxt HR; cbn [evict_loop]; [done|].
  destruct nxt as [nx|].
  - intros (n & -> & E)%bind_Ok. cbn [bindr]. apply bind_Ok in E as (u & Eu & E).
    unfold page_used in *. rewrite (R_get s1 s2 _ _ u HR Eu). cbn [bindr]. destruct u.
    + apply bind_Ok in E as (s1b & Ec & E). unfold page_clear in *.
      destruct (R_clear s1 s2 _ _ s1b HR Eu Ec) as (s2b & -> & HRb). cbn [bindr].
      apply bind_Ok in E as (t & -> & E). cbn [bindr]. by apply (IH c s1b s2b).
    + apply bind_Ok in E as (c1 & -> & [= <- <- <-]). cbn [bindr]. by exists s2.
  - intros (n & -> & [= <- <- <-])%bind_Ok. cbn [bindr]. by exists s2.
Qed.

Lemma evictCorePage_sim LRU c s1 s2 c' s1' p :
  R s1 s2 -> evictCorePage LRU c s1 = Ok (c', s1', p) ->
  exists s2', evictCorePage LRU c s2 = Ok (c', s2', p) /\ R s1' s2'.
Proof.
  intros HR. unfold evictCorePage. destruct (size c =? 0); [intros [= <- <- <-]; by exists s2|].
  case_decide; [intros [= <- <- <-]; by exists s2|]. destruct (negb LRU).
  - intros (n & -> & [= <- <- <-])%bind_Ok. cbn [bindr]. by exists s2.
  - intros (n & -> & E)%bind_Ok. cbn [bindr]. apply bind_Ok in E as (u & Eu & E).
    unfold page_used in *. rewrite (R_get s1 s2 _ _ u HR Eu). cbn [bindr]. destruct u; cbn [negb] in *.
    + apply bind_Ok in E as (s1b & Ec & E). unfold page_clear in *.
      destruct (R_clear s1 s2 _ _ s1b HR Eu Ec) as (s2b & -> & HRb). cbn [bindr]. by apply (evict_loop_sim _ _ s1b s2b).
    + injection E as <- <- <-. by exists s2.
Qed.
End Simulation.

(** ** The queue the pointers represent *)

(** The data of a page: its backing store, its frame, its virtual page. *)
Definition page_data : Type := positive * Z * Z.

Definition page_of (n : option positive) (d : page_data) : CorePage :=
  mkCorePage n d.1.1 d.1.2 d.2.

Fixpoint linked (h : gmap positive CorePage) (p : option positive)
    (l : list (positive * page_data)) : Prop :=
  match l with
  | [] => p = None
  | (a, d) :: l => p = Some a /\ exists n, h !! a = Some (page_of n d) /\ linked h n l
  end.

(** [Record]s of the chain from [head]; [tail] is its last node. *)
Record rep (c : CoreMap) (l : list (positive * page_data)) : Prop := {
  rep_linked : linked (nodes c) (head c) l;
  rep_nodup : NoDup l.*1;
  rep_tail : tail c = fst <$> list_last l;
  rep_size : size c = zlen l;
  rep_cap : zlen l <= capacity c
}.

Lemma linked_ext h h' p l :
  (forall a, a ∈ l.*1 -> h' !! a = h !! a) -> linked h p l -> linked h' p l.
Proof.
  revert p. induction l as [|[a d] l IH]; intros p Hh; cbn; [done|].
  intros (-> & n & Hn & Hl). split; [done|]. exists n. rewrite Hh by (cbn; left).
  split; [done|]. apply IH; [|done]. intros b Hb. apply Hh. cbn. by right.
Qed.

Lemma linked_lookup h p l i a d :
  linked h p l -> l !! i = Some (a, d) ->
  h !! a = Some (page_of (fst <$> l !! S i) d).
Proof.
  revert p i. induction l as [|[b e] l IH]; intros p i; [done|].
  intros (-> & n & Hn & Hl) Hi. destruct i as [|i]; cbn in *.
  - injection Hi as -> ->. rewrite Hn. do 2 f_equal.
    destruct l as [|[b2 e2] l]; cbn in *; [done|by destruct Hl].
  - by apply IH with n.
Qed.

Lemma linked_dom h p l a : linked h p l -> a ∈ l.*1 -> is_Some (h !! a).
Proof.
  intros Hl ([b d] & -> & [i Hi]%list_elem_of_lookup)%list_elem_of_fmap. cbn.
  by rewrite (linked_lookup h p l i b d Hl Hi).
Qed.

(** Linking one more node behind the last one. *)
Lemma linked_snoc h p l t dt a d :
  linked h p (l ++ [(t, dt)]) -> NoDup (l ++ [(t, dt)]).*1 -> a ∉ (l ++ [(t, dt)]).*1 ->
  h !! a = Some (page_of None d) ->
  linked (<[t := page_of (Some a) dt]> h) p (l ++ [(t, dt); (a, d)]).
Proof.
  revert p. induction l as [|[b e] l IH]; intros p; cbn.
  - intros (-> & n & Hn & ->) _ Ha Hd. split; [done|]. eexists. rewrite lookup_insert_eq.
    split; [done|]. split; [done|]. exists None. split; [|done].
    rewrite lookup_insert_ne; [done|]. set_solver.
  - intros (-> & n & Hn & Hl) Hnd Ha Hd. split; [done|]. exists n.
    apply NoDup_cons in Hnd as [Hb Hnd]. split.
    + rewrite lookup_insert_ne; [done|]. rewrite fmap_app in Hb. cbn in Hb. set_solver.
    + apply IH; try done. intros ?. apply Ha. by right.
Qed.

(** Unlinking the node behind [t]. *)
Lemma linked_unlink h p l t dt a d l' :
  linked h p (l ++ (t, dt) :: (a, d) :: l') -> NoDup (l ++ (t, dt) :: (a, d) :: l').*1 ->
  linked (<[t := page_of (fst <$> l' !! 0%nat) dt]> h) p (l ++ (t, dt) :: l').
Proof.
  revert p. induction l as [|[b e] l IH]; intros p; cbn.
  - intros (-> & n & Hn & -> & n' & Hn' & Hl) Hnd. split; [done|]. eexists.
    rewrite lookup_insert_eq. split; [done|].
    apply NoDup_cons in Hnd as [Ht Hnd].
    assert ((fst <$> l' !! 0%nat) = n') as ->
      by (destruct l' as [|[b2 e2] l']; cbn in *; [done|by destruct Hl]).
    apply linked_ext with h; [|done]. intros b Hb. apply lookup_insert_ne. set_solver.
  - intros (-> & n & Hn & Hl) Hnd. split; [done|]. exists n.
    apply NoDup_cons in Hnd as [Hb Hnd]. split.
    + rewrite lookup_insert_ne; [done|]. rewrite fmap_app in Hb. cbn in Hb. set_solver.
    + by apply IH.
Qed.

Lemma rep_new_map n : 0 <= n -> rep (CoreMap_new n) [].
Proof. intros. split; cbn; [done|constructor|done|done|lia]. Qed.

Lemma load_rep c l i a d :
  linked (nodes c) (head c) l -> l !! i = Some (a, d) ->
  load c (Some a) = Ok (page_of (fst <$> l !! S i) d).
Proof. intros Hl Hi. cbn. by rewrite (linked_lookup _ _ _ _ _ _ Hl Hi). Qed.

(** ** Adding a page, as the pager does: [addCorePage(new CorePage(...))] *)

Definition add_new (c : CoreMap) (d : page_data) : res (CoreMap * Z) :=
  let '(c, a) := new_page c (page_of None d) in addCorePage c a.

Lemma add_new_rep c l d :
  rep c l ->
  exists c' r, add_new c d = Ok (c', r) /\ capacity c' = capacity c /\
    ((zlen l < capacity c /\ r = 0 /\ exists a, a ∉ l.*1 /\ rep c' (l ++ [(a, d)])) \/
     (zlen l = capacity c /\ r = 1 /\ rep c' l)).
Proof.
  intros [Hl Hnd Ht Hsz Hcap]. unfold add_new, new_page. set (a := fresh (dom (nodes c))).
  assert (nodes c !! a = None) as Hfresh by (apply not_elem_of_dom, is_fresh).
  assert (a ∉ l.*1) as Ha.
  { intros [x Hx]%(linked_dom _ _ _ _ Hl). congruence. }
  assert (linked (<[a := page_of None d]> (nodes c)) (head c) l) as Hl'.
  { apply linked_ext with (nodes c); [|done]. intros b Hb. apply lookup_insert_ne. set_solver. }
  unfold addCorePage. cbn. rewrite Hsz.
  destruct (Z.eqb_spec (zlen l) (capacity c)) as [Hfull|Hroom].
  { eexists _, _. split; [done|]. split; [done|]. right. split; [done|]. split; [done|]. by split. }
  destruct l as [|[b e] l0 _] eqn:El using rev_ind.
  - cbn in Hl. rewrite Hl. eexists _, _. split; [done|]. split; [done|]. left.
    split; [cbn in *; lia|]. split; [done|]. exists a. split; [done|].
    split; cbn; [|apply NoDup_singleton|done|done|cbn in *; lia].
    split; [done|]. exists None. split; [apply lookup_insert_eq|done].
  - assert (head c = fst <$> (l0 ++ [(b, e)]) !! 0%nat) as Hhd.
    { destruct l0 as [|[]]; cbn in *; by destruct Hl. }
    rewrite last_snoc in Ht. cbn in Ht.
    destruct (head c) as [hd|] eqn:Ehd; [|destruct l0; done].
    pose proof (linked_lookup _ _ _ (length l0) b e Hl') as Hb. rewrite <- Ehd in *.
    rewrite list_lookup_middle in Hb by done. specialize (Hb eq_refl). cbn.
    rewrite Ht. cbn. rewrite Hb. cbn. rewrite Ht. cbn. rewrite lookup_insert_eq. cbn.
    eexists _, _. split; [done|]. split; [done|]. left. rewrite length_app in *. cbn in *.
    split; [lia|]. split; [done|]. exists a. split; [done|].
    split; cbn.
    + rewrite <- app_assoc. apply linked_snoc; try done. by rewrite lookup_insert_eq.
    + rewrite fmap_app. cbn. apply NoDup_app. split; [done|].
      split; [by intros x Hx ->%list_elem_of_singleton|apply NoDup_singleton].
    + by rewrite last_snoc.
    + rewrite !length_app. cbn. lia.
    + rewrite !length_app. cbn. lia.
Qed.

Section EvictFacts.
Context {S : Type} `{!UseBits S}.

(** Removing the page at the head. *)
Lemma rep_pop c a d l :
  rep c ((a, d) :: l) -> l <> [] ->
  rep (with_ends (with_size c (size c - 1)) (fst <$> l !! 0%nat) (tail c)) l /\ head c <> tail c.
Proof.
  intros [Hl Hnd Ht Hsz Hcap] Hne. destruct l as [|[b e] l]; [done|].
  cbn in Hl. destruct Hl as (Hh & n & Hn & Hl). apply NoDup_cons in Hnd as [Ha Hnd].
  split.
  - split; cbn; [|done|done|cbn in *; lia|cbn in *; lia]. cbn in Hl. destruct Hl as (-> & Hl).
    by split.
  - rewrite Hh, Ht, last_cons_cons. intros Heq. apply Ha.
    destruct (list_last ((b, e) :: l)) as [[x y]|] eqn:E; [|done].
    injection Heq as ->. apply last_Some in E as [l' E].
    change (x ∈ ((b, e) :: l).*1). rewrite E, fmap_app.
    apply elem_of_app. right. by left.
Qed.

Lemma evict_single LRU c s a d :
  rep c [(a, d)] ->
  exists c', evictCorePage LRU c s = Ok (c', s, Some a) /\ rep c' [] /\
    capacity c' = capacity c /\ nodes c' = nodes c.
Proof.
  intros [Hl Hnd Ht Hsz Hcap]. unfold evictCorePage. rewrite Hsz. cbn in *.
  destruct Hl as (Hh & _). rewrite Hh, Ht, decide_True by done.
  eexists; split; [done|]. split; [|done]. split; cbn; [done|constructor|done|lia|lia].
Qed.

Lemma evict_fifo c s a d l :
  rep c ((a, d) :: l) ->
  exists c', evictCorePage false c s = Ok (c', s, Some a) /\ rep c' l /\
    capacity c' = capacity c /\ nodes c' = nodes c.
Proof.
  intros Hr. destruct (decide (l = [])) as [->|Hne]; [by apply evict_single with d|].
  destruct (rep_pop c a d l Hr Hne) as [Hr' Hht]. destruct Hr as [Hl _ _ Hsz _].
  unfold evictCorePage. rewrite (proj2 (Z.eqb_neq (size c) 0)) by (rewrite Hsz; cbn; lia).
  cbn. rewrite decide_False by done.
  pose proof (linked_lookup _ _ _ 0%nat a d Hl eq_refl) as Ha.
  destruct Hl as (-> & _). cbn. rewrite Ha. cbn. eexists; split; [done|]. by split.
Qed.

Lemma delete_page_rep c l a : rep c l -> a ∉ l.*1 -> rep (delete_page c a) l.
Proof.
  intros [Hl Hnd Ht Hsz Hcap] Ha. split; cbn; try done.
  apply linked_ext with (nodes c); [|done]. intros b Hb. apply lookup_delete_ne. set_solver.
Qed.
End EvictFacts.

(** ** First in, first out *)

Section Fifo.
Context {S : Type} `{!UseBits S}.

(** The handler's use: evict, read the victim, delete its node. *)
Definition evict_delete (LRU : bool) (c : CoreMap) (s : S)
  : res (CoreMap * S * option page_data) :=
  '(c, s, p) <- evictCorePage LRU c s ;;
  match p with
  | None => Ok (c, s, None)
  | Some a =>
      n <- load c p ;;
      Ok (delete_page c a, s, Some (backingStore n, physicalPage n, virtualPage n))
  end.

Inductive cm_request := Add (d : page_data) | Evict.
Inductive cm_answer := Added (code : Z) | Evicted (d : option page_data).

Definition cm_step (c : CoreMap) (s : S) (r : cm_request) : res (CoreMap * S * cm_answer) :=
  match r with
  | Add d => '(c, code) <- add_new c d ;; Ok (c, s, Added code)
  | Evict => '(c, s, v) <- evict_delete false c s ;; Ok (c, s, Evicted v)
  end.

Definition queue_step (cap : Z) (q : list page_data) (r : cm_request) : list page_data * cm_answer :=
  match r with
  | Add d => if zlen q =? cap then (q, Added 1) else (q ++ [d], Added 0)
  | Evict => match q with [] => ([], Evicted None) | d :: q => (q, Evicted (Some d)) end
  end.

Fixpoint cm_run (c : CoreMap) (s : S) (rs : list cm_request) : res (list cm_answer) :=
  match rs with
  | [] => Ok []
  | r :: rs => '(c, s, a) <- cm_step c s r ;; l <- cm_run c s rs ;; Ok (a :: l)
  end.

Fixpoint queue_run (cap : Z) (q : list page_data) (rs : list cm_request) : list cm_answer :=
  match rs with
  | [] => []
  | r :: rs => let '(q, a) := queue_step cap q r in a :: queue_run cap q rs
  end.

Lemma cm_step_rep c s l r :
  rep c l ->
  exists c' l', cm_step c s r = Ok (c', s, (queue_step (capacity c) l.*2 r).2) /\
    l'.*2 = (queue_step (capacity c) l.*2 r).1 /\ rep c' l' /\ capacity c' = capacity c.
Proof.
  intros Hr. destruct r as [d|]; cbn [cm_step].
  - destruct (add_new_rep c l d Hr) as (c' & r & -> & Hcap & [(Hroom & -> & a & _ & Hr')|(Hfull & -> & Hr')]);
      cbn; rewrite length_fmap.
    + rewrite (proj2 (Z.eqb_neq _ _)) by lia. exists c', (l ++ [(a, d)]). cbn.
      rewrite fmap_app. done.
    + rewrite (proj2 (Z.eqb_eq _ _)) by lia. by exists c', l.
  - unfold evict_delete. destruct l as [|[a d] l]; cbn.
    + unfold evictCorePage. rewrite (rep_size _ _ Hr). cbn. by exists c, [].
    + destruct (evict_fifo c s a d l Hr) as (c' & -> & Hr' & Hcap & Hnodes). cbn.
      pose proof (linked_lookup _ _ _ 0%nat a d (rep_linked _ _ Hr) eq_refl) as Ha.
      rewrite Hnodes, Ha. cbn. exists (delete_page c' a), l. split; [by destruct d as [[]]|].
      split; [done|]. split; [|done]. apply delete_page_rep; [done|].
      pose proof (rep_nodup _ _ Hr) as Hnd. by apply NoDup_cons in Hnd as [].
Qed.

(** With the FIFO policy, the core map is a bounded first-in first-out
    queue: for every sequence of additions and evictions (each victim's node
    being deleted afterwards, as the page-fault handler does) an addition
    succeeds until [capacity] pages are queued and then answers 1, an eviction
    yields the page that was added first among those queued, and no dead node is
    ever reached through [head], [tail] or [next]. *)
Theorem CoreMap_fifo (s : S) (cap : Z) (rs : list cm_request) :
  0 <= cap -> cm_run (CoreMap_new cap) s rs = Ok (queue_run cap [] rs).
Proof.
  intros Hcap. pose proof (rep_new_map cap Hcap) as Hr.
  change cap with (capacity (CoreMap_new cap)) at 2.
  change (@nil page_data) with (snd <$> @nil (positive * page_data)).
  revert Hr. generalize (CoreMap_new cap), (@nil (positive * page_data)).
  induction rs as [|r rs IH]; intros c l Hr; cbn; [done|].
  destruct (cm_step_rep c s l r Hr) as (c' & l' & -> & Hl' & Hr' & Hc'). cbn.
  rewrite (IH c' l' Hr'), Hc', Hl'. by destruct (queue_step _ _ _).
Qed.
End Fifo.

(** Use bits kept in a finite map, for concrete runs. *)
#[export] Instance map_UseBits : UseBits (gmap (positive * Z) bool) := {
  getUse s b v := match s !! (b, v) with Some u => Ok u | None => Err WildAccess end;
  clearUse s b v := Ok (<[(b, v) := false]> s)
}.

Lemma CoreMap_fifo_witness :
  cm_run (CoreMap_new 2) (∅ : gmap (positive * Z) bool)
    [Add (1%positive, 5, 0); Add (1%positive, 6, 1); Add (2%positive, 7, 0); Evict; Evict; Evict] =
  Ok [Added 0; Added 0; Added 1; Evicted (Some (1%positive, 5, 0));
      Evicted (Some (1%positive, 6, 1)); Evicted None].
Proof.
  apply (CoreMap_fifo (∅ : gmap (positive * Z) bool) 2
    [Add (1%positive, 5, 0); Add (1%positive, 6, 1); Add (2%positive, 7, 0); Evict; Evict; Evict]).
  lia.
Defined.

(** ** Second chance *)

(** What the use bits promise: reading one gives its value, clearing one changes
    that one. *)
Class UseLaws (S : Type) `{!UseBits S} := {
  used : S -> positive -> Z -> option bool;
  getUse_used : forall s b v u, used s b v = Some u -> getUse s b v = Ok u;
  clearUse_used : forall s b v u, used s b v = Some u ->
    exists s', clearUse s b v = Ok s' /\
      forall b' v', used s' b' v' = if decide ((b', v') = (b, v)) then Some false else used s b' v'
}.

#[export] Instance map_UseLaws : UseLaws (gmap (positive * Z) bool).
Proof.
  refine (Build_UseLaws _ _ (fun s b v => s !! (b, v)) _ _).
  - intros s b v u Hu. cbn. by rewrite Hu.
  - intros s b v u Hu. cbn. eexists. split; [done|]. intros b' v'. case_decide as E.
    + rewrite E. apply lookup_insert_eq.
    + by apply lookup_insert_ne.
Defined.

Section SecondChance.
Context {S : Type} `{!UseBits S, !UseLaws S}.

Definition bit_of (s : S) (x : positive * page_data) : option bool := used s x.2.1.1 x.2.2.
Definition page_key (x : positive * page_data) : positive * Z := (x.2.1.1, x.2.2).

(** [s'] is [s] with the bits of the pages of [l] cleared. *)
Definition cleared (s s' : S) (l : list (positive * page_data)) : Prop :=
  forall b v, used s' b v = if decide ((b, v) ∈ page_key <$> l) then Some false else used s b v.

Lemma cleared_nil s : cleared s s [].
Proof. intros b v. rewrite decide_False; [done|]. cbn. apply not_elem_of_nil. Qed.

Lemma cleared_cons s s1 s2 x l :
  (forall b v, used s1 b v = if decide ((b, v) = page_key x) then Some false else used s b v) ->
  cleared s1 s2 l -> cleared s s2 (x :: l).
Proof.
  intros H1 H2 b v. rewrite H2, H1. cbn.
  repeat case_decide; try done; exfalso; rewrite ?elem_of_cons in *; naive_solver.
Qed.

Lemma bit_of_clear s s1 x y :
  (forall b v, used s1 b v = if decide ((b, v) = page_key x) then Some false else used s b v) ->
  page_key y <> page_key x -> bit_of s1 y = bit_of s y.
Proof. intros H1 Hne. unfold bit_of. rewrite H1, decide_False; [done|]. done. Qed.

Lemma linked_length h p (l : list (positive * page_data)) :
  linked h p l -> NoDup l.*1 -> (length l <= base.size h)%nat.
Proof.
  intros Hl Hnd. rewrite <- size_dom, <- (length_fmap fst l).
  rewrite <- (size_list_to_set (C := gset positive) l.*1) by done.
  apply subseteq_size. intros a Ha%elem_of_list_to_set. apply elem_of_dom.
  by apply (linked_dom h p l).
Qed.

(** The loop: [pre] ends with the node [travel], [rest] starts at [next]. *)
Lemma evict_loop_spec rest fuel c s pre t dt :
  linked (nodes c) (head c) (pre ++ (t, dt) :: rest) ->
  NoDup (pre ++ (t, dt) :: rest).*1 -> NoDup (page_key <$> rest) ->
  Forall (fun x => is_Some (bit_of s x)) rest -> (length rest < fuel)%nat ->
  exists c' s' victim, evict_loop fuel c s (Some t) (fst <$> rest !! 0%nat) = Ok (c', s', victim) /\
    tail c' = tail c /\ size c' = size c /\ capacity c' = capacity c /\
    ((exists mid v dv post, rest = mid ++ (v, dv) :: post /\ victim = Some v /\
        Forall (fun x => bit_of s x = Some true) mid /\ used s dv.1.1 dv.2 = Some false /\
        cleared s s' mid /\ head c' = head c /\ nodes c' !! v = nodes c !! v /\
        linked (nodes c') (head c') (pre ++ (t, dt) :: mid ++ post)) \/
     (Forall (fun x => bit_of s x = Some true) rest /\ victim = head c /\ cleared s s' rest /\
        nodes c' = nodes c /\ head c' = fst <$> (pre ++ (t, dt) :: rest) !! 1%nat)).
Proof.
  revert fuel s pre t dt. induction rest as [|[a d] rest IH]; intros fuel s pre t dt Hl Hnd Hk Hb Hf;
    (destruct fuel as [|fuel]; [cbn in Hf; lia|]); cbn [evict_loop].
  - cbn. assert (exists x dx, head c = Some x /\ (pre ++ [(t, dt)]) !! 0%nat = Some (x, dx)) as (x & dx & Hh & Hx).
    { destruct pre as [|[y dy] pre]; cbn in *; destruct Hl as (-> & _); eauto. }
    pose proof (linked_lookup _ _ _ _ _ _ Hl Hx) as Hn. rewrite Hh. cbn. rewrite Hn. cbn.
    eexists _, _, _. split; [done|]. split_and!; try done. right. split; [constructor|].
    split; [done|]. split; [apply cleared_nil|]. done.
  - cbn [fmap option_fmap option_map lookup list_lookup].
    assert (nodes c !! t = Some (page_of (Some a) dt) /\
            nodes c !! a = Some (page_of (fst <$> rest !! 0%nat) d)) as [Hnt Hna].
    { pose proof (linked_lookup _ _ _ (length pre) t dt Hl) as H1.
      pose proof (linked_lookup _ _ _ (length pre + 1)%nat a d Hl) as H2.
      rewrite !lookup_app_r in H1, H2 by lia.
      replace (length pre - length pre)%nat with 0%nat in H1 by lia.
      replace (Datatypes.S (length pre) - length pre)%nat with 1%nat in H1 by lia.
      replace (length pre + 1 - length pre)%nat with 1%nat in H2 by lia.
      replace (Datatypes.S (length pre + 1) - length pre)%nat with 2%nat in H2 by lia.
      split; [by apply H1|by apply H2]. }
    apply NoDup_cons in Hk as [Hka Hk]. apply Forall_cons in Hb as [[u Hu] Hb].
    cbn [fst load]. rewrite Hna. cbn [bindr]. unfold page_used. cbn [page_of backingStore virtualPage].
    change (used s d.1.1 d.2 = Some u) in Hu.
    rewrite (getUse_used s _ _ u Hu). cbn [bindr]. destruct u.
    + unfold page_clear. cbn [page_of backingStore virtualPage].
      destruct (clearUse_used s _ _ true Hu) as (s1 & -> & Hs1). cbn [bindr].
      rewrite Hnt. cbn [bindr next page_of].
      assert (forall x, x ∈ rest -> bit_of s1 x = bit_of s x) as Hsame.
      { intros x Hx. apply (bit_of_clear s s1 (a, d)); [done|]. intros E. apply Hka.
        rewrite <- E. by apply (list_elem_of_fmap_2 page_key rest x). }
      destruct (IH fuel s1 (pre ++ [(t, dt)]) a d) as (c' & s' & v & -> & Ht & Hsz & Hcap & Hres);
        rewrite <- ?app_assoc; try done.
      * apply Forall_forall. intros x Hx. rewrite Hsame by done. by eapply Forall_forall in Hb.
      * cbn in Hf. lia.
      * eexists _, _, _. split; [done|]. do 3 (split; [done|]). cbn [app] in Hres.
        destruct Hres as [(mid & w & dw & post & -> & -> & Hm & Hw & Hcl & Hh & Hn & Hl')|
                          (Hm & -> & Hcl & Hn & Hh)].
        -- left. exists ((a, d) :: mid), w, dw, post. split_and!; try done.
           ++ constructor; [done|]. rewrite Forall_forall in Hm |- *. intros x Hx.
              rewrite <- Hsame; [by apply Hm|]. apply elem_of_app. by left.
           ++ change (bit_of s (w, dw) = Some false). rewrite <- Hsame; [done|].
              apply elem_of_app. right. by left.
           ++ by apply cleared_cons with s1.
           ++ by rewrite <- app_assoc in Hl'.
        -- right. split_and!; try done.
           ++ constructor; [done|]. rewrite Forall_forall in Hm |- *. intros x Hx.
              rewrite <- Hsame; [by apply Hm|done].
           ++ by apply cleared_cons with s1.
           ++ rewrite Hh. by rewrite <- app_assoc.
    + cbn [setNext]. rewrite Hnt. cbn [bindr next page_of].
      eexists _, _, _. split; [done|]. split_and!; try done. left.
      exists [], a, d, rest. split_and!; try done.
      * cbn. apply lookup_insert_ne. intros ->. rewrite fmap_app in Hnd. cbn in Hnd.
        apply NoDup_app in Hnd as (_ & _ & Hnd). apply NoDup_cons in Hnd as [Hnd _].
        apply Hnd. by left.
      * cbn [with_nodes nodes head]. by apply linked_unlink in Hl.
Qed.

Lemma evict_lru (c : CoreMap) (s : S) (l : list (positive * page_data)) :
  rep c l -> (2 <= length l)%nat -> NoDup (page_key <$> l) ->
  Forall (fun x => is_Some (bit_of s x)) l ->
  exists c' s' a d pre post, evictCorePage true c s = Ok (c', s', Some a) /\
    l = pre ++ (a, d) :: post /\ nodes c' !! a = nodes c !! a /\
    linked (nodes c') (head c') (pre ++ post) /\ size c' = size c - 1 /\ tail c' = tail c /\
    capacity c' = capacity c /\
    ((Forall (fun x => bit_of s x = Some true) pre /\ bit_of s (a, d) = Some false /\ cleared s s' pre) \/
     (Forall (fun x => bit_of s x = Some true) l /\ pre = [] /\ cleared s s' l)).
Proof.
  intros Hr Hlen Hk Hb. destruct l as [|[t dt] [|y rest]]; [cbn in Hlen; lia..|].
  destruct (rep_pop c t dt (y :: rest) Hr ltac:(done)) as [_ Hht].
  pose proof (rep_linked _ _ Hr) as Hl. pose proof (rep_nodup _ _ Hr) as Hnd.
  pose proof (linked_lookup _ _ _ 0%nat t dt Hl eq_refl) as Hnt.
  assert (head c = Some t) as Hh by (by destruct Hl).
  apply NoDup_cons in Hk as [Hkt Hk]. apply Forall_cons in Hb as [[u Hu] Hb].
  unfold evictCorePage. rewrite (proj2 (Z.eqb_neq (size c) 0)) by (rewrite (rep_size _ _ Hr); cbn; lia).
  cbn [with_size head tail negb]. rewrite decide_False by done. rewrite Hh.
  cbn [load with_size nodes]. rewrite Hnt. cbn [bindr]. unfold page_used, page_clear.
  cbn [page_of backingStore virtualPage next]. change (used s dt.1.1 dt.2 = Some u) in Hu.
  rewrite (getUse_used s _ _ u Hu). cbn [bindr].
  destruct u; cbn [negb].
  - destruct (clearUse_used s _ _ true Hu) as (s1 & -> & Hs1). cbn [bindr].
    assert (forall x, x ∈ y :: rest -> bit_of s1 x = bit_of s x) as Hsame.
    { intros x Hx. apply (bit_of_clear s s1 (t, dt)); [done|]. intros E. apply Hkt.
      rewrite <- E. by apply (list_elem_of_fmap_2 page_key (y :: rest) x). }
    destruct (evict_loop_spec (y :: rest) (Datatypes.S (Datatypes.S (base.size (nodes c))))
      (with_size c (size c - 1)) s1 [] t dt) as (c' & s' & v & E & Ht & Hsz & Hcap & Hres); try done.
    + apply Forall_forall. intros x Hx. rewrite Hsame by done. by eapply Forall_forall in Hb.
    + pose proof (linked_length _ _ _ Hl Hnd) as Hle. cbn in Hle |- *. lia.
    + match goal with |- context [evict_loop ?f ?cc ?ss ?tt ?n] =>
        change n with (fst <$> (y :: rest) !! 0%nat) end.
      cbn [nodes with_size] in E |- *. rewrite E.
      destruct Hres as [(mid & w & dw & post & El & -> & Hm & Hw & Hcl & Hh' & Hn & Hl')|
                        (Hm & -> & Hcl & Hn & Hh')].
      * exists c', s', w, dw, ((t, dt) :: mid), post. split; [done|]. split; [by rewrite El|].
        split; [done|]. split; [done|]. split; [done|]. split; [done|]. split; [done|]. left.
        split_and!.
        -- constructor; [done|]. rewrite Forall_forall in Hm |- *. intros x Hx.
           rewrite <- Hsame; [by apply Hm|]. rewrite El. apply elem_of_app. by left.
        -- rewrite <- Hsame; [done|]. rewrite El. apply elem_of_app. right. by left.
        -- by apply cleared_cons with s1.
      * cbn [with_size head] in *. rewrite Hh.
        exists c', s', t, dt, [], (y :: rest). split; [done|]. split; [done|].
        split; [by rewrite Hn|]. split; [rewrite Hn, Hh'; by destruct Hl as (_ & n & Hn' & Hl'); cbn in *; simplify_eq|].
        split; [done|]. split; [done|]. split; [done|]. right. split_and!; [|done|by apply cleared_cons with s1].
        constructor; [done|]. rewrite Forall_forall in Hm |- *. intros x Hx.
        rewrite <- Hsame; [by apply Hm|done].
  - eexists _, _, t, dt, [], (y :: rest). split; [done|]. split; [done|]. split; [done|].
    split; [by destruct Hl as (_ & n & Hn' & Hl'); cbn in *; simplify_eq|]. split; [done|]. split; [done|]. split; [done|].
    left. split_and!; [done|done|apply cleared_nil].
Qed.

(** A victim before the last page leaves the queue in order, without it. *)
Lemma evict_lru_rep (c : CoreMap) (s : S) (l : list (positive * page_data)) :
  rep c l -> (2 <= length l)%nat -> NoDup (page_key <$> l) -> Forall (fun x => is_Some (bit_of s x)) l ->
  (forall l0 x, l = l0 ++ [x] -> bit_of s x = Some true \/ exists y, y ∈ l0 /\ bit_of s y = Some false) ->
  exists c' s' a d pre post, evictCorePage true c s = Ok (c', s', Some a) /\
    l = pre ++ (a, d) :: post /\ nodes c' !! a = nodes c !! a /\ rep c' (pre ++ post) /\ capacity c' = capacity c.
Proof.
  intros Hr Hlen Hk Hb Hlast. destruct (evict_lru c s l Hr Hlen Hk Hb)
    as (c' & s' & a & d & pre & post & E & -> & Hn & Hl & Hsz & Ht & Hcap & Hor).
  exists c', s', a, d, pre, post. split_and!; try done. assert (post <> []) as Hpost.
  { intros ->. destruct Hor as [(Hpre & Ha & _)|(_ & -> & _)]; [|cbn in Hlen; lia].
    destruct (Hlast pre (a, d) eq_refl) as [Hx|(y & Hy & Hx)]; [congruence|].
    rewrite Forall_forall in Hpre. rewrite (Hpre y Hy) in Hx. done. }
  destruct Hr as [_ Hnd Htl Hs Hc]. rewrite fmap_app in Hnd. cbn in Hnd. rewrite length_app in Hs, Hc. cbn [length] in Hs, Hc.
  split; [done| | |rewrite length_app; lia|rewrite length_app; lia].
  - rewrite fmap_app. apply NoDup_app in Hnd as (H1 & H2 & H3). apply NoDup_cons in H3 as [H3 H4].
    apply NoDup_app. split; [done|]. split; [|done]. intros x Hx Hx'. apply (H2 x Hx). by right.
  - rewrite Ht, Htl. destruct post as [|y post _] using rev_ind; [done|].
    by rewrite app_comm_cons, !app_assoc, !last_snoc.
Qed.

(** C36: with the second-chance policy and at least two resident pages, the
    victim is the first page of the queue whose use bit is clear and the use
    bits cleared are exactly those of the pages passed over; when every page has
    been used, all bits are cleared and the oldest page goes.  What remains
    linked from [head] is the queue without the victim, in its order. *)
Theorem second_chance (c : CoreMap) (s : S) (l : list (positive * page_data)) :
  rep c l -> (2 <= length l)%nat -> NoDup (page_key <$> l) ->
  Forall (fun x => is_Some (bit_of s x)) l ->
  exists c' s' a d pre post, evictCorePage true c s = Ok (c', s', Some a) /\
    l = pre ++ (a, d) :: post /\ nodes c' !! a = nodes c !! a /\
    linked (nodes c') (head c') (pre ++ post) /\ size c' = size c - 1 /\ tail c' = tail c /\
    capacity c' = capacity c /\
    ((Forall (fun x => bit_of s x = Some true) pre /\ bit_of s (a, d) = Some false /\ cleared s s' pre) \/
     (Forall (fun x => bit_of s x = Some true) l /\ pre = [] /\ cleared s s' l)).
Proof. apply evict_lru. Qed.
End SecondChance.

(** A queue of two pages, of which only the first has been used. *)
Definition demo_map : CoreMap :=
  mkCoreMap (<[1%positive := mkCorePage (Some 2%positive) 1 4 0]>
             (<[2%positive := mkCorePage None 1 7 1]> ∅))
    (Some 1%positive) (Some 2%positive) 2 3.
Definition demo_bits : gmap (positive * Z) bool := <[(1%positive, 0) := true]> {[(1%positive, 1) := false]}.

Lemma demo_rep : rep demo_map [(1%positive, (1%positive, 4, 0)); (2%positive, (1%positive, 7, 1))].
Proof.
  split; cbn.
  - split; [done|]. eexists. split; [reflexivity|]. split; [done|]. by eexists.
  - by apply (bool_decide_unpack _).
  - done.
  - done.
  - done.
Qed.

Lemma second_chance_witness :
  exists c' s' a d pre post, evictCorePage true demo_map demo_bits = Ok (c', s', Some a) /\
    [(1%positive, (1%positive, 4, 0)); (2%positive, (1%positive, 7, 1))] = pre ++ (a, d) :: post /\
    size c' = 1.
Proof.
  destruct (second_chance demo_map demo_bits
    [(1%positive, (1%positive, 4, 0)); (2%positive, (1%positive, 7, 1))] demo_rep)
    as (c' & s' & a & d & pre & post & H1 & H2 & _ & _ & H3 & _).
  - cbn. lia.
  - by apply (bool_decide_unpack _).
  - repeat constructor; eexists; reflexivity.
  - exists c', s', a, d, pre, post. split; [exact H1|]. split; [exact H2|exact H3].
Defined.

Section Dangling.
Context {S : Type} `{!UseBits S, !UseLaws S}.

(** The second-chance loop does not maintain [tail]: when the victim is the
    last page of the queue, the handler deletes its node while [tail] still
    points to it.  The next page added, although the map is not full, is then
    written through that dangling pointer or, when the allocator hands the same
    address out again, linked to itself; in either case it is not in the queue
    that starts at [head], and is never evicted. *)
Theorem second_chance_dangling (c : CoreMap) (s : S) (l : list (positive * page_data))
    (t : positive) (dt d : page_data) :
  rep c (l ++ [(t, dt)]) -> l <> [] -> NoDup (page_key <$> (l ++ [(t, dt)])) ->
  Forall (fun x => bit_of s x = Some true) l -> bit_of s (t, dt) = Some false ->
  exists c' s', evictCorePage true c s = Ok (c', s', Some t) /\ tail c' = Some t /\
    (add_new (delete_page c' t) d = Err WildAccess \/
     exists c2, add_new (delete_page c' t) d = Ok (c2, 0) /\
       linked (nodes c2) (head c2) l /\ size c2 = zlen l + 1).
Proof.
  intros Hr Hne Hk Hu Ht. destruct (evict_lru c s (l ++ [(t, dt)]) Hr)
    as (c' & s' & a & da & pre & post & He & Hsplit & _ & Hl & Hsz & Htl & Hcp & Hcase).
  { rewrite length_app. destruct l; [done|]. cbn. lia. }
  { done. }
  { apply Forall_app. split; [eapply Forall_impl; [done|by intros x ->; eexists]|].
    constructor; [by eexists|constructor]. }
  assert (pre = l /\ a = t /\ post = []) as (-> & -> & ->).
  { destruct Hcase as [(_ & Ha & _)|(Hall & _)].
    - destruct post as [|y post _] using rev_ind.
      + apply app_inj_tail in Hsplit as [-> Hx]. by simplify_eq.
      + exfalso. rewrite app_comm_cons, app_assoc in Hsplit. apply app_inj_tail in Hsplit as [Hs _].
        rewrite Forall_forall in Hu. specialize (Hu (a, da)). rewrite Hu in Ha; [done|].
        rewrite Hs. apply elem_of_app. right. by left.
    - exfalso. apply Forall_app in Hall as [_ Hall]. apply Forall_inv in Hall. congruence. }
  rewrite app_nil_r in Hl. pose proof (rep_nodup _ _ Hr) as Hnd. rewrite fmap_app in Hnd.
  apply NoDup_app in Hnd as (_ & Hnot & _).
  assert (t ∉ l.*1) as Htn by (intros Hin; apply (Hnot t Hin); by left).
  pose proof (rep_tail _ _ Hr) as Htail. rewrite last_snoc in Htail. cbn in Htail.
  pose proof (rep_size _ _ Hr) as Hsize. pose proof (rep_cap _ _ Hr) as Hcap.
  rewrite length_app in Hsize, Hcap. cbn in Hsize, Hcap.
  exists c', s'. split; [done|]. split; [congruence|].
  assert (exists h, head c' = Some h) as [h Hh].
  { destruct l as [|[b e] l]; [done|]. destruct Hl as (-> & _). eauto. }
  unfold add_new, new_page, addCorePage. set (a0 := fresh _). cbn.
  rewrite (proj2 (Z.eqb_neq _ _)) by lia. rewrite Hh. cbn. rewrite Htl, Htail. cbn.
  destruct (decide (a0 = t)) as [->|Hat].
  - right. rewrite !lookup_insert_eq. cbn. rewrite ?Htl, ?Htail. cbn. rewrite ?lookup_insert_eq. cbn.
    eexists. split; [done|]. cbn. split; [|lia].
    apply linked_ext with (nodes c'); [|done]. intros b Hb.
    rewrite insert_insert_eq, lookup_insert_ne, lookup_delete_ne; [done|..];
      intros ->; done.
  - left. by rewrite lookup_insert_ne, lookup_delete_eq by done.
Qed.
End Dangling.

Lemma second_chance_dangling_witness :
  exists c' s', evictCorePage true demo_map demo_bits = Ok (c', s', Some 2%positive) /\
    tail c' = Some 2%positive /\
    (add_new (delete_page c' 2%positive) (1%positive, 7, 2) = Err WildAccess \/
     exists c2, add_new (delete_page c' 2%positive) (1%positive, 7, 2) = Ok (c2, 0) /\
       linked (nodes c2) (head c2) [(1%positive, (1%positive, 4, 0))] /\ size c2 = 2).
Proof.
  apply (second_chance_dangling demo_map demo_bits [(1%positive, (1%positive, 4, 0))] 2%positive
    (1%positive, 7, 1) (1%positive, 7, 2) demo_rep).
  - discriminate.
  - by apply (bool_decide_unpack _).
  - by repeat constructor.
  - reflexivity.
Defined.
