(* ===== verification/Vm.v ===== *)
(** Virtual memory (the classes MemoryManager, BackingStore and AddrSpace of
    userprog/addrspace.h and addrspace.cc, and the page-fault branch of
    ExceptionHandler in userprog/exception.cc): demand loading of an executable,
    eviction to a swap file, and the page tables the simulated machine uses. *)
From Stdlib Require Import ZArith Lia Bool.
From stdpp Require Import base numbers list gmap fin_maps.
From S2P Require Import Prelude Bitmap Machine Tables CoreMap.

Definition ArgumentSize : Z := 512.
Definition UserStackSize : Z := 1024.
Definition NOFFMAGIC : Z := 0xbadfad.

(** ** Files

    The kernel is built with FILESYS_STUB: its file system is the host's.  A file
    is a sequence of bytes under a name (a C string without its final zero); as
    no file is ever unlinked while open, what an OpenFile reads is the name it was opened
    under.  A write past the end leaves a hole of zeros, as on UNIX. *)
Abbreviation name := (list Z).
Abbreviation fs := (gmap (list Z) (list Z)).

Definition FileSystem_Create (f : fs) (n : name) : fs := <[n := []]> f.
Definition FileSystem_Open (f : fs) (n : name) : option name :=
  match f !! n with Some _ => Some n | None => None end.

(** The OpenFile of an executable: a pointer to an object, which [delete] destroys
    (the files that the backing store opens it closes itself, in the same routine). *)
Record OpenFile := mkOpenFile { file_at : option positive; file_name : name }.

(** The bytes [OpenFile::ReadAt] transfers. *)
Definition ReadAt (f : fs) (file : name) (numBytes position : Z) : res (list Z) :=
  _ <- ASSERT (0 <=? position) ;;
  match f !! file with
  | Some d => Ok (take (Z.to_nat numBytes) (drop (Z.to_nat position) d))
  | None => Err WildAccess
  end.

Definition WriteAt (f : fs) (file : name) (from : list Z) (position : Z) : res fs :=
  _ <- ASSERT (0 <=? position) ;;
  match f !! file with
  | Some d =>
      let p := Z.to_nat position in
      let d := take p d ++ replicate (p - length d) 0 ++ from ++ drop (p + length from) d in
      Ok (<[file := d]> f)
  | None => Err WildAccess
  end.

(** ** Object-file headers (bin/noff.h) *)

Record Segment := mkSegment { virtualAddr : Z; inFileAddr : Z; seg_size : Z }.
Record NoffHeader := mkNoff {
  noffMagic : Z; code : Segment; initData : Segment; uninitData : Segment
}.

Section Header.
Context {host : Host}.

(** The [i]th [int] of an object. *)
Definition int_at (bs : list Z) (i : nat) : Z := s32 (host_value (take 4 (drop (4 * i) bs))).

Definition noff_of_bytes (bs : list Z) : NoffHeader :=
  mkNoff (int_at bs 0)
    (mkSegment (int_at bs 1) (int_at bs 2) (int_at bs 3))
    (mkSegment (int_at bs 4) (int_at bs 5) (int_at bs 6))
    (mkSegment (int_at bs 7) (int_at bs 8) (int_at bs 9)).

Definition swap_word (w : Z) : Z := s32 (WordToHost (u32 w)).
Definition swap_segment (s : Segment) : Segment :=
  mkSegment (swap_word (virtualAddr s)) (swap_word (inFileAddr s)) (swap_word (seg_size s)).

Definition SwapHeader (noffH : NoffHeader) : NoffHeader :=
  mkNoff (swap_word (noffMagic noffH)) (swap_segment (code noffH))
    (swap_segment (initData noffH)) (swap_segment (uninitData noffH)).

(** The header as [Initialize] and [allocVirtualPage] obtain it; [junk] is what
    the stack held where a short file leaves it unwritten. [None] when the magic
    number is wrong. *)
Definition read_header (f : fs) (executable : name) (junk : list Z) : res (option NoffHeader) :=
  bs <- ReadAt f executable 40 0 ;;
  let noffH := noff_of_bytes (bs ++ drop (length bs) junk) in
  let noffH :=
    if negb (noffMagic noffH =? NOFFMAGIC) && (swap_word (noffMagic noffH) =? NOFFMAGIC)
    then SwapHeader noffH else noffH in
  Ok (if negb (noffMagic noffH =? NOFFMAGIC) then None else Some noffH).
End Header.

(** ** The kernel's objects *)

Record AddrSpace := mkAddrSpace {
  pageTable : option positive;
  numPages : Z;
  argc : Z;
  argv : list (list Z);
  executableFile : OpenFile;
  threadCount : Z;
  backingStore : option positive;
  space_storeID : Z
}.

Definition currentExecutable (s : AddrSpace) : name := file_name (executableFile s).

Record BackingStore := mkBackingStore {
  pages : BitMap.BitMap;
  space : positive;
  filename : name;
  storeID : Z;
  charID : list Z;
  flag : Z
}.

(** The part of the kernel state the pager works on.  [manager] is the bit map of
    MemoryManager, [current] is currentThread->space, [openFiles] are the OpenFiles of
    executables that have not been deleted. *)
Record Vm := mkVm {
  vm : Machine;
  manager : BitMap.BitMap;
  coreMap : CoreMap.CoreMap;
  spaces : gmap positive AddrSpace;
  stores : gmap positive BackingStore;
  storeTable : Table.Table positive;
  files : fs;
  openFiles : gset positive;
  numPageFaults : Z;
  numPageIns : Z;
  numPageOuts : Z;
  current : positive;
  LRU : bool
}.

Definition set_vm (m : Machine) (k : Vm) : Vm :=
  mkVm m (manager k) (coreMap k) (spaces k) (stores k) (storeTable k) (files k) (openFiles k)
    (numPageFaults k) (numPageIns k) (numPageOuts k) (current k) (LRU k).
Definition set_manager (b : BitMap.BitMap) (k : Vm) : Vm :=
  mkVm (vm k) b (coreMap k) (spaces k) (stores k) (storeTable k) (files k) (openFiles k)
    (numPageFaults k) (numPageIns k) (numPageOuts k) (current k) (LRU k).
Definition set_coreMap (c : CoreMap.CoreMap) (k : Vm) : Vm :=
  mkVm (vm k) (manager k) c (spaces k) (stores k) (storeTable k) (files k) (openFiles k)
    (numPageFaults k) (numPageIns k) (numPageOuts k) (current k) (LRU k).
Definition set_spaces (s : gmap positive AddrSpace) (k : Vm) : Vm :=
  mkVm (vm k) (manager k) (coreMap k) s (stores k) (storeTable k) (files k) (openFiles k)
    (numPageFaults k) (numPageIns k) (numPageOuts k) (current k) (LRU k).
Definition set_stores (s : gmap positive BackingStore) (k : Vm) : Vm :=
  mkVm (vm k) (manager k) (coreMap k) (spaces k) s (storeTable k) (files k) (openFiles k)
    (numPageFaults k) (numPageIns k) (numPageOuts k) (current k) (LRU k).
Definition set_storeTable (t : Table.Table positive) (k : Vm) : Vm :=
  mkVm (vm k) (manager k) (coreMap k) (spaces k) (stores k) t (files k) (openFiles k)
    (numPageFaults k) (numPageIns k) (numPageOuts k) (current k) (LRU k).
Definition set_files (f : fs) (k : Vm) : Vm :=
  mkVm (vm k) (manager k) (coreMap k) (spaces k) (stores k) (storeTable k) f (openFiles k)
    (numPageFaults k) (numPageIns k) (numPageOuts k) (current k) (LRU k).
Definition set_openFiles (o : gset positive) (k : Vm) : Vm :=
  mkVm (vm k) (manager k) (coreMap k) (spaces k) (stores k) (storeTable k) (files k) o
    (numPageFaults k) (numPageIns k) (numPageOuts k) (current k) (LRU k).
Definition count_fault (k : Vm) : Vm :=
  mkVm (vm k) (manager k) (coreMap k) (spaces k) (stores k) (storeTable k) (files k) (openFiles k)
    (numPageFaults k + 1) (numPageIns k) (numPageOuts k) (current k) (LRU k).
Definition count_in (k : Vm) : Vm :=
  mkVm (vm k) (manager k) (coreMap k) (spaces k) (stores k) (storeTable k) (files k) (openFiles k)
    (numPageFaults k) (numPageIns k + 1) (numPageOuts k) (current k) (LRU k).
Definition count_out (k : Vm) : Vm :=
  mkVm (vm k) (manager k) (coreMap k) (spaces k) (stores k) (storeTable k) (files k) (openFiles k)
    (numPageFaults k) (numPageIns k) (numPageOuts k + 1) (current k) (LRU k).

(** [fileSystem->Open(n)] for an executable, and [delete] of what it gave. *)
Definition open_file (k : Vm) (n : name) : Vm * option OpenFile :=
  match FileSystem_Open (files k) n with
  | Some n => let p := fresh (openFiles k) in (set_openFiles ({[p]} ∪ openFiles k) k, Some (mkOpenFile (Some p) n))
  | None => (k, None)
  end.
Definition delete_file (k : Vm) (f : OpenFile) : res Vm :=
  match file_at f with
  | None => Ok k
  | Some p => if bool_decide (p ∈ openFiles k) then Ok (set_openFiles (openFiles k ∖ {[p]}) k) else Err WildAccess
  end.

Definition the_space (k : Vm) (a : positive) : res AddrSpace :=
  match spaces k !! a with Some s => Ok s | None => Err WildAccess end.
Definition the_store (k : Vm) (b : positive) : res BackingStore :=
  match stores k !! b with Some s => Ok s | None => Err WildAccess end.

(** [pte = space->getPageTable()], [pte[vpn]] and [pte[vpn] = e]. *)
Definition the_table (k : Vm) (t : option positive) : res (list TranslationEntry) :=
  match t with
  | None => Err WildAccess
  | Some p => match tables (vm k) !! p with Some l => Ok l | None => Err WildAccess end
  end.
Definition get_entry (k : Vm) (t : option positive) (vpn : Z) : res TranslationEntry :=
  l <- the_table k t ;; aget l vpn.
Definition put_entry (k : Vm) (t : option positive) (vpn : Z) (e : TranslationEntry) : res Vm :=
  l <- the_table k t ;;
  l <- aset l vpn e ;;
  match t with
  | None => Err WildAccess
  | Some p => Ok (set_vm (set_tables (vm k) (<[p := l]> (tables (vm k)))) k)
  end.

(** ** MemoryManager *)

Definition MemoryManager_new (fresh : nat -> Z) (numpages : Z) : res BitMap.BitMap :=
  BitMap.BitMap_new fresh numpages.
Definition AllocPage (k : Vm) : res (Vm * Z) :=
  '(b, page) <- BitMap.Find (manager k) ;; Ok (set_manager b k, page).
Definition FreePage (k : Vm) (physPageNum : Z) : res Vm :=
  b <- BitMap.Clear (manager k) physPageNum ;; Ok (set_manager b k).
Definition PageIsAllocated (k : Vm) (physPageNum : Z) : res bool :=
  BitMap.Test (manager k) physPageNum.

(** ** BackingStore *)

(** [new BackingStore()]; [junk] are the fields the constructor leaves as they
    were. *)
Definition BackingStore_new (junk : BackingStore) : BackingStore :=
  mkBackingStore (pages junk) (space junk) (filename junk) (storeID junk) (charID junk) 0.

(** The digits of [ID], least significant first, into [charID] from 0 and into
    [filename] from 5; the two buffers have 10 and 15 bytes. *)
Fixpoint name_loop (fuel : nat) (i j ID : Z) (cid fname : list Z) : res (Z * Z * list Z * list Z) :=
  match fuel with
  | O => Err OutOfFuel
  | S fuel =>
      if ID =? 0 then Ok (i, j, cid, fname)
      else
        cid <- aset cid i (s8 (Z.rem ID 10 + 48)) ;;
        d <- aget cid i ;;
        fname <- aset fname j d ;;
        name_loop fuel (i + 1) (j + 1) (Z.quot ID 10) cid fname
  end.

Definition name_fuel : nat := 40.

(** The C string at the start of a buffer. *)
Fixpoint c_string (l : list Z) : list Z :=
  match l with [] => [] | c :: l => if c =? 0 then [] else c :: c_string l end.

(** The two strings [Initialize] builds; [f0] and [c0] are the fresh buffers. *)
Definition store_names (ID : Z) (f0 c0 : list Z) : res (list Z * list Z) :=
  fname <- aset f0 0 97 ;;
  fname <- aset fname 1 106 ;;
  fname <- aset fname 2 110 ;;
  fname <- aset fname 3 114 ;;
  fname <- aset fname 4 95 ;;
  '(i, j, cid, fname) <- name_loop name_fuel 0 5 ID c0 fname ;;
  cid <- aset cid i 0 ;;
  fname <- aset fname j 0 ;;
  Ok (c_string fname, c_string cid).

(** [BackingStore::Initialize]; the stub's [Create] never answers FALSE, so the
    result is 0. *)
Definition BackingStore_Initialize (k : Vm) (this addrspace : positive) (ID : Z)
    (fresh : nat -> Z) (f0 c0 : list Z) : res (Vm * Z) :=
  bs <- the_store k this ;;
  sp <- the_space k addrspace ;;
  b <- BitMap.BitMap_new fresh (numPages sp) ;;
  '(fname, cid) <- store_names ID f0 c0 ;;
  let bs := mkBackingStore b addrspace fname ID cid 1 in
  let k := set_stores (<[this := bs]> (stores k)) k in
  let k := set_files (FileSystem_Create (files k) fname) k in
  let sp := mkAddrSpace (pageTable sp) (numPages sp) (argc sp) (argv sp) (executableFile sp)
              (threadCount sp) (Some this) (space_storeID sp) in
  Ok (set_spaces (<[addrspace := sp]> (spaces k)) k, 0).

(** [delete backingStore] *)
Definition BackingStore_delete (k : Vm) (this : positive) : res Vm :=
  bs <- the_store k this ;;
  k <- (if negb (flag bs =? 0) then
          t <- Table.Release (storeTable k) (storeID bs) ;; Ok (set_storeTable t k)
        else Ok k) ;;
  Ok (set_stores (delete this (stores k)) k).

(** [file->...] on the result of [fileSystem->Open(filename)]. *)
Definition opened (o : option name) : res name :=
  match o with Some n => Ok n | None => Err WildAccess end.

(** The memory at [&mainMemory[physicalPage * PageSize]]. *)
Definition load_frame (k : Vm) (frame : Z) : res (list Z) :=
  load_bytes (mainMemory (vm k)) (frame * PageSize) (Z.to_nat PageSize).
Definition store_at (k : Vm) (a : Z) (bs : list Z) : res Vm :=
  match bs with
  | [] => Ok k
  | _ => mem <- store_bytes (mainMemory (vm k)) a bs ;; Ok (set_vm (set_mainMemory (vm k) mem) k)
  end.

Definition set_pages (b : BitMap.BitMap) (s : BackingStore) : BackingStore :=
  mkBackingStore b (space s) (filename s) (storeID s) (charID s) (flag s).

Definition pageOut (k : Vm) (this : positive) (vpn : Z) : res Vm :=
  bs <- the_store k this ;;
  let file := FileSystem_Open (files k) (filename bs) in
  sp <- the_space k (space bs) ;;
  let pte := pageTable sp in
  match pte with
  | None => Ok k
  | Some _ =>
      e <- get_entry k pte vpn ;;
      k <- (if dirty e then
              b <- BitMap.Mark (pages bs) vpn ;;
              let k := count_out (set_stores (<[this := set_pages b bs]> (stores k)) k) in
              n <- opened file ;;
              from <- load_frame k (Machine.physicalPage e) ;;
              f <- WriteAt (files k) n from (vpn * PageSize) ;;
              Ok (set_files f k)
            else Ok k) ;;
      put_entry k pte vpn (set_dirty false (set_valid false e))
  end.

Definition pageIn (k : Vm) (this : positive) (vpn : Z) : res Vm :=
  bs <- the_store k this ;;
  let file := FileSystem_Open (files k) (filename bs) in
  sp <- the_space k (space bs) ;;
  let pte := pageTable sp in
  e <- get_entry k pte vpn ;;
  n <- opened file ;;
  d <- ReadAt (files k) n PageSize (vpn * PageSize) ;;
  k <- store_at k (Machine.physicalPage e * PageSize) d ;;
  put_entry k pte vpn (set_valid true e).

Definition contains (k : Vm) (this : positive) (vpn : Z) : res bool :=
  bs <- the_store k this ;; BitMap.Test (pages bs) vpn.

(** ** AddrSpace *)

Section Space.
Context {host : Host}.

Definition set_space (k : Vm) (a : positive) (s : AddrSpace) : Vm :=
  set_spaces (<[a := s]> (spaces k)) k.

(** One entry of a new page table. *)
Definition new_entry (i : nat) : TranslationEntry := mkTE (Z.of_nat i) (-2) false false false false.

(** [AddrSpace::Initialize]: the space [this] gets its page table. *)
Definition AddrSpace_Initialize (k : Vm) (this : positive) (executable : OpenFile) (junk : list Z)
  : res (Vm * Z) :=
  h <- read_header (files k) (file_name executable) junk ;;
  match h with
  | None => Ok (k, 1)
  | Some noffH =>
      sp <- the_space k this ;;
      let size := u32 (seg_size (code noffH) + seg_size (initData noffH)
                       + seg_size (uninitData noffH) + UserStackSize + ArgumentSize) in
      let n := divRoundUp size PageSize in
      let t := fresh (dom (tables (vm k))) in
      let k := set_vm (set_tables (vm k) (<[t := new_entry <$> seq 0 (Z.to_nat n)]> (tables (vm k)))) k in
      Ok (set_space k this (mkAddrSpace (Some t) n (argc sp) (argv sp) executable
                              (threadCount sp) (backingStore sp) (space_storeID sp)), 0)
  end.

(** [AddrSpace::~AddrSpace]: [delete [] pageTable] and [delete currentExecutable]; argv
    goes with the space. *)
Definition delete_table (k : Vm) (t : option positive) : res Vm :=
  match t with
  | None => Ok k
  | Some p =>
      if bool_decide (p ∈ dom (tables (vm k))) then Ok (set_vm (set_tables (vm k) (delete p (tables (vm k)))) k)
      else Err WildAccess
  end.
Definition AddrSpace_delete (k : Vm) (this : positive) : res Vm :=
  sp <- the_space k this ;;
  k <- delete_table k (pageTable sp) ;;
  k <- delete_file k (executableFile sp) ;;
  Ok (set_spaces (delete this (spaces k)) k).

Definition writeMemoryToPage (k : Vm) (sp : AddrSpace) (vpn written inFileAddr offset : Z) : res Vm :=
  e <- get_entry k (pageTable sp) vpn ;;
  d <- ReadAt (files k) (currentExecutable sp) 1 (s32 (inFileAddr + offset)) ;;
  store_at k (Machine.physicalPage e * PageSize + written) d.

(** One round of the loop over the bytes of the page. *)
Definition load_byte (noffH : NoffHeader) (sp : AddrSpace) (vpn written : Z) (s : Vm * Z) : res (Vm * Z) :=
  let '(k, flag) := s in
  let vpAddr := u32 (vpn * PageSize) in
  let lowerCode := virtualAddr (code noffH) in
  let upperCode := s32 (virtualAddr (code noffH) + seg_size (code noffH)) in
  let lowerData := virtualAddr (initData noffH) in
  let upperData := s32 (virtualAddr (initData noffH) + seg_size (initData noffH)) in
  let currAddress := s32 (written + vpAddr) in
  if (seg_size (code noffH) >? 0) && (currAddress <? upperCode) && (currAddress >=? lowerCode) then
    k <- writeMemoryToPage k sp vpn written (inFileAddr (code noffH)) (s32 (currAddress - lowerCode)) ;;
    Ok (k, 1)
  else if (seg_size (initData noffH) >? 0) && (currAddress <? upperData) && (currAddress >=? lowerData) then
    k <- writeMemoryToPage k sp vpn written (inFileAddr (initData noffH)) (s32 (currAddress - lowerData)) ;;
    Ok (k, 1)
  else Ok (k, flag).

Definition set_entry_page (k : Vm) (sp : AddrSpace) (vpn page : Z) : res Vm :=
  e <- get_entry k (pageTable sp) vpn ;;
  put_entry k (pageTable sp) vpn (set_physicalPage page e).

(** [AddrSpace::allocVirtualPage] *)
Definition allocVirtualPage (k : Vm) (this : positive) (va : Z) (junk : list Z) : res (Vm * Z) :=
  sp <- the_space k this ;;
  h <- read_header (files k) (currentExecutable sp) junk ;;
  match h with
  | None => Ok (k, 1)
  | Some noffH =>
      let vpn := u32 va / PageSize in
      '(k, allocpage) <- AllocPage k ;;
      bs <- (match backingStore sp with Some b => Ok b | None => Err WildAccess end) ;;
      let '(c, p) := new_page (coreMap k) (CorePage_new bs allocpage vpn) in
      '(c, _) <- addCorePage c p ;;
      let k := set_coreMap c k in
      k <- set_entry_page k sp vpn allocpage ;;
      k <- store_at k (allocpage * PageSize) (replicate (Z.to_nat PageSize) 0) ;;
      saved <- contains k bs vpn ;;
      k <- (if negb saved then
              '(k, flag) <- for_range 0 PageSize (load_byte noffH sp vpn) (k, 0) ;;
              Ok (if flag =? 1 then count_in k else k)
            else
              k <- pageIn k bs vpn ;; Ok (count_in k)) ;;
      e <- get_entry k (pageTable sp) vpn ;;
      k <- put_entry k (pageTable sp) vpn (set_valid true e) ;;
      Ok (k, 0)
  end.

Definition InitRegisters (k : Vm) (this : positive) : res Vm :=
  sp <- the_space k this ;;
  m <- for_range 0 NumTotalRegs (fun i m => WriteRegister m i 0) (vm k) ;;
  m <- WriteRegister m PCReg 0 ;;
  m <- WriteRegister m NextPCReg 4 ;;
  m <- WriteRegister m StackReg (s32 (u32 (numPages sp * PageSize - 16))) ;;
  Ok (set_vm m k).

Definition SaveState (k : Vm) : Vm := k.

Definition RestoreState (k : Vm) (this : positive) : res Vm :=
  sp <- the_space k this ;;
  Ok (set_vm (Machine.set_pageTable (vm k) (pageTable sp) (numPages sp)) k).

Definition AddArguments (s : AddrSpace) (argCount : Z) (args : list (list Z)) : AddrSpace :=
  mkAddrSpace (pageTable s) (numPages s) argCount args (executableFile s) (threadCount s)
    (backingStore s) (space_storeID s).
Definition setThreadCount (s : AddrSpace) (value : Z) : AddrSpace :=
  mkAddrSpace (pageTable s) (numPages s) (argc s) (argv s) (executableFile s) value
    (backingStore s) (space_storeID s).
Definition setBackingStore (s : AddrSpace) (value : option positive) : AddrSpace :=
  mkAddrSpace (pageTable s) (numPages s) (argc s) (argv s) (executableFile s) (threadCount s)
    value (space_storeID s).
Definition setStoreID (s : AddrSpace) (value : Z) : AddrSpace :=
  mkAddrSpace (pageTable s) (numPages s) (argc s) (argv s) (executableFile s) (threadCount s)
    (backingStore s) value.

Definition checkSP (start end_ : Z) : Z := s32 (end_ - start).

(** [AddrSpace::LoadArguments], over any kernel: the stores may fault pages in,
    and their FALSE is ignored. *)
Section LoadArguments.
Context {K : Type} `{!Kernel K}.

Definition LoadArguments (s : AddrSpace) (k : K) : res (K * Z) :=
  let start := s32 (u32 (numPages s * PageSize)) in
  r <- for_ret 0 (argc s)
    (fun i '(k, sp, arr) =>
       temp <- aget (argv s) i ;;
       let j := zlen temp in
       let sp := s32 (sp - (j + 1)) in
       if checkSP sp start =? 0 then Ok (inr k)
       else
         k <- for_range 0 (j + 1)
                (fun n k => c <- aget (temp ++ [0]) n ;;
                            '(k, _) <- WriteMem (s32 (sp + n)) 1 c k ;; Ok k) k ;;
         Ok (inl (k, sp, arr ++ [sp])))
    (k, start, []) ;;
  match r with
  | inr k => Ok (k, 0)
  | inl (k, sp, arr) =>
      let sp := s32 (sp - s32 (argc s * 4)) in
      let sp := s32 (sp - Z.rem sp 4) in
      if checkSP sp start =? 0 then Ok (k, 0)
      else
        m <- WriteRegister (machine k) StackReg (s32 (sp - 16)) ;;
        m <- WriteRegister m 4 (argc s) ;;
        m <- WriteRegister m 5 sp ;;
        let k := set_machine m k in
        k <- for_range 0 (argc s)
               (fun i k => a <- aget arr i ;;
                           '(k, _) <- WriteMem (s32 (sp + i * 4)) 4 a k ;; Ok k) k ;;
        Ok (k, 1)
  end.
End LoadArguments.

(** [AddrSpace::allocateThreadSpace]; [junk] is what the allocator leaves in the
    new entries. On the error path the frames to free are read from the old
    table, at indices it does not have. *)
Definition allocateThreadSpace (k : Vm) (this : positive) (junk : TranslationEntry) : res (Vm * Z) :=
  sp <- the_space k this ;;
  old <- the_table k (pageTable sp) ;;
  let newPages := divRoundUp UserStackSize PageSize in
  let n := numPages sp in
  t <- for_range 0 n (fun i t => e <- aget old i ;; aset t i e)
         (replicate (Z.to_nat (n + newPages)) junk) ;;
  r <- for_ret n (n + newPages)
    (fun i '(k, t) =>
       e <- aget t i ;;
       t <- aset t i (mkTE i (Machine.physicalPage e) (valid e) (readOnly e) (use e) (dirty e)) ;;
       '(k, allocpage) <- AllocPage k ;;
       if allocpage =? -1 then
         k <- for_range n i (fun j k => e <- aget old j ;; FreePage k (Machine.physicalPage e)) k ;;
         Ok (inr k)
       else
         t <- aset t i (mkTE i allocpage true false false false) ;;
         Ok (inl (k, t))) (k, t) ;;
  match r with
  | inr k => Ok (k, 0)
  | inl (k, t) =>
      let p := fresh (dom (tables (vm k))) in
      let tabs := match pageTable sp with
                  | Some q => delete q (<[p := t]> (tables (vm k)))
                  | None => <[p := t]> (tables (vm k))
                  end in
      let k := set_vm (set_tables (vm k) tabs) k in
      k <- for_range n (n + newPages)
             (fun i k => e <- aget t i ;;
                         store_at k (Machine.physicalPage e * PageSize)
                           (replicate (Z.to_nat PageSize) 0)) k ;;
      let sp := mkAddrSpace (Some p) (n + newPages) (argc sp) (argv sp) (executableFile sp)
                  (threadCount sp) (backingStore sp) (space_storeID sp) in
      Ok (set_space k this sp, 1)
  end.

(** ** The page-fault handler *)

(** The use bits CoreMap::evictCorePage consults. *)
#[export] Instance Vm_UseBits : UseBits Vm := {
  getUse k b v :=
    bs <- the_store k b ;; sp <- the_space k (space bs) ;;
    e <- get_entry k (pageTable sp) v ;; Ok (use e);
  clearUse k b v :=
    bs <- the_store k b ;; sp <- the_space k (space bs) ;;
    e <- get_entry k (pageTable sp) v ;;
    put_entry k (pageTable sp) v (set_use false e)
}.

(** Makes room when every frame is taken. *)
Definition evict_one (k : Vm) : res Vm :=
  '(c, k, p) <- evictCorePage (LRU k) (coreMap k) k ;;
  let k := set_coreMap c k in
  n <- load c p ;;
  k <- pageOut k (CoreMap.backingStore n) (virtualPage n) ;;
  k <- FreePage k (CoreMap.physicalPage n) ;;
  match p with
  | Some a => Ok (set_coreMap (delete_page (coreMap k) a) k)
  | None => Err WildAccess
  end.

(** The branch of ExceptionHandler for PageFaultException; a result other than 0
    makes the handler kill the process. *)
Definition page_fault (k : Vm) (junk : list Z) : res (Vm * Z) :=
  let k := count_fault k in
  va <- ReadRegister (vm k) BadVAddrReg ;;
  k <- (if isFull (coreMap k) =? 1 then evict_one k else Ok k) ;;
  allocVirtualPage k (current k) va junk.
End Space.

(** ** Swap-file names *)

Lemma take_insert_snoc (l : list Z) i x :
  (i < length l)%nat -> take (S i) (<[i := x]> l) = take i l ++ [x].
Proof.
  intros Hi. rewrite insert_take_drop by done. rewrite take_app_ge by (rewrite length_take; lia).
  rewrite length_take. replace (S i - min i (length l))%nat with 1%nat by lia. done.
Qed.

Lemma c_string_insert (l : list Z) i ds :
  (i < length l)%nat -> take i l = ds -> Forall (fun d => d <> 0) ds ->
  c_string (<[i := 0]> l) = ds.
Proof.
  intros Hi Ht Hd. rewrite insert_take_drop, Ht by done. clear Ht.
  induction Hd as [|d ds Hd _ IH]; cbn; [done|].
  rewrite (proj2 (Z.eqb_neq _ _)) by done. by rewrite IH.
Qed.

(** The number a string of digits denotes, least significant digit first. *)
Fixpoint digits_value (ds : list Z) : Z :=
  match ds with [] => 0 | d :: ds => (d - 48) + 10 * digits_value ds end.

(** The decimal digits of a number in that order. *)
Fixpoint digits (fuel : nat) (ID : Z) : list Z :=
  match fuel with
  | O => []
  | S fuel => if ID =? 0 then [] else (ID mod 10 + 48) :: digits fuel (ID / 10)
  end.

Definition is_digit (d : Z) : Prop := 48 <= d <= 57.

Lemma name_loop_spec fuel n i ID cid fname pre ds :
  0 <= ID < 10 ^ Z.of_nat n -> (n < fuel)%nat -> (i + n <= 9)%nat ->
  length cid = 10%nat -> length fname = 15%nat -> length pre = 5%nat ->
  take i cid = ds -> take (i + 5) fname = pre ++ ds ->
  exists i' cid' fname' ds',
    name_loop fuel (Z.of_nat i) (Z.of_nat (i + 5)) ID cid fname =
      Ok (Z.of_nat i', Z.of_nat (i' + 5), cid', fname') /\ (i' <= 9)%nat /\
    length cid' = 10%nat /\ length fname' = 15%nat /\
    take i' cid' = ds ++ ds' /\ take (i' + 5) fname' = pre ++ ds ++ ds' /\
    Forall is_digit ds' /\ digits_value ds' = ID /\ ds' = digits fuel ID.
Proof.
  revert n i ID cid fname ds. induction fuel as [|fuel IH];
    intros n i ID cid fname ds HID Hfuel Hin Hc Hf Hp Htc Htf; [lia|]. cbn [name_loop digits].
  destruct (Z.eqb_spec ID 0) as [->|Hnz].
  - exists i, cid, fname, []. rewrite app_nil_r. split_and!; try done. lia.
  - destruct n as [|n]; [cbn in HID; lia|].
    rewrite Nat2Z.inj_succ, Z.pow_succ_r in HID by lia.
    rewrite Z.quot_div_nonneg, Z.rem_mod_nonneg by lia.
    pose proof (Z.mod_pos_bound ID 10 ltac:(lia)).
    assert (s8 (ID mod 10 + 48) = ID mod 10 + 48) as Hs8 by word_lia.
    rewrite aset_in by lia. cbn [bindr]. rewrite aget_insert_eq by lia. cbn [bindr].
    rewrite aset_in by lia. cbn [bindr]. rewrite Hs8.
    replace (Z.of_nat i + 1) with (Z.of_nat (S i)) by lia.
    replace (Z.of_nat (i + 5) + 1) with (Z.of_nat (S i + 5)) by lia. rewrite !Nat2Z.id.
    destruct (IH n (S i) (ID / 10) (<[i := ID mod 10 + 48]> cid) (<[(i + 5)%nat := ID mod 10 + 48]> fname)
      (ds ++ [ID mod 10 + 48])) as (i' & cid' & fname' & ds' & -> & H1 & H2 & H3 & H4 & H5 & H6 & H7 & H8);
      rewrite ?length_insert; try done; try lia.
    + split; [apply Z.div_pos; lia|apply Z.div_lt_upper_bound; lia].
    + rewrite take_insert_snoc by lia. by rewrite Htc.
    + change (S i + 5)%nat with (S (i + 5)). rewrite take_insert_snoc by lia.
      by rewrite Htf, app_assoc.
    + exists i', cid', fname', ((ID mod 10 + 48) :: ds'). rewrite <- !app_assoc in *.
      split_and!; try done.
      * constructor; [unfold is_digit; lia|done].
      * cbn [digits_value]. rewrite H7. pose proof (Z.div_mod ID 10). lia.
      * by rewrite H8.
Qed.

Definition ajnr : list Z := [97; 106; 110; 114; 95].

Lemma store_names_digits ID f0 c0 :
  0 <= ID < 10 ^ 9 -> length f0 = 15%nat -> length c0 = 10%nat ->
  exists ds, store_names ID f0 c0 = Ok (ajnr ++ ds, ds) /\ Forall is_digit ds /\
    digits_value ds = ID /\ ds = digits name_fuel ID.
Proof.
  intros HID Hf Hc. unfold store_names.
  do 5 (rewrite aset_in by (rewrite ?length_insert; lia); cbn [bindr]).
  destruct f0 as [|x0 [|x1 [|x2 [|x3 [|x4 f0]]]]]; try done.
  set (f1 := <[Z.to_nat 4:=95]> _).
  destruct (name_loop_spec name_fuel 9 0 ID c0 f1 ajnr []) as
    (i' & cid' & fname' & ds & E & H1 & H2 & H3 & H4 & H5 & H6 & H7 & H8); try done.
  { unfold name_fuel. lia. }
  change (Z.of_nat 0) with 0 in E. change (Z.of_nat (0 + 5)) with 5 in E. rewrite E. cbn [bindr].
  rewrite !aset_in by lia. cbn [bindr]. rewrite !Nat2Z.id. exists ds. split; [|done].
  assert (Forall (fun d => d <> 0) ds) as Hnz.
  { eapply Forall_impl; [exact H6|]. unfold is_digit. intros. lia. }
  f_equal. f_equal.
  - apply c_string_insert; [lia|done|]. unfold ajnr. by repeat constructor.
  - apply c_string_insert; [lia|done|done].
Qed.

(** Building the name of a swap file never overflows its two stack buffers
    for a store identifier below 10^9 (the table of stores has 14 slots), and
    gives "ajnr_" followed by the decimal digits of the identifier, so distinct
    stores never share a swap file. *)
Theorem store_names_distinct (ID ID' : Z) (f0 c0 f0' c0' : list Z) :
  0 <= ID < 10 ^ 9 -> 0 <= ID' < 10 ^ 9 ->
  length f0 = 15%nat -> length c0 = 10%nat -> length f0' = 15%nat -> length c0' = 10%nat ->
  exists ds ds', store_names ID f0 c0 = Ok (ajnr ++ ds, ds) /\
    store_names ID' f0' c0' = Ok (ajnr ++ ds', ds') /\
    Forall is_digit ds /\ digits_value ds = ID /\
    (ajnr ++ ds = ajnr ++ ds' <-> ID = ID').
Proof.
  intros H1 H2 L1 L2 L3 L4.
  destruct (store_names_digits ID f0 c0) as (ds & E1 & F1 & V1 & D1); [done..|].
  destruct (store_names_digits ID' f0' c0') as (ds' & E2 & F2 & V2 & D2); [done..|].
  exists ds, ds'. split_and!; try done. split.
  - intros ->%app_inv_head. congruence.
  - intros <-. congruence.
Qed.

Lemma store_names_distinct_witness :
  exists ds ds', store_names 13 (replicate 15 7) (replicate 10 7) = Ok (ajnr ++ ds, ds) /\
    store_names 1 (replicate 15 0) (replicate 10 0) = Ok (ajnr ++ ds', ds') /\
    Forall is_digit ds /\ digits_value ds = 13 /\ (ajnr ++ ds = ajnr ++ ds' <-> 13 = 1).
Proof.
  apply (store_names_distinct 13 1 (replicate 15 7) (replicate 10 7) (replicate 15 0) (replicate 10 0));
    lia || reflexivity.
Defined.
