(* ===== verification/Paging.v ===== *)
(** What paging promises: whatever the pager moves between memory, the swap
    files and the executable, the contents of every virtual page of every
    address space stay the same.  The invariant of the pager, the logical
    contents of a page, and the proof that the page-fault handler keeps both. *)
From Stdlib Require Import ZArith Lia Bool.
From stdpp Require Import base numbers list gmap fin_maps.
From S2P Require Import Prelude Bitmap Machine Tables CoreMap Vm.

(** The frames of a queue of resident pages. *)
Abbreviation frames_of l := ((fun x : page_data => x.1.2) <$> l.*2).

(** ** The image of a page in the executable *)

Section Image.

(** The byte at virtual address [a], before the program has written it. *)
Definition exec_byte (f : fs) (exe : name) (h : NoffHeader) (a : Z) : Z :=
  let at_ (p : Z) := match f !! exe with Some d => default 0 (d !! Z.to_nat p) | None => 0 end in
  let within (s : Segment) := (virtualAddr s <=? a) && (a <? virtualAddr s + seg_size s) in
  if within (code h) then at_ (inFileAddr (code h) + (a - virtualAddr (code h)))
  else if within (initData h) then at_ (inFileAddr (initData h) + (a - virtualAddr (initData h)))
  else 0.

Definition exec_page (f : fs) (exe : name) (h : NoffHeader) (v : Z) : list Z :=
  (fun i => exec_byte f exe h (v * PageSize + Z.of_nat i)) <$> seq 0 (Z.to_nat PageSize).

(** Segments whose addresses and file positions stay within an [int]. *)
Definition segment_ok (s : Segment) : Prop :=
  0 <= virtualAddr s /\ 0 <= seg_size s /\ 0 <= inFileAddr s /\
  virtualAddr s + seg_size s < 2 ^ 31 /\ inFileAddr s + seg_size s < 2 ^ 31.
Definition header_ok (h : NoffHeader) : Prop := segment_ok (code h) /\ segment_ok (initData h).
End Image.

Section Invariant.
Context {host : Host}.

(** The page of [mem] in frame [f]. *)
Definition frame (k : Vm) (f : Z) : list Z := bytes_of (mainMemory (vm k)) (f * PageSize) PageSize.

(** What [v] will hold when it is paged in. *)
Definition saved (k : Vm) (sp : AddrSpace) (st : BackingStore) (h : NoffHeader) (v : Z) : list Z :=
  if BitMap.bit (pages st) v
  then match files k !! filename st with
       | Some d => bytes_of d (v * PageSize) PageSize
       | None => []
       end
  else exec_page (files k) (currentExecutable sp) h v.

(** The logical contents of page [v] of address space [a]. *)
Definition content (k : Vm) (a : positive) (v : Z) : option (list Z) :=
  sp ← spaces k !! a;
  bs ← backingStore sp;
  st ← stores k !! bs;
  t ← Vm.pageTable sp;
  tab ← tables (vm k) !! t;
  e ← tab !! Z.to_nat v;
  if valid e then Some (frame k (Machine.physicalPage e))
  else match read_header (files k) (currentExecutable sp) [] with
       | Ok (Some h) => Some (saved k sp st h v)
       | _ => None
       end.

(** One address space: its swap file, its page table and how they agree with the
    queue [l] of resident pages. *)
Record space_ok (k : Vm) (l : list page_data) (a : positive) (sp : AddrSpace)
    (bs : positive) (st : BackingStore) (t : positive) (tab : list TranslationEntry)
    (h : NoffHeader) (d : list Z) : Prop := {
  so_space : spaces k !! a = Some sp;
  so_bs : backingStore sp = Some bs;
  so_st : stores k !! bs = Some st;
  so_back : space st = a;
  so_t : Vm.pageTable sp = Some t;
  so_tab : tables (vm k) !! t = Some tab;
  so_len : zlen tab = numPages sp;
  so_small : numPages sp * PageSize <= 2 ^ 31;
  so_bits : BitMap.wf (pages st) /\ BitMap.numBits (pages st) = numPages sp;
  so_header : (forall junk, read_header (files k) (currentExecutable sp) junk = Ok (Some h)) /\ header_ok h;
  so_file : files k !! filename st = Some d;
  so_saved : forall v, 0 <= v < numPages sp -> BitMap.bit (pages st) v = true -> (v + 1) * PageSize <= zlen d;
  so_valid : forall v e, 0 <= v -> tab !! Z.to_nat v = Some e -> valid e = true ->
    (bs, Machine.physicalPage e, v) ∈ l /\
    (dirty e = false -> frame k (Machine.physicalPage e) = saved k sp st h v);
  so_writable : Forall (fun e => readOnly e = false) tab
}.

Definition some_space_ok (k : Vm) (l : list page_data) (a : positive) : Prop :=
  exists sp bs st t tab h d, space_ok k l a sp bs st t tab h d.

(** The pager's invariant, whatever the replacement policy; [l] is the queue of resident pages. *)
Record Pager (k : Vm) (l : list (positive * page_data)) : Prop := {
  inv_machine : Machine.wf (vm k);
  inv_map : CoreMap.rep (coreMap k) l;
  inv_cap : capacity (coreMap k) = NumPhysPages;
  inv_manager : BitMap.wf (manager k) /\ BitMap.numBits (manager k) = NumPhysPages;
  inv_frames : forall f, 0 <= f < NumPhysPages ->
    (BitMap.bit (manager k) f = true <-> f ∈ (fun x => x.1.2) <$> l.*2);
  inv_nodup : NoDup ((fun x : page_data => x.1.2) <$> l.*2);
  inv_bytes : forall n d, files k !! n = Some d -> Forall is_byte d;
  inv_pages : forall bs f v, (bs, f, v) ∈ l.*2 ->
    0 <= f < NumPhysPages /\ 0 <= v /\
    exists st sp t tab e, stores k !! bs = Some st /\ spaces k !! space st = Some sp /\
      backingStore sp = Some bs /\ Vm.pageTable sp = Some t /\ tables (vm k) !! t = Some tab /\
      tab !! Z.to_nat v = Some e /\ valid e = true /\ Machine.physicalPage e = f;
  inv_spaces : forall a, is_Some (spaces k !! a) -> some_space_ok k l.*2 a;
  inv_apart : forall a a' sp sp', spaces k !! a = Some sp -> spaces k !! a' = Some sp' -> a <> a' ->
    Vm.pageTable sp <> Vm.pageTable sp';
  inv_names : forall b b' st st', stores k !! b = Some st -> stores k !! b' = Some st' -> b <> b' ->
    filename st <> filename st';
  inv_exec : forall a sp b st, spaces k !! a = Some sp -> stores k !! b = Some st ->
    filename st <> currentExecutable sp
}.

(** The same, with first-in-first-out replacement (the -e option not given), which is what
    the theorems on loading, user memory and the system calls assume: with the LRU
    policy the core map breaks when the last page of a queue is the victim
    ([CoreMap.second_chance_dangling]). *)
Record Inv (k : Vm) (l : list (positive * page_data)) : Prop := {
  inv_pager :> Pager k l;
  inv_fifo : LRU k = false
}.
End Invariant.

(** ** Files, memory and entries *)

Definition overwrite (d : list Z) (p : nat) (from : list Z) : list Z :=
  take p d ++ replicate (p - length d) 0 ++ from ++ drop (p + length from) d.

Lemma length_overwrite d p from :
  length (overwrite d p from) = Nat.max (length d) (p + length from).
Proof.
  unfold overwrite. rewrite !length_app, length_take, length_replicate, length_drop. lia.
Qed.

Lemma overwrite_bytes d p from : Forall is_byte d -> Forall is_byte from -> Forall is_byte (overwrite d p from).
Proof.
  intros. unfold overwrite. repeat apply Forall_app_2; auto using Forall_take, Forall_drop.
  apply Forall_replicate. unfold is_byte. lia.
Qed.

Lemma bytes_of_overwrite d p from :
  bytes_of (overwrite d p from) (Z.of_nat p) (zlen from) = from.
Proof.
  unfold bytes_of, overwrite. rewrite !Nat2Z.id, app_assoc.
  rewrite drop_app_length' by (rewrite length_app, length_take, length_replicate; lia).
  by rewrite take_app_length.
Qed.

Lemma lookup_overwrite d p from i :
  (i < length d)%nat -> (i < p \/ p + length from <= i)%nat -> overwrite d p from !! i = d !! i.
Proof.
  intros Hi Hd. unfold overwrite. destruct Hd.
  - rewrite lookup_app_l by (rewrite length_take; lia). by rewrite lookup_take_lt.
  - replace (p - length d)%nat with 0%nat by lia. cbn [replicate app].
    rewrite lookup_app_r by (rewrite length_take; lia).
    rewrite lookup_app_r by (rewrite length_take; lia).
    rewrite lookup_drop. f_equal. rewrite length_take. lia.
Qed.

Lemma bytes_of_ext l l' p n :
  0 <= p -> (forall i, p <= Z.of_nat i < p + n -> l' !! i = l !! i) -> bytes_of l' p n = bytes_of l p n.
Proof.
  intros Hp Hl. unfold bytes_of. apply list_eq. intros i.
  destruct (decide (i < Z.to_nat n)%nat) as [Hi|Hi]; [|by rewrite !lookup_take_ge by lia].
  rewrite !lookup_take_lt, !lookup_drop by done. apply Hl. lia.
Qed.

Lemma length_bytes_of l p n : 0 <= p -> 0 <= n -> p + n <= zlen l -> zlen (bytes_of l p n) = n.
Proof. intros. unfold bytes_of. rewrite length_take, length_drop. lia. Qed.

(** Pages of a file that do not meet the one written keep their bytes. *)
Lemma page_of_overwrite d v u from :
  0 <= v -> 0 <= u -> u <> v -> zlen from = PageSize -> (u + 1) * PageSize <= zlen d ->
  bytes_of (overwrite d (Z.to_nat (v * PageSize)) from) (u * PageSize) PageSize =
  bytes_of d (u * PageSize) PageSize.
Proof.
  unfold PageSize, SectorSize. intros. apply bytes_of_ext; [lia|]. intros i Hi.
  apply lookup_overwrite; [lia|]. destruct (Z.lt_ge_cases u v); [left|right]; lia.
Qed.

(** ** One entry, one frame *)

Lemma wf_put (m : Machine) p l l' :
  Machine.wf m -> tables m !! p = Some l -> length l' = length l ->
  Machine.wf (set_tables m (<[p := l']> (tables m))).
Proof.
  intros [H1 H2 H3 H4] Hp Hl. split; try done. destruct H4 as [(t & ?)|(Ht & q & t & Hq & Hqt & Hs)];
    [left; eauto|]. right. split; [done|]. cbn. destruct (decide (p = q)) as [->|Hne].
  - exists q, l'. rewrite lookup_insert_eq. simplify_eq. rewrite Hl. auto.
  - exists q, t. rewrite lookup_insert_ne by done. auto.
Qed.

Lemma get_entry_ok k t tab v e :
  tables (vm k) !! t = Some tab -> 0 <= v -> tab !! Z.to_nat v = Some e ->
  get_entry k (Some t) v = Ok e.
Proof. intros Ht Hv He. unfold get_entry, the_table. rewrite Ht. cbn. by apply aget_Ok. Qed.

Lemma put_entry_ok k t tab v e :
  tables (vm k) !! t = Some tab -> 0 <= v < zlen tab ->
  put_entry k (Some t) v e =
  Ok (set_vm (set_tables (vm k) (<[t := <[Z.to_nat v := e]> tab]> (tables (vm k)))) k).
Proof. intros Ht Hv. unfold put_entry, the_table. rewrite Ht. cbn. by rewrite aset_in. Qed.

Lemma lookup_range {A} (l : list A) v e : 0 <= v -> l !! Z.to_nat v = Some e -> 0 <= v < zlen l.
Proof. intros Hv Hl%lookup_lt_Some. lia. Qed.

Lemma frame_in (k : Vm) f :
  Machine.wf (vm k) -> 0 <= f < NumPhysPages ->
  load_frame k f = Ok (frame k f) /\ zlen (frame k f) = PageSize /\ Forall is_byte (frame k f).
Proof.
  intros Hwf Hf. pose proof (wf_memory _ Hwf) as Hm.
  unfold NumPhysPages, MemorySize, NumPhysPages, PageSize, SectorSize in *. split; [|split].
  - unfold load_frame, PageSize, SectorSize. by rewrite load_bytes_in by lia.
  - unfold frame, PageSize, SectorSize. apply length_bytes_of; lia.
  - unfold frame, bytes_of. apply Forall_take, Forall_drop, Hwf.
Qed.

(** Filling a frame. *)
Lemma store_frame (k : Vm) f bs :
  Machine.wf (vm k) -> 0 <= f < NumPhysPages -> zlen bs = PageSize -> Forall is_byte bs ->
  exists m, store_at k (f * PageSize) bs = Ok (set_vm (set_mainMemory (vm k) m) k) /\
    Machine.wf (set_mainMemory (vm k) m) /\
    bytes_of m (f * PageSize) PageSize = bs /\
    (forall g, 0 <= g -> g <> f -> bytes_of m (g * PageSize) PageSize = frame k g).
Proof.
  intros Hwf Hf Hl Hb. pose proof (wf_memory _ Hwf) as Hm.
  unfold NumPhysPages, MemorySize, NumPhysPages, PageSize, SectorSize in *.
  exists (patch (mainMemory (vm k)) (f * 128) bs). unfold store_at.
  destruct bs as [|b bs]; [cbn in Hl; lia|].
  rewrite store_bytes_in by lia. cbn [bindr]. split; [done|]. split.
  - apply wf_set_mainMemory; [done| |].
    + rewrite length_patch by lia. exact (wf_memory _ Hwf).
    + apply patch_bytes; [apply Hwf|done].
  - split.
    { pose proof (bytes_of_patch (mainMemory (vm k)) (f * 128) (b :: bs)) as Hp.
      rewrite Hl in Hp. apply Hp; lia. }
    intros g Hg Hne. unfold frame, PageSize, SectorSize. apply bytes_of_patch_other; lia.
Qed.

(** ** Loading a page from the executable *)

Definition page_after (L : list Z) (i : nat) : list Z := take i L ++ replicate (Z.to_nat PageSize - i) 0.

Lemma page_after_step L i b :
  length L = Z.to_nat PageSize -> (i < Z.to_nat PageSize)%nat -> L !! i = Some b ->
  <[i := b]> (page_after L i) = page_after L (S i).
Proof.
  intros Hl Hi Hb. unfold page_after.
  replace (Z.to_nat PageSize - i)%nat with (S (Z.to_nat PageSize - S i)) by lia.
  rewrite (take_S_r L i b Hb), <- app_assoc. cbn [replicate app].
  rewrite insert_app_r_alt by (rewrite length_take; lia).
  rewrite length_take. replace (i - min i (length L))%nat with 0%nat by lia. done.
Qed.

Lemma page_after_zero L i :
  length L = Z.to_nat PageSize -> (i < Z.to_nat PageSize)%nat -> L !! i = Some 0 ->
  page_after L (S i) = page_after L i.
Proof.
  intros Hl Hi Hb. rewrite <- (page_after_step L i 0) by done. apply list_insert_id.
  unfold page_after. rewrite lookup_app_r by (rewrite length_take; lia).
  rewrite lookup_replicate. split; [done|]. rewrite length_take. lia.
Qed.

Lemma set_mainMemory_id m : set_mainMemory m (mainMemory m) = m.
Proof. by destruct m. Qed.
Lemma set_vm_id k : set_vm (vm k) k = k.
Proof. by destruct k. Qed.

(** One byte written into a page. *)
Lemma bytes_of_patch_byte m f i b :
  zlen m = MemorySize -> 0 <= f < NumPhysPages -> (i < Z.to_nat PageSize)%nat ->
  bytes_of (patch m (f * PageSize + Z.of_nat i) [b]) (f * PageSize) PageSize =
  <[i := b]> (bytes_of m (f * PageSize) PageSize).
Proof.
  unfold MemorySize, NumPhysPages, PageSize, SectorSize. intros Hm Hf Hi.
  assert (patch m (f * 128 + Z.of_nat i) [b] = <[Z.to_nat (f * 128 + Z.of_nat i) := b]> m) as ->.
  { pose proof (aset_patch m (f * 128 + Z.of_nat i) b ltac:(lia)) as Hp.
    rewrite aset_in in Hp by lia. congruence. }
  unfold bytes_of. apply list_eq. intros j.
  destruct (decide (j < Z.to_nat 128)%nat) as [Hj|Hj].
  - rewrite lookup_take_lt, lookup_drop by done. destruct (decide (i = j)) as [->|Hne].
    + replace (Z.to_nat (f * 128) + j)%nat with (Z.to_nat (f * 128 + Z.of_nat j)) by lia.
      rewrite !list_lookup_insert_eq by (rewrite ?length_take, ?length_drop; lia). done.
    + rewrite !list_lookup_insert_ne by lia. by rewrite lookup_take_lt, lookup_drop by done.
  - rewrite lookup_take_ge by lia. symmetry. apply lookup_ge_None_2.
    rewrite length_insert, length_take. lia.
Qed.

Section Load.
Context {host : Host}.

Lemma length_exec_page f exe h v : length (exec_page f exe h v) = Z.to_nat PageSize.
Proof. unfold exec_page. by rewrite length_fmap, length_seq. Qed.

Lemma lookup_exec_page f exe h v i :
  (i < Z.to_nat PageSize)%nat ->
  exec_page f exe h v !! i = Some (exec_byte f exe h (v * PageSize + Z.of_nat i)).
Proof. intros. unfold exec_page. rewrite list_lookup_fmap, lookup_seq_lt by done. done. Qed.

Lemma exec_page_bytes f exe h v :
  (forall n d, f !! n = Some d -> Forall is_byte d) -> Forall is_byte (exec_page f exe h v).
Proof.
  intros Hf. unfold exec_page. apply Forall_fmap, Forall_true. intros i. cbn.
  assert (forall p, is_byte (match f !! exe with Some d => default 0 (d !! Z.to_nat p) | None => 0 end)) as Hb.
  { intros p. destruct (f !! exe) as [d|] eqn:E; [|unfold is_byte; lia].
    destruct (d !! Z.to_nat p) as [b|] eqn:Eb; cbn; [|unfold is_byte; lia].
    eapply Forall_lookup_1; [by apply (Hf _ _ E)|done]. }
  unfold exec_byte. destruct (_ && _); [apply Hb|]. destruct (_ && _); [apply Hb|].
  unfold is_byte. lia.
Qed.

(** [writeMemoryToPage] puts one byte of the file, when it has it. *)
Lemma writeMemoryToPage_ok (k : Vm) sp t tab v e f d p o i :
  Machine.wf (vm k) -> Vm.pageTable sp = Some t -> tables (vm k) !! t = Some tab -> 0 <= v ->
  tab !! Z.to_nat v = Some e -> Machine.physicalPage e = f -> 0 <= f < NumPhysPages ->
  files k !! currentExecutable sp = Some d -> Forall is_byte d ->
  0 <= p -> 0 <= o -> p + o < 2 ^ 31 -> (i < Z.to_nat PageSize)%nat ->
  exists m, writeMemoryToPage k sp v (Z.of_nat i) p o = Ok (set_vm (set_mainMemory (vm k) m) k) /\
    Machine.wf (set_mainMemory (vm k) m) /\
    bytes_of m (f * PageSize) PageSize =
      match d !! Z.to_nat (p + o) with
      | Some b => <[i := b]> (frame k f)
      | None => frame k f
      end /\
    (forall g, 0 <= g -> g <> f -> bytes_of m (g * PageSize) PageSize = frame k g).
Proof.
  intros Hwf Ht Htab Hv He <- Hf Hd Hb Hp Ho Hpo Hi. unfold writeMemoryToPage.
  rewrite Ht, (get_entry_ok k t tab v e) by done. cbn [bindr].
  rewrite s32_small by (unfold is_s32; lia). unfold ReadAt.
  rewrite ASSERT_true by lia. cbn [bindr]. rewrite Hd. cbn [bindr].
  pose proof (wf_memory _ Hwf) as Hm.
  destruct (d !! Z.to_nat (p + o)) as [b|] eqn:Eb.
  - rewrite (drop_S _ _ _ Eb). change (Z.to_nat 1) with 1%nat. cbn [take].
    rewrite firstn_O. unfold store_at.
    unfold NumPhysPages, MemorySize, NumPhysPages in *.
    rewrite store_bytes_in by (unfold PageSize, SectorSize in *; cbn; lia). cbn [bindr].
    eexists. split; [done|]. split; [|split].
    + apply wf_set_mainMemory; [done| |].
      * rewrite length_patch by (unfold PageSize, SectorSize in *; cbn; lia). exact Hm.
      * apply patch_bytes; [apply Hwf|]. constructor; [|done]. by eapply Forall_lookup_1 in Hb.
    + by apply bytes_of_patch_byte.
    + intros g Hg Hne. unfold PageSize, SectorSize in *.
      apply bytes_of_patch_other; cbn; lia.
  - rewrite drop_ge by (apply lookup_ge_None_1 in Eb; lia). rewrite take_nil.
    exists (mainMemory (vm k)). by rewrite set_mainMemory_id, set_vm_id.
Qed.

Lemma load_byte_ok (k : Vm) h sp t tab v e f d i flag :
  Machine.wf (vm k) -> Vm.pageTable sp = Some t -> tables (vm k) !! t = Some tab -> 0 <= v ->
  tab !! Z.to_nat v = Some e -> Machine.physicalPage e = f -> 0 <= f < NumPhysPages ->
  files k !! currentExecutable sp = Some d -> Forall is_byte d -> header_ok h ->
  (v + 1) * PageSize <= 2 ^ 31 -> (i < Z.to_nat PageSize)%nat ->
  frame k f = page_after (exec_page (files k) (currentExecutable sp) h v) i ->
  exists m flag', load_byte h sp v (Z.of_nat i) (k, flag) =
      Ok (set_vm (set_mainMemory (vm k) m) k, flag') /\
    Machine.wf (set_mainMemory (vm k) m) /\
    bytes_of m (f * PageSize) PageSize = page_after (exec_page (files k) (currentExecutable sp) h v) (S i) /\
    (forall g, 0 <= g -> g <> f -> bytes_of m (g * PageSize) PageSize = frame k g).
Proof.
  intros Hwf Ht Htab Hv He Hf Hfr Hd Hb [(C1 & C2 & C3 & C4 & C5) (D1 & D2 & D3 & D4 & D5)] Hsm Hi Hbefore.
  set (L := exec_page (files k) (currentExecutable sp) h v) in *.
  assert (length L = Z.to_nat PageSize) as HlL by apply length_exec_page.
  pose proof (lookup_exec_page (files k) (currentExecutable sp) h v i Hi) as HL. fold L in HL.
  assert (v * PageSize + Z.of_nat i < 2 ^ 31) as Hsmall by (unfold PageSize, SectorSize in *; lia).
  assert (0 <= v * PageSize) as Hpos by (unfold PageSize, SectorSize in *; lia).
  unfold load_byte. rewrite (u32_small (v * PageSize)) by (unfold is_u32; lia).
  rewrite (s32_small (Z.of_nat i + v * PageSize)) by (unfold is_s32; lia).
  rewrite (s32_small (virtualAddr (code h) + _)), (s32_small (virtualAddr (initData h) + _))
    by (unfold is_s32; lia).
  set (a := Z.of_nat i + v * PageSize) in *. assert (v * PageSize + Z.of_nat i = a) as Ea by lia.
  rewrite Ea in HL. unfold exec_byte in HL. rewrite Hd in HL.
  assert (forall p o, 0 <= p -> 0 <= o -> p + o < 2 ^ 31 -> L !! i = Some (default 0 (d !! Z.to_nat (p + o))) ->
    exists m flag', (k <- writeMemoryToPage k sp v (Z.of_nat i) p o ;; Ok (k, 1)) =
        Ok (set_vm (set_mainMemory (vm k) m) k, flag') /\
      Machine.wf (set_mainMemory (vm k) m) /\ bytes_of m (f * PageSize) PageSize = page_after L (S i) /\
      (forall g, 0 <= g -> g <> f -> bytes_of m (g * PageSize) PageSize = frame k g)) as Hwrite.
  { intros p o Hp Ho Hpo HLi.
    destruct (writeMemoryToPage_ok k sp t tab v e f d p o i) as (m & -> & Hw & Hbm & Hg); try done.
    exists m, 1. split; [done|]. split; [done|]. split; [|done]. rewrite Hbm, Hbefore.
    destruct (d !! Z.to_nat (p + o)) as [b|] eqn:Eb.
    - apply page_after_step; [done..|]. by rewrite HLi, ?Eb.
    - symmetry. apply page_after_zero; [done..|]. by rewrite HLi, ?Eb. }
  assert (forall s, segment_ok s ->
    (seg_size s >? 0) && (a <? virtualAddr s + seg_size s) && (a >=? virtualAddr s) =
    (virtualAddr s <=? a) && (a <? virtualAddr s + seg_size s)) as Hseg.
  { intros s _. rewrite Z.geb_leb. destruct (Z.leb_spec (virtualAddr s) a),
      (Z.ltb_spec a (virtualAddr s + seg_size s)), (Z.gtb_spec (seg_size s) 0); cbn; try done; lia. }
  rewrite !Hseg by done.
  destruct ((virtualAddr (code h) <=? a) && (a <? virtualAddr (code h) + seg_size (code h))) eqn:Ec.
  { rewrite s32_small by (unfold is_s32; lia). apply Hwrite; lia || done. }
  destruct ((virtualAddr (initData h) <=? a) && (a <? virtualAddr (initData h) + seg_size (initData h))) eqn:Ei.
  { rewrite s32_small by (unfold is_s32; lia). apply Hwrite; lia || done. }
  exists (mainMemory (vm k)), flag. rewrite set_mainMemory_id, set_vm_id. split; [done|].
  split; [done|]. split; [|done]. rewrite page_after_zero by done. exact Hbefore.
Qed.

(** The whole loop, on a frame that has just been zeroed. *)
Lemma load_loop (k : Vm) h sp t tab v e f d :
  Machine.wf (vm k) -> Vm.pageTable sp = Some t -> tables (vm k) !! t = Some tab -> 0 <= v ->
  tab !! Z.to_nat v = Some e -> Machine.physicalPage e = f -> 0 <= f < NumPhysPages ->
  files k !! currentExecutable sp = Some d -> Forall is_byte d -> header_ok h ->
  (v + 1) * PageSize <= 2 ^ 31 -> frame k f = replicate (Z.to_nat PageSize) 0 ->
  exists m flag, for_range 0 PageSize (load_byte h sp v) (k, 0) =
      Ok (set_vm (set_mainMemory (vm k) m) k, flag) /\
    Machine.wf (set_mainMemory (vm k) m) /\
    bytes_of m (f * PageSize) PageSize = exec_page (files k) (currentExecutable sp) h v /\
    (forall g, 0 <= g -> g <> f -> bytes_of m (g * PageSize) PageSize = frame k g).
Proof.
  intros Hwf Ht Htab Hv He Hf Hfr Hd Hb Hh Hsm Hz.
  set (L := exec_page (files k) (currentExecutable sp) h v).
  destruct (for_range_inv (fun i s => exists m flag,
    s = (set_vm (set_mainMemory (vm k) m) k, flag) /\ Machine.wf (set_mainMemory (vm k) m) /\
    bytes_of m (f * PageSize) PageSize = page_after L (Z.to_nat i) /\
    (forall g, 0 <= g -> g <> f -> bytes_of m (g * PageSize) PageSize = frame k g))
    0 PageSize (load_byte h sp v) (k, 0)) as (s' & E & m & flag & -> & Hw & Hm & Hg).
  - done.
  - exists (mainMemory (vm k)), 0. rewrite set_mainMemory_id, set_vm_id. split; [done|].
    split; [done|]. split; [|done]. exact Hz.
  - intros i s Hi (m & flag & -> & Hw & Hm & Hg).
    set (k1 := set_vm (set_mainMemory (vm k) m) k).
    assert (load_byte h sp v i = load_byte h sp v (Z.of_nat (Z.to_nat i))) as ->
      by (by rewrite Z2Nat.id by lia).
    destruct (load_byte_ok k1 h sp t tab v e f d (Z.to_nat i) flag) as (m' & flag' & E & Hw' & Hm' & Hg');
      try done; [lia|]. rewrite E. eexists. split; [done|].
    exists m', flag'. split; [done|]. split; [done|]. split.
    + rewrite Hm'. by replace (Z.to_nat (i + 1)) with (S (Z.to_nat i)) by lia.
    + intros g Hg0 Hne. rewrite Hg' by done. by apply Hg.
  - exists m, flag. split; [done|]. split; [done|]. split; [|done]. rewrite Hm. unfold page_after.
    rewrite Nat.sub_diag, app_nil_r. apply take_ge. unfold L. by rewrite length_exec_page.
Qed.
End Load.

(** ** Evicting a page *)

Section Evict.
Context {host : Host}.

Lemma read_header_files f f' exe junk :
  f' !! exe = f !! exe -> read_header f' exe junk = read_header f exe junk.
Proof. intros E. unfold read_header, ReadAt. by rewrite E. Qed.

Lemma exec_page_files f f' exe h v : f' !! exe = f !! exe -> exec_page f' exe h v = exec_page f exe h v.
Proof. intros E. unfold exec_page, exec_byte. by rewrite E. Qed.

Lemma saved_same k k' sp st h v :
  files k' !! filename st = files k !! filename st ->
  files k' !! currentExecutable sp = files k !! currentExecutable sp ->
  saved k' sp st h v = saved k sp st h v.
Proof. intros E1 E2. unfold saved. rewrite E1. by rewrite (exec_page_files (files k)). Qed.

(** A state that agrees with [k] but for the tables, swap file and bits of one
    address space. *)
Record touched (k k' : Vm) (t : positive) (tab' : list TranslationEntry) (bs : positive)
    (st' : BackingStore) (d' : list Z) : Prop := {
  to_registers : registers (vm k') = registers (vm k);
  to_tables : tables (vm k') = <[t := tab']> (tables (vm k));
  to_pt : Machine.pageTable (vm k') = Machine.pageTable (vm k) /\
          pageTableSize (vm k') = pageTableSize (vm k);
  to_spaces : spaces k' = spaces k;
  to_stores : stores k' = <[bs := st']> (stores k);
  to_files : files k' = <[filename st' := d']> (files k);
  to_current : current k' = current k;
  to_LRU : LRU k' = LRU k
}.

Lemma space_ok_content k l a sp bs st t tab h d v e :
  space_ok k l a sp bs st t tab h d -> tab !! Z.to_nat v = Some e ->
  content k a v = Some (if valid e then frame k (Machine.physicalPage e) else saved k sp st h v).
Proof.
  intros [] He. unfold content. rewrite so_space0. cbn. rewrite so_bs0. cbn. rewrite so_st0. cbn.
  rewrite so_t0. cbn. rewrite so_tab0. cbn. rewrite He. cbn.
  destruct (valid e); [done|]. destruct so_header0 as [-> _]. done.
Qed.

(** A space other than the touched one is not affected, provided the frames of
    its pages are not. *)
Lemma space_ok_other k k' l l' t tab' bs st' d' a2 sp2 bs2 st2 t2 tab2 h2 d2 :
  touched k k' t tab' bs st' d' -> space_ok k l a2 sp2 bs2 st2 t2 tab2 h2 d2 ->
  bs2 <> bs -> t2 <> t -> filename st2 <> filename st' -> filename st' <> currentExecutable sp2 ->
  (forall f v, (bs2, f, v) ∈ l -> (bs2, f, v) ∈ l' /\ frame k' f = frame k f) ->
  space_ok k' l' a2 sp2 bs2 st2 t2 tab2 h2 d2.
Proof.
  intros [] [] Hbs Ht Hn He Hl.
  assert (files k' !! filename st2 = files k !! filename st2) as Hf1
    by (rewrite to_files0; by apply lookup_insert_ne).
  assert (files k' !! currentExecutable sp2 = files k !! currentExecutable sp2) as Hf2
    by (rewrite to_files0; by apply lookup_insert_ne).
  split; try done.
  - by rewrite to_spaces0.
  - rewrite to_stores0. by rewrite lookup_insert_ne.
  - rewrite to_tables0. by rewrite lookup_insert_ne.
  - split; [|by destruct so_header0]. intros junk.
    rewrite (read_header_files (files k)) by done. by apply so_header0.
  - by rewrite Hf1.
  - intros v e Hv Hve Hval. destruct (so_valid0 v e Hv Hve Hval) as [Hin Hclean].
    destruct (Hl _ _ Hin) as [Hin' Hfr]. split; [done|]. intros Hd.
    rewrite Hfr, Hclean by done. symmetry. by apply saved_same.
Qed.

Lemma content_other k k' l l' a a2 sp2 bs2 st2 t2 tab2 h2 d2 v :
  space_ok k l a2 sp2 bs2 st2 t2 tab2 h2 d2 -> space_ok k' l' a2 sp2 bs2 st2 t2 tab2 h2 d2 ->
  (forall f v, (bs2, f, v) ∈ l -> frame k' f = frame k f) ->
  files k' !! filename st2 = files k !! filename st2 ->
  files k' !! currentExecutable sp2 = files k !! currentExecutable sp2 ->
  0 <= v -> a = a2 -> content k' a v = content k a v.
Proof.
  intros H1 H2 Hfr Hf1 Hf2 Hv ->. destruct (tab2 !! Z.to_nat v) as [e|] eqn:He.
  - rewrite (space_ok_content _ _ _ _ _ _ _ _ _ _ v e H1 He),
            (space_ok_content _ _ _ _ _ _ _ _ _ _ v e H2 He).
    destruct (valid e) eqn:Hval.
    + destruct (so_valid _ _ _ _ _ _ _ _ _ _ H1 v e Hv He Hval) as [Hin _]. by rewrite (Hfr _ _ Hin).
    + by rewrite (saved_same k k').
  - unfold content. rewrite (so_space _ _ _ _ _ _ _ _ _ _ H1), (so_space _ _ _ _ _ _ _ _ _ _ H2). cbn.
    rewrite (so_bs _ _ _ _ _ _ _ _ _ _ H1). cbn.
    rewrite (so_st _ _ _ _ _ _ _ _ _ _ H1), (so_st _ _ _ _ _ _ _ _ _ _ H2). cbn.
    rewrite (so_t _ _ _ _ _ _ _ _ _ _ H1). cbn.
    rewrite (so_tab _ _ _ _ _ _ _ _ _ _ H1), (so_tab _ _ _ _ _ _ _ _ _ _ H2). cbn. by rewrite He.
Qed.


(** The swap file after [pageOut]. *)
Definition swapped (k : Vm) (e : TranslationEntry) (v : Z) (d : list Z) : list Z :=
  if dirty e then overwrite d (Z.to_nat (v * PageSize)) (frame k (Machine.physicalPage e)) else d.

Lemma pageOut_ok k l a sp bs st t tab h d v e :
  space_ok k l a sp bs st t tab h d -> Machine.wf (vm k) -> 0 <= v -> tab !! Z.to_nat v = Some e ->
  0 <= Machine.physicalPage e < NumPhysPages ->
  exists k' st', pageOut k bs v = Ok k' /\
    touched k k' t (<[Z.to_nat v := set_dirty false (set_valid false e)]> tab) bs st' (swapped k e v d) /\
    coreMap k' = coreMap k /\ manager k' = manager k /\ mainMemory (vm k') = mainMemory (vm k) /\
    tlb (vm k') = tlb (vm k) /\
    filename st' = filename st /\ space st' = space st /\
    BitMap.wf (pages st') /\ BitMap.numBits (pages st') = numPages sp /\
    (forall u, 0 <= u < numPages sp ->
       BitMap.bit (pages st') u = if dirty e && (u =? v) then true else BitMap.bit (pages st) u).
Proof.
  intros Hso Hwf Hv He Hf. pose proof Hso as [H1 H2 H3 H4 H5 H6 H7 H8 [H9 H9'] H10 H11 H12 H13].
  pose proof (lookup_range _ _ _ Hv He) as Hr.
  unfold pageOut, the_store. rewrite H3. cbn [bindr]. unfold the_space. rewrite H4, H1. cbn [bindr].
  rewrite H5. rewrite (get_entry_ok k t tab v e) by done. cbn [bindr].
  unfold FileSystem_Open. rewrite H11. unfold swapped. destruct (dirty e) eqn:Hd.
  - destruct (BitMap.Mark_bit (pages st) v H9) as (b' & -> & Hw & Hn & Hb); [lia|]. cbn [bindr opened].
    destruct (frame_in k _ Hwf Hf) as (Hfr & Hlen & _).
    set (k2 := count_out _). assert (load_frame k2 (Machine.physicalPage e) = Ok (frame k (Machine.physicalPage e)))
      as -> by exact Hfr. cbn [bindr]. unfold WriteAt.
    rewrite ASSERT_true by (unfold PageSize, SectorSize; lia). cbn [bindr].
    assert (files k2 !! filename st = Some d) as -> by exact H11. cbn [bindr].
    rewrite (put_entry_ok _ t tab) by done. eexists _, (set_pages b' st). split; [done|].
    split; [by split|]. split_and!; try done; cbn; [by rewrite Hn|].
    intros u Hu. rewrite Hb by lia. by destruct (u =? v).
  - cbn [bindr]. rewrite (put_entry_ok _ t tab) by done. eexists _, st. split; [done|].
    split; [|by split_and!]. split; try done; symmetry; by apply insert_id.
Qed.

(** The saved copies of the touched space's pages: the evicted page's is what
    its frame held, the others' are what they were. *)
Lemma saved_after k k' l a sp bs st t tab h d v e tab' st' :
  space_ok k l a sp bs st t tab h d -> Machine.wf (vm k) -> 0 <= v -> tab !! Z.to_nat v = Some e ->
  valid e = true -> 0 <= Machine.physicalPage e < NumPhysPages ->
  touched k k' t tab' bs st' (swapped k e v d) -> filename st' = filename st ->
  filename st <> currentExecutable sp ->
  (forall u, 0 <= u < numPages sp ->
     BitMap.bit (pages st') u = if dirty e && (u =? v) then true else BitMap.bit (pages st) u) ->
  saved k' sp st' h v = frame k (Machine.physicalPage e) /\
  (forall u, 0 <= u < numPages sp -> u <> v -> saved k' sp st' h u = saved k sp st h u) /\
  (forall u, 0 <= u < numPages sp -> BitMap.bit (pages st') u = true ->
     (u + 1) * PageSize <= zlen (swapped k e v d)).
Proof.
  intros Hso Hwf Hv He Hval Hf [] Hname Hexe Hbits.
  pose proof Hso as [H1 H2 H3 H4 H5 H6 H7 H8 [H9 H9'] H10 H11 H12 H13].
  pose proof (lookup_range _ _ _ Hv He) as Hr.
  destruct (frame_in k _ Hwf Hf) as (_ & Hlen & _).
  assert (files k' !! filename st' = Some (swapped k e v d)) as Hfile
    by (rewrite to_files0; apply lookup_insert_eq).
  assert (files k' !! currentExecutable sp = files k !! currentExecutable sp) as Hexe'
    by (rewrite to_files0, Hname; by apply lookup_insert_ne).
  assert (zlen d <= zlen (swapped k e v d)) as Hgrow.
  { unfold swapped. destruct (dirty e); [|done]. rewrite length_overwrite. lia. }
  split; [|split].
  - unfold saved. rewrite Hbits, Z.eqb_refl, andb_true_r, Hfile by lia. destruct (dirty e) eqn:Hd.
    + unfold swapped. rewrite Hd.
      pose proof (bytes_of_overwrite d (Z.to_nat (v * PageSize)) (frame k (Machine.physicalPage e))) as Hb.
      rewrite Hlen, Z2Nat.id in Hb by (unfold PageSize, SectorSize; lia). exact Hb.
    + destruct (H13 v e Hv He Hval) as [_ Hclean]. rewrite (Hclean Hd). unfold saved.
      unfold swapped. rewrite Hd, H11. by rewrite (exec_page_files (files k)).
  - intros u Hu Hne. unfold saved. rewrite Hbits by done.
    rewrite (proj2 (Z.eqb_neq u v)), andb_false_r, Hfile, H11 by done.
    destruct (BitMap.bit (pages st) u) eqn:Hb; [|by apply exec_page_files].
    unfold swapped. destruct (dirty e); [|done].
    apply page_of_overwrite; try done; [lia|]. by apply H12.
  - intros u Hu Hb. rewrite Hbits in Hb by done. destruct (Z.eqb_spec u v) as [->|].
    + destruct (dirty e) eqn:Hd; cbn in Hb.
      * unfold swapped. rewrite Hd, length_overwrite.
        unfold PageSize, SectorSize in *. lia.
      * etransitivity; [by apply H12|done].
    + rewrite andb_false_r in Hb. etransitivity; [by apply H12|done].
Qed.

(** What a queued page stands for. *)
Lemma queued_entry k l bs f v :
  Pager k l -> (bs, f, v) ∈ l.*2 ->
  exists a sp st t tab h d e, space_ok k l.*2 a sp bs st t tab h d /\ 0 <= v /\ tab !! Z.to_nat v = Some e /\
    valid e = true /\ Machine.physicalPage e = f /\ 0 <= f < NumPhysPages /\ getUse k bs v = Ok (use e).
Proof.
  intros Hi Hin.
  destruct (inv_pages _ _ Hi bs f v Hin) as (Hf & Hv & st & sp & t & tab & e & I1 & I2 & I3 & I4 & I5 & I6 & I7 & I8).
  destruct (inv_spaces _ _ Hi (space st)) as (sp0 & bs0 & st0 & t0 & tab0 & h & d & Hso); [by rewrite I2|].
  assert (sp0 = sp) as -> by (pose proof (so_space _ _ _ _ _ _ _ _ _ _ Hso); congruence).
  assert (bs0 = bs) as -> by (pose proof (so_bs _ _ _ _ _ _ _ _ _ _ Hso); congruence).
  assert (st0 = st) as -> by (pose proof (so_st _ _ _ _ _ _ _ _ _ _ Hso); congruence).
  assert (t0 = t) as -> by (pose proof (so_t _ _ _ _ _ _ _ _ _ _ Hso); congruence).
  assert (tab0 = tab) as -> by (pose proof (so_tab _ _ _ _ _ _ _ _ _ _ Hso); congruence).
  exists (space st), sp, st, t, tab, h, d, e. split_and!; try done; try lia. cbn. unfold the_store, the_space.
  rewrite I1. cbn [bindr]. rewrite I2. cbn [bindr]. by rewrite I4, (get_entry_ok k t tab v e).
Qed.

(** What [evict_one] does with the victim [p] that the core map has given up. *)
Definition evict_rest (c : CoreMap.CoreMap) (k : Vm) (p : option positive) : res Vm :=
  let k := set_coreMap c k in
  n <- load c p ;;
  k <- pageOut k (CoreMap.backingStore n) (virtualPage n) ;;
  k <- FreePage k (CoreMap.physicalPage n) ;;
  match p with
  | Some a => Ok (set_coreMap (delete_page (coreMap k) a) k)
  | None => Err WildAccess
  end.

Lemma evict_one_rest k : evict_one k = ('(c, k, p) <- evictCorePage (LRU k) (coreMap k) k ;; evict_rest c k p).
Proof. reflexivity. Qed.

(** The core map [c] without the victim, whose node is still there. *)
Definition given_up (k : Vm) (c : CoreMap.CoreMap) (p : positive) (x : page_data) (l' : list (positive * page_data)) : Prop :=
  CoreMap.rep c l' /\ p ∉ l'.*1 /\ capacity c = capacity (coreMap k) /\ exists n, nodes c !! p = Some (page_of n x).

Lemma evict_rest_run k l c p bs f v l' :
  Pager k l -> (bs, f, v) ∈ l.*2 -> given_up k c p (bs, f, v) l' ->
  exists a sp st t tab h d e k' st',
    space_ok k l.*2 a sp bs st t tab h d /\ 0 <= v /\
    tab !! Z.to_nat v = Some e /\ valid e = true /\ Machine.physicalPage e = f /\ 0 <= f < NumPhysPages /\
    evict_rest c k (Some p) = Ok k' /\
    touched k k' t (<[Z.to_nat v := set_dirty false (set_valid false e)]> tab) bs st' (swapped k e v d) /\
    mainMemory (vm k') = mainMemory (vm k) /\ tlb (vm k') = tlb (vm k) /\
    filename st' = filename st /\ space st' = space st /\
    BitMap.wf (pages st') /\ BitMap.numBits (pages st') = numPages sp /\
    (forall u, 0 <= u < numPages sp ->
       BitMap.bit (pages st') u = if dirty e && (u =? v) then true else BitMap.bit (pages st) u) /\
    CoreMap.rep (coreMap k') l' /\ capacity (coreMap k') = capacity (coreMap k) /\
    BitMap.wf (manager k') /\ BitMap.numBits (manager k') = NumPhysPages /\
    (forall g, 0 <= g < NumPhysPages ->
       BitMap.bit (manager k') g = if g =? f then false else BitMap.bit (manager k) g).
Proof.
  intros Hi Hin (Hc & Hp & Hcap & n & Hn).
  destruct (queued_entry k l bs f v Hi Hin) as (a & sp & st & t & tab & h & d & e & Hso & Hv & He & Hval & Ef & Hf & _).
  unfold evict_rest. cbn [load]. rewrite Hn.
  cbn [bindr page_of CoreMap.backingStore virtualPage CoreMap.physicalPage fst snd].
  set (k1 := set_coreMap c k).
  assert (space_ok k1 l.*2 a sp bs st t tab h d) as Hso1.
  { destruct Hso. by split. }
  destruct (pageOut_ok k1 _ _ sp bs st t tab h d v e Hso1) as
    (k2 & st' & -> & Hto & Hcm & Hman & Hmem & Htlb & P1 & P2 & P3 & P4 & P5);
    [apply Hi|done|done|by rewrite Ef|]. cbn [bindr].
  destruct (inv_manager _ _ Hi) as [Hmw Hmn].
  unfold FreePage. rewrite Hman. change (manager k1) with (manager k).
  destruct (BitMap.Clear_bit (manager k) f Hmw) as (b' & -> & Q1 & Q2 & Q3); [lia|]. cbn [bindr].
  exists a, sp, st, t, tab, h, d, e. eexists _, st'. split; [done|].
  do 5 (split; [done|]). split; [done|]. split; [by destruct Hto; split|].
  do 4 (split; [done|]). do 3 (split; [done|]). cbn [set_coreMap set_manager coreMap manager].
  rewrite Hcm. split; [|split; [done|split; [done|split; [congruence|]]]].
  - by apply delete_page_rep.
  - intros g Hg. apply Q3. lia.
Qed.

Lemma touched_wf k k' t tab tab' bs st' d' :
  Machine.wf (vm k) -> touched k k' t tab' bs st' d' -> tables (vm k) !! t = Some tab ->
  length tab' = length tab -> tlb (vm k') = tlb (vm k) ->
  zlen (mainMemory (vm k')) = MemorySize -> Forall is_byte (mainMemory (vm k')) -> Machine.wf (vm k').
Proof.
  intros Hwf [] Ht Hl Htlb Hm Hb. pose proof (wf_put (vm k) t tab tab' Hwf Ht Hl) as [W1 W2 W3 W4].
  split; [done|done|by rewrite to_registers0|]. rewrite Htlb, to_tables0. destruct to_pt0 as [-> ->].
  exact W4.
Qed.

(** A step that touches one page of one address space keeps the invariant and
    the contents of the other pages, provided it accounts for that page. *)
Record accounted (k k' : Vm) (l l' : list (positive * page_data)) (a : positive) (sp : AddrSpace)
    (bs : positive) (st st' : BackingStore) (t : positive) (tab : list TranslationEntry)
    (h : NoffHeader) (d d' : list Z) (v : Z) (e e' : TranslationEntry) : Prop := {
  ac_space : space_ok k l.*2 a sp bs st t tab h d;
  ac_entry : 0 <= v /\ tab !! Z.to_nat v = Some e;
  ac_touched : touched k k' t (<[Z.to_nat v := e']> tab) bs st' d';
  ac_store : filename st' = filename st /\ space st' = space st;
  ac_bits : BitMap.wf (pages st') /\ BitMap.numBits (pages st') = numPages sp;
  ac_bytes : Forall is_byte d';
  ac_long : forall u, 0 <= u < numPages sp -> BitMap.bit (pages st') u = true -> (u + 1) * PageSize <= zlen d';
  ac_saved : forall u, 0 <= u < numPages sp -> u <> v -> saved k' sp st' h u = saved k sp st h u;
  ac_kept : forall b f u, (b, f, u) ∈ l.*2 -> (b, u) <> (bs, v) -> (b, f, u) ∈ l'.*2 /\ frame k' f = frame k f;
  ac_new : forall b f u, (b, f, u) ∈ l'.*2 ->
    ((b, f, u) ∈ l.*2 /\ (b, u) <> (bs, v)) \/
    ((b, f, u) = (bs, Machine.physicalPage e', v) /\ valid e' = true /\ 0 <= f < NumPhysPages);
  ac_valid : valid e' = true -> (bs, Machine.physicalPage e', v) ∈ l'.*2 /\
    (dirty e' = false -> frame k' (Machine.physicalPage e') = saved k' sp st' h v);
  ac_map : CoreMap.rep (coreMap k') l' /\ capacity (coreMap k') = capacity (coreMap k);
  ac_manager : BitMap.wf (manager k') /\ BitMap.numBits (manager k') = NumPhysPages;
  ac_frames : forall f, 0 <= f < NumPhysPages ->
    (BitMap.bit (manager k') f = true <-> f ∈ (fun x : page_data => x.1.2) <$> l'.*2);
  ac_nodup : NoDup ((fun x : page_data => x.1.2) <$> l'.*2);
  ac_wf : Machine.wf (vm k');
  ac_writable : readOnly e' = false
}.

Lemma accounted_space k k' l l' a sp bs st st' t tab h d d' v e e' :
  accounted k k' l l' a sp bs st st' t tab h d d' v e e' -> Pager k l ->
  space_ok k' l'.*2 a sp bs st' t (<[Z.to_nat v := e']> tab) h d'.
Proof.
  intros [] Hi. destruct ac_touched0, ac_space0, ac_entry0 as [Hv He], ac_store0 as [Hn Hs].
  pose proof (lookup_range _ _ _ Hv He) as Hr.
  assert (filename st <> currentExecutable sp) as Hne by (by apply (inv_exec _ _ Hi a sp bs st)).
  split; try done.
  - by rewrite to_spaces0.
  - rewrite to_stores0. apply lookup_insert_eq.
  - congruence.
  - rewrite to_tables0. apply lookup_insert_eq.
  - by rewrite length_insert.
  - split; [|by destruct so_header0]. intros junk. rewrite (read_header_files (files k)); [apply so_header0|].
    rewrite to_files0, Hn. by apply lookup_insert_ne.
  - rewrite to_files0. apply lookup_insert_eq.
  - intros u x Hu Hx Hval. destruct (decide (u = v)) as [->|Huv].
    + rewrite list_lookup_insert_eq in Hx by lia. injection Hx as <-. by apply ac_valid0.
    + rewrite list_lookup_insert_ne in Hx by lia.
      pose proof (lookup_range _ _ _ Hu Hx) as Hur.
      destruct (so_valid0 u x Hu Hx Hval) as [Hin Hclean].
      destruct (ac_kept0 _ _ _ Hin) as [Hin' Hfr]; [congruence|].
      split; [done|]. intros Hd. rewrite Hfr, Hclean by done. symmetry. apply ac_saved0; [lia|done].
  - by apply Forall_insert.
Qed.

Lemma other_space k k' l l' a sp bs st st' t tab h d d' v e e' a2 :
  accounted k k' l l' a sp bs st st' t tab h d d' v e e' -> Pager k l -> a2 <> a ->
  is_Some (spaces k !! a2) ->
  some_space_ok k' l'.*2 a2 /\ forall u, 0 <= u -> content k' a2 u = content k a2 u.
Proof.
  intros Hac Hi Hne Hsome. destruct (inv_spaces _ _ Hi a2 Hsome) as (sp2 & bs2 & st2 & t2 & tab2 & h2 & d2 & H2).
  destruct Hac. pose proof ac_space0 as H1. pose proof ac_touched0 as Hto. destruct ac_store0 as [Hn Hs].
  assert (bs2 <> bs) as Hbs.
  { intros ->. apply Hne. rewrite <- (so_back _ _ _ _ _ _ _ _ _ _ H1), <- (so_back _ _ _ _ _ _ _ _ _ _ H2).
    pose proof (so_st _ _ _ _ _ _ _ _ _ _ H1). pose proof (so_st _ _ _ _ _ _ _ _ _ _ H2). congruence. }
  assert (t2 <> t) as Ht.
  { intros ->. eapply (inv_apart _ _ Hi a2 a); [apply H2|apply H1|done|].
    by rewrite (so_t _ _ _ _ _ _ _ _ _ _ H1), (so_t _ _ _ _ _ _ _ _ _ _ H2). }
  assert (filename st2 <> filename st') as Hfn.
  { rewrite Hn. by apply (inv_names _ _ Hi bs2 bs); [apply H2|apply H1|]. }
  assert (filename st' <> currentExecutable sp2) as Hex.
  { rewrite Hn. apply (inv_exec _ _ Hi a2 sp2 bs st); [apply H2|apply H1]. }
  assert (forall f u, (bs2, f, u) ∈ l.*2 -> (bs2, f, u) ∈ l'.*2 /\ frame k' f = frame k f) as Hl.
  { intros f u Hin. apply ac_kept0; [done|]. congruence. }
  pose proof (space_ok_other k k' l.*2 l'.*2 t _ bs st' d' a2 sp2 bs2 st2 t2 tab2 h2 d2 Hto H2 Hbs Ht Hfn Hex Hl) as H2'.
  split; [by eexists _, _, _, _, _, _, _|]. intros u Hu.
  apply (content_other k k' l.*2 l'.*2 a2 a2 sp2 bs2 st2 t2 tab2 h2 d2); try done.
  - intros f w Hin. by apply (Hl f w).
  - rewrite (to_files _ _ _ _ _ _ _ Hto). by apply lookup_insert_ne.
  - rewrite (to_files _ _ _ _ _ _ _ Hto). by apply lookup_insert_ne.
Qed.

Lemma accounted_elsewhere k k' l l' a sp bs st st' t tab h d d' v e e' :
  accounted k k' l l' a sp bs st st' t tab h d d' v e e' -> Pager k l ->
  forall a2 u, 0 <= u -> (a2, u) <> (a, v) -> content k' a2 u = content k a2 u.
Proof.
  intros Hac Hi a2 u Hu Hau. destruct (decide (a2 = a)) as [->|Hne].
  - pose proof (accounted_space _ _ _ _ _ _ _ _ _ _ _ _ _ _ _ _ _ Hac Hi) as H'.
    destruct Hac. destruct ac_entry0 as [Hv He]. pose proof (lookup_range _ _ _ Hv He) as Hr.
    destruct (decide (u = v)) as [->|Huv].
    + done.
    + destruct (tab !! Z.to_nat u) as [x|] eqn:Hx.
      * pose proof (lookup_range _ _ _ Hu Hx) as Hur.
        rewrite (space_ok_content _ _ _ _ _ _ _ _ _ _ u x ac_space0 Hx).
        rewrite (space_ok_content _ _ _ _ _ _ _ _ _ _ u x H'); [|by rewrite list_lookup_insert_ne by lia].
        destruct (valid x) eqn:Hval.
        -- destruct (so_valid _ _ _ _ _ _ _ _ _ _ ac_space0 u x Hu Hx Hval) as [Hin _].
           destruct (ac_kept0 _ _ _ Hin) as [_ ->]; [congruence|done].
        -- rewrite ac_saved0; [done| |done].
           pose proof (so_len _ _ _ _ _ _ _ _ _ _ ac_space0). lia.
      * unfold content. rewrite (so_space _ _ _ _ _ _ _ _ _ _ ac_space0), (so_space _ _ _ _ _ _ _ _ _ _ H').
        cbn. rewrite (so_bs _ _ _ _ _ _ _ _ _ _ ac_space0). cbn.
        rewrite (so_st _ _ _ _ _ _ _ _ _ _ ac_space0), (so_st _ _ _ _ _ _ _ _ _ _ H'). cbn.
        rewrite (so_t _ _ _ _ _ _ _ _ _ _ ac_space0). cbn.
        rewrite (so_tab _ _ _ _ _ _ _ _ _ _ ac_space0), (so_tab _ _ _ _ _ _ _ _ _ _ H'). cbn.
        rewrite list_lookup_insert_ne by lia. by rewrite Hx.
  - destruct (spaces k !! a2) as [sp2|] eqn:Ha2.
    + destruct (other_space _ _ _ _ _ _ _ _ _ _ _ _ _ _ _ _ _ a2 Hac Hi Hne) as [_ Hc]; [by rewrite Ha2|].
      by apply Hc.
    + destruct Hac. unfold content. rewrite (to_spaces _ _ _ _ _ _ _ ac_touched0), Ha2. done.
Qed.

Lemma accounted_here k k' l l' a sp bs st st' t tab h d d' v e e' :
  accounted k k' l l' a sp bs st st' t tab h d d' v e e' -> Pager k l ->
  content k a v = Some (if valid e then frame k (Machine.physicalPage e) else saved k sp st h v) /\
  content k' a v = Some (if valid e' then frame k' (Machine.physicalPage e') else saved k' sp st' h v).
Proof.
  intros Hac Hi. pose proof (accounted_space _ _ _ _ _ _ _ _ _ _ _ _ _ _ _ _ _ Hac Hi) as H'.
  destruct Hac. destruct ac_entry0 as [Hv He]. pose proof (lookup_range _ _ _ Hv He) as Hr. split.
  - by apply (space_ok_content _ _ _ _ _ _ _ _ _ _ v e ac_space0 He).
  - apply (space_ok_content _ _ _ _ _ _ _ _ _ _ v e' H'). apply list_lookup_insert_eq. lia.
Qed.

Lemma accounted_content k k' l l' a sp bs st st' t tab h d d' v e e' :
  accounted k k' l l' a sp bs st st' t tab h d d' v e e' -> Pager k l ->
  (if valid e' then frame k' (Machine.physicalPage e') else saved k' sp st' h v) =
  (if valid e then frame k (Machine.physicalPage e) else saved k sp st h v) ->
  forall a2 u, 0 <= u -> content k' a2 u = content k a2 u.
Proof.
  intros Hac Hi Hc a2 u Hu. destruct (decide ((a2, u) = (a, v))) as [[= -> ->]|Hne].
  - destruct (accounted_here _ _ _ _ _ _ _ _ _ _ _ _ _ _ _ _ _ Hac Hi) as [-> ->]. by rewrite Hc.
  - by apply (accounted_elsewhere _ _ _ _ _ _ _ _ _ _ _ _ _ _ _ _ _ Hac Hi).
Qed.

Lemma accounted_inv k k' l l' a sp bs st st' t tab h d d' v e e' :
  accounted k k' l l' a sp bs st st' t tab h d d' v e e' -> Pager k l -> Pager k' l'.
Proof.
  intros Hac Hi.
  pose proof (accounted_space _ _ _ _ _ _ _ _ _ _ _ _ _ _ _ _ _ Hac Hi) as H'.
  pose proof (fun a2 => other_space _ _ _ _ _ _ _ _ _ _ _ _ _ _ _ _ _ a2 Hac Hi) as Hother.
  destruct Hac. pose proof ac_touched0 as Hto. destruct Hto, ac_entry0 as [Hv He], ac_store0 as [Hn Hs].
  pose proof (lookup_range _ _ _ Hv He) as Hr.
  assert (forall b x, stores k' !! b = Some x -> exists y, stores k !! b = Some y /\ filename x = filename y) as Hst.
  { intros b x. rewrite to_stores0. destruct (decide (bs = b)) as [->|].
    - rewrite lookup_insert_eq. intros [= <-]. exists st. split; [apply ac_space0|done].
    - rewrite lookup_insert_ne by done. eauto. }
  split.
  - done.
  - apply ac_map0.
  - destruct ac_map0 as [_ ->]. apply Hi.
  - done.
  - done.
  - done.
  - intros n x. rewrite to_files0. destruct (decide (filename st' = n)) as [->|].
    + rewrite lookup_insert_eq. intros [= <-]. done.
    + rewrite lookup_insert_ne by done. apply Hi.
  - intros b f u Hin. destruct (ac_new0 _ _ _ Hin) as [[Hold Hkey]|(Heq & Hval & Hf)].
    + destruct (inv_pages _ _ Hi b f u Hold) as (Hf & Hu & st2 & sp2 & t2 & tab2 & e2 & I1 & I2 & I3 & I4 & I5 & I6 & I7 & I8).
      split; [done|]. split; [done|].
      destruct (decide (b = bs)) as [->|Hb].
      * assert (st2 = st) as -> by (pose proof (so_st _ _ _ _ _ _ _ _ _ _ ac_space0); congruence).
        exists st', sp, t, (<[Z.to_nat v := e']> tab), e2.
        assert (space st = a) as Hsa by apply ac_space0.
        assert (sp2 = sp) as -> by (pose proof (so_space _ _ _ _ _ _ _ _ _ _ ac_space0); congruence).
        assert (t2 = t) as -> by (pose proof (so_t _ _ _ _ _ _ _ _ _ _ ac_space0); congruence).
        assert (tab2 = tab) as -> by (pose proof (so_tab _ _ _ _ _ _ _ _ _ _ ac_space0); congruence).
        split_and!; try done.
        -- apply H'.
        -- by rewrite to_spaces0, Hs.
        -- apply H'.
        -- rewrite list_lookup_insert_ne; [done|]. intros E. apply Hkey. f_equal. lia.
      * exists st2, sp2, t2, tab2, e2. split_and!; try done.
        -- by rewrite to_stores0, lookup_insert_ne.
        -- by rewrite to_spaces0.
        -- rewrite to_tables0, lookup_insert_ne; [done|]. intros <-.
           assert (space st2 <> a) as Hne.
           { intros E. apply Hb. rewrite E in I2. pose proof (so_space _ _ _ _ _ _ _ _ _ _ ac_space0).
             pose proof (so_bs _ _ _ _ _ _ _ _ _ _ ac_space0). congruence. }
           apply (inv_apart _ _ Hi (space st2) a sp2 sp); [done|apply ac_space0|done|].
           rewrite I4. symmetry. apply ac_space0.
    + injection Heq as -> -> ->. split; [done|]. split; [done|].
      exists st', sp, t, (<[Z.to_nat v := e']> tab), e'. split_and!; try done.
      * apply H'.
      * rewrite (so_back _ _ _ _ _ _ _ _ _ _ H'). apply H'.
      * apply H'.
      * apply H'.
      * apply H'.
      * apply list_lookup_insert_eq. lia.
  - intros a2 Ha2. destruct (decide (a2 = a)) as [->|Hne].
    + by eexists _, _, _, _, _, _, _.
    + apply Hother; [done|]. by rewrite <- to_spaces0.
  - rewrite to_spaces0. apply Hi.
  - intros b b' x x' Hx Hx' Hne. destruct (Hst _ _ Hx) as (y & Hy & ->), (Hst _ _ Hx') as (y' & Hy' & ->).
    by apply (inv_names _ _ Hi b b').
  - intros a2 sp2 b x Hsp Hx. rewrite to_spaces0 in Hsp. destruct (Hst _ _ Hx) as (y & Hy & ->).
    by apply (inv_exec _ _ Hi a2 sp2 b y).
Qed.


Lemma accounted_Inv k k' l l' a sp bs st st' t tab h d d' v e e' :
  accounted k k' l l' a sp bs st st' t tab h d d' v e e' -> Inv k l -> Inv k' l'.
Proof.
  intros Hac [Hi HL]. split; [by apply (accounted_inv _ _ _ _ _ _ _ _ _ _ _ _ _ _ _ _ _ Hac)|].
  by rewrite (to_LRU _ _ _ _ _ _ _ (ac_touched _ _ _ _ _ _ _ _ _ _ _ _ _ _ _ _ _ Hac)).
Qed.

(** No two resident pages are the same page, nor in the same frame. *)
Lemma same_frame k l bs f g v :
  Pager k l -> (bs, f, v) ∈ l.*2 -> (bs, g, v) ∈ l.*2 -> f = g.
Proof.
  intros Hi Hin Hin2.
  destruct (inv_pages _ _ Hi bs f v Hin) as (Hf & Hv & st & sp & t & tab & e & I1 & I2 & I3 & I4 & I5 & I6 & I7 & I8).
  destruct (inv_pages _ _ Hi bs g v Hin2) as (Hg & _ & st2 & sp2 & t2 & tab2 & e2 & J1 & J2 & J3 & J4 & J5 & J6 & J7 & J8).
  congruence.
Qed.

Lemma keys_nodup k l : Pager k l -> NoDup (page_key <$> l).
Proof.
  intros Hi. pose proof (inv_nodup _ _ Hi) as Hnd. apply NoDup_alt. intros i j y Hy Hz.
  rewrite !list_lookup_fmap in *.
  destruct (l !! i) as [[p [[b f] v]]|] eqn:Ei; [|discriminate Hy]. destruct (l !! j) as [[q [[c g] w]]|] eqn:Ej; [|discriminate Hz].
  cbn in Hy, Hz. unfold page_key in *. cbn in Hy, Hz. assert (c = b /\ w = v) as [-> ->] by (split; congruence).
  assert (f = g) as ->.
  { apply (same_frame k l b f g v Hi); apply list_elem_of_lookup; [exists i|exists j]; by rewrite list_lookup_fmap, ?Ei, ?Ej. }
  apply (NoDup_lookup _ i j g Hnd); by rewrite !list_lookup_fmap, ?Ei, ?Ej.
Qed.

(** What an eviction leaves as it is. *)
Definition unmoved (k k' : Vm) : Prop :=
  spaces k' = spaces k /\ current k' = current k /\ registers (vm k') = registers (vm k) /\
  Machine.pageTable (vm k') = Machine.pageTable (vm k) /\ pageTableSize (vm k') = pageTableSize (vm k) /\ LRU k' = LRU k.

Lemma evict_rest_ok k pre post c p bs f v :
  Pager k (pre ++ (p, (bs, f, v)) :: post) -> given_up k c p (bs, f, v) (pre ++ post) ->
  exists k', evict_rest c k (Some p) = Ok k' /\ Pager k' (pre ++ post) /\
    (forall a u, 0 <= u -> content k' a u = content k a u) /\ unmoved k k'.
Proof.
  set (l := pre ++ (p, (bs, f, v)) :: post). intros Hi Hc.
  assert (forall x, x ∈ l.*2 <-> x = (bs, f, v) \/ x ∈ (pre ++ post).*2) as Hl.
  { intros x. unfold l. rewrite !fmap_app. cbn. set_solver. }
  destruct (evict_rest_run k l c p bs f v (pre ++ post) Hi) as
    (a & sp & st & t & tab & h & d & e & k' & st' & Hso & Hv & He & Hval & <- & Hf & -> & Hto &
     Hmem & Htlb & N1 & N2 & B1 & B2 & B3 & R1 & R2 & M1 & M2 & M3); [by apply Hl; left|done|].
  set (f := Machine.physicalPage e) in *.
  pose proof (inv_nodup _ _ Hi) as Hnd. assert (frames_of l ≡ₚ f :: frames_of (pre ++ post)) as Hperm.
  { unfold l. rewrite !fmap_app. cbn. symmetry. apply Permutation_middle. }
  rewrite Hperm in Hnd. apply NoDup_cons in Hnd as [Hf1 Hnd].
  assert (forall g, (bs, g, v) ∉ (pre ++ post).*2) as Hnot.
  { intros g Hin. assert (f = g) as <- by (apply (same_frame k l bs f g v Hi); apply Hl; auto).
    apply Hf1. by apply (list_elem_of_fmap_2 (fun x : page_data => x.1.2) _ _ Hin). }
  assert (filename st <> currentExecutable sp) as Hexe
    by (apply (inv_exec _ _ Hi a sp bs st); apply Hso).
  destruct (saved_after k k' _ a sp bs st t tab h d v e _ st' Hso (inv_machine _ _ Hi) Hv He Hval Hf Hto N1 Hexe B3)
    as (S1 & S2 & S3).
  assert (forall g, frame k' g = frame k g) as Hframe by (intros g; unfold frame; by rewrite Hmem).
  assert (accounted k k' l (pre ++ post) a sp bs st st' t tab h d (swapped k e v d) v e
            (set_dirty false (set_valid false e))) as Hac.
  { split; try done.
    - unfold swapped. destruct (frame_in k f (inv_machine _ _ Hi) Hf) as (_ & _ & Hfb).
      pose proof (inv_bytes _ _ Hi _ _ (so_file _ _ _ _ _ _ _ _ _ _ Hso)) as Hdb.
      destruct (dirty e); [by apply overwrite_bytes|done].
    - intros b g u Hin Hkey. split; [|done]. apply Hl in Hin as [Heq|]; [|done]. simplify_eq.
    - intros b g u Hin. left. split; [by apply Hl; right|]. intros [= -> ->]. by apply (Hnot g).
    - intros g Hg. rewrite M3 by done. destruct (Z.eqb_spec g f) as [->|Hne].
      + split; [done|]. intros Hin. done.
      + rewrite (inv_frames _ _ Hi g Hg), Hperm, elem_of_cons. naive_solver.
    - apply (touched_wf k k' t tab _ _ _ _ (inv_machine _ _ Hi) Hto); [apply Hso|by rewrite length_insert|done| |];
        rewrite Hmem; apply (inv_machine _ _ Hi).
    - apply (Forall_lookup_1 _ _ _ _ (so_writable _ _ _ _ _ _ _ _ _ _ Hso) He). }
  exists k'. split; [done|]. split; [by apply (accounted_inv _ _ _ _ _ _ _ _ _ _ _ _ _ _ _ _ _ Hac)|].
  split; [apply (accounted_content _ _ _ _ _ _ _ _ _ _ _ _ _ _ _ _ _ Hac Hi); by rewrite Hval|].
  destruct Hto. destruct to_pt0. done.
Qed.

(** *** Second chance

    Clearing the use bit of a queued page changes nothing that the pager promises. *)
Definition without_use (k : Vm) (t : positive) (tab : list TranslationEntry) (v : Z) (e : TranslationEntry) : Vm :=
  set_vm (set_tables (vm k) (<[t := <[Z.to_nat v := set_use false e]> tab]> (tables (vm k)))) k.

Lemma without_use_accounted k l a sp bs st t tab h d v e :
  Pager k l -> space_ok k l.*2 a sp bs st t tab h d -> 0 <= v -> tab !! Z.to_nat v = Some e -> valid e = true ->
  accounted k (without_use k t tab v e) l l a sp bs st st t tab h d d v e (set_use false e).
Proof.
  intros Hi Hso Hv He Hval. pose proof (so_valid _ _ _ _ _ _ _ _ _ _ Hso v e Hv He Hval) as [Hin Hclean].
  pose proof (lookup_range _ _ _ Hv He) as Hr.
  split; try done; try apply Hso; try apply Hi.
  - split; try done; cbn; by rewrite insert_id by apply Hso.
  - apply (inv_bytes _ _ Hi (filename st)). apply Hso.
  - intros b f u Hin'. destruct (decide ((b, u) = (bs, v))) as [[= -> ->]|Hd]; [right|by left].
    rewrite (same_frame k l bs f (Machine.physicalPage e) v Hi Hin' Hin). split; [done|]. split; [done|].
    by apply (inv_pages _ _ Hi bs _ v).
  - split; [apply (inv_map _ _ Hi)|done].
  - apply (wf_put _ t tab); [apply Hi|apply Hso|by rewrite length_insert].
  - exact (Forall_lookup_1 _ _ _ _ (so_writable _ _ _ _ _ _ _ _ _ _ Hso) He).
Qed.

(** The states the second-chance loop goes through, beside the use bits [m] alone. *)
Record chance (k0 : Vm) (l : list (positive * page_data)) (m : gmap (positive * Z) bool) (k : Vm) : Prop := {
  ch_pager : Pager k l;
  ch_content : forall a u, 0 <= u -> content k a u = content k0 a u;
  ch_map : coreMap k = coreMap k0;
  ch_unmoved : unmoved k0 k;
  ch_bits : forall b v u, m !! (b, v) = Some u -> getUse k b v = Ok u /\ exists f, (b, f, v) ∈ l.*2
}.

(** The use bits of the queued pages. *)
Definition use_of (k : Vm) (x : positive * page_data) : bool :=
  match getUse k x.2.1.1 x.2.2 with Ok u => u | Err _ => false end.
Definition use_bits (k : Vm) (l : list (positive * page_data)) : gmap (positive * Z) bool :=
  list_to_map ((fun x => (page_key x, use_of k x)) <$> l).

Lemma use_bits_queued k l x : Pager k l -> x ∈ l -> use_bits k l !! page_key x = Some (use_of k x).
Proof.
  intros Hi Hx. apply elem_of_list_to_map.
  - rewrite <- list_fmap_compose. exact (keys_nodup k l Hi).
  - by apply (list_elem_of_fmap_2 (fun x => (page_key x, use_of k x))).
Qed.

Lemma chance_start k l : Pager k l -> chance k l (use_bits k l) k.
Proof.
  intros Hi. split; try done. intros b v u Hm. apply elem_of_list_to_map_2 in Hm.
  apply list_elem_of_fmap in Hm as ([p [[b' f] v']] & [= -> -> ->] & Hin).
  assert ((b', f, v') ∈ l.*2) as Hin2 by by apply (list_elem_of_fmap_2 snd _ _ Hin).
  split; [|by exists f]. unfold use_of. cbn [fst snd].
  destruct (queued_entry k l b' f v' Hi Hin2) as (a & sp & st & t & tab & h & d & e & _ & _ & _ & _ & _ & _ & ->). done.
Qed.

(** Clearing the bit of one queued page leaves those of the others. *)
Lemma getUse_other k l a sp bs st t tab h d v e b f u :
  Pager k l -> space_ok k l.*2 a sp bs st t tab h d -> 0 <= v -> tab !! Z.to_nat v = Some e ->
  (b, f, u) ∈ l.*2 -> (b, u) <> (bs, v) -> getUse (without_use k t tab v e) b u = getUse k b u.
Proof.
  intros Hi Hso Hv He Hin Hne. pose proof (lookup_range _ _ _ Hv He) as Hr.
  destruct (queued_entry k l b f u Hi Hin) as (a2 & sp2 & st2 & t2 & tab2 & h2 & d2 & e2 & Hso2 & Hu & He2 & _ & _ & _ & E).
  rewrite E. cbn. unfold the_store, the_space. cbn.
  rewrite (so_st _ _ _ _ _ _ _ _ _ _ Hso2). cbn. rewrite (so_back _ _ _ _ _ _ _ _ _ _ Hso2), (so_space _ _ _ _ _ _ _ _ _ _ Hso2).
  cbn. rewrite (so_t _ _ _ _ _ _ _ _ _ _ Hso2).
  assert (exists tab3, tables (vm (without_use k t tab v e)) !! t2 = Some tab3 /\ tab3 !! Z.to_nat u = Some e2) as (tab3 & H1 & H2).
  { cbn. destruct (decide (t2 = t)) as [->|Ht].
    - assert (a2 = a) as ->.
      { destruct (decide (a2 = a)) as [|Ha]; [done|]. exfalso.
        apply (inv_apart _ _ Hi a2 a sp2 sp); [apply Hso2|apply Hso|done|].
        by rewrite (so_t _ _ _ _ _ _ _ _ _ _ Hso), (so_t _ _ _ _ _ _ _ _ _ _ Hso2). }
      assert (sp2 = sp) as -> by (pose proof (so_space _ _ _ _ _ _ _ _ _ _ Hso); pose proof (so_space _ _ _ _ _ _ _ _ _ _ Hso2); congruence).
      assert (b = bs) as -> by (pose proof (so_bs _ _ _ _ _ _ _ _ _ _ Hso); pose proof (so_bs _ _ _ _ _ _ _ _ _ _ Hso2); congruence).
      assert (tab2 = tab) as -> by (pose proof (so_tab _ _ _ _ _ _ _ _ _ _ Hso); pose proof (so_tab _ _ _ _ _ _ _ _ _ _ Hso2); congruence).
      exists (<[Z.to_nat v := set_use false e]> tab). rewrite lookup_insert_eq. split; [done|].
      rewrite list_lookup_insert_ne; [done|]. intros Ev. apply Hne. f_equal. lia.
    - exists tab2. rewrite lookup_insert_ne by done. split; [apply Hso2|done]. }
  by rewrite (get_entry_ok _ t2 tab3 u e2 H1 Hu H2).
Qed.

Lemma chance_clear k0 l m k b v m' :
  chance k0 l m k -> getUse m b v = Ok true -> clearUse m b v = Ok m' ->
  exists k', clearUse k b v = Ok k' /\ chance k0 l m' k'.
Proof.
  intros [Hi Hc Hm Hu Hb] Hg [= <-]. cbn in Hg. destruct (m !! (b, v)) as [u|] eqn:Em; [|done].
  destruct (Hb b v u Em) as (_ & f & Hin).
  destruct (queued_entry k l b f v Hi Hin) as (a & sp & st & t & tab & h & d & e & Hso & Hv & He & Hval & Ef & Hf & _).
  exists (without_use k t tab v e). split.
  { cbn. unfold the_store, the_space. rewrite (so_st _ _ _ _ _ _ _ _ _ _ Hso). cbn [bindr].
    rewrite (so_back _ _ _ _ _ _ _ _ _ _ Hso), (so_space _ _ _ _ _ _ _ _ _ _ Hso). cbn [bindr].
    rewrite (so_t _ _ _ _ _ _ _ _ _ _ Hso), (get_entry_ok k t tab v e) by (done || apply Hso). cbn [bindr].
    pose proof (lookup_range _ _ _ Hv He). by rewrite (put_entry_ok _ t tab) by (apply Hso || done || lia). }
  pose proof (without_use_accounted k l a sp b st t tab h d v e Hi Hso Hv He Hval) as Hac.
  pose proof (accounted_inv _ _ _ _ _ _ _ _ _ _ _ _ _ _ _ _ _ Hac Hi) as Hi'. split; try done.
  - intros a2 u2 Hu2. rewrite <- Hc by done.
    apply (accounted_content _ _ _ _ _ _ _ _ _ _ _ _ _ _ _ _ _ Hac Hi); [|done]. cbn [valid set_use]. by rewrite Hval.
  - intros b2 v2 u2. destruct (decide ((b, v) = (b2, v2))) as [[= <- <-]|Hne].
    + rewrite lookup_insert_eq. intros [= <-]. split; [|by exists f].
      destruct (queued_entry _ l b f v Hi' Hin) as (a2 & sp2 & st2 & t2 & tab2 & h2 & d2 & e2 & Hso2 & _ & He2 & _ & _ & _ & ->).
      pose proof (accounted_space _ _ _ _ _ _ _ _ _ _ _ _ _ _ _ _ _ Hac Hi) as Hso'.
      assert (st2 = st) as -> by (pose proof (so_st _ _ _ _ _ _ _ _ _ _ Hso'); pose proof (so_st _ _ _ _ _ _ _ _ _ _ Hso2); congruence).
      assert (a2 = a) as -> by (rewrite <- (so_back _ _ _ _ _ _ _ _ _ _ Hso'); symmetry; apply Hso2).
      assert (sp2 = sp) as -> by (pose proof (so_space _ _ _ _ _ _ _ _ _ _ Hso'); pose proof (so_space _ _ _ _ _ _ _ _ _ _ Hso2); congruence).
      assert (t2 = t) as -> by (pose proof (so_t _ _ _ _ _ _ _ _ _ _ Hso'); pose proof (so_t _ _ _ _ _ _ _ _ _ _ Hso2); congruence).
      pose proof (so_tab _ _ _ _ _ _ _ _ _ _ Hso') as E1. pose proof (so_tab _ _ _ _ _ _ _ _ _ _ Hso2) as E2.
      assert (tab2 = <[Z.to_nat v := set_use false e]> tab) as -> by congruence.
      rewrite list_lookup_insert_eq in He2 by (pose proof (lookup_range _ _ _ Hv He); lia). by injection He2 as <-.
    + rewrite lookup_insert_ne by done. intros Em2. destruct (Hb b2 v2 u2 Em2) as (E2 & f2 & Hin2).
      split; [|by exists f2]. rewrite <- E2. apply (getUse_other k l a sp b st t tab h d v e b2 f2); congruence || done.
Qed.

(** The policy spares the last page of the queue: it has been used, or an earlier one has not. *)
Definition spares_last (k : Vm) (l : list (positive * page_data)) : Prop :=
  forall l0 x, l = l0 ++ [x] -> use_of k x = true \/ exists y, y ∈ l0 /\ use_of k y = false.

Definition victim_ok (k : Vm) (l : list (positive * page_data)) : Prop :=
  zlen l = NumPhysPages -> LRU k = true -> spares_last k l.

Lemma victim_fifo k l : LRU k = false -> victim_ok k l.
Proof. intros HL _ HL'. congruence. Qed.

(** The victim of either policy, and the state when the core map has given it up. *)
Lemma evictCorePage_ok k l :
  Pager k l -> zlen l = NumPhysPages -> (LRU k = true -> spares_last k l) ->
  exists c k1 p pre x post, evictCorePage (LRU k) (coreMap k) k = Ok (c, k1, Some p) /\
    l = pre ++ (p, x) :: post /\ given_up k1 c p x (pre ++ post) /\
    Pager k1 l /\ (forall a u, 0 <= u -> content k1 a u = content k a u) /\ unmoved k k1.
Proof.
  intros Hi Hfull Hlast. pose proof (inv_map _ _ Hi) as Hr.
  assert (forall pre p x post, l = pre ++ (p, x) :: post -> p ∉ (pre ++ post).*1 /\
    exists n, nodes (coreMap k) !! p = Some (page_of n x)) as Hout.
  { intros pre p x post ->. split.
    - pose proof (rep_nodup _ _ Hr) as Hnd. rewrite fmap_app in *. cbn in Hnd.
      rewrite <- Permutation_middle in Hnd. by apply NoDup_cons in Hnd as [].
    - eexists. apply (linked_lookup _ _ _ (length pre) p x (rep_linked _ _ Hr)). by apply list_lookup_middle. }
  destruct (LRU k) eqn:HL.
  - assert (forall x, x ∈ l -> bit_of (use_bits k l) x = Some (use_of k x)) as Hbit.
    { intros x Hx. exact (use_bits_queued k l x Hi Hx). }
    destruct (evict_lru_rep (coreMap k) (use_bits k l) l Hr) as (c & m' & p & x & pre & post & E & El & Hn & Hc & Hcap).
    { unfold NumPhysPages in Hfull. lia. }
    { by apply (keys_nodup k). }
    { apply Forall_forall. intros x Hx. rewrite (Hbit x Hx). by eexists. }
    { intros l0 x El. destruct (Hlast eq_refl l0 x El) as [Hx|(y & Hy & Hx)]; [left|right; exists y; split; [done|]];
        rewrite <- Hx; apply Hbit; rewrite El; set_solver. }
    assert (forall m k2 b v u, chance k l m k2 -> getUse m b v = Ok u -> getUse k2 b v = Ok u) as Hget.
    { intros m k2 b v u Hch Hg. cbn in Hg. destruct (m !! (b, v)) as [u'|] eqn:Em; [|done]. injection Hg as <-.
      by apply (ch_bits _ _ _ _ Hch). }
    assert (forall m k2 b v m2, chance k l m k2 -> getUse m b v = Ok true -> clearUse m b v = Ok m2 ->
      exists k3, clearUse k2 b v = Ok k3 /\ chance k l m2 k3) as Hclear.
    { intros m k2 b v m2. apply chance_clear. }
    destruct (evictCorePage_sim (chance k l) Hget Hclear true _ _ k _ _ _ (chance_start k l Hi) E) as (k1 & E1 & [Hi1 Hc1 Hm1 Hu1 _]).
    exists c, k1, p, pre, x, post. destruct (Hout pre p x post El) as [Hp [n Hnode]]. split_and!; try done.
    split; [done|]. split; [done|]. split; [by rewrite Hm1|]. exists n. by rewrite Hn.
  - destruct l as [|[p x] l]; [done|]. destruct (evict_fifo (coreMap k) k p x l Hr) as (c & Ec & Hc & Hcap & Hn).
    exists c, k, p, [], x, l. destruct (Hout [] p x l eq_refl) as [Hp [n Hnode]]. split_and!; try done.
    split; [done|]. split; [done|]. split; [done|]. exists n. by rewrite Hn.
Qed.

Lemma unmoved_trans k1 k2 k3 : unmoved k1 k2 -> unmoved k2 k3 -> unmoved k1 k3.
Proof. unfold unmoved. intuition congruence. Qed.

Lemma evict_one_ok k l :
  Pager k l -> zlen l = NumPhysPages -> (LRU k = true -> spares_last k l) ->
  exists k' pre x post, l = pre ++ x :: post /\ evict_one k = Ok k' /\ Pager k' (pre ++ post) /\
    (forall a u, 0 <= u -> content k' a u = content k a u) /\ unmoved k k'.
Proof.
  intros Hi Hfull Hlast.
  destruct (evictCorePage_ok k l Hi Hfull Hlast) as (c & k1 & p & pre & [[bs f] v] & post & E & -> & Hg & Hi1 & Hc1 & Hu1).
  destruct (evict_rest_ok k1 pre post c p bs f v Hi1 Hg) as (k' & E' & Hi' & Hc' & Hu').
  exists k', pre, (p, (bs, f, v)), post. rewrite evict_one_rest, E. cbn [bindr]. split; [done|]. split; [done|]. split; [done|].
  split; [|by eapply unmoved_trans]. intros a u Hu. by rewrite Hc', Hc1.
Qed.
End Evict.

(** ** Loading a page *)

Section Alloc.
Context {host : Host}.

(** While the core map is not full a frame is free. *)
Lemma free_frame k l :
  Pager k l -> zlen l < NumPhysPages ->
  exists g, 0 <= g < NumPhysPages /\ BitMap.bit (manager k) g = false.
Proof.
  intros Hi Hl.
  destruct (decide (Forall (fun g => g ∈ frames_of l) (seqZ 0 NumPhysPages))) as [Hall|Hnot].
  - exfalso. assert (seqZ 0 NumPhysPages ⊆+ frames_of l) as Hsub.
    { apply NoDup_submseteq; [apply NoDup_seqZ|]. by rewrite Forall_forall in Hall. }
    apply submseteq_length in Hsub. rewrite length_seqZ, !length_fmap in Hsub. lia.
  - apply not_Forall_Exists in Hnot; [|intros g; apply _].
    apply Exists_exists in Hnot as (g & Hg%elem_of_seqZ & Hng). exists g. split; [lia|].
    apply not_true_is_false. intros Hb. apply Hng. by apply (inv_frames _ _ Hi g ltac:(lia)).
Qed.

(** The entry after loading. *)
Definition loaded (f : Z) (e : TranslationEntry) : TranslationEntry :=
  set_valid true (set_physicalPage f e).

Definition same_but_table (k k' : Vm) (t : positive) (tab' : list TranslationEntry) : Prop :=
  registers (vm k') = registers (vm k) /\ tables (vm k') = <[t := tab']> (tables (vm k)) /\
  Machine.pageTable (vm k') = Machine.pageTable (vm k) /\
  pageTableSize (vm k') = pageTableSize (vm k) /\ tlb (vm k') = tlb (vm k) /\
  spaces k' = spaces k /\ stores k' = stores k /\ files k' = files k /\
  current k' = current k /\ LRU k' = LRU k /\ manager k' = manager k /\ coreMap k' = coreMap k.

(** Filling the frame of page [v], whose entry already names it. *)
Lemma fill_ok k l a sp bs st t tab h d v e f tab0 :
  space_ok k l a sp bs st t tab0 h d -> Machine.wf (vm k) ->
  forall k1, Machine.wf (vm k1) -> stores k1 = stores k -> spaces k1 = spaces k -> files k1 = files k ->
  (forall n x, files k !! n = Some x -> Forall is_byte x) ->
  tables (vm k1) !! t = Some tab -> length tab = length tab0 ->
  0 <= v -> tab !! Z.to_nat v = Some e -> Machine.physicalPage e = f -> 0 <= f < NumPhysPages ->
  frame k1 f = replicate (Z.to_nat PageSize) 0 ->
  exists k2 tab2,
    (saved <- contains k1 bs v ;;
     if negb saved then
       '(k, flag) <- for_range 0 PageSize (load_byte h sp v) (k1, 0) ;;
       Ok (if flag =? 1 then count_in k else k)
     else k <- pageIn k1 bs v ;; Ok (count_in k)) = Ok k2 /\
    (tab2 = tab \/ tab2 = <[Z.to_nat v := set_valid true e]> tab) /\
    same_but_table k1 k2 t tab2 /\ Machine.wf (vm k2) /\
    frame k2 f = saved k sp st h v /\
    (forall g, 0 <= g -> g <> f -> frame k2 g = frame k1 g).
Proof.
  intros Hso Hwf k1 Hwf1 Hst Hsp Hfs Hby Ht Hlen Hv He Hf Hfr Hz.
  destruct Hso as [H1 H2 H3 H4 H5 H6 H7 H8 [H9 H9'] [H10 H10'] H11 H12 H13].
  pose proof (lookup_range _ _ _ Hv He) as Hr.
  unfold contains, the_store. rewrite Hst, H3. cbn [bindr].
  rewrite BitMap.Test_bits by (done || lia). cbn [bindr]. unfold saved.
  destruct (BitMap.bit (pages st) v) eqn:Hb; cbn [negb].
  - unfold pageIn, the_store, the_space. rewrite Hst, H3. cbn [bindr]. rewrite H4, Hsp, H1. cbn [bindr].
    rewrite H5, (get_entry_ok k1 t tab v e) by done. cbn [bindr].
    unfold FileSystem_Open. rewrite Hfs, H11. cbn [bindr opened]. unfold ReadAt.
    rewrite ASSERT_true by (unfold PageSize, SectorSize; lia). cbn [bindr]. rewrite H11. cbn [bindr].
    fold (bytes_of d (v * PageSize) PageSize). rewrite Hf.
    pose proof (H12 v ltac:(lia) Hb) as Hlong.
    assert (zlen (bytes_of d (v * PageSize) PageSize) = PageSize) as Hl
      by (apply length_bytes_of; unfold PageSize, SectorSize in *; lia).
    assert (Forall is_byte (bytes_of d (v * PageSize) PageSize)) as Hbs
      by (unfold bytes_of; apply Forall_take, Forall_drop; by apply (Hby (filename st))).
    destruct (store_frame k1 f (bytes_of d (v * PageSize) PageSize) Hwf1 Hfr Hl Hbs) as (m & -> & Hw & Hm & Hg).
    cbn [bindr]. rewrite (put_entry_ok _ t tab) by done. cbn [bindr].
    eexists _, _. split; [done|]. split; [by right|]. split; [by split_and!|]. split; [|by split].
    apply (wf_put _ t tab _ Hw); [done|by rewrite length_insert].
  - assert (exists x, files k !! currentExecutable sp = Some x /\ Forall is_byte x) as (x & Hx & Hxb).
    { specialize (H10 []). unfold read_header, ReadAt in H10. cbn in H10.
      destruct (files k !! currentExecutable sp) as [x|] eqn:Hx; [|done]. exists x. split; [done|].
      by apply (Hby (currentExecutable sp)). }
    destruct (load_loop k1 h sp t tab v e f x) as (m & flag & E & Hw & Hm & Hg); try done.
    + by rewrite Hfs.
    + unfold PageSize, SectorSize in *. lia.
    + rewrite E. cbn [bindr]. eexists _, tab. split; [done|]. split; [by left|].
      assert (tables (vm k1) = <[t := tab]> (tables (vm k1))) as Hid by (symmetry; by apply insert_id).
      destruct (flag =? 1); (split; [by split_and!|]); (split; [done|]); (split; [|done]);
        (unfold frame; cbn; rewrite Hm; by rewrite (exec_page_files (files k)) by (by rewrite Hfs)).
Qed.


Lemma allocVirtualPage_run k l a sp bs st t tab h d v e va junk :
  Pager k l -> zlen l < NumPhysPages -> space_ok k l.*2 a sp bs st t tab h d ->
  u32 va / PageSize = v -> 0 <= v -> tab !! Z.to_nat v = Some e ->
  exists k' p f, allocVirtualPage k a va junk = Ok (k', 0) /\
    0 <= f < NumPhysPages /\ BitMap.bit (manager k) f = false /\
    touched k k' t (<[Z.to_nat v := loaded f e]> tab) bs st d /\
    frame k' f = saved k sp st h v /\
    (forall g, 0 <= g -> g <> f -> frame k' g = frame k g) /\
    Machine.wf (vm k') /\
    CoreMap.rep (coreMap k') (l ++ [(p, (bs, f, v))]) /\ capacity (coreMap k') = capacity (coreMap k) /\
    BitMap.wf (manager k') /\ BitMap.numBits (manager k') = NumPhysPages /\
    (forall g, 0 <= g < NumPhysPages ->
       BitMap.bit (manager k') g = if g =? f then true else BitMap.bit (manager k) g).
Proof.
  intros Hi Hl Hso Hva Hv He. pose proof Hso as [H1 H2 H3 H4 H5 H6 H7 H8 [H9 H9'] [H10 H10'] H11 H12 H13].
  pose proof (lookup_range _ _ _ Hv He) as Hr. destruct (inv_manager _ _ Hi) as [Mw Mn].
  destruct (free_frame k l Hi Hl) as (g & Hg & Hgf).
  unfold allocVirtualPage, the_space. rewrite H1. cbn [bindr]. rewrite H10. cbn [bindr]. rewrite Hva.
  unfold AllocPage.
  destruct (BitMap.Find_bit (manager k) g Mw) as (b' & f & -> & Hf & Hfb & B1 & B2 & B3); [lia|done|].
  rewrite Mn in Hf, B3. cbn [bindr]. rewrite H2. cbn [bindr].
  destruct (add_new_rep (coreMap k) l (bs, f, v) (inv_map _ _ Hi)) as
    (c & r & Eadd & Hcap & [(_ & -> & p & Hp & Hc)|(Hfull & _)]);
    [|rewrite (inv_cap _ _ Hi) in Hfull; lia].
  change (coreMap (set_manager b' k)) with (coreMap k).
  change (CorePage_new bs f v) with (page_of None (bs, f, v)).
  unfold add_new in Eadd. destruct (new_page (coreMap k) (page_of None (bs, f, v))) as [c0 p0].
  rewrite Eadd. cbn [bindr].
  set (k0 := set_coreMap c (set_manager b' k)).
  unfold set_entry_page. rewrite H5. rewrite (get_entry_ok k0 t tab v e) by done. cbn [bindr].
  rewrite (put_entry_ok k0 t tab) by done. cbn [bindr].
  set (tab1 := <[Z.to_nat v := set_physicalPage f e]> tab). set (k1 := set_vm _ k0).
  assert (Machine.wf (vm k1)) as W1
    by (apply (wf_put (vm k0) t tab tab1); [apply Hi|done|unfold tab1; by rewrite length_insert]).
  destruct (store_frame k1 f (replicate (Z.to_nat PageSize) 0) W1 Hf) as (m & -> & W2 & Z1 & Z2);
    [done|apply Forall_replicate; unfold is_byte; lia|]. cbn [bindr].
  set (k2 := set_vm (set_mainMemory (vm k1) m) k1).
  assert (tab1 !! Z.to_nat v = Some (set_physicalPage f e)) as He1 by (apply list_lookup_insert_eq; lia).
  assert (tables (vm k2) !! t = Some tab1) as Ht1 by apply lookup_insert_eq.
  destruct (fill_ok k _ a sp bs st t tab1 h d v (set_physicalPage f e) f tab Hso (inv_machine _ _ Hi) k2 W2)
    as (k3 & tab2 & E & Htab2 & Hsame & W3 & F1 & F2); try done.
  { apply Hi. }
  { unfold tab1. by rewrite length_insert. }
  revert E. unfold contains, the_store. change (stores k2) with (stores k). rewrite H3. cbn [bindr].
  rewrite BitMap.Test_bits by (done || lia). cbn [bindr]. intros E. rewrite E. cbn [bindr]. clear E.
  destruct Hsame as (S1 & S2 & S3 & S4 & S5 & S6 & S7 & S8 & S9 & S10 & S11 & S12).
  assert (exists e2, tab2 !! Z.to_nat v = Some e2 /\ set_valid true e2 = loaded f e /\
            <[Z.to_nat v := loaded f e]> tab2 = <[Z.to_nat v := loaded f e]> tab /\
            length tab2 = length tab) as (e2 & He2 & Hv2 & Hins & Hlen2).
  { destruct Htab2 as [->| ->]; unfold tab1; eexists;
      rewrite ?list_insert_insert_eq, ?length_insert; (split; [apply list_lookup_insert_eq|done]);
      rewrite ?length_insert; lia. }
  assert (tables (vm k3) !! t = Some tab2) as Ht3 by (rewrite S2; apply lookup_insert_eq).
  rewrite (get_entry_ok k3 t tab2 v e2) by done. cbn [bindr].
  rewrite (put_entry_ok k3 t tab2) by (done || lia). cbn [bindr]. rewrite Hv2, Hins.
  eexists _, p, f. split; [done|]. split; [done|]. split; [done|]. split; [|split; [|split; [|split]]].
  - split; cbn; try done.
    + rewrite S2. cbn. by rewrite !insert_insert_eq.
    + by rewrite S7, insert_id.
    + by rewrite S8, insert_id.
  - exact F1.
  - intros g' Hg' Hne. unfold frame. cbn. fold (frame k3 g'). rewrite F2 by done. exact (Z2 g' Hg' Hne).
  - apply (wf_put _ t tab2 _ W3 Ht3). by rewrite length_insert.
  - cbn. rewrite S11, S12. split; [done|]. split; [done|]. split; [done|]. split; [exact (eq_trans B2 Mn)|].
    intros g' Hg'. by apply B3.
Qed.


(** An entry is valid exactly when its page is queued. *)
Lemma invalid_not_queued k l a sp bs st t tab h d v e :
  Pager k l -> space_ok k l.*2 a sp bs st t tab h d -> tab !! Z.to_nat v = Some e -> valid e = false ->
  forall g, (bs, g, v) ∉ l.*2.
Proof.
  intros Hi Hso He Hval g Hin.
  destruct (inv_pages _ _ Hi bs g v Hin) as (_ & _ & st2 & sp2 & t2 & tab2 & e2 & I1 & I2 & I3 & I4 & I5 & I6 & I7 & _).
  assert (st2 = st) as -> by (pose proof (so_st _ _ _ _ _ _ _ _ _ _ Hso); congruence).
  rewrite (so_back _ _ _ _ _ _ _ _ _ _ Hso) in I2.
  assert (sp2 = sp) as -> by (pose proof (so_space _ _ _ _ _ _ _ _ _ _ Hso); congruence).
  assert (t2 = t) as -> by (pose proof (so_t _ _ _ _ _ _ _ _ _ _ Hso); congruence).
  assert (tab2 = tab) as -> by (pose proof (so_tab _ _ _ _ _ _ _ _ _ _ Hso); congruence).
  congruence.
Qed.

Lemma allocVirtualPage_ok k l a sp bs st t tab h d v e va junk :
  Pager k l -> zlen l < NumPhysPages -> space_ok k l.*2 a sp bs st t tab h d ->
  u32 va / PageSize = v -> 0 <= v -> tab !! Z.to_nat v = Some e -> valid e = false ->
  exists k' p f, allocVirtualPage k a va junk = Ok (k', 0) /\ Pager k' (l ++ [(p, (bs, f, v))]) /\
    (forall a u, 0 <= u -> content k' a u = content k a u) /\
    touched k k' t (<[Z.to_nat v := loaded f e]> tab) bs st d /\ 0 <= f < NumPhysPages.
Proof.
  intros Hi Hl Hso Hva Hv He Hval.
  destruct (allocVirtualPage_run k l a sp bs st t tab h d v e va junk Hi Hl Hso Hva Hv He) as
    (k' & p & f & -> & Hf & Hfb & Hto & F1 & F2 & W & R1 & R2 & M1 & M2 & M3).
  pose proof (invalid_not_queued k l a sp bs st t tab h d v e Hi Hso He Hval) as Hnot.
  assert (forall n, files k' !! n = files k !! n) as Hfiles.
  { intros n. rewrite (to_files _ _ _ _ _ _ _ Hto). rewrite insert_id; [done|apply Hso]. }
  assert (forall u, saved k' sp st h u = saved k sp st h u) as Hsaved
    by (intros u; apply saved_same; apply Hfiles).
  assert (f ∉ frames_of l) as Hfree.
  { intros Hin. apply (inv_frames _ _ Hi f Hf) in Hin. congruence. }
  assert (forall b g u, (b, g, u) ∈ l.*2 -> g <> f /\ 0 <= g < NumPhysPages) as Hother.
  { intros b g u Hin. split; [|by apply (inv_pages _ _ Hi b g u)]. intros ->. apply Hfree.
    change f with ((fun x : page_data => x.1.2) (b, f, u)).
    by apply (list_elem_of_fmap_2 (fun x : page_data => x.1.2)). }
  assert (accounted k k' l (l ++ [(p, (bs, f, v))]) a sp bs st st t tab h d d v e (loaded f e)) as Hac.
  { split; rewrite ?fmap_app; try done; try apply Hso.
    - apply (inv_bytes _ _ Hi (filename st)). apply Hso.
    - intros b g u Hin Hkey. split; [apply elem_of_app; by left|]. apply F2; by apply (Hother b g u).
    - intros b g u [Hin|Hin%list_elem_of_singleton]%elem_of_app; [left|right].
      + split; [done|]. intros [= -> ->]. by apply (Hnot g).
      + cbn in Hin. simplify_eq. done.
    - intros _. split; [apply elem_of_app; right; by left|]. intros _. cbn. by rewrite Hsaved.
    - intros g Hg. rewrite M3, elem_of_app by done. cbn. rewrite list_elem_of_singleton.
      destruct (Z.eqb_spec g f) as [->|]; [naive_solver|]. rewrite (inv_frames _ _ Hi g Hg). naive_solver.
    - apply NoDup_app. split; [apply Hi|]. split; [|apply NoDup_singleton].
      intros g Hg ->%list_elem_of_singleton. done.
    - apply (Forall_lookup_1 _ _ _ _ (so_writable _ _ _ _ _ _ _ _ _ _ Hso) He). }
  exists k', p, f. split; [done|].
  split; [by apply (accounted_inv _ _ _ _ _ _ _ _ _ _ _ _ _ _ _ _ _ Hac)|].
  split; [apply (accounted_content _ _ _ _ _ _ _ _ _ _ _ _ _ _ _ _ _ Hac Hi); rewrite Hval; exact F1|]. done.
Qed.

Lemma Pager_count_fault k l : Pager k l -> Pager (count_fault k) l.
Proof.
  intros []. split; try done. intros a Ha. destruct (inv_spaces0 a Ha) as (sp & bs & st & t & tab & h & d & []).
  exists sp, bs, st, t, tab, h, d. by split.
Qed.

(** Room for one page. *)
Lemma make_room k l :
  Pager k l -> victim_ok k l ->
  exists k1 l1, (if isFull (coreMap k) =? 1 then evict_one k else Ok k) = Ok k1 /\ Pager k1 l1 /\
    zlen l1 < NumPhysPages /\ (forall x, x ∈ l1.*2 -> x ∈ l.*2) /\
    (forall a u, 0 <= u -> content k1 a u = content k a u) /\ unmoved k k1.
Proof.
  intros Hi Hvic. pose proof (inv_map _ _ Hi) as [_ _ _ Hsz Hcap]. rewrite (inv_cap _ _ Hi) in Hcap.
  unfold isFull. rewrite Hsz, (inv_cap _ _ Hi).
  destruct (Z.eqb_spec (zlen l) NumPhysPages) as [Hfull|Hroom]; cbn.
  - destruct (evict_one_ok k l Hi Hfull (Hvic Hfull)) as (k1 & pre & x & post & -> & -> & Hi1 & Hrest).
    exists k1, (pre ++ post). split; [done|]. split; [done|]. rewrite length_app in Hfull |- *. cbn [length] in Hfull.
    split; [lia|]. split; [|done]. intros y. rewrite !fmap_app. cbn. set_solver.
  - exists k, l. split; [done|]. split; [done|]. split; [lia|]. done.
Qed.

Lemma page_fault_keeps k l sp t v junk :
  Pager k l -> victim_ok k l -> spaces k !! current k = Some sp -> Vm.pageTable sp = Some t ->
  u32 (reg (vm k) BadVAddrReg) / PageSize = v -> v < numPages sp ->
  (exists e, get_entry k (Some t) v = Ok e /\ valid e = false) ->
  exists k' l', page_fault k junk = Ok (k', 0) /\ Pager k' l' /\
    (forall a u, 0 <= u -> content k' a u = content k a u) /\
    registers (vm k') = registers (vm k) /\
    Machine.pageTable (vm k') = Machine.pageTable (vm k) /\
    pageTableSize (vm k') = pageTableSize (vm k) /\
    spaces k' = spaces k /\ current k' = current k /\ LRU k' = LRU k /\
    exists tab e, tables (vm k') !! t = Some tab /\ tab !! Z.to_nat v = Some e /\ valid e = true /\
      0 <= Machine.physicalPage e < NumPhysPages /\
      content k (current k) v = Some (frame k' (Machine.physicalPage e)).
Proof.
  intros Hi Hvic Hcur Ht Hva Hv (e & He & Hval).
  assert (0 <= v) as Hv0 by (subst v; apply Z.div_pos; [apply u32_range|done]).
  set (k0 := count_fault k). pose proof (Pager_count_fault k l Hi) as Hi0. fold k0 in Hi0.
  unfold page_fault. change (vm (count_fault k)) with (vm k). fold k0.
  unfold ReadRegister. rewrite ASSERT_true by done. cbn [bindr].
  destruct (make_room k0 l Hi0 Hvic) as (k1 & l1 & -> & Hi1 & Hl1 & Hsub & Hc1 & Hs1 & Hcur1 & Hr1 & Hp1 & Hn1 & HL1).
  cbn [bindr].
  destruct (inv_spaces _ _ Hi0 (current k)) as (sp0 & bs & st0 & t0 & tab0 & h0 & d0 & Hso0);
    [by change (spaces k0) with (spaces k); rewrite Hcur|].
  assert (sp0 = sp) as ->.
  { pose proof (so_space _ _ _ _ _ _ _ _ _ _ Hso0) as E. change (spaces k0) with (spaces k) in E. congruence. }
  assert (t0 = t) as -> by (pose proof (so_t _ _ _ _ _ _ _ _ _ _ Hso0); congruence).
  assert (tab0 !! Z.to_nat v = Some e) as He0.
  { revert He. unfold get_entry, the_table. change (vm k) with (vm k0).
    rewrite (so_tab _ _ _ _ _ _ _ _ _ _ Hso0). cbn [bindr]. by intros [_ ?]%aget_Ok. }
  pose proof (invalid_not_queued k0 l _ sp bs st0 t tab0 h0 d0 v e Hi0 Hso0 He0 Hval) as Hnot.
  destruct (inv_spaces _ _ Hi1 (current k)) as (sp1 & bs1 & st1 & t1 & tab1 & h1 & d1 & Hso1);
    [rewrite Hs1; change (spaces k0) with (spaces k); by rewrite Hcur|].
  assert (sp1 = sp) as ->.
  { pose proof (so_space _ _ _ _ _ _ _ _ _ _ Hso1) as E. rewrite Hs1 in E.
    change (spaces k0) with (spaces k) in E. congruence. }
  assert (bs1 = bs) as -> by
    (pose proof (so_bs _ _ _ _ _ _ _ _ _ _ Hso1); pose proof (so_bs _ _ _ _ _ _ _ _ _ _ Hso0); congruence).
  assert (t1 = t) as -> by (pose proof (so_t _ _ _ _ _ _ _ _ _ _ Hso1); congruence).
  pose proof (so_len _ _ _ _ _ _ _ _ _ _ Hso1) as Hlen.
  destruct (lookup_lt_is_Some_2 tab1 (Z.to_nat v)) as [e1 He1]; [lia|].
  assert (valid e1 = false) as Hval1.
  { apply not_true_is_false. intros Hv1.
    destruct (so_valid _ _ _ _ _ _ _ _ _ _ Hso1 v e1 Hv0 He1 Hv1) as [Hin _].
    by apply Hsub, Hnot in Hin. }
  rewrite Hcur1. change (current k0) with (current k).
  destruct (allocVirtualPage_ok k1 l1 (current k) sp bs st1 t tab1 h1 d1 v e1 (reg (vm k) BadVAddrReg) junk
    Hi1 Hl1 Hso1 Hva Hv0 He1 Hval1) as (k' & p & f & E & Hi' & Hc & Hto & Hf).
  exists k', (l1 ++ [(p, (bs, f, v))]). split; [exact E|]. split; [done|].
  split; [intros a u Hu; rewrite Hc, Hc1 by done; done|].
  destruct Hto, to_pt0 as [P1 P2]. split; [by rewrite to_registers0, Hr1|].
  split; [by rewrite P1, Hp1|]. split; [by rewrite P2, Hn1|].
  split; [by rewrite to_spaces0, Hs1|]. split; [by rewrite to_current0, Hcur1|]. split; [by rewrite to_LRU0, HL1|].
  exists (<[Z.to_nat v := loaded f e1]> tab1), (loaded f e1). split; [by rewrite to_tables0, lookup_insert_eq|].
  assert (<[Z.to_nat v := loaded f e1]> tab1 !! Z.to_nat v = Some (loaded f e1)) as Hin
    by (apply list_lookup_insert_eq; lia).
  split; [exact Hin|]. split; [done|]. split; [exact Hf|].
  destruct (inv_spaces _ _ Hi' (current k)) as (sp2 & bs2 & st2 & t2 & tab2 & h2 & d2 & Hso2);
    [rewrite to_spaces0, Hs1; change (spaces k0) with (spaces k); by rewrite Hcur|].
  assert (sp2 = sp) as ->.
  { pose proof (so_space _ _ _ _ _ _ _ _ _ _ Hso2) as E2. rewrite to_spaces0, Hs1 in E2.
    change (spaces k0) with (spaces k) in E2. congruence. }
  assert (t2 = t) as -> by (pose proof (so_t _ _ _ _ _ _ _ _ _ _ Hso2); congruence).
  assert (tab2 = <[Z.to_nat v := loaded f e1]> tab1) as ->.
  { pose proof (so_tab _ _ _ _ _ _ _ _ _ _ Hso2) as E2. rewrite to_tables0, lookup_insert_eq in E2. congruence. }
  pose proof (space_ok_content _ _ _ _ _ _ _ _ _ _ v _ Hso2 Hin) as E2. cbn in E2.
  change (content k (current k) v) with (content k0 (current k) v).
  rewrite <- (Hc1 (current k) v Hv0), <- (Hc (current k) v Hv0). exact E2.
Qed.

(** With first-in-first-out replacement. *)
Lemma page_fault_ok k l sp t v junk :
  Inv k l -> spaces k !! current k = Some sp -> Vm.pageTable sp = Some t ->
  u32 (reg (vm k) BadVAddrReg) / PageSize = v -> v < numPages sp ->
  (exists e, get_entry k (Some t) v = Ok e /\ valid e = false) ->
  exists k' l', page_fault k junk = Ok (k', 0) /\ Inv k' l' /\
    (forall a u, 0 <= u -> content k' a u = content k a u) /\
    registers (vm k') = registers (vm k) /\
    Machine.pageTable (vm k') = Machine.pageTable (vm k) /\
    pageTableSize (vm k') = pageTableSize (vm k) /\
    spaces k' = spaces k /\ current k' = current k /\
    exists tab e, tables (vm k') !! t = Some tab /\ tab !! Z.to_nat v = Some e /\ valid e = true /\
      0 <= Machine.physicalPage e < NumPhysPages /\
      content k (current k) v = Some (frame k' (Machine.physicalPage e)).
Proof.
  intros [Hi HL] Hcur Ht Hva Hv He.
  destruct (page_fault_keeps k l sp t v junk Hi (victim_fifo k l HL) Hcur Ht Hva Hv He)
    as (k' & l' & E & Hi' & Hc & Hr & Hp & Hs & Hsp & Hcur' & HL' & Hrest).
  exists k', l'. do 2 (split; [first [done|split; [done|congruence]]|]). by split_and!.
Qed.

(** Reading a byte of a mapped page reads the logical contents. *)
Lemma phys_frame k t tab v e va :
  Machine.wf (vm k) -> Machine.pageTable (vm k) = Some t -> tables (vm k) !! t = Some tab ->
  u32 va / PageSize = v -> v < pageTableSize (vm k) -> tab !! Z.to_nat v = Some e -> valid e = true ->
  0 <= Machine.physicalPage e < NumPhysPages ->
  exists pa, phys (vm k) va = Some pa /\
    mainMemory (vm k) !! Z.to_nat pa = frame k (Machine.physicalPage e) !! Z.to_nat (u32 va mod PageSize).
Proof.
  intros Hwf Ht Htab Hv Hn He Hval Hf.
  assert (tlb (vm k) = None) as Htlb by (destruct (wf_lookup _ Hwf) as [(? & _ & ?)|[? _]]; congruence).
  exists (Machine.physicalPage e * PageSize + u32 va mod PageSize). unfold phys, page_map.
  rewrite Htlb, Hv, (proj2 (Z.ltb_lt _ _) Hn), Ht. cbn. rewrite Htab. cbn. rewrite He. cbn. rewrite Hval. cbn.
  assert (u32 (Machine.physicalPage e) = Machine.physicalPage e) as ->
    by (apply u32_small; unfold is_u32, NumPhysPages in *; lia).
  rewrite (proj2 (Z.ltb_lt _ _)) by apply Hf. split; [done|].
  pose proof (Z.mod_pos_bound (u32 va) PageSize ltac:(done)) as Hm.
  unfold frame, bytes_of. rewrite lookup_take_lt by lia. rewrite lookup_drop.
  unfold PageSize, SectorSize in *. f_equal. lia.
Qed.

(** C2: a page fault is transparent.  When the current space's table is the
    machine's and the faulting page lies in the space but is not mapped, the
    handler succeeds: it evicts a page first when
    every frame is taken, saving it to its swap file if it is dirty, and loads
    the faulting page from its swap file or from the executable.  The pager's
    invariant holds again, the logical contents of every page of every space and
    the registers are what they were, and the access retried now translates and
    finds the byte that the logical contents promise.  This is so with the first-in-first-out policy
    under any memory pressure; and with the LRU policy (the -e option), clearing of
    use bits included, unless memory is full and, of the pages of the queue, all but the last have been
    used: then the last is the victim, and the core map breaks ([CoreMap.second_chance_dangling]). *)
Theorem page_fault_transparent (k : Vm) (l : list (positive * page_data)) (sp : AddrSpace)
    (t : positive) (va : Z) (junk : list Z) :
  Pager k l -> LRU k = false \/ (zlen l = NumPhysPages -> spares_last k l) ->
  spaces k !! current k = Some sp -> Vm.pageTable sp = Some t ->
  Machine.pageTable (vm k) = Some t -> pageTableSize (vm k) = numPages sp ->
  reg (vm k) BadVAddrReg = va -> u32 va / PageSize < numPages sp ->
  page_map (vm k) (u32 va / PageSize) = None ->
  exists k' l' pa pg, page_fault k junk = Ok (k', 0) /\ Pager k' l' /\ LRU k' = LRU k /\
    (forall a u, 0 <= u -> content k' a u = content k a u) /\
    registers (vm k') = registers (vm k) /\
    phys (vm k') va = Some pa /\ content k (current k) (u32 va / PageSize) = Some pg /\
    mainMemory (vm k') !! Z.to_nat pa = pg !! Z.to_nat (u32 va mod PageSize).
Proof.
  intros Hi Hpol Hcur Ht Hpt Hsz Hva Hv Hmap. pose proof (inv_machine _ _ Hi) as Hwf.
  assert (victim_ok k l) as Hvic by (destruct Hpol as [HL|H]; [by apply victim_fifo|by intros Hfull _; apply H]).
  destruct (wf_lookup _ Hwf) as [(? & _ & ?)|(Htlb & q & tab & Hq & Htab & Hlen)]; [congruence|].
  simplify_eq. assert (0 <= u32 (reg (vm k) BadVAddrReg) / PageSize) as Hpos
    by (apply Z.div_pos; [apply u32_range|done]).
  set (va := reg (vm k) BadVAddrReg) in *. set (v := u32 va / PageSize) in *.
  destruct (lookup_lt_is_Some_2 tab (Z.to_nat v)) as [e He]; [lia|].
  destruct (page_fault_keeps k l sp t v junk Hi Hvic Hcur Ht eq_refl Hv) as
    (k' & l' & E & Hi' & Hc & Hr & Hp' & Hs' & _ & _ & HL' & tab' & e' & Htab' & He' & Hval' & Hf' & Hcon).
  - exists e. split; [by apply (get_entry_ok k t tab)|].
    unfold page_map in Hmap. rewrite Htlb, Hpt, Hsz in Hmap.
    rewrite (proj2 (Z.ltb_lt _ _) Hv) in Hmap. cbn in Hmap. rewrite Htab in Hmap. cbn in Hmap.
    rewrite He in Hmap. cbn in Hmap. by destruct (valid e).
  - destruct (phys_frame k' t tab' v e' va) as (pa & Hpa & Hm); try done.
    { apply Hi'. } { by rewrite Hp'. } { by rewrite Hs', Hsz. }
    exists k', l', pa, (frame k' (Machine.physicalPage e')). done.
Qed.
End Alloc.

(** ** A concrete system

    One process of 13 pages whose executable has four bytes of code at address 0,
    on a machine with empty memory; the process has just touched address 1. *)

Definition demo_words : list Z := [NOFFMAGIC; 0; 40; 4; 0; 0; 0; 0; 0; 0].
Definition demo_exe : list Z := concat (le_bytes 4 <$> demo_words) ++ [11; 22; 33; 44].
Definition demo_noff : NoffHeader := mkNoff NOFFMAGIC (mkSegment 0 40 4) (mkSegment 0 0 0) (mkSegment 0 0 0).
Definition demo_store : BackingStore := mkBackingStore (BitMap.mkBitMap 13 1 [0]) 1 ajnr 0 [] 1.
Definition demo_space : AddrSpace := mkAddrSpace (Some 1%positive) 13 0 [] (mkOpenFile (Some 1%positive) [120]) 1 (Some 1%positive) 0.
Definition demo_table : list TranslationEntry := new_entry <$> seq 0 13.
Definition demo_vm : Vm :=
  let m := Machine.set_pageTable (set_tables (Machine_new false (fun i => new_entry i)) {[1%positive := demo_table]})
             (Some 1%positive) 13 in
  mkVm (set_reg BadVAddrReg 1 m) (BitMap.mkBitMap 32 1 [0]) (CoreMap_new NumPhysPages)
    {[1%positive := demo_space]} {[1%positive := demo_store]} (Table.Table_new 14)
    {[ajnr := replicate 0 0; [120] := demo_exe]} {[1%positive]} 0 0 0 1 false.

Lemma demo_space_ok :
  @space_ok i386 demo_vm [] 1 demo_space 1 demo_store 1 demo_table demo_noff [].
Proof.
  split; try reflexivity; try done.
  - split; [|reflexivity]. split; try reflexivity; try done. repeat constructor; done.
  - intros v Hv. enough (forall i, i ∈ seqZ 0 13 -> BitMap.bit (pages demo_store) i = false) as H
      by (rewrite H by (apply elem_of_seqZ; cbn in Hv; lia); done).
    apply Forall_forall. by apply (bool_decide_unpack _).
  - intros v e _ He Hval. exfalso. unfold demo_table in He. rewrite list_lookup_fmap in He.
    apply fmap_Some in He as (? & _ & ->). done.
  - apply Forall_fmap, Forall_true. done.
Qed.

Lemma demo_Inv : @Inv i386 demo_vm [].
Proof.
  split; [|reflexivity].
  assert (forall a sp, spaces demo_vm !! a = Some sp -> a = 1%positive /\ sp = demo_space) as Hsp
    by (intros a sp H; change (spaces demo_vm) with ({[1%positive := demo_space]} : gmap positive AddrSpace) in H;
        by apply lookup_singleton_Some in H as [<- <-]).
  assert (forall b st, stores demo_vm !! b = Some st -> b = 1%positive /\ st = demo_store) as Hst
    by (intros b st H; change (stores demo_vm) with ({[1%positive := demo_store]} : gmap positive BackingStore) in H;
        by apply lookup_singleton_Some in H as [<- <-]).
  split; try reflexivity.
  - constructor; [done|by apply Forall_replicate|done|]. right. split; [reflexivity|].
    exists 1%positive, demo_table. done.
  - split; try reflexivity; try done. constructor.
  - split; [|reflexivity]. split; try reflexivity; try done. repeat constructor; done.
  - intros f Hf. cbn [fmap list_fmap]. split; [|by intros ?%elem_of_nil].
    enough (forall i, i ∈ seqZ 0 32 -> BitMap.bit (manager demo_vm) i = false) as H
      by (rewrite H by (apply elem_of_seqZ; unfold NumPhysPages in Hf; lia); done).
    apply Forall_forall. by apply (bool_decide_unpack _).
  - constructor.
  - intros n d H. change (files demo_vm) with (<[ajnr := [] : list Z]> {[ [120] := demo_exe ]} : fs) in H.
    apply lookup_insert_Some in H as [[_ <-]|[_ H]]; [constructor|].
    apply lookup_singleton_Some in H as [_ <-]. unfold is_byte. by repeat constructor.
  - intros bs f v Hin. by apply elem_of_nil in Hin.
  - intros a [sp [-> ->]%Hsp]. do 7 eexists. exact demo_space_ok.
  - intros a a' sp sp' [-> _]%Hsp [-> _]%Hsp. done.
  - intros b b' st st' [-> _]%Hst [-> _]%Hst. done.
  - intros a sp b st [_ ->]%Hsp [_ ->]%Hst. done.
Qed.

Lemma page_fault_transparent_witness :
  exists k' l' pa pg, page_fault (host := i386) demo_vm [] = Ok (k', 0) /\ Pager (host := i386) k' l' /\
    phys (vm k') 1 = Some pa /\ content (host := i386) demo_vm 1 0 = Some pg /\
    mainMemory (vm k') !! Z.to_nat pa = Some 22.
Proof.
  destruct (page_fault_transparent (host := i386) demo_vm [] demo_space 1 1 [] demo_Inv (or_introl eq_refl))
    as (k' & l' & pa & pg & H1 & H2 & _ & _ & _ & H5 & H6 & H7); try reflexivity.
  exists k', l', pa, pg. split; [exact H1|]. split; [exact H2|]. split; [exact H5|]. split; [exact H6|].
  change (u32 1 / PageSize) with 0 in H6. change (u32 1 mod PageSize) with 1 in H7.
  rewrite H7. vm_compute in H6. injection H6 as <-. reflexivity.
Defined.
