(* ===== verification/Loading.v ===== *)
(** A program comes into memory: the address space, the page table and the backing
    store that Exec2 (userprog/exception.cc) and StartProcess (userprog/progtest.cc)
    make for it, added to the state of the pager (Paging.v).  Nothing is copied: the
    pages are brought in when they are used, and what counts is their contents. *)
From Stdlib Require Import ZArith Lia Bool.
From stdpp Require Import base numbers list gmap fin_maps.
From S2P Require Import Prelude Bitmap Lists Machine Tables CoreMap Vm Paging.

Section Loading.
Context {host : Host}.

(** The invariant of the pager but for the registers and the page table the machine is
    set to, which are not there before the first process runs. *)
Definition pager_ok (k : Vm) (l : list (positive * page_data)) : Prop :=
  forall m, Machine.wf m -> tables m = tables (vm k) -> mainMemory m = mainMemory (vm k) -> Pager (set_vm m k) l.

Lemma content_machine k m a v :
  tables m = tables (vm k) -> mainMemory m = mainMemory (vm k) -> content (set_vm m k) a v = content k a v.
Proof. intros Ht Hm. unfold content, frame. cbn. by rewrite Ht, Hm. Qed.

Lemma Pager_ok k l : Pager k l -> pager_ok k l.
Proof.
  intros [W I3 I4 I5 I6 I7 I8 I9 I10 I11 I12 I13] m Hw Ht Hm. split; cbn; rewrite ?Ht; try done.
  intros a Ha. destruct (I10 a Ha) as (sp & bs & st & t & tab & h & d & []).
  exists sp, bs, st, t, tab, h, d. split; cbn; rewrite ?Ht; try done.
  intros v e Hv He Hval. unfold frame, saved. cbn. rewrite Hm. by apply so_valid.
Qed.

Lemma ok_Pager k l : Machine.wf (vm k) -> pager_ok k l -> Pager k l.
Proof. intros Hw Hp. rewrite <- (set_vm_id k). by apply Hp. Qed.

Lemma wf_new_table m t tab : Machine.wf m -> tables m !! t = None -> Machine.wf (set_tables m (<[t := tab]> (tables m))).
Proof.
  intros [W1 W2 W3 W4] Ht. split; try done. destruct W4 as [(tl & ?)|(Hn & q & tb & Hq & Htb & Hs)]; [left; eauto|].
  right. split; [done|]. exists q, tb. cbn. split; [done|]. split; [|done]. rewrite lookup_insert_ne; [done|congruence].
Qed.

(** [k'] is [k] with a space [a], its page table [t] and its store [b] added, for a
    program of header [h]. *)
Record with_program (k k' : Vm) (a b t : positive) (sp : AddrSpace) (st : BackingStore) (h : NoffHeader) : Prop := {
  wp_vm : vm k' = set_tables (vm k) (<[t := new_entry <$> seq 0 (Z.to_nat (numPages sp))]> (tables (vm k)));
  wp_rest : manager k' = manager k /\ coreMap k' = coreMap k /\ LRU k' = LRU k /\ current k' = current k;
  wp_spaces : spaces k !! a = None /\ spaces k' = <[a := sp]> (spaces k);
  wp_stores : stores k !! b = None /\ stores k' = <[b := st]> (stores k);
  wp_table : tables (vm k) !! t = None;
  wp_files : files k' = <[filename st := []]> (files k);
  wp_sp : backingStore sp = Some b /\ Vm.pageTable sp = Some t;
  wp_size : numPages sp =
    divRoundUp (u32 (seg_size (code h) + seg_size (initData h) + seg_size (uninitData h) + UserStackSize + ArgumentSize)) PageSize;
  wp_st : space st = a /\ flag st = 1 /\ BitMap.wf (pages st) /\ BitMap.numBits (pages st) = numPages sp /\
    forall v, 0 <= v < numPages sp -> BitMap.bit (pages st) v = false
}.

Lemma with_program_count k k' a b t sp st h n :
  with_program k k' a b t sp st h ->
  with_program k (set_space k' a (setThreadCount sp n)) a b t (setThreadCount sp n) st h.
Proof. intros [Wv Wr [Wa Ws] Wt Wf Wfi Wsp Wz Wb]. split; cbn; try done. split; [done|]. by rewrite Ws, insert_insert_eq. Qed.

(** A program that can be loaded: an executable whose header is all there, with
    segments an [int] can address, of at most 2 GB. *)
Record loadable (f : fs) (executable : name) (h : NoffHeader) : Prop := {
  lo_header : forall junk, read_header f executable junk = Ok (Some h);
  lo_segments : header_ok h;
  lo_small : divRoundUp (u32 (seg_size (code h) + seg_size (initData h) + seg_size (uninitData h) + UserStackSize + ArgumentSize))
    PageSize * PageSize <= 2 ^ 31
}.

(** The name of the new swap file is not in use, and the executable is no swap file. *)
Definition name_unused (k : Vm) (n executable : name) : Prop :=
  n <> executable /\ (forall b st, stores k !! b = Some st -> filename st <> n /\ filename st <> executable) /\
  (forall a sp, spaces k !! a = Some sp -> currentExecutable sp <> n).

Section Add.
Context (k k' : Vm) (l : list (positive * page_data)) (a b t : positive) (sp : AddrSpace) (st : BackingStore) (h : NoffHeader).
Hypotheses (Hok : pager_ok k l) (Hw : with_program k k' a b t sp st h)
  (Hl : loadable (files k) (currentExecutable sp) h) (Hn : name_unused k (filename st) (currentExecutable sp)).

(** A machine for the state without the program. *)
Definition any_machine (k : Vm) : Machine :=
  mkMachine (mainMemory (vm k)) (replicate (Z.to_nat NumTotalRegs) 0) (Some []) None 0 (tables (vm k)).

Lemma old_Pager : zlen (mainMemory (vm k)) = MemorySize -> Forall is_byte (mainMemory (vm k)) -> Pager (set_vm (any_machine k) k) l.
Proof. intros H1 H2. apply Hok; [split; try done; left; by eexists|done|done]. Qed.

Lemma new_entry_at v e :
  (new_entry <$> seq 0 (Z.to_nat (numPages sp))) !! v = Some e -> valid e = false /\ readOnly e = false.
Proof. rewrite list_lookup_fmap. intros (? & _ & ->)%fmap_Some. done. Qed.

Lemma new_space_ok m :
  zlen (mainMemory (vm k)) = MemorySize -> tables m = tables (vm k') ->
  space_ok (set_vm m k') l.*2 a sp b st t (new_entry <$> seq 0 (Z.to_nat (numPages sp))) h [].
Proof.
  intros Hmem Ht. destruct Hw as [Wv _ [Wa Ws] [Wb Wt] Wf Wfi [Wsb Wst] Wz (Wp & _ & Wbm & Wnb & Wbits)].
  destruct Hl as [Lh Lo Lm], Hn as (N1 & _).
  assert (0 <= numPages sp) as Hnp.
  { rewrite Wz. match goal with |- 0 <= divRoundUp ?n _ => assert (0 <= n) as H by apply u32_range;
      pose proof (divRoundUp_bounds n PageSize H eq_refl) as Hd end. change PageSize with 128 in *. lia. }
  split; cbn; try done.
  - by rewrite Ws, lookup_insert_eq.
  - by rewrite Wt, lookup_insert_eq.
  - rewrite Ht, Wv. cbn. by rewrite lookup_insert_eq.
  - rewrite length_fmap, length_seq. lia.
  - rewrite Wz. exact Lm.
  - split; [|done]. intros junk. rewrite <- (Lh junk). apply read_header_files. by rewrite Wfi, lookup_insert_ne.
  - by rewrite Wfi, lookup_insert_eq.
  - intros v Hr Hv. by rewrite Wbits in Hv.
  - intros v e _ [Hv _]%new_entry_at. congruence.
  - apply Forall_fmap, Forall_true. done.
Qed.

Lemma old_space_ok m a2 sp2 bs2 st2 t2 tab2 h2 d2 :
  tables m = tables (vm k') -> mainMemory m = mainMemory (vm k') ->
  space_ok (set_vm (any_machine k) k) l.*2 a2 sp2 bs2 st2 t2 tab2 h2 d2 ->
  space_ok (set_vm m k') l.*2 a2 sp2 bs2 st2 t2 tab2 h2 d2.
Proof.
  intros Ht Hmem []. destruct Hw as [Wv _ [Wa Ws] [Wb Wt] Wf Wfi _ _ _], Hn as (_ & N2 & N3). cbn in *.
  assert (filename st2 <> filename st) as F1 by (by apply (N2 bs2)). assert (currentExecutable sp2 <> filename st) as F2 by eauto.
  assert (files k' !! currentExecutable sp2 = files k !! currentExecutable sp2) as E1 by (by rewrite Wfi, lookup_insert_ne).
  assert (files k' !! filename st2 = files k !! filename st2) as E2 by (by rewrite Wfi, lookup_insert_ne).
  split; cbn; try done.
  - rewrite Ws, lookup_insert_ne; [done|congruence].
  - rewrite Wt, lookup_insert_ne; [done|congruence].
  - rewrite Ht, Wv. cbn. rewrite lookup_insert_ne; [done|congruence].
  - destruct so_header as [H1 H2]. split; [|done]. intros junk. rewrite <- (H1 junk). by apply read_header_files.
  - by rewrite E2.
  - intros v e Hv He Hval. destruct (so_valid v e Hv He Hval) as [H1 H2]. split; [done|]. intros Hd.
    unfold frame in *. cbn in *. rewrite Hmem, Wv. cbn. rewrite H2 by done. symmetry. by apply saved_same.
Qed.

(** Adding a program keeps the invariant; the pages of the other programs keep their
    contents, and those of the new one hold its image. *)
Lemma add_program :
  zlen (mainMemory (vm k)) = MemorySize -> Forall is_byte (mainMemory (vm k)) ->
  pager_ok k' l /\
  (forall a2 u, 0 <= u -> a2 <> a -> content k' a2 u = content k a2 u) /\
  (forall v, 0 <= v < numPages sp -> content k' a v = Some (exec_page (files k) (currentExecutable sp) h v)).
Proof.
  intros Hmem Hby. pose proof (old_Pager Hmem Hby) as [W I3 I4 I5 I6 I7 I8 I9 I10 I11 I12 I13]. cbn in *.
  destruct (Hw) as [Wv (R1 & R2 & R3 & R4) [Wa Ws] [Wb Wt] Wf Wfi [Wsb Wst] Wz (Wp & _ & Wbm & Wnb & Wbits)].
  destruct (Hn) as (N1 & N2' & N3).
  assert (forall b2 st2, stores k !! b2 = Some st2 -> filename st2 <> filename st) as N2 by (intros b2 st2 H; by apply (N2' b2)).
  split; [|split].
  - intros m Hwf Ht Hm. split; cbn; rewrite ?R1, ?R2; try done.
    + intros n d. rewrite Wfi. intros [[_ <-]|[_ H]]%lookup_insert_Some; [constructor|eauto].
    + intros bs f v Hin. destruct (I9 bs f v Hin) as (H1 & H2 & st2 & sp2 & t2 & tab & e & E1 & E2 & E3 & E4 & E5 & E6).
      split; [done|]. split; [done|]. exists st2, sp2, t2, tab, e. split_and!; try apply E6; try done.
      * rewrite Wt, lookup_insert_ne; [done|congruence].
      * rewrite Ws, lookup_insert_ne; [done|congruence].
      * rewrite Ht, Wv. cbn. rewrite lookup_insert_ne; [done|congruence].
    + intros a2 Ha2. rewrite Ws, lookup_insert_is_Some in Ha2. destruct (decide (a2 = a)) as [->|Hne].
      * do 7 eexists. by apply new_space_ok.
      * destruct Ha2 as [?|[_ Ha2]]; [congruence|]. destruct (I10 a2 Ha2) as (sp2 & bs2 & st2 & t2 & tab2 & h2 & d2 & H2).
        do 7 eexists. by eapply old_space_ok.
    + assert (forall a2 sp2, spaces k !! a2 = Some sp2 -> Vm.pageTable sp2 <> Vm.pageTable sp) as Hpt.
      { intros a2 sp2 H2. destruct (I10 a2 (ex_intro _ _ H2)) as (? & bs2 & st2 & t2 & tab2 & h2 & d2 & []). cbn in *. congruence. }
      intros a1 a2 sp1 sp2. rewrite Ws. intros [[<- <-]|[? H1]]%lookup_insert_Some [[<- <-]|[? H2]]%lookup_insert_Some Hne; try done; eauto.
      intros E. by eapply Hpt.
    + intros b1 b2 st1 st2. rewrite Wt. intros [[<- <-]|[? H1]]%lookup_insert_Some [[<- <-]|[? H2]]%lookup_insert_Some Hne; try done; eauto.
      intros E. by eapply N2.
    + intros a2 sp2 b2 st2. rewrite Ws, Wt. intros [[<- <-]|[? H1]]%lookup_insert_Some [[<- <-]|[? H2]]%lookup_insert_Some; try done; eauto.
      * by apply (N2' b2).
      * intros E. by eapply N3.
  - intros a2 u Hu Hne. destruct (spaces k !! a2) as [sp2|] eqn:E2.
    + destruct (I10 a2 (ex_intro _ _ E2)) as (sp2' & bs2 & st2 & t2 & tab2 & h2 & d2 & H2).
      pose proof (old_space_ok (vm k') _ _ _ _ _ _ _ _ eq_refl eq_refl H2) as H3. rewrite set_vm_id in H3.
      rewrite <- (content_machine k (any_machine k)) by done.
      pose proof (so_space _ _ _ _ _ _ _ _ _ _ H2) as S2. pose proof (so_st _ _ _ _ _ _ _ _ _ _ H2) as T2. cbn in S2, T2.
      eapply content_other; [exact H2|exact H3| | | |done|done]; cbn.
      * intros f v _. unfold frame. cbn. by rewrite Wv.
      * rewrite Wfi, lookup_insert_ne; [done|]. intros E. by eapply N2.
      * rewrite Wfi, lookup_insert_ne; [done|]. intros E. by eapply N3.
    + unfold content. rewrite E2. by rewrite Ws, lookup_insert_ne, E2.
  - intros v Hv. pose proof (new_space_ok (vm k') Hmem eq_refl) as H. rewrite set_vm_id in H.
    destruct (lookup_lt_is_Some_2 (new_entry <$> seq 0 (Z.to_nat (numPages sp))) (Z.to_nat v)) as [e He].
    { rewrite length_fmap, length_seq. lia. }
    rewrite (space_ok_content _ _ _ _ _ _ _ _ _ _ _ _ H He). destruct (new_entry_at _ _ He) as [-> _]. unfold saved. rewrite Wbits by done.
    f_equal. apply exec_page_files. by rewrite Wfi, lookup_insert_ne.
Qed.
End Add.

(** ** The registers of a program that starts *)

Definition start_registers (numPages : Z) : list Z :=
  <[Z.to_nat StackReg := s32 (u32 (numPages * PageSize - 16))]>
    (<[Z.to_nat NextPCReg := 4]> (<[Z.to_nat PCReg := 0]> (replicate (Z.to_nat NumTotalRegs) 0))).

Lemma length_start_registers n : zlen (start_registers n) = NumTotalRegs.
Proof. unfold start_registers. rewrite !length_insert, length_replicate. reflexivity. Qed.

Lemma InitRegisters_ok k a sp :
  spaces k !! a = Some sp -> zlen (registers (vm k)) = NumTotalRegs ->
  InitRegisters k a = Ok (set_vm (set_registers (vm k) (start_registers (numPages sp))) k).
Proof.
  intros Ha Hl. unfold InitRegisters, the_space. rewrite Ha. cbn [bindr].
  destruct (for_range_inv (fun i m => m = set_registers (vm k) (replicate (Z.to_nat i) 0 ++ drop (Z.to_nat i) (registers (vm k))))
    0 NumTotalRegs (fun i m => WriteRegister m i 0) (vm k)) as (m & E & ->); [done|by destruct (vm k)| |].
  - intros i m Hi ->. eexists. split.
    + unfold WriteRegister. replace ((0 <=? i) && (i <? NumTotalRegs)) with true by lia. cbn. unfold set_reg. reflexivity.
    + unfold set_registers. cbn. f_equal. rewrite insert_app_r_alt by (rewrite length_replicate; lia). rewrite length_replicate, Nat.sub_diag.
      destruct (lookup_lt_is_Some_2 (registers (vm k)) (Z.to_nat i)) as [x Ex]; [lia|]. rewrite (drop_S _ _ _ Ex). cbn.
      replace (Z.to_nat (i + 1)) with (S (Z.to_nat i)) by lia. by rewrite replicate_S_end, <- app_assoc.
  - rewrite E. cbn [bindr]. rewrite drop_ge, app_nil_r by lia. reflexivity.
Qed.

Lemma RestoreState_ok k a sp :
  spaces k !! a = Some sp -> RestoreState k a = Ok (set_vm (Machine.set_pageTable (vm k) (Vm.pageTable sp) (numPages sp)) k).
Proof. intros Ha. unfold RestoreState, the_space. by rewrite Ha. Qed.

Lemma program_pages h :
  0 <= divRoundUp (u32 (seg_size (code h) + seg_size (initData h) + seg_size (uninitData h) + UserStackSize + ArgumentSize)) PageSize.
Proof.
  match goal with |- 0 <= divRoundUp ?n _ => assert (0 <= n) as H by apply u32_range;
    pose proof (divRoundUp_bounds n PageSize H eq_refl) as Hd end. change PageSize with 128 in *. lia.
Qed.

(** The machine that InitRegisters and RestoreState set up. *)
Lemma set_up_wf k k' a b t sp st h :
  with_program k k' a b t sp st h -> zlen (mainMemory (vm k)) = MemorySize -> Forall is_byte (mainMemory (vm k)) -> tlb (vm k) = None ->
  Machine.wf (Machine.set_pageTable (set_registers (vm k') (start_registers (numPages sp))) (Vm.pageTable sp) (numPages sp)).
Proof.
  intros W Hm Hb Htlb. pose proof (wp_size _ _ _ _ _ _ _ _ W) as Hz. pose proof (program_pages h) as Hp. rewrite <- Hz in Hp.
  rewrite (wp_vm _ _ _ _ _ _ _ _ W), (proj2 (wp_sp _ _ _ _ _ _ _ _ W)). split; [exact Hm|exact Hb|apply length_start_registers|].
  right. split; [exact Htlb|]. exists t. eexists. split; [reflexivity|]. split; [apply lookup_insert_eq|].
  rewrite length_fmap, length_seq. cbn [pageTableSize Machine.set_pageTable]. lia.
Qed.

(** ** Initialize of the space and of its store *)

Context (junk : list Z) (rawBits : nat -> Z) (rawName rawID : list Z).
Hypotheses (HrawName : length rawName = 15%nat) (HrawID : length rawID = 10%nat).

(** The file name of the store in slot [ID]. *)
Definition store_name (ID : Z) : name := ajnr ++ digits name_fuel ID.

Lemma BackingStore_Initialize_ok v b a bs sp ID :
  stores v !! b = Some bs -> spaces v !! a = Some sp -> 0 <= numPages sp -> 0 <= ID < 10 ^ 9 ->
  exists bm, BackingStore_Initialize v b a ID rawBits rawName rawID =
      Ok (set_spaces (<[a := mkAddrSpace (Vm.pageTable sp) (numPages sp) (argc sp) (argv sp) (executableFile sp)
                             (threadCount sp) (Some b) (space_storeID sp)]> (spaces v))
            (set_files (<[store_name ID := []]> (files v))
               (set_stores (<[b := mkBackingStore bm a (store_name ID) ID (digits name_fuel ID) 1]> (stores v)) v)), 0) /\
    BitMap.wf bm /\ BitMap.numBits bm = numPages sp /\ BitMap.bits bm = replicate (Z.to_nat (numPages sp)) false.
Proof.
  intros Hb Hs Hn HID. unfold BackingStore_Initialize, the_store, the_space. rewrite Hb, Hs. cbn [bindr].
  destruct (BitMap.BitMap_new_bits rawBits (numPages sp) Hn) as (bm & -> & Hbm). cbn [bindr].
  destruct (store_names_digits ID rawName rawID HID HrawName HrawID) as (ds & -> & _ & _ & ->). cbn [bindr].
  by exists bm.
Qed.

Lemma store_name_inj i j : 0 <= i < 10 ^ 9 -> 0 <= j < 10 ^ 9 -> store_name i = store_name j -> i = j.
Proof.
  intros Hi Hj E%app_inv_head. destruct (store_names_digits i rawName rawID Hi HrawName HrawID) as (d1 & _ & _ & V1 & D1).
  destruct (store_names_digits j rawName rawID Hj HrawName HrawID) as (d2 & _ & _ & V2 & D2). congruence.
Qed.

(** The stores are those in the table, each with the file of its slot, and no
    executable is such a file. *)
Record named (k : Vm) (ms : gmap Z positive) : Prop := {
  nm_stores : forall b st, stores k !! b = Some st -> exists ID, 0 <= ID < 10 ^ 9 /\ ms !! ID = Some b /\ filename st = store_name ID;
  nm_exec : forall a sp ID, spaces k !! a = Some sp -> currentExecutable sp <> store_name ID
}.

Lemma named_unused k ms ID executable :
  named k ms -> ms !! ID = None -> 0 <= ID < 10 ^ 9 -> (forall i, executable <> store_name i) -> name_unused k (store_name ID) executable.
Proof.
  intros [Hs Hx] Hm HID He. split; [intros E; by eapply He|]. split; [|intros a sp Ha; by apply (Hx a)].
  intros b st Hb. destruct (Hs b st Hb) as (i & Hi & Hmi & ->). split; [|intros E; by eapply He].
  intros E%store_name_inj; [|done|done]. congruence.
Qed.

Lemma named_added k k' ms a b t sp st h ID :
  named k ms -> with_program k k' a b t sp st h -> ms !! ID = None -> 0 <= ID < 10 ^ 9 -> filename st = store_name ID ->
  (forall i, currentExecutable sp <> store_name i) -> named k' (<[ID := b]> ms).
Proof.
  intros [Hs Hx] [_ _ [_ Ws] [_ Wt] _ _ _ _ _] Hm HID Hf He. split.
  - intros b2 st2. rewrite Wt. intros [[<- <-]|[Hne H]]%lookup_insert_Some.
    + exists ID. by rewrite lookup_insert_eq.
    + destruct (Hs b2 st2 H) as (i & Hi & Hmi & E). exists i. rewrite lookup_insert_ne; [done|congruence].
  - intros a2 sp2 i. rewrite Ws. intros [[<- <-]|[Hne H]]%lookup_insert_Some; [done|by eapply Hx].
Qed.

(** The two together, on a space and a store that have just been made. *)
Lemma program_added v a b sp0 st0 tb executable h ID :
  spaces v !! a = None -> stores v !! b = None -> read_header (files v) (file_name executable) junk = Ok (Some h) -> 0 <= ID < 10 ^ 9 ->
  exists v2 v3 sp st t,
    AddrSpace_Initialize (set_space (set_storeTable tb (set_stores (<[b := st0]> (stores v)) v)) a sp0) a executable junk = Ok (v2, 0) /\
    BackingStore_Initialize v2 b a ID rawBits rawName rawID = Ok (v3, 0) /\
    with_program v v3 a b t sp st h /\ storeTable v3 = tb /\ storeID st = ID /\ filename st = store_name ID /\
    executableFile sp = executable /\ openFiles v3 = openFiles v /\ argv sp = argv sp0 /\ argc sp = argc sp0 /\ threadCount sp = threadCount sp0.
Proof.
  intros Ha Hb Hh HID. set (v1 := set_space _ a sp0). unfold AddrSpace_Initialize.
  change (files v1) with (files v). rewrite Hh. cbn [bindr]. unfold the_space.
  assert (spaces v1 !! a = Some sp0) as -> by apply lookup_insert_eq. cbn [bindr].
  set (n := divRoundUp _ _). set (t := fresh _). set (sp2 := mkAddrSpace _ _ _ _ _ _ _ _). set (v2 := set_space _ a sp2).
  assert (tables (vm v) !! t = None) as Ht by apply not_elem_of_dom, (is_fresh (dom (tables (vm v1)))).
  destruct (BackingStore_Initialize_ok v2 b a st0 sp2 ID) as (bm & E & Hwf & Hnb & Hbits).
  { apply lookup_insert_eq. } { apply lookup_insert_eq. } { apply program_pages. } { done. }
  exists v2. eexists.
  exists (mkAddrSpace (Some t) n (argc sp0) (argv sp0) executable (threadCount sp0) (Some b) (space_storeID sp0)),
    (mkBackingStore bm a (store_name ID) ID (digits name_fuel ID) 1), t.
  split; [reflexivity|]. split; [exact E|]. split; [|by split_and!].
  split; cbn; try done.
  - split; [done|]. by rewrite !insert_insert_eq.
  - split; [done|]. by rewrite insert_insert_eq.
  - split_and!; try done. intros i Hi. change (0 <= i < n) in Hi. change (numPages sp2) with n in *. assert (BitMap.bits bm !! Z.to_nat i = Some false) as Hb'.
    { rewrite Hbits. apply lookup_replicate_2. lia. }
    unfold BitMap.bits in Hb'. rewrite list_lookup_fmap, lookup_seq_lt in Hb' by lia. cbn in Hb'. rewrite Z2Nat.id in Hb' by lia. by injection Hb'.
Qed.
End Loading.
