(* ===== verification/Coff.v ===== *)
(** The tools that make programs for the simulated machine out of the files of the
    cross compiler (bin/coff.h, bin/coff2noff.c, bin/coff2flat.c).

    Shown is that what coff2noff writes is an executable Nachos can load, whose image
    in memory is that of the sections of the COFF file; and where the tools do not
    do what they mean to. *)
From Stdlib Require Import ZArith Lia Bool.
From stdpp Require Import base numbers list gmap fin_maps.
From S2P Require Import Prelude Bitmap Machine Tables CoreMap Vm Paging Loading.

(** ** Files of the host

    A tool ends with exit(1), here [None], when a file is too short; that the disk is
    full is left out.  A [long] has 32 bits (the tools are built with -m32).  A
    negative count is no count of bytes a buffer can hold. *)
Record fd := mkFd { contents : list Z; position : Z }.

Definition and_then {A B} (m : res (option A)) (k : A -> res (option B)) : res (option B) :=
  r <- m ;; match r with Some a => k a | None => Ok None end.
Declare Scope tool_scope.
Notation "' p <~ m ;; k" := (and_then m (fun p => k))
  (at level 100, p pattern, m at next level, right associativity, only parsing) : tool_scope.
Notation "p <~ m ;; k" := (and_then m (fun p => k))
  (at level 100, m at next level, right associativity) : tool_scope.
#[local] Open Scope tool_scope.

Definition exit1 (b : bool) : res (option unit) := Ok (if b then None else Some tt).

Definition lseek (f : fd) (offset : Z) : fd := if offset <? 0 then f else mkFd (contents f) offset.

Definition Read (f : fd) (nBytes : Z) : res (option (fd * list Z)) :=
  if nBytes <? 0 then Err WildAccess
  else
    let bs := bytes_of (contents f) (position f) nBytes in
    Ok (if zlen bs =? nBytes then Some (mkFd (contents f) (position f + nBytes), bs) else None).

Definition Write (f : fd) (buf : list Z) : fd :=
  mkFd (overwrite (contents f) (Z.to_nat (position f)) buf) (position f + zlen buf).

(** ** The headers of a COFF file *)

Definition MIPSELMAGIC : Z := 0x0162.
Definition OMAGIC : Z := 0x107.

(** The members that are used. *)
Record scnhdr := mkScn { s_name : list Z; s_paddr : Z; s_size : Z; s_scnptr : Z }.

Section Tools.
Context {host : Host}.

Definition short_at (bs : list Z) (i : nat) : Z := host_value (take 2 (drop (2 * i) bs)).
Definition scn_at (bs : list Z) (i : nat) : scnhdr :=
  let b := drop (40 * i) bs in mkScn (take 8 b) (int_at b 2) (int_at b 4) (int_at b 5).
Definition scns_of (bs : list Z) (n : Z) : list scnhdr := scn_at bs <$> seq 0 (Z.to_nat n).

(** [!strcmp(s_name, n)], for an [n] shorter than the array. *)
Definition named (s_name n : list Z) : bool := bool_decide (take (S (length n)) s_name = n ++ [0]).

Definition dot_text : list Z := [46; 116; 101; 120; 116].
Definition dot_data : list Z := [46; 100; 97; 116; 97].
Definition dot_rdata : list Z := [46; 114; 100; 97; 116; 97].
Definition dot_bss : list Z := [46; 98; 115; 115].
Definition dot_sbss : list Z := [46; 115; 98; 115; 115].

Inductive kind := Empty | Text | Data | Bss | Unknown.
#[export] Instance kind_eq_dec : EqDecision kind.
Proof. solve_decision. Defined.

Definition section_kind (x : scnhdr) : kind :=
  if s_size x =? 0 then Empty
  else if named (s_name x) dot_text then Text
  else if named (s_name x) dot_data || named (s_name x) dot_rdata then Data
  else if named (s_name x) dot_bss || named (s_name x) dot_sbss then Bss
  else Unknown.

(** ** coff2noff *)

Record conversion := mkConv { fdIn : fd; fdOut : fd; noffH : NoffHeader; inNoffFile : Z }.

Definition copy_segment (x : scnhdr) (s : conversion) : res (option (conversion * Segment)) :=
  '(f, buffer) <~ Read (lseek (fdIn s) (s_scnptr x)) (s_size x) ;;
  Ok (Some (mkConv f (Write (fdOut s) buffer) (noffH s) (s32 (inNoffFile s + s_size x)),
            mkSegment (s_paddr x) (inNoffFile s) (s_size x))).

Definition set_noffH (h : NoffHeader) (s : conversion) : conversion := mkConv (fdIn s) (fdOut s) h (inNoffFile s).
Definition set_code (g : Segment) (h : NoffHeader) : NoffHeader := mkNoff (noffMagic h) g (initData h) (uninitData h).
Definition set_initData (g : Segment) (h : NoffHeader) : NoffHeader := mkNoff (noffMagic h) (code h) g (uninitData h).
Definition set_uninitData (g : Segment) (h : NoffHeader) : NoffHeader := mkNoff (noffMagic h) (code h) (initData h) g.

(** One round of the loop over the sections. *)
Definition copy_section (x : scnhdr) (s : conversion) : res (option conversion) :=
  let h := noffH s in
  match section_kind x with
  | Empty => Ok (Some s)
  | Text => '(s, g) <~ copy_segment x s ;; Ok (Some (set_noffH (set_code g h) s))
  | Data =>
      _ <~ exit1 (negb (seg_size (initData h) =? 0)) ;;
      '(s, g) <~ copy_segment x s ;; Ok (Some (set_noffH (set_initData g h) s))
  | Bss =>
      let u := uninitData h in
      if negb (seg_size u =? 0) then
        _ <~ exit1 (s_paddr x =? s32 (virtualAddr u + seg_size u)) ;;
        Ok (Some (set_noffH (set_uninitData (mkSegment (virtualAddr u) (inFileAddr u) (s32 (seg_size u + s_size x))) h) s))
      else Ok (Some (set_noffH (set_uninitData (mkSegment (s_paddr x) (inFileAddr u) (s_size x)) h) s))
  | Unknown => Ok None
  end.

Fixpoint copy_sections (ss : list scnhdr) (s : conversion) : res (option conversion) :=
  match ss with
  | [] => Ok (Some s)
  | x :: ss => s <~ copy_section x s ;; copy_sections ss s
  end.

(** The magic numbers and the section headers. *)
Definition read_sections (f : fd) : res (option (fd * list scnhdr)) :=
  '(f, fileh) <~ Read f 20 ;;
  _ <~ exit1 (negb (ShortToHost (short_at fileh 0) =? MIPSELMAGIC)) ;;
  '(f, systemh) <~ Read f 56 ;;
  _ <~ exit1 (negb (ShortToHost (short_at systemh 0) =? OMAGIC)) ;;
  let numsections := ShortToHost (short_at fileh 1) in
  '(f, bs) <~ Read f (numsections * 40) ;;
  Ok (Some (f, (fun x => mkScn (s_name x) (swap_word (s_paddr x)) (swap_word (s_size x)) (swap_word (s_scnptr x)))
                 <$> scns_of bs numsections)).

(** The header as it is written; [stack] is what its members hold that are not set. *)
Definition segment_ints (g : Segment) : list Z := [virtualAddr g; inFileAddr g; seg_size g].
Definition noff_ints (h : NoffHeader) : list Z :=
  noffMagic h :: segment_ints (code h) ++ segment_ints (initData h) ++ segment_ints (uninitData h).
Definition noff_bytes (h : NoffHeader) : list Z := concat (host_bytes 4 <$> noff_ints h).

Definition no_segment (g : Segment) : Segment := mkSegment (virtualAddr g) (inFileAddr g) 0.
Definition NoffHeader_new (stack : NoffHeader) : NoffHeader :=
  mkNoff NOFFMAGIC (no_segment (code stack)) (no_segment (initData stack)) (no_segment (uninitData stack)).

(** The NOFF file; [None] when the tool gives up, which removes it. *)
Definition coff2noff (coff : list Z) (stack : NoffHeader) : res (option (list Z)) :=
  '(f, ss) <~ read_sections (mkFd coff 0) ;;
  s <~ copy_sections ss (mkConv f (lseek (mkFd [] 0) 40) (NoffHeader_new stack) 40) ;;
  Ok (Some (contents (Write (lseek (fdOut s) 0) (noff_bytes (noffH s))))).

(** ** What a COFF file describes *)

(** The last section of a kind that is not empty. *)
Definition last_of (k : kind) (ss : list scnhdr) : option scnhdr := last (filter (fun x => section_kind x = k) ss).

(** The byte at address [a] of memory. *)
Definition scn_byte (coff : list Z) (x : scnhdr) (a : Z) : option Z :=
  if (s_paddr x <=? a) && (a <? s_paddr x + s_size x)
  then Some (default 0 (coff !! Z.to_nat (s_scnptr x + (a - s_paddr x)))) else None.
Definition coff_byte (coff : list Z) (ss : list scnhdr) (a : Z) : Z :=
  match last_of Text ss ≫= fun x => scn_byte coff x a with
  | Some b => b
  | None => default 0 (last_of Data ss ≫= fun x => scn_byte coff x a)
  end.

Definition sizes (ss : list scnhdr) : Z := foldr (fun x n => s_size x + n) 0 ss.

Definition coff_page (coff : list Z) (ss : list scnhdr) (v : Z) : list Z :=
  (fun i => coff_byte coff ss (v * PageSize + Z.of_nat i)) <$> seq 0 (Z.to_nat PageSize).

(** An [int] that is not negative. *)
Definition is_nonneg (z : Z) : Prop := 0 <= z < 2 ^ 31.

(** A section the tool can take; a file, with its sections. *)
Record scn_ok (coff : list Z) (x : scnhdr) : Prop := {
  sc_ints : is_nonneg (s_paddr x) /\ is_nonneg (s_size x);
  sc_known : section_kind x <> Unknown;
  sc_there : section_kind x = Text \/ section_kind x = Data -> s_paddr x + s_size x < 2 ^ 31 /\
    0 <= s_scnptr x /\ s_scnptr x + s_size x <= zlen coff
}.
Record coff_ok (coff : list Z) (ss : list scnhdr) : Prop := {
  co_headers : exists f, read_sections (mkFd coff 0) = Ok (Some (f, ss)) /\ contents f = coff;
  co_sections : Forall (scn_ok coff) ss;
  co_data : (length (filter (fun x => section_kind x = Data) ss) <= 1)%nat;
  co_bss : (length (filter (fun x => section_kind x = Bss) ss) <= 1)%nat;
  co_small : 40 + sizes ss < 2 ^ 31 - 4096
}.
(** ** coff2noff keeps the image *)

Lemma sc_size coff x : scn_ok coff x -> 0 <= s_size x.
Proof. intros H. apply (sc_ints _ _ H). Qed.

Lemma last_of_snoc k ss x :
  last_of k (ss ++ [x]) = if decide (section_kind x = k) then Some x else last_of k ss.
Proof.
  unfold last_of. rewrite list.filter_app, list.filter_cons, list.filter_nil. case_decide.
  - by rewrite last_snoc.
  - by rewrite app_nil_r.
Qed.

Lemma sizes_snoc ss x : sizes (ss ++ [x]) = sizes ss + s_size x.
Proof. unfold sizes. induction ss as [|y ss IH]; cbn; [lia|]. rewrite IH. lia. Qed.

Section Image.
Context (coff : list Z).

(** The segment [g] of the file [out] is the section [o]. *)
Definition kept (o : option scnhdr) (g : Segment) (out : list Z) : Prop :=
  match o with
  | None => seg_size g = 0
  | Some x => 0 <= s_scnptr x /\ exists p, g = mkSegment (s_paddr x) p (s_size x) /\ 40 <= p /\ p + s_size x <= zlen out /\
                bytes_of out p (s_size x) = bytes_of coff (s_scnptr x) (s_size x)
  end.

Lemma kept_overwrite o g out q bs :
  kept o g out -> zlen out <= Z.of_nat q \/ Z.of_nat q + zlen bs <= 40 -> kept o g (overwrite out q bs).
Proof.
  destruct o as [x|]; [|done]. intros (H0 & p & -> & Hp & Hl & Hb) Hq. split; [done|]. exists p. split; [done|]. split; [done|].
  split; [rewrite length_overwrite; lia|]. rewrite <- Hb. apply bytes_of_ext; [lia|]. intros i Hi.
  apply lookup_overwrite; lia.
Qed.

Lemma kept_new x out p :
  0 <= s_scnptr x -> 0 <= s_size x -> 40 <= p -> zlen (bytes_of coff (s_scnptr x) (s_size x)) = s_size x ->
  kept (Some x) (mkSegment (s_paddr x) p (s_size x)) (overwrite out (Z.to_nat p) (bytes_of coff (s_scnptr x) (s_size x))).
Proof.
  intros H0 Hs Hp Hl. split; [done|]. exists p. split; [done|]. split; [done|]. rewrite length_overwrite. split; [lia|].
  pose proof (bytes_of_overwrite out (Z.to_nat p) (bytes_of coff (s_scnptr x) (s_size x))) as Hb.
  by rewrite Hl, Z2Nat.id in Hb by lia.
Qed.

(** What holds when the sections [done] are through. *)
Record converted (done : list scnhdr) (s : conversion) : Prop := {
  cv_in : contents (fdIn s) = coff;
  cv_at : position (fdOut s) = inNoffFile s;
  cv_end : 40 <= inNoffFile s <= 40 + sizes done /\ zlen (contents (fdOut s)) <= inNoffFile s;
  cv_magic : noffMagic (noffH s) = NOFFMAGIC;
  cv_ints : Forall is_nonneg (noff_ints (noffH s));
  cv_code : kept (last_of Text done) (code (noffH s)) (contents (fdOut s));
  cv_data : kept (last_of Data done) (initData (noffH s)) (contents (fdOut s));
  cv_bss : seg_size (uninitData (noffH s)) = default 0 (s_size <$> last_of Bss done)
}.

Lemma copy_segment_ok x done s :
  converted done s -> scn_ok coff x -> section_kind x = Text \/ section_kind x = Data -> 40 + sizes (done ++ [x]) < 2 ^ 31 ->
  exists f, contents f = coff /\
    copy_segment x s = Ok (Some (mkConv f (Write (fdOut s) (bytes_of coff (s_scnptr x) (s_size x))) (noffH s) (inNoffFile s + s_size x),
                                 mkSegment (s_paddr x) (inNoffFile s) (s_size x))) /\
    zlen (bytes_of coff (s_scnptr x) (s_size x)) = s_size x.
Proof.
  intros [Hi Ha He _ _ _ _ _] Hx Hk Hs. rewrite sizes_snoc in Hs. destruct (sc_there _ _ Hx Hk) as (_ & Hp & Hl).
  pose proof (sc_size _ _ Hx) as Hz.
  assert (zlen (bytes_of coff (s_scnptr x) (s_size x)) = s_size x) as Hlen by by apply length_bytes_of.
  exists (mkFd coff (s_scnptr x + s_size x)). split; [done|]. split; [|done]. unfold copy_segment, Read, lseek, and_then.
  rewrite (proj2 (Z.ltb_ge (s_scnptr x) 0)), (proj2 (Z.ltb_ge (s_size x) 0)) by done. cbn [position contents bindr].
  rewrite Hi, Hlen, Z.eqb_refl. cbn [bindr]. rewrite s32_small; [done|]. unfold is_s32. lia.
Qed.

(** One more section with contents. *)
Lemma converted_copy x done s f (h : NoffHeader) :
  converted done s -> scn_ok coff x -> section_kind x = Text \/ section_kind x = Data -> contents f = coff ->
  zlen (bytes_of coff (s_scnptr x) (s_size x)) = s_size x -> 40 + sizes (done ++ [x]) < 2 ^ 31 ->
  let g := mkSegment (s_paddr x) (inNoffFile s) (s_size x) in
  h = (if decide (section_kind x = Text) then set_code g (noffH s) else set_initData g (noffH s)) ->
  converted (done ++ [x])
    (mkConv f (Write (fdOut s) (bytes_of coff (s_scnptr x) (s_size x))) h (inNoffFile s + s_size x)).
Proof.
  intros [Hi Ha He Hm Hn Hc Hd Hb] Hx Hk Hf Hlen Hs g ->. rewrite sizes_snoc in Hs. pose proof (sc_size _ _ Hx) as Hz.
  assert (Forall is_nonneg (segment_ints g)) as Hg.
  { destruct (sc_ints _ _ Hx). assert (is_nonneg (inNoffFile s)) by (unfold is_nonneg; lia). by repeat apply Forall_cons_2. }
  pose proof (kept_new x (contents (fdOut s)) (inNoffFile s) (proj1 (proj2 (sc_there _ _ Hx Hk))) Hz (proj1 (proj1 He)) Hlen) as Hnew.
  assert (forall o g', kept o g' (contents (fdOut s)) ->
    kept o g' (overwrite (contents (fdOut s)) (Z.to_nat (inNoffFile s)) (bytes_of coff (s_scnptr x) (s_size x)))) as Hold
    by (intros o g' Ho; apply kept_overwrite; [done|left; lia]).
  apply Forall_cons in Hn as [Hn1 [Hn2 [Hn3 Hn4]%list.Forall_app]%list.Forall_app].
  split; cbn [fdIn fdOut noffH inNoffFile Write contents position]; rewrite ?Ha.
  - done.
  - lia.
  - rewrite sizes_snoc, length_overwrite. lia.
  - by case_decide.
  - unfold noff_ints. case_decide; cbn [set_code set_initData noffMagic code initData uninitData];
      (constructor; [done|]; rewrite !list.Forall_app; by split_and!).
  - rewrite last_of_snoc. destruct (decide (section_kind x = Text)) as [E1|E1]; cbn; [exact Hnew|by apply Hold].
  - rewrite last_of_snoc. destruct (decide (section_kind x = Data)) as [E1|E1].
    + rewrite decide_False by congruence. exact Hnew.
    + rewrite decide_True by (by destruct Hk). by apply Hold.
  - rewrite last_of_snoc, (decide_False (P := section_kind x = Bss)) by (destruct Hk; congruence).
    rewrite <- Hb. by case_decide.
Qed.

Lemma copy_section_ok x done s :
  converted done s -> scn_ok coff x -> 40 + sizes (done ++ [x]) < 2 ^ 31 ->
  (section_kind x = Data -> last_of Data done = None) -> (section_kind x = Bss -> last_of Bss done = None) ->
  exists s', copy_section x s = Ok (Some s') /\ converted (done ++ [x]) s'.
Proof.
  intros Hv Hx Hs Hd Hb. unfold copy_section. destruct (section_kind x) eqn:Ek.
  - eexists. split; [done|]. destruct Hv. assert (s_size x = 0) as E0.
    { unfold section_kind in Ek. destruct (Z.eqb_spec (s_size x) 0); [done|]. by repeat destruct (named _ _). }
    split; rewrite ?last_of_snoc, ?Ek, ?sizes_snoc, ?E0; try done. lia.
  - destruct (copy_segment_ok x done s Hv Hx (or_introl Ek) Hs) as (f & Hf & -> & Hlen). cbn. eexists. split; [done|].
    eapply converted_copy; eauto. by rewrite decide_True.
  - pose proof (cv_data _ _ Hv) as Hk. rewrite (Hd eq_refl) in Hk. cbn in Hk. rewrite Hk. cbn.
    destruct (copy_segment_ok x done s Hv Hx (or_intror Ek) Hs) as (f & Hf & -> & Hlen). cbn. eexists. split; [done|].
    eapply converted_copy; eauto. by rewrite decide_False by congruence.
  - pose proof (cv_bss _ _ Hv) as Hk. rewrite (Hb eq_refl) in Hk. cbn in Hk. rewrite Hk. cbn. eexists. split; [done|].
    destruct Hv as [Hi Ha He Hm Hn Hc Hda Hbs]. pose proof (sc_size _ _ Hx) as Hz.
    apply Forall_cons in Hn as [Hn1 [Hn2 [Hn3 Hn4]%list.Forall_app]%list.Forall_app].
    split; cbn; rewrite ?last_of_snoc, ?Ek, ?sizes_snoc; try done; [lia|].
    constructor; [done|]. repeat (apply Forall_app_2; [done|]). destruct (sc_ints _ _ Hx). apply Forall_cons in Hn4 as [_ [? _]%Forall_cons].
    by repeat apply Forall_cons_2.
  - by destruct (sc_known _ _ Hx).
Qed.

Lemma last_of_None k ss : last_of k ss = None <-> filter (fun x => section_kind x = k) ss = [].
Proof. apply last_None. Qed.

Lemma sizes_nonneg ss : Forall (scn_ok coff) ss -> 0 <= sizes ss.
Proof. induction 1 as [|x ss Hx _ IH]; [done|]. pose proof (sc_size _ _ Hx). cbn in *. unfold sizes in IH. lia. Qed.

Lemma sizes_app a b : sizes (a ++ b) = sizes a + sizes b.
Proof. unfold sizes. induction a as [|x a IH]; cbn; [done|]. rewrite IH. lia. Qed.

Lemma copy_sections_ok ss done s :
  converted done s -> Forall (scn_ok coff) ss -> 40 + sizes (done ++ ss) < 2 ^ 31 ->
  (length (filter (fun x => section_kind x = Data) (done ++ ss)) <= 1)%nat ->
  (length (filter (fun x => section_kind x = Bss) (done ++ ss)) <= 1)%nat ->
  exists s', copy_sections ss s = Ok (Some s') /\ converted (done ++ ss) s'.
Proof.
  revert done s. induction ss as [|x ss IH]; intros done s Hv Hss Hs Hd Hb.
  { exists s. rewrite app_nil_r. by split. }
  apply Forall_cons in Hss as [Hx Hss]. rewrite (cons_middle x done ss), app_assoc in Hs, Hd, Hb |- *.
  assert (forall k, (length (filter (fun x => section_kind x = k) ((done ++ [x]) ++ ss)) <= 1)%nat ->
    section_kind x = k -> last_of k done = None) as Hone.
  { intros k Hl E1. apply last_of_None. rewrite !list.filter_app, list.filter_cons, decide_True, list.filter_nil in Hl by done.
    rewrite !length_app in Hl. cbn in Hl. apply length_zero_iff_nil. lia. }
  destruct (copy_section_ok x done s) as (s1 & E1 & Hv1); try done; try by apply Hone.
  { rewrite sizes_app in Hs. pose proof (sizes_nonneg ss Hss). lia. }
  destruct (IH (done ++ [x]) s1) as (s' & E2 & Hv2); try done. exists s'. split; [|done]. cbn. by rewrite E1.
Qed.

(** The segments take no more room than the sections. *)
Lemma last_sizes ss : Forall (scn_ok coff) ss ->
  default 0 (s_size <$> last_of Text ss) + default 0 (s_size <$> last_of Data ss) + default 0 (s_size <$> last_of Bss ss) <= sizes ss.
Proof.
  assert (forall k l, Forall (scn_ok coff) l -> 0 <= default 0 (s_size <$> last_of k l)) as H0.
  { intros k l Hl. destruct (last_of k l) as [x|] eqn:E1; cbn; [|done]. apply last_Some_elem_of, list_elem_of_filter in E1 as [_ E1].
    apply (sc_size coff). by eapply list.Forall_forall. }
  induction ss as [|x ss IH] using rev_ind; intros Hss; [done|]. apply list.Forall_app in Hss as [Hss [Hx _]%Forall_cons].
  pose proof (sc_size _ _ Hx) as Hz. pose proof (H0 Text ss Hss). pose proof (H0 Data ss Hss). pose proof (H0 Bss ss Hss).
  specialize (IH Hss). rewrite sizes_snoc, !last_of_snoc. assert (default 0 (s_size <$> Some x) = s_size x) as Ex by done.
  repeat case_decide; try congruence; rewrite ?Ex; lia.
Qed.

Lemma kept_size o g out : kept o g out -> seg_size g = default 0 (s_size <$> o).
Proof. destruct o as [x|]; [|done]. by intros (_ & p & -> & _). Qed.

(** A byte of a segment is the byte of the section. *)
Lemma kept_byte o g out a :
  kept o g out ->
  (if (virtualAddr g <=? a) && (a <? virtualAddr g + seg_size g)
   then Some (default 0 (out !! Z.to_nat (inFileAddr g + (a - virtualAddr g)))) else None) =
  o ≫= fun x => scn_byte coff x a.
Proof.
  destruct o as [x|]; cbn.
  - intros (H0 & p & -> & Hp & Hl & Hb). unfold scn_byte. cbn. destruct (_ && _) eqn:E1; [|done].
    apply andb_true_iff in E1 as [H1%Z.leb_le H2%Z.ltb_lt].
    apply (f_equal (fun l => l !! Z.to_nat (a - s_paddr x))) in Hb. unfold bytes_of in Hb.
    rewrite !lookup_take_lt, !lookup_drop in Hb by lia. f_equal. f_equal.
    rewrite !Z2Nat.inj_add by lia. exact Hb.
  - intros ->. rewrite Z.add_0_r. destruct (Z.leb_spec (virtualAddr g) a), (Z.ltb_spec a (virtualAddr g)); try done. lia.
Qed.

End Image.

(** ** The header as it is read back *)

Lemma ints_length (zs : list Z) : length (concat (host_bytes 4 <$> zs)) = (4 * length zs)%nat.
Proof. induction zs as [|z zs IH]; [done|]. cbn [fmap list_fmap concat]. rewrite length_app, length_host_bytes, IH. cbn. lia. Qed.

Lemma int_at_ints (zs : list Z) rest i z :
  zs !! i = Some z -> is_s32 z -> int_at (concat (host_bytes 4 <$> zs) ++ rest) i = z.
Proof.
  intros Hi Hz. unfold int_at. revert i Hi. induction zs as [|y zs IH]; intros [|i] Hi; [done..| |]; cbn [fmap list_fmap concat].
  - injection Hi as ->. change (4 * 0)%nat with 0%nat. rewrite drop_0, <- app_assoc.
    rewrite take_app_length' by (symmetry; apply length_host_bytes). rewrite host_value_bytes. change (256 ^ Z.of_nat 4) with (2 ^ 32).
    change (z mod 2 ^ 32) with (u32 z). rewrite s32_u32. by apply s32_small.
  - rewrite <- app_assoc. replace (4 * S i)%nat with (length (host_bytes 4 y) + 4 * i)%nat by (rewrite length_host_bytes; lia).
    rewrite drop_app_add. by apply IH.
Qed.

Lemma noff_of_bytes_bytes h rest : Forall is_s32 (noff_ints h) -> noff_of_bytes (noff_bytes h ++ rest) = h.
Proof.
  intros Hn. assert (forall i z, noff_ints h !! i = Some z -> int_at (noff_bytes h ++ rest) i = z) as Hat.
  { intros i z Hi. apply int_at_ints; [done|]. by eapply Forall_lookup. }
  destruct h as [m [a b c] [d e f] [g i j]]. unfold noff_of_bytes.
  rewrite (Hat 0%nat m), (Hat 1%nat a), (Hat 2%nat b), (Hat 3%nat c), (Hat 4%nat d), (Hat 5%nat e), (Hat 6%nat f),
    (Hat 7%nat g), (Hat 8%nat i), (Hat 9%nat j) by reflexivity. done.
Qed.

Lemma read_header_ok (f : fs) exe junk h out :
  f !! exe = Some out -> take 40 out = noff_bytes h -> Forall is_s32 (noff_ints h) -> noffMagic h = NOFFMAGIC ->
  read_header f exe junk = Ok (Some h).
Proof.
  intros Hf Ht Hn Hm. unfold read_header, ReadAt. rewrite Hf. cbn [ASSERT bindr Z.leb]. change (0 <=? 0) with true. cbn [ASSERT bindr].
  change (Z.to_nat 0) with 0%nat. change (Z.to_nat 40) with 40%nat. rewrite drop_0, Ht, noff_of_bytes_bytes by done.
  rewrite Hm, Z.eqb_refl. cbn [negb andb]. by rewrite Hm, Z.eqb_refl.
Qed.

Lemma kept_segment coff o g out :
  kept coff o g out -> Forall is_nonneg (segment_ints g) -> zlen out < 2 ^ 31 ->
  (forall x, o = Some x -> scn_ok coff x /\ (section_kind x = Text \/ section_kind x = Data)) -> segment_ok g.
Proof.
  intros Hk [Hv [Hf [Hz _]%Forall_cons]%Forall_cons]%Forall_cons Ho Hx. unfold segment_ok, is_nonneg in *. destruct o as [x|].
  - destruct Hk as (_ & p & -> & Hp & Hl & _). destruct (Hx x eq_refl) as [Hok Hk]. cbn in *.
    destruct (sc_there _ _ Hok Hk) as (? & _). lia.
  - cbn in Hk. lia.
Qed.

Lemma last_of_ok coff ss k x : Forall (scn_ok coff) ss -> last_of k ss = Some x -> scn_ok coff x /\ section_kind x = k.
Proof.
  intros Hss [Hk Hx]%last_Some_elem_of%list_elem_of_filter. split; [|done]. by eapply list.Forall_forall.
Qed.

(** The image of a program is that of the sections it was made of. *)
Lemma exec_byte_kept (f : fs) exe coff ss out h a :
  f !! exe = Some out -> kept coff (last_of Text ss) (code h) out -> kept coff (last_of Data ss) (initData h) out ->
  exec_byte f exe h a = coff_byte coff ss a.
Proof.
  intros Hf Hc Hd. unfold exec_byte, coff_byte. rewrite Hf. rewrite <- (kept_byte _ _ _ _ a Hc), <- (kept_byte _ _ _ _ a Hd).
  by repeat destruct (_ && _).
Qed.

Lemma divRoundUp_small n : 0 <= n -> n < 2 ^ 31 - 2048 -> divRoundUp (u32 n) PageSize * PageSize <= 2 ^ 31.
Proof.
  intros H0 Hn. rewrite u32_small by (unfold is_u32; lia).
  pose proof (divRoundUp_bounds n PageSize H0 ltac:(done)). change PageSize with 128 in *. lia.
Qed.

(** C30: what coff2noff makes of a COFF file it can take is a program Nachos can load, and
    every page of it is what the sections of the COFF file say: the bytes of .text and
    .data (or .rdata) at their addresses, zero elsewhere; the room that is set aside
    is that of .bss (or .sbss).  The file system may hold anything else; what the
    stack of the tool held does not matter, as long as it is no negative address. *)
Theorem coff2noff_image coff ss stack :
  coff_ok coff ss -> Forall is_nonneg (noff_ints stack) ->
  exists out h,
    coff2noff coff stack = Ok (Some out) /\
    seg_size (uninitData h) = default 0 (s_size <$> last_of Bss ss) /\
    forall (f : fs) exe, f !! exe = Some out -> loadable f exe h /\ forall v, exec_page f exe h v = coff_page coff ss v.
Proof.
  intros [(f0 & Hr & Hf0) Hss Hd Hb Hsm] Hst. unfold coff2noff, and_then. rewrite Hr. cbn [bindr].
  change (lseek (mkFd [] 0) 40) with (mkFd [] 40). set (s0 := mkConv f0 (mkFd [] 40) (NoffHeader_new stack) 40).
  assert (converted coff [] s0) as Hv0.
  { split; try done. destruct stack as [m [a b c] [d e f] [g i j]].
    apply Forall_cons in Hst as [_ [Hst1 [Hst2 Hst3]%list.Forall_app]%list.Forall_app].
    do 3 match goal with H : Forall _ (segment_ints _) |- _ => apply Forall_cons in H as [? [? _]%Forall_cons] end.
    by repeat apply Forall_cons_2. }
  destruct (copy_sections_ok coff ss [] s0 Hv0) as (s & Es & [_ _ He Hm Hn Hc Hda Hbs]); try done; [change ([] ++ ss) with ss; lia|].
  change ([] ++ ss) with ss in *.
  rewrite Es. cbn [bindr]. change (position _) with 0. set (h := noffH s) in *. set (d := contents (fdOut s)) in *.
  assert (length (noff_bytes h) = 40%nat) as Hl by apply ints_length.
  assert (Forall is_s32 (noff_ints h)) as Hn' by (eapply Forall_impl; [exact Hn|]; unfold is_nonneg, is_s32; intros; lia).
  eexists _, h. split; [reflexivity|]. split; [done|]. intros f exe Hf.
  cbn [contents Write position lseek Z.ltb Z.compare] in Hf. change (Z.to_nat 0) with 0%nat in Hf.
  set (out := overwrite d 0 (noff_bytes h)) in *.
  assert (take 40 out = noff_bytes h) as Ht.
  { unfold out, overwrite. rewrite take_0. change (replicate (0 - length d) 0) with (@nil Z). cbn [app]. by rewrite take_app_length' by (symmetry; exact Hl). }
  assert (zlen out < 2 ^ 31) as Hlo by (unfold out; rewrite length_overwrite; rewrite Hl; lia).
  assert (forall o g, kept coff o g d -> kept coff o g out) as Hk by (intros; apply kept_overwrite; [done|right; lia]).
  apply Hk in Hc, Hda. split; [|by intros v; apply list_fmap_ext; intros; eapply exec_byte_kept].
  pose proof (last_sizes coff ss Hss) as Hsz. rewrite <- (kept_size _ _ _ _ Hc), <- (kept_size _ _ _ _ Hda), <- Hbs in Hsz.
  pose proof Hn as [_ [Hn1 [Hn2 Hn3]%list.Forall_app]%list.Forall_app]%Forall_cons. split.
  - intros junk. by eapply read_header_ok.
  - split; (eapply kept_segment; [done..|]); intros x Hx; apply (last_of_ok coff) in Hx as [? ?]; auto.
  - apply divRoundUp_small; unfold UserStackSize, ArgumentSize; [|lia].
    apply Forall_cons in Hn1 as [_ [_ [? _]%Forall_cons]%Forall_cons], Hn2 as [_ [_ [? _]%Forall_cons]%Forall_cons],
      Hn3 as [_ [_ [? _]%Forall_cons]%Forall_cons]. unfold is_nonneg, UserStackSize, ArgumentSize in *. lia.
Qed.

(** A second section of uninitialized data is refused where it follows the first, and
    accepted where it does not; then the segment stands for neither.  (The comment in
    the source asks for the opposite.) *)
Lemma bss_inverted x s :
  section_kind x = Bss -> seg_size (uninitData (noffH s)) <> 0 ->
  let u := uninitData (noffH s) in
  (s_paddr x = s32 (virtualAddr u + seg_size u) -> copy_section x s = Ok None) /\
  (s_paddr x <> s32 (virtualAddr u + seg_size u) -> exists s', copy_section x s = Ok (Some s') /\
     uninitData (noffH s') = mkSegment (virtualAddr u) (inFileAddr u) (s32 (seg_size u + s_size x))).
Proof.
  intros Hk Hu u. unfold copy_section. rewrite Hk, (proj2 (Z.eqb_neq _ _) Hu). cbn [negb]. fold u. split; intros Hp.
  - by rewrite Hp, Z.eqb_refl.
  - rewrite (proj2 (Z.eqb_neq _ _) Hp). by eexists.
Qed.
End Tools.

(** ** A program of three sections *)
#[local] Existing Instance i386.

Definition demo_scn (n : list Z) (paddr size scnptr : Z) : list Z :=
  n ++ replicate (8 - length n) 0 ++ concat (host_bytes 4 <$> [paddr; paddr; size; scnptr]) ++ replicate 16 0.
Definition demo_coff : list Z :=
  host_bytes 2 MIPSELMAGIC ++ host_bytes 2 3 ++ replicate 16 0 ++ host_bytes 2 OMAGIC ++ replicate 54 0 ++
  demo_scn dot_text 0 4 196 ++ demo_scn dot_rdata 16 2 200 ++ demo_scn dot_bss 32 8 0 ++ [10; 20; 30; 40; 50; 60].
Definition demo_stack : NoffHeader := mkNoff 1 (mkSegment 2 3 4) (mkSegment 5 6 7) (mkSegment 8 9 10).
Definition demo_sections : list scnhdr :=
  match read_sections (mkFd demo_coff 0) with Ok (Some (_, ss)) => ss | _ => [] end.

Lemma demo_coff_ok : coff_ok demo_coff demo_sections.
Proof.
  split.
  - eexists. split; [vm_compute; reflexivity|]. reflexivity.
  - assert (demo_sections = [mkScn (dot_text ++ [0; 0; 0]) 0 4 196; mkScn (dot_rdata ++ [0; 0]) 16 2 200; mkScn (dot_bss ++ [0; 0; 0; 0]) 32 8 0]) as ->
      by (vm_compute; reflexivity).
    repeat apply Forall_cons_2; [..|done].
    all: split; unfold is_nonneg; cbn; [lia|by vm_compute|intros [H|H]; first [by vm_compute in H|lia|vm_compute; split_and!; congruence]].
  - vm_compute. lia.
  - vm_compute. lia.
  - vm_compute. reflexivity.
Qed.

Lemma coff2noff_image_witness :
  exists out h, coff2noff demo_coff demo_stack = Ok (Some out) /\ seg_size (uninitData h) = 8 /\
    loadable {[[120] := out]} [120] h /\ exec_page {[[120] := out]} [120] h 0 = coff_page demo_coff demo_sections 0 /\
    take 20 (coff_page demo_coff demo_sections 0) = [10; 20; 30; 40; 0; 0; 0; 0; 0; 0; 0; 0; 0; 0; 0; 0; 50; 60; 0; 0].
Proof.
  destruct (coff2noff_image demo_coff demo_sections demo_stack demo_coff_ok) as (out & h & E & Hb & H).
  - repeat apply Forall_cons_2; [unfold is_nonneg; cbn; lia..|apply Forall_nil_2].
  - exists out, h. split; [exact E|]. split; [rewrite Hb; vm_compute; reflexivity|].
    destruct (H {[[120] := out]} [120] (lookup_singleton_eq _ _)) as [Hl Hp].
    split; [exact Hl|]. split; [exact (Hp 0)|]. vm_compute. reflexivity.
Defined.
