(* ===== verification/UserMemory.v ===== *)
(** The kernel's use of user memory: how the system calls of userprog/exception.cc
    read and write the buffers and strings of the process that calls them, through
    Machine::ReadMem and Machine::WriteMem, with the page faults this may cause.

    A failed access is tried a second time, since the first may have brought the
    page in.  On top of the pager's invariant, for first-in-first-out replacement, it is shown that the second try
    cannot fail, so that Read, Write and Exec see the process's memory as the
    process itself does, whatever pages are resident. *)
From Stdlib Require Import ZArith Lia Bool.
From stdpp Require Import base numbers list gmap fin_maps.
From S2P Require Import Prelude Bitmap Lists Machine Tables CoreMap Vm Paging.

Section UserMemory.
Context {host : Host} (junk : list Z).

(** The kernel as the machine traps into it while the kernel itself accesses user
    memory: ExceptionHandler without the system calls, which no access raises.
    SysCallExit, which ends the process, does not come back. *)
Definition memory_exception (which : ExceptionType) (k : Vm) : res Vm :=
  match which with
  | PageFaultException =>
      '(k, val) <- page_fault k junk ;; if val =? 0 then Ok k else Err Killed
  | SyscallException => Err WildAccess
  | _ => Err Killed
  end.

Definition Cpu : Type := Vm * MachineStatus.

(** The clock is not involved. *)
Context (tick : Cpu -> res Cpu).

#[export] Instance Cpu_kernel : Kernel Cpu := {
  machine k := vm k.1;
  set_machine m k := (set_vm m k.1, k.2);
  getStatus := snd;
  setStatus s k := (k.1, s);
  ExceptionHandler which k := v <- memory_exception which k.1 ;; Ok (v, k.2);
  OneTick := tick
}.

#[export] Instance Cpu_laws : KernelLaws Cpu.
Proof. by constructor. Qed.

(** [!ReadMem(...) && !ReadMem(...)], and the same for WriteMem. *)
Definition try_read (addr size : Z) (k : Cpu) : res (Cpu * option Z) :=
  '(k, r) <- ReadMem addr size k ;;
  match r with Some v => Ok (k, Some v) | None => ReadMem addr size k end.
Definition try_write (addr size value : Z) (k : Cpu) : res (Cpu * bool) :=
  '(k, b) <- WriteMem addr size value k ;;
  if b : bool then Ok (k, true) else WriteMem addr size value k.

(** ** One access *)

(** A process runs: the page table of the machine is that of its address space, and the
    pager's invariant holds, with first-in-first-out replacement ([Inv]). *)
Record running (k : Vm) (l : list (positive * page_data)) (sp : AddrSpace) (t : positive) : Prop := {
  ru_inv : Inv k l;
  ru_space : spaces k !! current k = Some sp;
  ru_t : Vm.pageTable sp = Some t;
  ru_table : Machine.pageTable (vm k) = Some t;
  ru_size : pageTableSize (vm k) = numPages sp;
  ru_load : 0 <= reg (vm k) LoadReg < NumGPRegs
}.

(** The byte the process sees at an address. *)
Definition user_byte (k : Vm) (va : Z) : option Z :=
  pg ← content k (current k) (u32 va / PageSize); pg !! Z.to_nat (u32 va mod PageSize).

(** Nothing has changed but which pages are where. *)
Definition same_contents (k k' : Vm) : Prop :=
  current k' = current k /\ forall a u, 0 <= u -> content k' a u = content k a u.

Lemma page_number va : 0 <= u32 va / PageSize /\ 0 <= u32 va mod PageSize < PageSize.
Proof. split; [apply Z.div_pos; [apply u32_range|done]|by apply Z.mod_pos_bound]. Qed.

Lemma same_user_byte k k' va : same_contents k k' -> user_byte k' va = user_byte k va.
Proof. intros [Hc Hs]. unfold user_byte. by rewrite Hc, Hs by apply page_number. Qed.

Lemma same_refl k : same_contents k k.
Proof. by split. Qed.

Lemma same_trans k1 k2 k3 : same_contents k1 k2 -> same_contents k2 k3 -> same_contents k1 k3.
Proof. intros [H1 H2] [H3 H4]. split; [congruence|]. intros. by rewrite H4, H2. Qed.

(** Where the access to a resident page goes. *)
Lemma Translate_run (m : Machine) t tab e va size w :
  Machine.wf m -> Machine.pageTable m = Some t -> tables m !! t = Some tab ->
  u32 va / PageSize < pageTableSize m -> tab !! Z.to_nat (u32 va / PageSize) = Some e -> valid e = true ->
  readOnly e = false -> 0 <= Machine.physicalPage e < NumPhysPages -> access_size size -> aligned va size ->
  Translate m va size w =
    Ok (set_tables m (<[t := <[Z.to_nat (u32 va / PageSize) := touch w e]> tab]> (tables m)),
        inr (Machine.physicalPage e * PageSize + u32 va mod PageSize)).
Proof.
  intros Hwf Hp Ht Hs He Hv Hro Hf Hsz Hal. unfold Translate.
  destruct (page_number va) as [Hq Hr].
  destruct (_ || _) eqn:Hmis; [by apply (misaligned_spec va size Hsz) in Hmis|]. clear Hmis.
  assert (tlb m = None) as Htlb by (destruct (wf_lookup _ Hwf) as [(? & _ & ?)|[? _]]; congruence).
  rewrite Htlb, Hp. cbn [is_some ASSERT bindr andb orb negb]. unfold lookup_entry, table_entry. rewrite Htlb, Hp, Ht.
  destruct (Z.geb_spec (u32 va / PageSize) (pageTableSize m)); [lia|].
  rewrite (proj2 (aget_Ok tab _ e)) by done. cbn [bindr]. rewrite Hv. cbn [negb bindr]. rewrite Hro. cbn [andb].
  pose proof (aligned_fits va size Hsz Hal) as Hfit.
  assert (1 <= size) as Hs1 by (destruct Hsz as [->|[->| ->]]; lia).
  unfold NumPhysPages, MemorySize, NumPhysPages, PageSize, SectorSize in *.
  rewrite (u32_small (Machine.physicalPage e)) by (unfold is_u32; lia).
  destruct (Z.geb_spec (Machine.physicalPage e) 32); [lia|].
  rewrite u32_small by (unfold is_u32; lia). rewrite s32_small by (unfold is_s32; lia).
  rewrite ASSERT_true by lia. cbn [bindr store_entry]. f_equal. f_equal. f_equal. apply map_eq. intros q.
  destruct (decide (q = t)) as [->|Hne]; [by rewrite lookup_alter_eq, lookup_insert_eq, Ht|].
  by rewrite lookup_alter_ne, lookup_insert_ne.
Qed.

(** The state after an access to page [v]: its entry touched, [mem] in memory. *)
Definition accessed (k : Vm) (t : positive) (tab : list TranslationEntry) (v : Z) (e : TranslationEntry)
    (w : bool) (mem : list Z) : Vm :=
  set_vm (set_mainMemory (set_tables (vm k) (<[t := <[Z.to_nat v := touch w e]> tab]> (tables (vm k)))) mem) k.

(** A resident page and its frame. *)
Lemma resident k l a sp bs st t tab h d v e :
  Inv k l -> space_ok k l.*2 a sp bs st t tab h d -> 0 <= v -> tab !! Z.to_nat v = Some e -> valid e = true ->
  (bs, Machine.physicalPage e, v) ∈ l.*2 /\ 0 <= Machine.physicalPage e < NumPhysPages /\
  forall b f u, (b, f, u) ∈ l.*2 -> (b, u) <> (bs, v) -> f <> Machine.physicalPage e /\ 0 <= f.
Proof.
  intros Hi Hso Hv He Hval. destruct (so_valid _ _ _ _ _ _ _ _ _ _ Hso v e Hv He Hval) as [Hin _].
  split; [done|]. split; [by apply (inv_pages _ _ Hi bs _ v)|].
  intros b f u Hin' Hne. split; [|by apply (inv_pages _ _ Hi b f u)]. intros ->. apply Hne.
  apply list_elem_of_lookup in Hin as [i Hi1], Hin' as [j Hj1].
  assert (i = j) as ->.
  { apply (NoDup_lookup _ i j (Machine.physicalPage e) (inv_nodup _ _ Hi)); rewrite list_lookup_fmap; 
      [exact (f_equal (fmap (fun x : page_data => x.1.2)) Hi1)|exact (f_equal (fmap (fun x : page_data => x.1.2)) Hj1)]. }
  congruence.
Qed.

Lemma access_accounted k l a sp bs st t tab h d v e w mem :
  Inv k l -> space_ok k l.*2 a sp bs st t tab h d -> 0 <= v -> tab !! Z.to_nat v = Some e -> valid e = true ->
  zlen mem = MemorySize -> Forall is_byte mem ->
  (forall g, 0 <= g -> g <> Machine.physicalPage e -> bytes_of mem (g * PageSize) PageSize = frame k g) ->
  (w = false -> mem = mainMemory (vm k)) ->
  accounted k (accessed k t tab v e w mem) l l a sp bs st st t tab h d d v e (touch w e).
Proof.
  intros Hi Hso Hv He Hval Hlen Hby Hother Hw.
  destruct (resident k l a sp bs st t tab h d v e Hi Hso Hv He Hval) as (Hin & Hf & Hne).
  pose proof (lookup_range _ _ _ Hv He) as Hr.
  assert (valid (touch w e) = true /\ Machine.physicalPage (touch w e) = Machine.physicalPage e) as [Hval' Hp]
    by by destruct w.
  split; try done; rewrite ?Hp; try apply Hso; try apply Hi.
  - split; try done; cbn; [|by rewrite insert_id by apply Hso..]. by rewrite insert_id by apply Hso.
  - apply (inv_bytes _ _ Hi (filename st)). apply Hso.
  - intros b f u Hin' Hne'. split; [done|]. destruct (Hne b f u Hin' Hne') as [H1 H2]. by apply Hother.
  - intros b f u Hin'. destruct (decide ((b, u) = (bs, v))) as [[= -> ->]|Hd]; [right|by left].
    split; [|split; [done|by apply (inv_pages _ _ Hi bs f v)]].
    destruct (inv_pages _ _ Hi bs f v Hin') as (_ & _ & st2 & sp2 & t2 & tab2 & e2 & I1 & I2 & I3 & I4 & I5 & I6 & _ & <-).
    assert (st2 = st) as -> by (pose proof (so_st _ _ _ _ _ _ _ _ _ _ Hso); congruence).
    assert (sp2 = sp) as -> by (pose proof (so_space _ _ _ _ _ _ _ _ _ _ Hso); pose proof (so_back _ _ _ _ _ _ _ _ _ _ Hso); congruence).
    assert (t2 = t) as -> by (pose proof (so_t _ _ _ _ _ _ _ _ _ _ Hso); congruence).
    assert (tab2 = tab) as -> by (pose proof (so_tab _ _ _ _ _ _ _ _ _ _ Hso); congruence).
    congruence.
  - intros _. split; [done|]. destruct w; [done|]. intros Hd. cbn in Hd.
    rewrite (Hw eq_refl). apply (so_valid _ _ _ _ _ _ _ _ _ _ Hso v e Hv He Hval). done.
  - split; [apply (inv_map _ _ Hi)|done].
  - apply wf_set_mainMemory; [|done..]. apply (wf_put _ t tab); [apply Hi|apply Hso|by rewrite length_insert].
  - pose proof (Forall_lookup_1 _ _ _ _ (so_writable _ _ _ _ _ _ _ _ _ _ Hso) He) as Hro. by destruct w.
Qed.

Lemma running_space k l sp t :
  running k l sp t -> exists bs st tab h d, space_ok k l.*2 (current k) sp bs st t tab h d.
Proof.
  intros [Hi Hs Ht _ _ _]. destruct (inv_spaces _ _ Hi (current k)) as (sp' & bs & st & t' & tab & h & d & Hso); [by eexists|].
  assert (sp' = sp) as -> by (pose proof (so_space _ _ _ _ _ _ _ _ _ _ Hso); congruence).
  assert (t' = t) as -> by (pose proof (so_t _ _ _ _ _ _ _ _ _ _ Hso); congruence). by eexists _, _, _, _, _.
Qed.

Lemma accessed_running k l sp t tab v e w mem :
  running k l sp t -> Inv (accessed k t tab v e w mem) l -> running (accessed k t tab v e w mem) l sp t.
Proof. intros [] Hi. by split. Qed.

Lemma bytes_of_within m a n p s :
  0 <= a -> 0 <= p -> p + s <= n -> bytes_of (bytes_of m a n) p s = bytes_of m (a + p) s.
Proof.
  intros. unfold bytes_of. rewrite skipn_firstn_comm, drop_drop, take_take. f_equal; [lia|]. f_equal. lia.
Qed.

Lemma lookup_within (m : list Z) a n p :
  0 <= a -> 0 <= p < n -> bytes_of m a n !! Z.to_nat p = m !! Z.to_nat (a + p).
Proof. intros. unfold bytes_of. rewrite lookup_take_lt, lookup_drop by lia. f_equal. lia. Qed.

(** What an access of [size] bytes reads. *)
Definition user_value (k : Vm) (va size : Z) : option Z :=
  pg ← content k (current k) (u32 va / PageSize);
  Some (extend size (le_value (bytes_of pg (u32 va mod PageSize) size))).

(** The page of [va] as the process sees it. *)
Definition page_seen (k : Vm) (va : Z) (pg : list Z) : Prop :=
  content k (current k) (u32 va / PageSize) = Some pg /\ zlen pg = PageSize /\ Forall is_byte pg.

Lemma same_user_value k k' va size : same_contents k k' -> user_value k' va size = user_value k va size.
Proof. intros [Hc Hs]. unfold user_value. by rewrite Hc, Hs by apply page_number. Qed.

(** The page of [va] is mapped. *)
Definition mapped (k : Vm) (t : positive) (va : Z) : Prop :=
  exists tab e, tables (vm k) !! t = Some tab /\ tab !! Z.to_nat (u32 va / PageSize) = Some e /\ valid e = true.

Lemma read_mapped (k : Cpu) l sp t va size :
  running k.1 l sp t -> mapped k.1 t va -> u32 va / PageSize < numPages sp -> access_size size -> aligned va size ->
  exists k' v, ReadMem va size k = Ok (k', Some v) /\ running k'.1 l sp t /\ same_contents k.1 k'.1 /\
    user_value k.1 va size = Some v /\ exists pg, page_seen k.1 va pg.
Proof.
  destruct k as [k stt]. cbn [fst]. intros Hrun (tab & e & Ht & He & Hv) Hpg Hsz Hal.
  destruct (running_space _ _ _ _ Hrun) as (bs & st & tab' & h & d & Hso).
  assert (tab' = tab) as -> by (pose proof (so_tab _ _ _ _ _ _ _ _ _ _ Hso); congruence).
  pose proof (ru_inv _ _ _ _ Hrun) as Hi. pose proof (inv_machine _ _ Hi) as Hwf.
  destruct (page_number va) as [Hq Hr].
  destruct (resident _ _ _ _ _ _ _ _ _ _ _ _ Hi Hso Hq He Hv) as (_ & Hf & _).
  unfold ReadMem. cbn [machine Cpu_kernel fst snd].
  rewrite (Translate_run _ t tab e) by
    (done || apply Hrun || (by rewrite (ru_size _ _ _ _ Hrun)) || apply (Forall_lookup_1 _ _ _ _ (so_writable _ _ _ _ _ _ _ _ _ _ Hso) He)).
  cbn [bindr machine set_machine Cpu_kernel fst snd].
  pose proof (aligned_fits va size Hsz Hal) as Hfit. pose proof (wf_memory _ Hwf) as Hlen.
  assert (1 <= size) as Hs1 by (destruct Hsz as [->|[->| ->]]; lia).
  rewrite read_data_le; [|done|apply Hwf|unfold PageSize, SectorSize in *; lia|cbn; unfold NumPhysPages, MemorySize, NumPhysPages, PageSize, SectorSize in *; lia].
  cbn [bindr]. pose proof (access_accounted k l (current k) sp bs st t tab h d _ e false (mainMemory (vm k)) Hi Hso Hq He Hv
    Hlen (wf_bytes _ Hwf) (fun g _ _ => eq_refl) (fun _ => eq_refl)) as Hac.
  set (k' := accessed k t tab (u32 va / PageSize) e false (mainMemory (vm k))) in *.
  change (set_vm (set_tables (vm k) (<[t := <[Z.to_nat (u32 va / PageSize) := touch false e]> tab]> (tables (vm k)))) k) with k'.
  destruct (accounted_here _ _ _ _ _ _ _ _ _ _ _ _ _ _ _ _ _ Hac Hi) as [C1 C2].
  eexists (k', stt), _. split; [done|]. cbn [fst].
  split; [apply accessed_running; [done|]; by apply (accounted_Inv _ _ _ _ _ _ _ _ _ _ _ _ _ _ _ _ _ Hac)|].
  split.
  - split; [done|]. apply (accounted_content _ _ _ _ _ _ _ _ _ _ _ _ _ _ _ _ _ Hac Hi). cbn [valid touch set_use].
    rewrite Hv. reflexivity.
  - split.
    + unfold user_value. rewrite C1, Hv. cbn. unfold frame. rewrite bytes_of_within by (unfold PageSize, SectorSize in *; lia). reflexivity.
    + rewrite Hv in C1. destruct (frame_in k (Machine.physicalPage e) Hwf Hf) as (_ & H1 & H2). by eexists.
Qed.

(** One byte of the process has changed. *)
Definition written (k k' : Vm) (va b : Z) : Prop :=
  current k' = current k /\
  (forall a u, 0 <= u -> a <> current k -> content k' a u = content k a u) /\
  user_byte k' va = Some b /\
  forall va', u32 va' <> u32 va -> user_byte k' va' = user_byte k va'.

Lemma write_mapped (k : Cpu) l sp t va v :
  running k.1 l sp t -> mapped k.1 t va -> u32 va / PageSize < numPages sp ->
  exists k', WriteMem va 1 v k = Ok (k', true) /\ running k'.1 l sp t /\ written k.1 k'.1 va (v mod 256).
Proof.
  destruct k as [k stt]. cbn [fst]. intros Hrun (tab & e & Ht & He & Hv) Hpg.
  destruct (running_space _ _ _ _ Hrun) as (bs & st & tab' & h & d & Hso).
  assert (tab' = tab) as -> by (pose proof (so_tab _ _ _ _ _ _ _ _ _ _ Hso); congruence).
  pose proof (ru_inv _ _ _ _ Hrun) as Hi. pose proof (inv_machine _ _ Hi) as Hwf.
  destruct (page_number va) as [Hq Hr].
  destruct (resident _ _ _ _ _ _ _ _ _ _ _ _ Hi Hso Hq He Hv) as (_ & Hf & _).
  assert (access_size 1) as Hsz by by left. assert (aligned va 1) as Hal by apply Z.mod_1_r.
  unfold WriteMem. cbn [machine Cpu_kernel fst snd].
  rewrite (Translate_run _ t tab e) by
    (done || apply Hrun || (by rewrite (ru_size _ _ _ _ Hrun)) || apply (Forall_lookup_1 _ _ _ _ (so_writable _ _ _ _ _ _ _ _ _ _ Hso) He)).
  cbn [bindr machine set_machine Cpu_kernel fst snd].
  pose proof (wf_memory _ Hwf) as Hlen. set (f := Machine.physicalPage e) in *.
  set (o := Z.to_nat (u32 va mod PageSize)).
  assert (u32 va mod PageSize = Z.of_nat o) as Eo by (unfold o; lia).
  assert (o < Z.to_nat PageSize)%nat as Ho by lia.
  rewrite write_data_le; [|done|unfold PageSize, SectorSize in *; lia|
    cbn; unfold NumPhysPages, MemorySize, NumPhysPages, PageSize, SectorSize in *; lia].
  change (le_bytes (Z.to_nat 1) v) with [v mod 256]. cbn [bindr mainMemory set_tables]. rewrite Eo.
  set (mem := patch (mainMemory (vm k)) (f * PageSize + Z.of_nat o) [v mod 256]).
  assert (zlen mem = MemorySize) as Hl'.
  { unfold mem. rewrite length_patch; [done| |]; cbn [length];
      unfold NumPhysPages, MemorySize, NumPhysPages, PageSize, SectorSize in *; lia. }
  assert (Forall is_byte mem) as Hby.
  { apply patch_bytes; [apply Hwf|]. constructor; [|done]. unfold is_byte. apply Z.mod_pos_bound. lia. }
  assert (forall g, 0 <= g -> g <> f -> bytes_of mem (g * PageSize) PageSize = frame k g) as Hother.
  { intros g Hg Hne. unfold mem, frame. apply bytes_of_patch_other; cbn [length];
      unfold NumPhysPages, MemorySize, NumPhysPages, PageSize, SectorSize in *; lia. }
  pose proof (access_accounted k l (current k) sp bs st t tab h d _ e true mem Hi Hso Hq He Hv Hl' Hby Hother
    ltac:(done)) as Hac.
  set (k' := accessed k t tab (u32 va / PageSize) e true mem) in *.
  destruct (accounted_here _ _ _ _ _ _ _ _ _ _ _ _ _ _ _ _ _ Hac Hi) as [C1 C2].
  exists (k', stt). split; [done|]. cbn [fst].
  split; [apply accessed_running; [done|]; by apply (accounted_Inv _ _ _ _ _ _ _ _ _ _ _ _ _ _ _ _ _ Hac)|].
  pose proof (accounted_elsewhere _ _ _ _ _ _ _ _ _ _ _ _ _ _ _ _ _ Hac Hi) as Hel.
  assert (content k' (current k) (u32 va / PageSize) = Some (<[o := v mod 256]> (frame k f))) as C3.
  { rewrite C2. change (valid (touch true e)) with (valid e). rewrite Hv. unfold frame. f_equal.
    by apply bytes_of_patch_byte. }
  assert (length (frame k f) = Z.to_nat PageSize) as Hfl.
  { destruct (frame_in k f Hwf Hf) as (_ & Hfl & _). lia. }
  split; [done|]. split; [intros a u Hu Ha; apply Hel; [done|congruence]|]. split.
  - unfold user_byte. change (current k') with (current k). rewrite C3. cbn. rewrite Eo, Nat2Z.id.
    apply list_lookup_insert_eq. lia.
  - intros va' Hne. unfold user_byte. change (current k') with (current k). destruct (page_number va') as [Hq' Hr'].
    destruct (decide (u32 va' / PageSize = u32 va / PageSize)) as [E|Hd].
    + rewrite E, C3, C1, Hv. cbn. apply list_lookup_insert_ne. intros Eo'. apply Hne.
      rewrite (Z.div_mod (u32 va') PageSize), (Z.div_mod (u32 va) PageSize), E by done. lia.
    + rewrite Hel; [done..|congruence].
Qed.

(** ** A fault in between *)

Lemma Inv_registers k l r :
  Inv k l -> zlen r = NumTotalRegs -> Inv (set_vm (set_registers (vm k) r) k) l.
Proof.
  intros [[[W1 W2 W3 W4] I3 I4 I5 I6 I7 I8 I9 I10 I11 I12 I13] I2] Hr. split; [|done]. split; try done.
  intros a Ha. destruct (I10 a Ha) as (sp & bs & st & t & tab & h & d & []).
  exists sp, bs, st, t, tab, h, d. by split.
Qed.

(** The registers RaiseException leaves to the handler. *)
Lemma DelayedLoad_trap (m : Machine) va :
  zlen (registers m) = NumTotalRegs -> 0 <= reg m LoadReg < NumGPRegs ->
  exists r, DelayedLoad (set_reg BadVAddrReg va m) 0 0 = Ok (set_registers m r) /\ zlen r = NumTotalRegs /\
    reg (set_registers m r) BadVAddrReg = va /\ reg (set_registers m r) LoadReg = 0.
Proof.
  unfold NumTotalRegs, NumGPRegs. intros Hl Hr. unfold DelayedLoad.
  set (m1 := set_reg BadVAddrReg va m).
  assert (reg m1 LoadReg = reg m LoadReg) as El by (unfold reg, m1; cbn; by apply list_lookup_total_insert_ne).
  rewrite El. unfold m1. cbn [registers set_reg set_registers]. rewrite aset_in by (rewrite length_insert; lia). cbn [bindr].
  unfold set_reg. cbn [registers set_registers]. eexists. split; [reflexivity|].
  split; [rewrite !length_insert; exact Hl|]. clear El. unfold reg in *. cbn [registers set_registers].
  change (Z.to_nat BadVAddrReg) with 39%nat. change (Z.to_nat LoadReg) with 37%nat in *.
  change (Z.to_nat LoadValueReg) with 38%nat. change (Z.to_nat 0) with 0%nat. split.
  - rewrite !list_lookup_total_insert_ne by lia. apply list_lookup_total_insert_eq. lia.
  - rewrite !list_lookup_total_insert_ne by lia. apply list_lookup_total_insert_eq. rewrite !length_insert. lia.
Qed.

Lemma fault_in (k : Cpu) l sp t va :
  running k.1 l sp t -> ~ mapped k.1 t va -> u32 va / PageSize < numPages sp ->
  exists k' l', RaiseException PageFaultException va k = Ok k' /\ running k'.1 l' sp t /\
    mapped k'.1 t va /\ same_contents k.1 k'.1.
Proof.
  destruct k as [k stt]. cbn [fst]. intros Hrun Hno Hpg.
  destruct (running_space _ _ _ _ Hrun) as (bs & st & tab & h & d & Hso).
  pose proof (ru_inv _ _ _ _ Hrun) as Hi. destruct (page_number va) as [Hq _].
  destruct (DelayedLoad_trap (vm k) va (wf_registers _ (inv_machine _ _ Hi)) (ru_load _ _ _ _ Hrun)) as (r & E & Hl & Hbad & Hld).
  unfold RaiseException. cbn [machine Cpu_kernel fst snd]. rewrite E. cbn [bindr].
  set (k1 := set_vm (set_registers (vm k) r) k).
  pose proof (Inv_registers k l r Hi Hl) as Hi1. fold k1 in Hi1.
  destruct (lookup_lt_is_Some_2 tab (Z.to_nat (u32 va / PageSize))) as [e He];
    [pose proof (so_len _ _ _ _ _ _ _ _ _ _ Hso); lia|].
  destruct (page_fault_ok k1 l sp t (u32 va / PageSize) junk Hi1) as
    (k2 & l2 & E2 & Hi2 & Hc2 & Hr2 & Hp2 & Hs2 & Hsp2 & Hcur2 & tab2 & e2 & Ht2 & He2 & Hv2 & _); try done.
  - apply Hrun.
  - apply Hrun.
  - unfold k1. cbn [vm set_vm]. by rewrite Hbad.
  - exists e. split; [apply (get_entry_ok k1 t tab); [apply Hso|done|done]|]. apply not_true_is_false. intros Hv.
    apply Hno. exists tab, e. split; [apply Hso|done].
  - cbn [ExceptionHandler Cpu_kernel setStatus set_machine fst snd]. fold k1. unfold memory_exception. rewrite E2.
    cbn [bindr Z.eqb]. eexists (k2, _), l2. split; [reflexivity|]. cbn [fst].
    split; [|split; [by exists tab2, e2|by split]]. destruct Hrun. split; try done.
    + by rewrite Hsp2, Hcur2.
    + by rewrite Hp2.
    + by rewrite Hs2.
    + unfold reg. rewrite Hr2. fold (reg (vm k1) LoadReg). unfold k1. cbn [vm set_vm]. rewrite Hld. done.
Qed.

(** The page of an address in the space is resident or faults. *)
Lemma Translate_fault (k : Vm) l sp t va size w :
  running k l sp t -> ~ mapped k t va -> u32 va / PageSize < numPages sp -> access_size size -> aligned va size ->
  Translate (vm k) va size w = Ok (vm k, inl PageFaultException).
Proof.
  intros Hrun Hno Hpg Hsz Hal. destruct (running_space _ _ _ _ Hrun) as (bs & st & tab & h & d & Hso).
  pose proof (inv_machine _ _ (ru_inv _ _ _ _ Hrun)) as Hwf. destruct (page_number va) as [Hq _].
  unfold Translate. destruct (_ || _) eqn:Hmis; [by apply (misaligned_spec va size Hsz) in Hmis|]. clear Hmis.
  pose proof (ru_table _ _ _ _ Hrun) as Hp.
  assert (tlb (vm k) = None) as Htlb by (destruct (wf_lookup _ Hwf) as [(? & _ & ?)|[? _]]; congruence).
  rewrite Htlb, Hp. cbn [is_some ASSERT bindr andb orb negb]. unfold lookup_entry, table_entry.
  rewrite Htlb, Hp, (ru_size _ _ _ _ Hrun), (so_tab _ _ _ _ _ _ _ _ _ _ Hso).
  destruct (Z.geb_spec (u32 va / PageSize) (numPages sp)); [lia|].
  destruct (lookup_lt_is_Some_2 tab (Z.to_nat (u32 va / PageSize))) as [e He];
    [pose proof (so_len _ _ _ _ _ _ _ _ _ _ Hso); lia|].
  rewrite (proj2 (aget_Ok tab _ e)) by done. cbn [bindr].
  assert (valid e = false) as ->; [|done]. apply not_true_is_false. intros Hv. apply Hno. exists tab, e.
  split; [apply Hso|done].
Qed.

Lemma mapped_dec (k : Vm) t va : mapped k t va \/ ~ mapped k t va.
Proof.
  destruct (tables (vm k) !! t) as [tab|] eqn:Ht; [|right; intros (? & ? & ? & _); congruence].
  destruct (tab !! Z.to_nat (u32 va / PageSize)) as [e|] eqn:He; [|right; intros (? & ? & ? & ? & _); congruence].
  destruct (valid e) eqn:Hv; [left; by exists tab, e|right; intros (? & ? & ? & ? & ?); congruence].
Qed.

(** The second try succeeds. *)
Lemma try_read_ok (k : Cpu) l sp t va size :
  running k.1 l sp t -> u32 va / PageSize < numPages sp -> access_size size -> aligned va size ->
  exists k' l' v, try_read va size k = Ok (k', Some v) /\ running k'.1 l' sp t /\ same_contents k.1 k'.1 /\
    user_value k.1 va size = Some v /\ exists pg, page_seen k.1 va pg.
Proof.
  intros Hrun Hpg Hsz Hal. unfold try_read. destruct (mapped_dec k.1 t va) as [Hm|Hm].
  - destruct (read_mapped k l sp t va size Hrun Hm Hpg Hsz Hal) as (k' & v & -> & H). cbn [bindr]. by exists k', l, v.
  - destruct (fault_in k l sp t va Hrun Hm Hpg) as (k1 & l1 & E & Hrun1 & Hm1 & Hs1).
    unfold ReadMem at 1. cbn [machine Cpu_kernel]. rewrite (Translate_fault _ _ _ _ _ _ _ Hrun Hm Hpg Hsz Hal). cbn [bindr].
    assert (set_machine (vm k.1) k = k) as -> by (destruct k as [[] ?]; reflexivity). rewrite E. cbn [bindr].
    destruct (read_mapped k1 l1 sp t va size Hrun1 Hm1 Hpg Hsz Hal) as (k' & v & -> & H1 & H2 & H3 & pg & H4 & H5).
    exists k', l1, v. split; [done|]. split; [done|]. split; [by eapply same_trans|].
    rewrite (same_user_value k.1 k1.1) in H3 by done. split; [done|]. exists pg. split; [|done].
    destruct Hs1 as [Hc Hs1]. rewrite Hc, Hs1 in H4 by apply page_number. done.
Qed.

Lemma same_written k1 k2 k3 va b : same_contents k1 k2 -> written k2 k3 va b -> written k1 k3 va b.
Proof.
  intros Hs (H1 & H2 & H3 & H4). pose proof Hs as [Hc Hct]. split; [congruence|]. split.
  - intros a u Hu Ha. rewrite H2 by congruence. by apply Hct.
  - split; [done|]. intros va' Hne. rewrite H4 by done. by apply same_user_byte.
Qed.

Lemma try_write_ok (k : Cpu) l sp t va v :
  running k.1 l sp t -> u32 va / PageSize < numPages sp ->
  exists k' l', try_write va 1 v k = Ok (k', true) /\ running k'.1 l' sp t /\ written k.1 k'.1 va (v mod 256).
Proof.
  intros Hrun Hpg. unfold try_write. destruct (mapped_dec k.1 t va) as [Hm|Hm].
  - destruct (write_mapped k l sp t va v Hrun Hm Hpg) as (k' & -> & H). cbn [bindr]. by exists k', l.
  - destruct (fault_in k l sp t va Hrun Hm Hpg) as (k1 & l1 & E & Hrun1 & Hm1 & Hs1).
    unfold WriteMem at 1. cbn [machine Cpu_kernel].
    rewrite (Translate_fault _ _ _ _ _ 1 _ Hrun Hm Hpg) by (by left || apply Z.mod_1_r). cbn [bindr].
    assert (set_machine (vm k.1) k = k) as -> by (destruct k as [[] ?]; reflexivity). rewrite E. cbn [bindr].
    destruct (write_mapped k1 l1 sp t va v Hrun1 Hm1 Hpg) as (k' & -> & H1 & H2).
    exists k', l1. split; [done|]. split; [done|]. by eapply same_written.
Qed.

(** ** Read and Write on the console *)

Definition space_bytes (k : Cpu) : res Z :=
  sp <- the_space k.1 (current k.1) ;; Ok (u32 (numPages sp * PageSize)).

(** The loop of Read2, [n] rounds before its end; [getchar] are the characters
    SynchConsole::GetChar returns to it.  The answer is count, or [None] when the
    routine returns from inside the loop. *)
Fixpoint Read2_loop (getchar : nat -> Z) (buffer : Z) (n i : nat) (k : Cpu) : res (Cpu * option Z) :=
  match n with
  | O => Ok (k, Some (Z.of_nat i))
  | S n =>
      size <- space_bytes k ;;
      if u32 (buffer + Z.of_nat i) >=? size then Ok (k, Some (Z.of_nat i))
      else
        '(k, b) <- try_write (s32 (buffer + Z.of_nat i)) 1 (getchar i) k ;;
        if b : bool then Read2_loop getchar buffer n (S i) k else Ok (k, None)
  end.

(** Read2 for a process that reads from the console: what it returns, and whether
    it returns with ReadLock held. *)
Definition Read2 (getchar : nat -> Z) (buffer size id : Z) (k : Cpu) : res (Cpu * (Z * bool)) :=
  if negb (id =? 0) then Ok (k, (-1, false))
  else
    bytes <- space_bytes k ;;
    if u32 buffer >=? bytes then Ok (k, (-1, false))
    else
      '(k, r) <- Read2_loop getchar buffer (Z.to_nat size) 0 k ;;
      match r with Some count => Ok (k, (count, false)) | None => Ok (k, (-1, true)) end.

(** The loop of Write2; [out] are the characters it has given to
    SynchConsole::PutChar, count of them. *)
Fixpoint Write2_loop (buffer : Z) (n i : nat) (out : list Z) (k : Cpu) : res (Cpu * (list Z * bool)) :=
  match n with
  | O => Ok (k, (out, false))
  | S n =>
      size <- space_bytes k ;;
      if u32 (buffer + Z.of_nat i) >=? size then Ok (k, (out, false))
      else
        '(k, r) <- try_read (s32 (buffer + Z.of_nat i)) 1 k ;;
        match r with
        | Some ch => Write2_loop buffer n (S i) (out ++ [s8 ch]) k
        | None => Ok (k, (out, true))
        end
  end.

Definition Write2 (buffer size id : Z) (k : Cpu) : res (Cpu * (Z * bool * list Z)) :=
  if negb (id =? 1) then Ok (k, (-1, false, []))
  else
    bytes <- space_bytes k ;;
    if u32 buffer >=? bytes then Ok (k, (-1, false, []))
    else
      '(k, (out, failed)) <- Write2_loop buffer (Z.to_nat size) 0 [] k ;;
      Ok (k, ((if failed : bool then -1 else zlen out), failed, out)).

(** ** The strings of Exec *)

Definition MAXSIZE : nat := 100.
Definition MAX : nat := 50.

(** Characters are read with [read] until one is 0, at most [n]; [arr] are those
    before.  [None] when [read] fails. *)
Fixpoint copy_loop (read : Z -> Cpu -> res (Cpu * option Z)) (str : Z) (n i : nat) (arr : list Z) (k : Cpu)
  : res (Cpu * option (list Z)) :=
  match n with
  | O => Ok (k, Some arr)
  | S n =>
      '(k, r) <- read (s32 (str + Z.of_nat i)) k ;;
      match r with
      | None => Ok (k, None)
      | Some ch =>
          let arr := arr ++ [s8 ch] in
          if s8 ch =? 0 then Ok (k, Some arr) else copy_loop read str n (S i) arr k
      end
  end.

(** The test behind the loop: all [n] characters are there and the last is not 0. *)
Definition too_long (n : nat) (arr : list Z) : bool :=
  (length arr =? n)%nat && negb (match last arr with Some ch => ch =? 0 | None => true end).

Definition copy_string (read : Z -> Cpu -> res (Cpu * option Z)) (n : nat) (str : Z) (k : Cpu)
  : res (Cpu * option (list Z)) :=
  '(k, r) <- copy_loop read str n 0 [] k ;;
  Ok (k, match r with Some arr => if too_long n arr then None else Some arr | None => None end).

(** readArgument, and the file name in Exec2: the first does not try again. *)
Definition readArgument (str : Z) (k : Cpu) : res (Cpu * option (list Z)) :=
  copy_string (fun a => ReadMem a 1) MAX str k.
Definition Exec2_name (name : Z) (k : Cpu) : res (Cpu * option (list Z)) :=
  copy_string (fun a => try_read a 1) MAXSIZE name k.

(** The loop of Exec2 over argv: the strings, or why Exec2 returns 0. *)
Inductive arguments := Arguments_are (arr : list (list Z)) | No_pointer | No_argument.

Fixpoint Exec2_args (argv : Z) (n i : nat) (arr : list (list Z)) (k : Cpu) : res (Cpu * arguments) :=
  match n with
  | O => Ok (k, Arguments_are arr)
  | S n =>
      '(k, r) <- try_read (s32 (argv + 4 * Z.of_nat i)) 4 k ;;
      match r with
      | None => Ok (k, No_pointer)
      | Some ch =>
          '(k, r) <- readArgument ch k ;;
          match r with
          | None => Ok (k, No_argument)
          | Some a => Exec2_args argv n (S i) (arr ++ [a]) k
          end
      end
  end.

(** ** What the routines do *)

(** The other address spaces keep their contents, and of this one only the bytes at
    [lo] to [hi] may change. *)
Definition changed_within (k k' : Vm) (lo hi : Z) : Prop :=
  current k' = current k /\
  (forall a u, 0 <= u -> a <> current k -> content k' a u = content k a u) /\
  (forall va, ~ lo <= u32 va < hi -> user_byte k' va = user_byte k va).

Lemma space_size (k : Cpu) l sp t (N := numPages sp * PageSize) :
  running k.1 l sp t -> space_bytes k = Ok N /\ N <= 2 ^ 31.
Proof.
  intros Hrun. destruct (running_space _ _ _ _ Hrun) as (bs & st & tab & h & d & Hso).
  pose proof (so_small _ _ _ _ _ _ _ _ _ _ Hso) as Hs. pose proof (so_len _ _ _ _ _ _ _ _ _ _ Hso).
  unfold space_bytes, the_space. rewrite (ru_space _ _ _ _ Hrun). cbn [bindr]. split; [|done]. f_equal.
  apply u32_small. unfold is_u32, N, PageSize, SectorSize in *. lia.
Qed.

(** An address below the size of the space is in one of its pages. *)
Lemma in_space sp va :
  0 <= va < numPages sp * PageSize -> numPages sp * PageSize <= 2 ^ 31 ->
  u32 va = va /\ u32 (s32 va) = va /\ u32 (s32 va) / PageSize < numPages sp.
Proof.
  intros Hva Hs. assert (u32 va = va) as E by (apply u32_small; unfold is_u32; lia).
  rewrite u32_s32, E. split; [done|]. split; [done|]. apply Z.div_lt_upper_bound; [done|lia].
Qed.

Lemma user_byte_u32 k va va' : u32 va = u32 va' -> user_byte k va = user_byte k va'.
Proof. intros E. unfold user_byte. by rewrite E. Qed.

Lemma Read2_loop_ok getchar buffer sp t (N := numPages sp * PageSize) n i (k : Cpu) l :
  running k.1 l sp t -> 0 <= buffer -> buffer + Z.of_nat i <= N ->
  let c := Z.min (Z.of_nat (i + n)) (N - buffer) in
  exists k' l', Read2_loop getchar buffer n i k = Ok (k', Some c) /\ running k'.1 l' sp t /\
    changed_within k.1 k'.1 (buffer + Z.of_nat i) (buffer + c) /\
    forall j, (i <= j)%nat -> Z.of_nat j < c -> user_byte k'.1 (buffer + Z.of_nat j) = Some (getchar j mod 256).
Proof.
  revert i k l. induction n as [|n IH]; intros i k l Hrun Hb Hi c.
  - exists k, l. cbn. split; [do 3 f_equal; unfold c; lia|]. split; [done|]. split; [by split|]. unfold c. lia.
  - destruct (space_size k l sp t Hrun) as [Esz Hsm]. fold N in Esz, Hsm. cbn [Read2_loop]. rewrite Esz. cbn [bindr].
    assert (u32 (buffer + Z.of_nat i) = buffer + Z.of_nat i) as Eu by (apply u32_small; unfold is_u32; lia).
    rewrite Eu. destruct (Z.geb_spec (buffer + Z.of_nat i) N) as [Hge|Hlt].
    + exists k, l. split; [do 3 f_equal; unfold c; lia|]. split; [done|]. split; [by split|]. unfold c. lia.
    + destruct (in_space sp (buffer + Z.of_nat i)) as (_ & E2 & Hpg); [fold N; lia|done|].
      destruct (try_write_ok k l sp t (s32 (buffer + Z.of_nat i)) (getchar i) Hrun Hpg) as (k1 & l1 & -> & Hrun1 & H1 & H2 & H3 & H4).
      cbn [bindr]. rewrite E2 in H4.
      destruct (IH (S i) k1 l1 Hrun1 Hb ltac:(lia)) as (k' & l' & E & Hrun' & (C1 & C2 & C3) & Hj).
      assert (Z.min (Z.of_nat (S i + n)) (N - buffer) = c) as Ec by (unfold c; lia). rewrite Ec in E, C3, Hj.
      exists k', l'. split; [exact E|]. split; [done|]. split.
      * split; [congruence|]. split; [intros a u Hu Ha; rewrite C2 by congruence; by apply H2|].
        intros va Hva. rewrite C3 by (unfold c in *; lia). apply H4. intros Ev. apply Hva. rewrite Ev. unfold c. lia.
      * intros j Hij Hjc. destruct (decide (j = i)) as [->|Hne]; [|apply Hj; [lia|done]].
        assert (u32 (buffer + Z.of_nat i) = buffer + Z.of_nat i) as Eu' by done.
        rewrite C3 by lia. rewrite <- H3. apply user_byte_u32. by rewrite u32_s32.
Qed.

(** One byte read. *)
Lemma page_seen_byte k va pg v :
  page_seen k va pg -> user_value k va 1 = Some v -> exists b, user_byte k va = Some b /\ v = s8 b /\ is_byte b.
Proof.
  intros (Hc & Hl & Hb). unfold user_value, user_byte. rewrite Hc. cbn.
  destruct (page_number va) as [_ Hr].
  destruct (lookup_lt_is_Some_2 pg (Z.to_nat (u32 va mod PageSize))) as [b Eb]; [lia|].
  unfold bytes_of. rewrite (drop_S _ _ _ Eb). change (Z.to_nat 1) with 1%nat. cbn [take le_value].
  rewrite firstn_O, Z.mul_0_r, Z.add_0_r. intros [= <-]. exists b. split; [done|]. split; [done|].
  by eapply Forall_lookup_1.
Qed.

Lemma try_read_byte (k : Cpu) l sp t va :
  running k.1 l sp t -> 0 <= va < numPages sp * PageSize ->
  exists k' l' b, try_read (s32 va) 1 k = Ok (k', Some (s8 b)) /\ running k'.1 l' sp t /\ same_contents k.1 k'.1 /\
    user_byte k.1 va = Some b /\ is_byte b.
Proof.
  intros Hrun Hva. destruct (space_size k l sp t Hrun) as [_ Hsm]. destruct (in_space sp va Hva Hsm) as (E1 & E2 & Hpg).
  destruct (try_read_ok k l sp t (s32 va) 1 Hrun Hpg) as (k' & l' & v & E & Hrun' & Hs & Hv & pg & Hpgs);
    [by left|apply Z.mod_1_r|].
  destruct (page_seen_byte _ _ _ _ Hpgs Hv) as (b & Hb & -> & Hby). exists k', l', b. split; [done|]. split; [done|].
  split; [done|]. split; [|done]. rewrite <- Hb. apply user_byte_u32. by rewrite E1, E2.
Qed.

Lemma Write2_loop_ok buffer sp t (N := numPages sp * PageSize) n i out (k : Cpu) l :
  running k.1 l sp t -> 0 <= buffer -> buffer + Z.of_nat i <= N -> length out = i ->
  exists k' l' more, Write2_loop buffer n i out k = Ok (k', (out ++ more, false)) /\ running k'.1 l' sp t /\
    same_contents k.1 k'.1 /\ Z.of_nat (i + length more) = Z.min (Z.of_nat (i + n)) (N - buffer) /\
    forall j ch, more !! j = Some ch -> exists b, user_byte k.1 (buffer + Z.of_nat (i + j)) = Some b /\ ch = s8 b.
Proof.
  revert i out k l. induction n as [|n IH]; intros i out k l Hrun Hb Hi Hout.
  - exists k, l, []. cbn. rewrite app_nil_r. split; [done|]. split; [done|]. split; [by split|]. split; [lia|done].
  - destruct (space_size k l sp t Hrun) as [Esz Hsm]. fold N in Esz, Hsm. cbn [Write2_loop]. rewrite Esz. cbn [bindr].
    assert (u32 (buffer + Z.of_nat i) = buffer + Z.of_nat i) as Eu by (apply u32_small; unfold is_u32; lia).
    rewrite Eu. destruct (Z.geb_spec (buffer + Z.of_nat i) N) as [Hge|Hlt].
    + exists k, l, []. rewrite app_nil_r. split; [done|]. split; [done|]. split; [by split|]. split; [cbn; lia|done].
    + destruct (try_read_byte k l sp t (buffer + Z.of_nat i) Hrun) as (k1 & l1 & b & -> & Hrun1 & Hs1 & Hb1 & Hby); [fold N; lia|].
      cbn [bindr]. assert (s8 (s8 b) = s8 b) as Es by (unfold is_byte in Hby; word_lia). rewrite Es.
      destruct (IH (S i) (out ++ [s8 b]) k1 l1 Hrun1 Hb ltac:(lia)) as (k' & l' & more & E & Hrun' & Hs' & Hlen & Hj);
        [rewrite length_app; cbn; lia|].
      exists k', l', (s8 b :: more). rewrite <- app_assoc in E. split; [exact E|]. split; [done|].
      split; [by eapply same_trans|]. split; [cbn [length]; lia|].
      intros [|j] ch Hch; cbn in Hch.
      * injection Hch as <-. rewrite Nat.add_0_r. by exists b.
      * destruct (Hj j ch Hch) as (b' & Hb' & ->). exists b'. split; [|done].
        rewrite <- (same_user_byte k.1 k1.1) by done. rewrite <- Hb'. f_equal. lia.
Qed.

(** The bytes [bs], none of them 0, are at [va]. *)
Definition text_at (k : Vm) (va : Z) (bs : list Z) : Prop :=
  forall j b, bs !! j = Some b -> user_byte k (va + Z.of_nat j) = Some b /\ is_byte b /\ b <> 0.

Lemma same_text k k' va bs : same_contents k k' -> text_at k va bs -> text_at k' va bs.
Proof. intros Hs Ht j b Hj. destruct (Ht j b Hj) as [H1 H2]. by rewrite (same_user_byte k k'). Qed.

Lemma text_tail k va b bs : text_at k va (b :: bs) -> text_at k (va + 1) bs.
Proof. intros Ht j c Hj. destruct (Ht (S j) c Hj) as [H1 H2]. split; [|done]. rewrite <- H1. f_equal. lia. Qed.

Lemma s8_zero b : is_byte b -> s8 b = 0 -> b = 0.
Proof. unfold is_byte. intros. word_lia. Qed.

Lemma copy_loop_ok str sp t bs n i arr (k : Cpu) l :
  running k.1 l sp t -> 0 <= str -> str + Z.of_nat (i + length bs) <= numPages sp * PageSize ->
  text_at k.1 (str + Z.of_nat i) bs -> (length bs <= n)%nat ->
  exists k' l', copy_loop (fun a => try_read a 1) str n i arr k =
      copy_loop (fun a => try_read a 1) str (n - length bs) (i + length bs) (arr ++ (s8 <$> bs)) k' /\
    running k'.1 l' sp t /\ same_contents k.1 k'.1.
Proof.
  revert n i arr k l. induction bs as [|b bs IH]; intros n i arr k l Hrun Hs Hi Ht Hn; cbn [length] in *.
  - exists k, l. cbn. rewrite app_nil_r, Nat.sub_0_r, Nat.add_0_r. by split_and!.
  - destruct n as [|n]; [lia|]. cbn [copy_loop].
    destruct (try_read_byte k l sp t (str + Z.of_nat i) Hrun) as (k1 & l1 & b' & -> & Hrun1 & Hs1 & Hb & Hby); [lia|].
    destruct (Ht 0%nat b eq_refl) as (Hb' & _ & Hnz). rewrite Z.add_0_r in Hb'. assert (b' = b) as -> by congruence.
    cbn [bindr]. assert (s8 (s8 b) = s8 b) as -> by (unfold is_byte in Hby; word_lia).
    destruct (Z.eqb_spec (s8 b) 0) as [E|_]; [by apply s8_zero in E|].
    destruct (IH n (S i) (arr ++ [s8 b]) k1 l1 Hrun1 Hs ltac:(lia)) as (k' & l' & E & H1 & H2); [|lia|].
    + replace (str + Z.of_nat (S i)) with (str + Z.of_nat i + 1) by lia. apply (same_text k.1 k1.1 _ _ Hs1).
      by apply text_tail in Ht.
    + exists k', l'. split; [|split; [done|by eapply same_trans]]. rewrite E, <- app_assoc. cbn [app fmap list_fmap Nat.sub].
      f_equal. lia.
Qed.

(** C37: Read and Write see the memory of the process as the process does, with
    first-in-first-out replacement ([running]).  For a
    buffer that starts in the address space, whatever pages are resident, no access
    fails a second time: Read stores the characters the console gives it one after
    the other, and changes no other byte of any process; Write gives the console
    the bytes of the buffer; both stop at the end of the address space, return the
    number of characters, and release the lock. *)
Theorem user_buffers (k : Cpu) l sp t (buffer size : Z) (getchar : nat -> Z)
    (N := numPages sp * PageSize) (n := Z.min size (N - buffer)) :
  running k.1 l sp t -> 0 <= buffer < N -> 0 <= size ->
  (exists k' l', Read2 getchar buffer size 0 k = Ok (k', (n, false)) /\ running k'.1 l' sp t /\
     changed_within k.1 k'.1 buffer (buffer + n) /\
     forall j, Z.of_nat j < n -> user_byte k'.1 (buffer + Z.of_nat j) = Some (getchar j mod 256)) /\
  (exists k' l' out, Write2 buffer size 1 k = Ok (k', (n, false, out)) /\ running k'.1 l' sp t /\
     same_contents k.1 k'.1 /\ zlen out = n /\
     forall j ch, out !! j = Some ch -> exists b, user_byte k.1 (buffer + Z.of_nat j) = Some b /\ ch = s8 b).
Proof.
  intros Hrun Hb Hs. destruct (space_size k l sp t Hrun) as [Esz Hsm]. fold N in Esz, Hsm.
  assert (u32 buffer = buffer) as Eu by (apply u32_small; unfold is_u32; lia).
  unfold Read2, Write2. cbn [Z.eqb Pos.eqb negb]. rewrite Esz. cbn [bindr]. rewrite Eu.
  destruct (Z.geb_spec buffer N); [lia|]. split.
  - destruct (Read2_loop_ok getchar buffer sp t (Z.to_nat size) 0 k l Hrun ltac:(lia) ltac:(fold N; lia)) as
      (k' & l' & -> & Hrun' & Hc & Hj).
    replace (Z.min (Z.of_nat (0 + Z.to_nat size)) (numPages sp * PageSize - buffer)) with n in * by (unfold n, N; lia).
    cbn [bindr]. rewrite Z.add_0_r in Hc. exists k', l'. split_and!; try done. intros j. apply Hj. lia.
  - destruct (Write2_loop_ok buffer sp t (Z.to_nat size) 0 [] k l Hrun ltac:(lia) ltac:(fold N; lia) eq_refl) as
      (k' & l' & more & -> & Hrun' & Hc & Hlen & Hj).
    cbn [bindr app]. assert (zlen more = n) as Hm by (unfold n, N; lia). rewrite Hm. exists k', l', more. split_and!; done.
Qed.

(** The strings of Exec.  The name of the program is copied whole, wherever
    its pages are, if it has less than [MAXSIZE] characters, and refused otherwise.
    An argument is not: readArgument tries every access once, so that an argument
    whose first page is not resident is refused, although the refusal brings that
    page in. *)
Theorem Exec_strings (k : Cpu) l sp t (str : Z) (bs : list Z) :
  running k.1 l sp t -> 0 <= str -> str + zlen bs < numPages sp * PageSize ->
  text_at k.1 str bs -> user_byte k.1 (str + zlen bs) = Some 0 ->
  ((length bs < MAXSIZE)%nat -> exists k' l', Exec2_name str k = Ok (k', Some ((s8 <$> bs) ++ [0])) /\
     running k'.1 l' sp t /\ same_contents k.1 k'.1) /\
  ((MAXSIZE <= length bs)%nat -> exists k' l', Exec2_name str k = Ok (k', None) /\
     running k'.1 l' sp t /\ same_contents k.1 k'.1) /\
  (~ mapped k.1 t str -> exists k' l', readArgument str k = Ok (k', None) /\
     running k'.1 l' sp t /\ same_contents k.1 k'.1 /\ mapped k'.1 t str).
Proof.
  intros Hrun Hs Hlen Ht H0. destruct (space_size k l sp t Hrun) as [_ Hsm]. split; [|split].
  - intros Hn. unfold Exec2_name, copy_string.
    destruct (copy_loop_ok str sp t bs MAXSIZE 0 [] k l Hrun Hs ltac:(lia)) as (k1 & l1 & -> & Hrun1 & Hs1);
      [by rewrite Z.add_0_r|lia|].
    destruct (MAXSIZE - length bs)%nat as [|m] eqn:Em; [lia|]. cbn [copy_loop app Nat.add].
    destruct (try_read_byte k1 l1 sp t (str + zlen bs) Hrun1) as (k2 & l2 & b & -> & Hrun2 & Hs2 & Hb & _); [lia|].
    rewrite (same_user_byte k.1 k1.1 _ Hs1), H0 in Hb. injection Hb as <-.
    cbn [bindr]. exists k2, l2. split; [|split; [done|by eapply same_trans]].
    assert (too_long MAXSIZE ((s8 <$> bs) ++ [0]) = false) as E.
    { unfold too_long. rewrite last_snoc. by rewrite andb_false_r. }
    change (s8 (s8 0)) with 0. cbn [Z.eqb bindr]. by rewrite E.
  - intros Hn. unfold Exec2_name, copy_string.
    assert (length (take MAXSIZE bs) = MAXSIZE) as Hl by (rewrite length_take; lia).
    destruct (copy_loop_ok str sp t (take MAXSIZE bs) MAXSIZE 0 [] k l Hrun Hs) as (k1 & l1 & -> & Hrun1 & Hs1); try lia.
    { rewrite Z.add_0_r. intros j b Hj. apply Ht. by apply lookup_take_Some in Hj as [Hj _]. }
    rewrite Hl, Nat.sub_diag. cbn [copy_loop bindr app].
    exists k1, l1. split; [|by split]. unfold too_long. rewrite length_fmap, Hl, Nat.eqb_refl, fmap_last.
    destruct (last (take MAXSIZE bs)) as [b|] eqn:El; cbn.
    + rewrite last_lookup in El. rewrite Hl in El. apply lookup_take_Some in El as [El _]. destruct (Ht _ _ El) as (_ & Hby & Hnz).
      destruct (Z.eqb_spec (s8 b) 0) as [E|_]; [by apply s8_zero in E|done].
    + apply last_None in El. rewrite El in Hl. done.
  - intros Hno. destruct (in_space sp str ltac:(lia) Hsm) as (E1 & E2 & Hpg).
    unfold readArgument, copy_string. change MAX with (S 49). cbn [copy_loop]. rewrite Z.add_0_r.
    assert (~ mapped k.1 t (s32 str)) as Hno' by (unfold mapped in *; by rewrite E2, <- E1).
    destruct (fault_in k l sp t (s32 str) Hrun Hno' Hpg) as (k1 & l1 & E & Hrun1 & Hm1 & Hs1).
    unfold ReadMem. cbn [machine Cpu_kernel].
    rewrite (Translate_fault _ _ _ _ _ 1 _ Hrun Hno' Hpg) by (by left || apply Z.mod_1_r). cbn [bindr].
    assert (set_machine (vm k.1) k = k) as -> by (destruct k as [[] ?]; reflexivity). rewrite E. cbn [bindr].
    exists k1, l1. split_and!; try done. unfold mapped in *. by rewrite E2, <- E1 in Hm1.
Qed.
End UserMemory.

(** The process of Paging.v, with nothing resident: its code, the bytes 11, 22, 33
    and 44 at address 0, is followed by zeros. *)
Definition demo_cpu_state : Cpu := (demo_vm, SystemMode).

Lemma demo_running : running (host := i386) demo_cpu_state.1 [] demo_space 1.
Proof. split; [exact demo_Inv|reflexivity..|]. vm_compute. split; congruence. Qed.

Lemma user_buffers_witness :
  exists k' out, Write2 (host := i386) [] Ok 0 4 1 demo_cpu_state = Ok (k', (4, false, out)) /\
    out !! 1%nat = Some 22.
Proof.
  destruct (user_buffers (host := i386) [] Ok demo_cpu_state [] demo_space 1 0 4 (fun _ => 0) demo_running)
    as [_ (k' & l' & out & H1 & _ & _ & H2 & H3)]; [split; vm_compute; congruence|lia|].
  exists k', out. split; [exact H1|].
  destruct (lookup_lt_is_Some_2 out 1) as [ch Hch]; [change (Z.min 4 _) with 4 in H2; lia|].
  destruct (H3 1%nat ch Hch) as (b & Hb & ->). vm_compute in Hb. injection Hb as <-. exact Hch.
Defined.

Lemma Exec_strings_witness :
  (exists k', Exec2_name (host := i386) [] Ok 0 demo_cpu_state = Ok (k', Some [11; 22; 33; 44; 0])) /\
  exists k', readArgument (host := i386) [] Ok 0 demo_cpu_state = Ok (k', None).
Proof.
  destruct (Exec_strings (host := i386) [] Ok demo_cpu_state [] demo_space 1 0 [11; 22; 33; 44] demo_running)
    as (H1 & _ & H3).
  - lia.
  - vm_compute. reflexivity.
  - intros j b Hj. do 4 (destruct j as [|j]; [injection Hj as <-; split; [vm_compute; reflexivity|split; [unfold is_byte; lia|lia]]|]).
    discriminate Hj.
  - vm_compute. reflexivity.
  - split.
    + destruct H1 as (k' & _ & H1 & _); [cbn; unfold MAXSIZE; lia|]. exists k'. exact H1.
    + destruct H3 as (k' & _ & H3 & _); [|exists k'; exact H3].
      intros (tab & e & Ht & He & Hv). vm_compute in Ht. injection Ht as <-. vm_compute in He. injection He as <-.
      discriminate Hv.
Defined.
