(* ===== verification/Syscalls.v ===== *)
(** The system calls, and the way into them (userprog/exception.cc: SysCallExit,
    ProcessStartExec, Exec2, Join2, ForkedThread, Fork2, Read2, Write2 and
    ExceptionHandler; userprog/progtest.cc: StartProcess).  UserMemory.v has what Read2,
    Write2 and Exec2 do in the memory of the process.

    A routine runs on the state of the pager (Vm.v) with the objects the system calls
    keep: the fields of Thread they use, the table of processes, the pipes.  What other
    threads do while Join, Yield and the calls on pipes wait is a parameter; Join.v shows when
    Join returns.  What is read from uninitialised objects is a parameter as well. *)
From Stdlib Require Import ZArith Lia Bool.
From stdpp Require Import base numbers list gmap fin_maps.
From S2P Require Import Prelude Bitmap Lists Machine Tables CoreMap Vm Paging Loading UserMemory.

(** A Thread, as the system calls see it. *)
Record Process := mkProcess {
  p_space : option positive;
  joinValue : Z;
  pipeValue : Z;
  inPipe : option positive;
  outPipe : option positive;
  p_join : Z;
  p_registers : list Z
}.

Definition setSpace (a : option positive) (p : Process) : Process :=
  mkProcess a (joinValue p) (pipeValue p) (inPipe p) (outPipe p) (p_join p) (p_registers p).
Definition setJoinValue (v : Z) (p : Process) : Process :=
  mkProcess (p_space p) v (pipeValue p) (inPipe p) (outPipe p) (p_join p) (p_registers p).
Definition setPipeValue (v : Z) (p : Process) : Process :=
  mkProcess (p_space p) (joinValue p) v (inPipe p) (outPipe p) (p_join p) (p_registers p).
Definition setInPipe (q : option positive) (p : Process) : Process :=
  mkProcess (p_space p) (joinValue p) (pipeValue p) q (outPipe p) (p_join p) (p_registers p).
Definition setOutPipe (q : option positive) (p : Process) : Process :=
  mkProcess (p_space p) (joinValue p) (pipeValue p) (inPipe p) q (p_join p) (p_registers p).
Definition setRegisters (r : list Z) (p : Process) : Process :=
  mkProcess (p_space p) (joinValue p) (pipeValue p) (inPipe p) (outPipe p) (p_join p) r.
Definition canJoin (p : Process) : Z := p_join p.

(** [forked] are the threads that have been forked by these routines, and how they
    begin, in order. *)
Inductive beginning := ProcessStart | ForkedStart (funcPtr : Z).

Record Kern := mkKern {
  cpu : Cpu;
  processes : gmap positive Process;
  me : positive;
  TablePtr : Table.Table positive;
  pipes : gmap positive Pipe.Pipe;
  freePipe : option positive;
  forked : list (positive * beginning)
}.

Definition set_cpu (c : Cpu) (k : Kern) : Kern :=
  mkKern c (processes k) (me k) (TablePtr k) (pipes k) (freePipe k) (forked k).
Definition set_processes (ps : gmap positive Process) (k : Kern) : Kern :=
  mkKern (cpu k) ps (me k) (TablePtr k) (pipes k) (freePipe k) (forked k).
Definition set_TablePtr (t : Table.Table positive) (k : Kern) : Kern :=
  mkKern (cpu k) (processes k) (me k) t (pipes k) (freePipe k) (forked k).
Definition set_pipes (q : gmap positive Pipe.Pipe) (k : Kern) : Kern :=
  mkKern (cpu k) (processes k) (me k) (TablePtr k) q (freePipe k) (forked k).
Definition set_freePipe (q : option positive) (k : Kern) : Kern :=
  mkKern (cpu k) (processes k) (me k) (TablePtr k) (pipes k) q (forked k).
Definition fork (t : positive) (b : beginning) (k : Kern) : Kern :=
  mkKern (cpu k) (processes k) (me k) (TablePtr k) (pipes k) (freePipe k) (forked k ++ [(t, b)]).
Definition put_process (t : positive) (p : Process) (k : Kern) : Kern := set_processes (<[t := p]> (processes k)) k.
Definition set_kernel (v : Vm) (k : Kern) : Kern := set_cpu (v, (cpu k).2) k.
Definition kernel (k : Kern) : Vm := (cpu k).1.

(** An access through a pointer. *)
Definition access {A} (m : gmap positive A) (p : option positive) : res A :=
  match p with
  | Some p => match m !! p with Some a => Ok a | None => Err WildAccess end
  | None => Err WildAccess
  end.
Definition the_process (k : Kern) (t : positive) : res Process := access (processes k) (Some t).
Definition update (k : Kern) (t : positive) (f : Process -> Process) : res Kern :=
  p <- the_process k t ;; Ok (put_process t (f p) k).

(** The pipe behind a pointer gets a flag, or is deleted. *)
Definition on_pipe (k : Kern) (q : option positive) (f : Pipe.Pipe -> Pipe.Pipe) : res Kern :=
  p <- access (pipes k) q ;;
  match q with Some q => Ok (set_pipes (<[q := f p]> (pipes k)) k) | None => Err WildAccess end.
Definition delete_pipe (q : option positive) (k : Kern) : Kern :=
  match q with Some q => set_pipes (delete q (pipes k)) k | None => k end.

(** [currentThread->space = space]; the pager's [current] is that space. *)
Definition set_current (a : positive) (v : Vm) : Vm :=
  mkVm (vm v) (manager v) (coreMap v) (spaces v) (stores v) (storeTable v) (files v) (openFiles v)
    (numPageFaults v) (numPageIns v) (numPageOuts v) a (LRU v).

Definition TABLESIZE : Z := 50.

Section Syscalls.
Context {host : Host} (junk : list Z) (tick : Cpu -> res Cpu).
Local Instance kernel_of_cpu : Kernel Cpu := Cpu_kernel junk tick.

(** ** SysCallExit *)

(** An end is closed, and the pipe deleted if the other end is closed too. *)
Definition close_end (k : Kern) (q : option positive) (close : Pipe.Pipe -> Pipe.Pipe) (other : Pipe.Pipe -> Z) : res Kern :=
  k <- on_pipe k q close ;;
  p <- access (pipes k) q ;;
  Ok (if other p =? 0 then delete_pipe q k else k).

Definition close_pipes (k : Kern) : res Kern :=
  p <- the_process k (me k) ;;
  k <- (if Z.land (pipeValue p) 4 =? 4 then
          close_end k (inPipe p) (fun q => Pipe.setInOpen q 0) Pipe.getOutOpen
        else Ok k) ;;
  if Z.land (pipeValue p) 2 =? 2 then
    close_end k (outPipe p) (fun q => Pipe.setOutOpen q 0) Pipe.getInOpen
  else Ok k.

(** One round of the loop over the table. *)
Definition release_mine (space : option positive) (i : Z) (k : Kern) : res Kern :=
  temp <- Table.Get (TablePtr k) i ;;
  match temp with
  | None => Ok k
  | Some t =>
      p <- the_process k t ;;
      if bool_decide (p_space p = space) then
        tb <- Table.Release (TablePtr k) i ;; Ok (set_TablePtr tb k)
      else Ok k
  end.

(** The count of threads of a space. *)
Definition count_threads (a : option positive) (n : Z) (k : Kern) : res Kern :=
  sp <- access (spaces (kernel k)) a ;;
  match a with
  | Some a => Ok (set_kernel (set_space (kernel k) a (setThreadCount sp (s32 (threadCount sp + n)))) k)
  | None => Err WildAccess
  end.

(** Up to the call of Finish, which does not come back. *)
Definition SysCallExit (status : Z) (k : Kern) : res Kern :=
  k <- close_pipes k ;;
  k <- update k (me k) (setJoinValue status) ;;
  p <- the_process k (me k) ;;
  k <- for_range 0 TABLESIZE (release_mine (p_space p)) k ;;
  count_threads (p_space p) (-1) k.

(** ** Exec2 *)

(** What the allocator leaves in new objects. *)
Context (rawProcess : Process) (rawStore : BackingStore) (rawSpace : AddrSpace)
  (rawBits : nat -> Z) (rawName rawID : list Z) (rawChars : nat -> Z).

Definition PIPE_SIZE : Z := 128.

Definition new_pipe (k : Kern) : Kern * option positive :=
  let q := fresh (dom (pipes k)) in
  (set_pipes (<[q := Pipe.Pipe_new rawChars PIPE_SIZE]> (pipes k)) k, Some q).

(** [thread->setInPipe(p); thread->getInPipe()->setInOpen(1)], and the same for out. *)
Definition plug_in (t : positive) (q : option positive) (k : Kern) : res Kern :=
  k <- update k t (setInPipe q) ;; on_pipe k q (fun p => Pipe.setInOpen p 1).
Definition plug_out (t : positive) (q : option positive) (k : Kern) : res Kern :=
  k <- update k t (setOutPipe q) ;; on_pipe k q (fun p => Pipe.setOutOpen p 1).

Definition connect_pipes (t : positive) (pipeValue : Z) (k : Kern) : res Kern :=
  if Z.land pipeValue 6 =? 6 then
    k <- plug_in t (freePipe k) k ;;
    let '(k, q) := new_pipe k in
    plug_out t q (set_freePipe q k)
  else if Z.land pipeValue 4 =? 4 then
    match freePipe k with
    | None => let '(k, q) := new_pipe k in plug_in t q (set_freePipe q k)
    | Some q => k <- plug_in t (Some q) k ;; Ok (set_freePipe None k)
    end
  else if Z.land pipeValue 2 =? 2 then
    match freePipe k with
    | None => let '(k, q) := new_pipe k in plug_out t q (set_freePipe q k)
    | Some q => k <- plug_out t (Some q) k ;; Ok (set_freePipe None k)
    end
  else Ok k.

Definition pipes_of (willJoin : Z) : Z :=
  if (Z.land willJoin 2 =? 2) || (Z.land willJoin 4 =? 4) || (Z.land willJoin 6 =? 6) then willJoin else 0.

(** [new Thread(name, join)]; what the constructor leaves uninitialised stays raw. *)
Definition new_process (join : Z) (k : Kern) : Kern * positive :=
  let t := fresh (dom (processes k)) in
  (put_process t (mkProcess None (joinValue rawProcess) (pipeValue rawProcess) (inPipe rawProcess)
                    (outPipe rawProcess) join (p_registers rawProcess)) k, t).

(** Exec2 behind the strings: the thread [t] gets a backing store and a space. *)
Definition load_process (t : positive) (executable : OpenFile) (args : list (list Z)) (k : Kern) : res (Kern * Z) :=
  let v := kernel k in
  let b := fresh (dom (stores v)) in
  let v := set_stores (<[b := BackingStore_new rawStore]> (stores v)) v in
  '(tb, storeID) <- Table.Alloc (storeTable v) (Some b) ;;
  let v := set_storeTable tb v in
  if storeID =? -1 then Ok (set_kernel v k, 0)
  else
    let a := fresh (dom (spaces v)) in
    let v := set_space v a (AddArguments rawSpace (zlen args) args) in
    k <- update (set_kernel v k) t (setSpace (Some a)) ;;
    '(v, r) <- AddrSpace_Initialize (kernel k) a executable junk ;;
    if negb (r =? 0) then
      tb <- Table.Release (storeTable v) storeID ;;
      v <- delete_file (set_storeTable tb v) executable ;;
      v <- AddrSpace_delete v a ;;
      Ok (set_processes (delete t (processes k)) (set_kernel v k), 0)
    else
      '(v, r) <- BackingStore_Initialize v b a storeID rawBits rawName rawID ;;
      if negb (r =? 0) then
        v <- BackingStore_delete v b ;;
        v <- delete_file v executable ;;
        v <- AddrSpace_delete v a ;;
        Ok (set_kernel v k, 0)
      else
        k <- count_threads (Some a) 1 (set_kernel v k) ;;
        let k := fork t ProcessStart k in
        '(tb, processID) <- Table.Alloc (TablePtr k) (Some t) ;;
        let k := set_TablePtr tb k in
        if processID =? -1 then
          v <- BackingStore_delete (kernel k) b ;;
          v <- delete_file v executable ;;
          v <- AddrSpace_delete v a ;;
          Ok (set_kernel v k, 0)
        else Ok (k, processID + 1).

Definition Exec2 (name argc argv willJoin : Z) (k : Kern) : res (Kern * Z) :=
  '(c, fname) <- Exec2_name junk tick name (cpu k) ;;
  let k := set_cpu c k in
  match fname with
  | None => Ok (k, 0)
  | Some fname =>
      let '(v, executable) := open_file (kernel k) (c_string fname) in
      let k := set_kernel v k in
      match executable with
      | None => Ok (k, 0)
      | Some executable =>
          let '(k, t) := new_process (Z.land willJoin 1) k in
          k <- update k t (setPipeValue (pipes_of willJoin)) ;;
          k <- connect_pipes t (pipes_of willJoin) k ;;
          '(c, arr) <- Exec2_args junk tick argv (Z.to_nat argc) 0 [fname] (cpu k) ;;
          let k := set_cpu c k in
          match arr with
          | No_pointer => Ok (k, 0)
          | No_argument => v <- delete_file (kernel k) executable ;; Ok (set_kernel v k, 0)
          | Arguments_are arr => load_process t executable (c_string <$> arr) k
          end
      end
  end.

(** ** StartProcess *)

Definition MAXPROCESS : Z := 14.

(** The process of the main thread; [true] when the machine is started.  The console it
    makes is in Console.v. *)
Definition StartProcess (filename : name) (k : Kern) : res (Kern * bool) :=
  let '(v, executable) := open_file (kernel k) filename in
  let k := set_kernel v k in
  bits <- MemoryManager_new rawBits NumPhysPages ;;
  let v := set_coreMap (CoreMap_new NumPhysPages) (set_storeTable (Table.Table_new MAXPROCESS) (set_manager bits (kernel k))) in
  let k := set_TablePtr (Table.Table_new MAXPROCESS) (set_kernel v k) in
  match executable with
  | None => Ok (k, false)
  | Some executable =>
      let b := fresh (dom (stores v)) in
      let v := set_stores (<[b := BackingStore_new rawStore]> (stores v)) v in
      '(tb, storeID) <- Table.Alloc (storeTable v) (Some b) ;;
      let v := set_storeTable tb v in
      if storeID =? -1 then Ok (set_kernel v k, false)
      else
        let a := fresh (dom (spaces v)) in
        let v := set_current a (set_space v a rawSpace) in
        k <- update (set_kernel v k) (me k) (setSpace (Some a)) ;;
        '(v, r) <- AddrSpace_Initialize (kernel k) a executable junk ;;
        if negb (r =? 0) then
          v <- delete_file v executable ;;
          tb <- Table.Release (storeTable v) storeID ;;
          v <- BackingStore_delete (set_storeTable tb v) b ;;
          Ok (set_kernel v k, false)
        else
          '(v, r) <- BackingStore_Initialize v b a storeID rawBits rawName rawID ;;
          if negb (r =? 0) then Ok (set_kernel v k, false)
          else
            k <- count_threads (Some a) 1 (set_kernel v k) ;;
            v <- InitRegisters (kernel k) a ;;
            v <- RestoreState v a ;;
            '(tb, _) <- Table.Alloc (TablePtr k) (Some (me k)) ;;
            Ok (set_TablePtr tb (set_kernel v k), true)
  end.

(** ** The first steps of threads *)

Definition ProcessStartExec (k : Kern) : res (Kern * bool) :=
  p <- the_process k (me k) ;;
  sp <- access (spaces (kernel k)) (p_space p) ;;
  match p_space p with
  | None => Err WildAccess
  | Some a =>
      v <- InitRegisters (kernel k) a ;;
      v <- RestoreState v a ;;
      '(c, ok) <- LoadArguments sp (v, (cpu k).2) ;;
      let k := set_cpu c k in
      if ok =? 0 then k <- SysCallExit (-1) k ;; Ok (k, false) else Ok (k, true)
  end.

Definition ForkedThread (funcPtr : Z) (k : Kern) : res Kern :=
  p <- the_process k (me k) ;;
  match p_space p with
  | None => Err WildAccess
  | Some a =>
      v <- InitRegisters (kernel k) a ;;
      v <- RestoreState v a ;;
      m <- WriteRegister (vm v) PCReg funcPtr ;;
      m <- WriteRegister m NextPCReg (s32 (funcPtr + 4)) ;;
      Ok (set_kernel (set_vm m v) k)
  end.
(** ** Fork2 *)

Context (rawEntry : TranslationEntry).

(** Thread::SaveUserState and RestoreUserState of the current thread. *)
Definition SaveUserState (k : Kern) : res Kern :=
  p <- the_process k (me k) ;;
  r <- for_range 0 NumTotalRegs (fun i r => v <- ReadRegister (vm (kernel k)) i ;; aset r i v) (p_registers p) ;;
  Ok (put_process (me k) (setRegisters r p) k).
Definition RestoreUserState (k : Kern) : res Kern :=
  p <- the_process k (me k) ;;
  m <- for_range 0 NumTotalRegs (fun i m => v <- aget (p_registers p) i ;; WriteRegister m i v) (vm (kernel k)) ;;
  match p_space p with
  | None => Err WildAccess
  | Some a => v <- RestoreState (set_vm m (kernel k)) a ;; Ok (set_kernel v k)
  end.

Definition Fork2 (funcPtr : Z) (k : Kern) : res Kern :=
  p <- the_process k (me k) ;;
  match p_space p with
  | None => Err WildAccess
  | Some a =>
      '(v, r) <- allocateThreadSpace (kernel k) a rawEntry ;;
      let k := set_kernel v k in
      if r =? 0 then Ok k
      else
        k <- SaveUserState k ;;
        k <- RestoreUserState k ;;
        let '(k, t) := new_process 1 k in
        k <- update k t (setSpace (p_space p)) ;;
        '(tb, _) <- Table.Alloc (TablePtr k) (Some t) ;;
        count_threads (p_space p) 1 (fork t (ForkedStart funcPtr) (set_TablePtr tb k))
  end.

(** ** Read2 and Write2 *)

(** The state when Thread::Join of a thread, Thread::Yield, and Condition::Wait on a
    pipe return; [tries] bounds how often Read and Write of a pipe wait. *)
Context (Thread_Join : positive -> Kern -> res Kern) (Thread_Yield : Kern -> res Kern)
  (Pipe_Wait : positive -> Kern -> res Kern) (tries : nat) (getchar : nat -> Z).

(** [p->Read()] and [p->Write(ch)], with their waits. *)
Fixpoint pipe_call (call : Pipe.Pipe -> res (option (Pipe.Pipe * Z))) (tries : nat) (q : option positive) (k : Kern)
  : res (Kern * Z) :=
  match tries with
  | O => Err OutOfFuel
  | S tries =>
      p <- access (pipes k) q ;;
      r <- call p ;;
      match q, r with
      | Some q, Some (p, v) => Ok (set_pipes (<[q := p]> (pipes k)) k, v)
      | Some q, None => k <- Pipe_Wait q k ;; pipe_call call tries (Some q) k
      | None, _ => Err WildAccess
      end
  end.

(** The loops for a process behind a pipe, [n] rounds before their end. *)
Fixpoint Read2_pipe (buffer : Z) (n i : nat) (count : Z) (k : Kern) : res (Kern * Z) :=
  match n with
  | O => Ok (k, count)
  | S n =>
      bytes <- space_bytes (cpu k) ;;
      if u32 (buffer + Z.of_nat i) >=? bytes then Ok (k, count)
      else
        p <- the_process k (me k) ;;
        '(k, ch) <- pipe_call Pipe.Read tries (inPipe p) k ;;
        if negb (ch =? 1000000) then
          '(c, b) <- try_write junk tick (s32 (buffer + Z.of_nat i)) 1 ch (cpu k) ;;
          let k := set_cpu c k in
          if b : bool then Read2_pipe buffer n (S i) (count + 1) k else Ok (k, -1)
        else Read2_pipe buffer n (S i) count k
  end.

Fixpoint Write2_pipe (buffer : Z) (n i : nat) (count : Z) (k : Kern) : res (Kern * Z) :=
  match n with
  | O => Ok (k, count)
  | S n =>
      bytes <- space_bytes (cpu k) ;;
      if u32 (buffer + Z.of_nat i) >=? bytes then Ok (k, count)
      else
        '(c, r) <- try_read junk tick (s32 (buffer + Z.of_nat i)) 1 (cpu k) ;;
        let k := set_cpu c k in
        match r with
        | None => Ok (k, -1)
        | Some ch =>
            p <- the_process k (me k) ;;
            '(k, written) <- pipe_call (fun x => Pipe.Write x (s8 ch)) tries (outPipe p) k ;;
            Write2_pipe buffer n (S i) (if negb (written =? 0) then count + 1 else count) k
        end
  end.

(** The branches for the console (UserMemory.v) start with the same two tests. *)
Definition Read2 (buffer size id : Z) (k : Kern) : res (Kern * Z) :=
  if negb (id =? 0) then Ok (k, -1)
  else
    bytes <- space_bytes (cpu k) ;;
    if u32 buffer >=? bytes then Ok (k, -1)
    else
      p <- the_process k (me k) ;;
      if negb (Z.land (pipeValue p) 4 =? 4) && negb (Z.land (pipeValue p) 6 =? 6) then
        '(c, (r, _)) <- UserMemory.Read2 junk tick getchar buffer size id (cpu k) ;; Ok (set_cpu c k, r)
      else Read2_pipe buffer (Z.to_nat size) 0 0 k.

Definition Write2 (buffer size id : Z) (k : Kern) : res (Kern * Z) :=
  if negb (id =? 1) then Ok (k, -1)
  else
    bytes <- space_bytes (cpu k) ;;
    if u32 buffer >=? bytes then Ok (k, -1)
    else
      p <- the_process k (me k) ;;
      if negb (Z.land (pipeValue p) 2 =? 2) && negb (Z.land (pipeValue p) 6 =? 6) then
        '(c, (r, _, _)) <- UserMemory.Write2 junk tick buffer size id (cpu k) ;; Ok (set_cpu c k, r)
      else Write2_pipe buffer (Z.to_nat size) 0 0 k.

(** ** Join2, and the way into the kernel *)

Definition Join2 (id : Z) (k : Kern) : res (Kern * Z) :=
  joinThread <- Table.Get (TablePtr k) (s32 (id - 1)) ;;
  match joinThread with
  | None => Ok (k, -65535)
  | Some t =>
      p <- the_process k t ;;
      if canJoin p =? 0 then Ok (k, -65535)
      else
        k <- Thread_Join t k ;;
        p <- the_process k t ;;
        Ok (k, joinValue p)
  end.

(** How ExceptionHandler ends: it returns to the program, the thread has called Finish,
    or the machine has been halted. *)
Inductive ending := Returns | Finishes | Halts.

Definition set_register (n v : Z) (k : Kern) : res Kern :=
  m <- WriteRegister (vm (kernel k)) n v ;; Ok (set_kernel (set_vm m (kernel k)) k).

(** The end of ExceptionHandler. *)
Definition advance (k : Kern) : res (Kern * ending) :=
  oldNextPCValue <- ReadRegister (vm (kernel k)) NextPCReg ;;
  k <- set_register PCReg oldNextPCValue k ;;
  k <- set_register NextPCReg (s32 (oldNextPCValue + 4)) k ;;
  Ok (k, Returns).

Definition kill (k : Kern) : res (Kern * ending) := k <- SysCallExit (-1) k ;; Ok (k, Finishes).

Definition SC_Halt : Z := 0.
Definition SC_Exit : Z := 1.
Definition SC_Exec : Z := 2.
Definition SC_Join : Z := 3.
Definition SC_Read : Z := 6.
Definition SC_Write : Z := 7.
Definition SC_Fork : Z := 9.
Definition SC_Yield : Z := 10.

Definition system_call (type : Z) (k : Kern) : res (Kern * ending) :=
  let r n := ReadRegister (vm (kernel k)) n in
  if type =? SC_Halt then Ok (k, Halts)
  else if type =? SC_Exec then
    a4 <- r 4 ;; a5 <- r 5 ;; a6 <- r 6 ;; a7 <- r 7 ;;
    '(k, id) <- Exec2 a4 a5 a6 a7 k ;;
    k <- set_register 2 id k ;; advance k
  else if type =? SC_Exit then
    status <- r 4 ;; k <- SysCallExit status k ;; Ok (k, Finishes)
  else if type =? SC_Read then
    a4 <- r 4 ;; a5 <- r 5 ;; a6 <- r 6 ;;
    '(k, _) <- Read2 a4 a5 a6 k ;; advance k
  else if type =? SC_Write then
    a4 <- r 4 ;; a5 <- r 5 ;; a6 <- r 6 ;;
    '(k, _) <- Write2 a4 a5 a6 k ;; advance k
  else if type =? SC_Join then
    a4 <- r 4 ;; '(k, retVal) <- Join2 a4 k ;; k <- set_register 2 retVal k ;; advance k
  else if type =? SC_Fork then
    a4 <- r 4 ;; k <- Fork2 a4 k ;; advance k
  else if type =? SC_Yield then
    k <- Thread_Yield k ;; advance k
  else kill k.

Definition ExceptionHandler (which : ExceptionType) (k : Kern) : res (Kern * ending) :=
  type <- ReadRegister (vm (kernel k)) 2 ;;
  match which with
  | SyscallException => system_call type k
  | PageFaultException =>
      '(v, val) <- page_fault (kernel k) junk ;;
      let k := set_kernel v k in
      if negb (val =? 0) then kill k else Ok (k, Returns)
  | _ => kill k
  end.
End Syscalls.

(** ** Exit *)

Lemma access_Some {A} (m : gmap positive A) p a : m !! p = Some a -> access m (Some p) = Ok a.
Proof. intros H. unfold access. by rewrite H. Qed.

Lemma update_ok k t p f : processes k !! t = Some p -> update k t f = Ok (put_process t (f p) k).
Proof. intros H. unfold update, the_process. by rewrite (access_Some _ _ _ H). Qed.

(** What closing pipes leaves as it is. *)
Record same_but_pipes (k k' : Kern) : Prop := {
  sp_cpu : cpu k' = cpu k;
  sp_processes : processes k' = processes k;
  sp_me : me k' = me k;
  sp_table : TablePtr k' = TablePtr k;
  sp_forked : forked k' = forked k
}.

Definition connected (k : Kern) (q : option positive) (bits mask : Z) : Prop :=
  Z.land bits mask = mask -> exists q' p, q = Some q' /\ pipes k !! q' = Some p.

Lemma close_pipes_ok k p :
  processes k !! me k = Some p -> connected k (inPipe p) (pipeValue p) 4 -> connected k (outPipe p) (pipeValue p) 2 ->
  (Z.land (pipeValue p) 6 = 6 -> inPipe p <> outPipe p) ->
  exists k', close_pipes k = Ok k' /\ same_but_pipes k k' /\ freePipe k' = freePipe k.
Proof.
  intros Hp Hin Hout Hne. unfold close_pipes, the_process. rewrite (access_Some _ _ _ Hp). cbn [bindr].
  assert (forall k q q' x f g, q = Some q' -> pipes k !! q' = Some x -> exists k', close_end k q f g = Ok k' /\
    same_but_pipes k k' /\ freePipe k' = freePipe k /\ forall v, v <> q' -> pipes k' !! v = pipes k !! v) as Hhalf.
  { intros k0 q q' x f g -> Hx. unfold close_end, on_pipe. rewrite (access_Some _ _ _ Hx). cbn.
    rewrite lookup_insert_eq. cbn. eexists. split; [done|]. destruct (g _ =? 0); cbn; (split; [by split|]; split; [done|]);
      intros v Hv; by rewrite ?lookup_delete_ne, ?lookup_insert_ne. }
  assert (Z.land (pipeValue p) 4 = 4 -> Z.land (pipeValue p) 2 = 2 -> Z.land (pipeValue p) 6 = 6) as Hboth.
  { intros H4 H2. change 6 with (Z.lor 4 2). by rewrite Z.land_lor_distr_r, H4, H2. }
  destruct (Z.eqb_spec (Z.land (pipeValue p) 4) 4) as [E4|E4].
  - destruct (Hin E4) as (q1 & x1 & Eq1 & Hx1).
    destruct (Hhalf k (inPipe p) q1 x1 (fun q => Pipe.setInOpen q 0) Pipe.getOutOpen Eq1 Hx1) as (k1 & -> & S1 & F1 & O1). cbn [bindr].
    destruct (Z.eqb_spec (Z.land (pipeValue p) 2) 2) as [E2|E2]; [|by exists k1].
    destruct (Hout E2) as (q2 & x2 & Eq2 & Hx2). assert (q2 <> q1) as Hq by (specialize (Hne (Hboth E4 E2)); congruence).
    rewrite <- (O1 q2 Hq) in Hx2. destruct (Hhalf k1 (outPipe p) q2 x2 (fun q => Pipe.setOutOpen q 0) Pipe.getInOpen Eq2 Hx2) as (k2 & -> & S2 & F2 & _).
    exists k2. split; [done|]. destruct S1, S2. split; [split|]; congruence.
  - cbn [bindr]. destruct (Z.eqb_spec (Z.land (pipeValue p) 2) 2) as [E2|E2]; [|by exists k].
    destruct (Hout E2) as (q2 & x2 & Eq2 & Hx2).
    destruct (Hhalf k (outPipe p) q2 x2 (fun q => Pipe.setOutOpen q 0) Pipe.getInOpen Eq2 Hx2) as (k2 & -> & S2 & F2 & _). by exists k2.
Qed.

(** The threads of a space are taken out of the table, at indices below [n]. *)
Definition without (ps : gmap positive Process) (space : option positive) (n : Z) (m : gmap Z positive) (i : Z) : option positive :=
  match m !! i with
  | Some t => if (i <? n) && bool_decide (p_space <$> ps !! t = Some space) then None else Some t
  | None => None
  end.

Lemma release_loop k space m :
  Table.rep (TablePtr k) m -> (forall i t, m !! i = Some t -> is_Some (processes k !! t)) ->
  exists tb m', for_range 0 TABLESIZE (release_mine space) k = Ok (set_TablePtr tb k) /\ Table.rep tb m' /\
    forall i, m' !! i = without (processes k) space TABLESIZE m i.
Proof.
  intros Hr Hps.
  destruct (for_range_inv (fun n k' => exists tb m', k' = set_TablePtr tb k /\ Table.rep tb m' /\
    forall i, m' !! i = without (processes k) space n m i) 0 TABLESIZE (release_mine space) k) as (k' & E & tb & m' & -> & H).
  - done.
  - exists (TablePtr k), m. split; [by destruct k|]. split; [done|]. intros i. unfold without.
    destruct (m !! i) as [t|] eqn:Em; [|done]. destruct (Z.ltb_spec i 0); [|done].
    by rewrite (Table.rep_out _ _ _ Hr) in Em by lia.
  - intros n k' Hn (tb & m' & -> & Hr' & Hm'). unfold release_mine. cbn. rewrite (Table.Get_rep _ _ _ Hr'). cbn [bindr].
    assert (forall i, i <> n -> without (processes k) space (n + 1) m i = without (processes k) space n m i) as Hne.
    { intros i Hi. unfold without. destruct (m !! i); [|done]. by replace (i <? n + 1) with (i <? n) by (destruct (Z.ltb_spec i n), (Z.ltb_spec i (n + 1)); lia). }
    assert (without (processes k) space n m n = m !! n) as Hn0.
    { unfold without. destruct (m !! n); [|done]. by rewrite Z.ltb_irrefl. }
    pose proof (Hm' n) as En. rewrite Hn0 in En. rewrite En. destruct (m !! n) as [t|] eqn:Em.
    + destruct (Hps n t Em) as [p Hp]. unfold the_process. cbn. rewrite Hp. cbn [bindr].
      assert (without (processes k) space (n + 1) m n = if bool_decide (p_space p = space) then None else Some t) as Hw.
      { unfold without. rewrite Em, Hp. cbn. replace (n <? n + 1) with true by lia. cbn. repeat case_bool_decide; congruence. }
      case_bool_decide as Hs.
      * destruct (Table.Release_rep tb m' n Hr') as (tb' & -> & Hr2 & _). cbn [bindr]. eexists. split; [done|].
        exists tb', (delete n m'). split; [done|]. split; [done|]. intros i. destruct (decide (i = n)) as [->|Hi].
        -- by rewrite lookup_delete_eq, Hw.
        -- by rewrite lookup_delete_ne, Hne by done.
      * eexists. split; [done|]. exists tb, m'. split; [done|]. split; [done|]. intros i. destruct (decide (i = n)) as [->|Hi].
        -- by rewrite Hw, En.
        -- by rewrite Hne.
    + eexists. split; [done|]. exists tb, m'. split; [done|]. split; [done|]. intros i. destruct (decide (i = n)) as [->|Hi].
      * rewrite En. unfold without. by rewrite Em.
      * by rewrite Hne.
  - eauto.
Qed.

Lemma without_put ps t p v a n m i :
  ps !! t = Some p -> without (<[t := setJoinValue v p]> ps) a n m i = without ps a n m i.
Proof.
  intros Hp. unfold without. destruct (m !! i) as [u|]; [|done].
  destruct (decide (u = t)) as [->|]; [by rewrite lookup_insert_eq, Hp|by rewrite lookup_insert_ne].
Qed.

(** C21: what Exit does, and what it makes of a Join that comes later.  Exit takes every
    thread of the space out of the table, itself and those that still run, leaves the
    others where they are, keeps the status in the thread and counts the space's threads
    down.  So from then on Join2 of the identifier of any of them answers -65535,
    although Finish waits for that Join. *)
Theorem Exit_before_Join status k p a sp m :
  Table.rep (TablePtr k) m -> (forall i t, m !! i = Some t -> is_Some (processes k !! t)) ->
  processes k !! me k = Some p -> p_space p = Some a -> spaces (kernel k) !! a = Some sp ->
  connected k (inPipe p) (pipeValue p) 4 -> connected k (outPipe p) (pipeValue p) 2 ->
  (Z.land (pipeValue p) 6 = 6 -> inPipe p <> outPipe p) ->
  exists k' m', SysCallExit status k = Ok k' /\
    Table.rep (TablePtr k') m' /\ (forall i, m' !! i = without (processes k) (Some a) TABLESIZE m i) /\
    processes k' = <[me k := setJoinValue status p]> (processes k) /\
    threadCount <$> spaces (kernel k') !! a = Some (s32 (threadCount sp - 1)) /\
    forall Thread_Join i t k2, m !! i = Some t -> i < TABLESIZE -> p_space <$> processes k !! t = Some (Some a) ->
      TablePtr k2 = TablePtr k' -> Join2 Thread_Join (i + 1) k2 = Ok (k2, -65535).
Proof.
  intros Hr Hps Hp Ha Hsp Hin Hout Hne.
  destruct (close_pipes_ok k p Hp Hin Hout Hne) as (k1 & E1 & [Ec Ep Em Et _] & _).
  unfold SysCallExit. rewrite E1. cbn [bindr]. rewrite Em, (update_ok _ _ p) by (by rewrite Ep). cbn [bindr].
  unfold the_process. cbn. rewrite Em, Ep, lookup_insert_eq. cbn [bindr].
  set (k2 := put_process (me k) (setJoinValue status p) k1).
  destruct (release_loop k2 (Some a) m) as (tb & m' & E2 & Hr' & Hm').
  { cbn. by rewrite Et. }
  { intros i t Hit. cbn. rewrite Ep, lookup_insert_is_Some. destruct (decide (t = me k)); [by left|right; split; [done|by apply (Hps i)]]. }
  cbn [p_space setJoinValue]. rewrite Ha, E2. cbn [bindr]. unfold count_threads. cbn.
  assert (spaces (kernel (set_TablePtr tb k2)) !! a = Some sp) as Hsp2 by (unfold kernel in *; cbn; by rewrite Ec). rewrite Hsp2. cbn [bindr].
  eexists _, m'. split; [done|]. cbn.
  assert (forall i, m' !! i = without (processes k) (Some a) TABLESIZE m i) as Hw.
  { intros i. rewrite Hm'. cbn. rewrite Ep. by apply without_put. }
  split; [done|]. split; [done|]. split; [by rewrite Ep|]. split.
  - unfold kernel. cbn. by rewrite lookup_insert_eq.
  - intros TJ i t k3 Hi Hlt Hspace E3. unfold Join2. rewrite E3.
    assert (0 <= i) as H0 by (destruct (Z.le_gt_cases 0 i); [done|]; rewrite (Table.rep_out _ _ i Hr) in Hi by lia; done).
    rewrite s32_small by (unfold TABLESIZE in Hlt; unfold is_s32; lia). replace (i + 1 - 1) with i by lia.
    rewrite (Table.Get_rep _ _ _ Hr'), Hw. unfold without. rewrite Hi, Hspace.
    replace (i <? TABLESIZE) with true by lia. by rewrite bool_decide_true.
Qed.

(** ** Exec *)

Lemma Alloc_first (x : positive) n : 0 < n -> exists t, Table.Alloc (Table.Table_new n) (Some x) = Ok (t, 0) /\ Table.rep t {[0 := x]}.
Proof.
  intros Hn. assert (Table.rep (Table.Table_new n) (∅ : gmap Z positive)) as HT by (apply Table.rep_new; lia).
  assert (forall i, ~ is_Some ((∅ : gmap Z positive) !! i)) as H0 by (intros i [? H]; by rewrite lookup_empty in H).
  destruct (Table.Alloc_rep _ _ x HT) as (t & i & -> & _ & [[(H1 & _ & H2) Hr]|(_ & _ & Hall)]).
  - destruct (Z.eq_dec i 0) as [->|Hne]; [by exists t|]. exfalso. apply (H0 0), H2. lia.
  - exfalso. apply (H0 0), Hall. cbn. lia.
Qed.

Section Exec.
Context {host : Host} (junk : list Z) (rawStore : BackingStore) (rawSpace : AddrSpace)
  (rawBits : nat -> Z) (rawName rawID : list Z).
Hypotheses (HrawName : length rawName = 15%nat) (HrawID : length rawID = 10%nat).

(** What a successful Exec leaves: the thread at the least free slot of the table, whose
    number plus one is the answer, forked once, with a space of its own that runs the
    program on the arguments and has one thread more. *)
Definition started (k k' : Kern) (m ms : gmap Z positive) (t : positive) (p : Process) (executable : OpenFile) (args : list (list Z))
    (h : NoffHeader) (id : Z) : Prop :=
  exists i a b pt sp st, Table.least_free m (Table.tableSize (TablePtr k)) i /\ id = i + 1 /\
    Table.rep (TablePtr k') (<[i := t]> m) /\ forked k' = forked k ++ [(t, ProcessStart)] /\
    processes k' = <[t := setSpace (Some a) p]> (processes k) /\
    with_program (kernel k) (kernel k') a b pt sp st h /\
    Table.least_free ms (Table.tableSize (storeTable (kernel k))) (storeID st) /\
    Table.rep (storeTable (kernel k')) (<[storeID st := b]> ms) /\ filename st = store_name (storeID st) /\
    executableFile sp = executable /\ openFiles (kernel k') = openFiles (kernel k) /\ argv sp = args /\ argc sp = zlen args /\
    threadCount sp = s32 (threadCount rawSpace + 1).

(** An executable that has been opened and is still open, and one deleted twice. *)
Definition is_open (v : Vm) (f : OpenFile) : Prop := exists p, file_at f = Some p /\ p ∈ openFiles v.

Lemma delete_open v f : is_open v f ->
  exists p, file_at f = Some p /\ delete_file v f = Ok (set_openFiles (openFiles v ∖ {[p]}) v).
Proof.
  intros (p & E & Hp). exists p. split; [done|]. unfold delete_file. by rewrite E, bool_decide_true.
Qed.

Lemma delete_twice v f p a sp :
  file_at f = Some p -> p ∉ openFiles v -> spaces v !! a = Some sp -> executableFile sp = f ->
  (forall t, Vm.pageTable sp = Some t -> is_Some (tables (vm v) !! t)) -> AddrSpace_delete v a = Err WildAccess.
Proof.
  intros Hf Hp Ha He Ht. unfold AddrSpace_delete, the_space, delete_table. rewrite Ha. cbn [bindr].
  destruct (Vm.pageTable sp) as [t|].
  - rewrite bool_decide_true by (apply elem_of_dom; by apply Ht). cbn [bindr].
    unfold delete_file. by rewrite He, Hf, bool_decide_false.
  - cbn [bindr]. unfold delete_file. by rewrite He, Hf, bool_decide_false.
Qed.

(** There is no room in the table of processes. *)
Definition no_slot {A} (tb : Table.Table A) (m : gmap Z positive) : Prop :=
  forall i, 0 <= i < Table.tableSize tb -> is_Some (m !! i).

Lemma load_process_cases t p executable args k m ms h :
  Table.rep (TablePtr k) m -> Table.rep (storeTable (kernel k)) ms -> Table.tableSize (storeTable (kernel k)) <= 10 ^ 9 ->
  processes k !! t = Some p -> is_open (kernel k) executable ->
  read_header (files (kernel k)) (file_name executable) junk = Ok (Some h) ->
  exists call, load_process junk rawStore rawSpace rawBits rawName rawID t executable args k = call /\
  ((exists k' id, call = Ok (k', id) /\ started k k' m ms t p executable args h id) \/
  (no_slot (storeTable (kernel k)) ms /\ exists k', call = Ok (k', 0) /\
     TablePtr k' = TablePtr k /\ forked k' = forked k /\ processes k' = processes k) \/
  (~ no_slot (storeTable (kernel k)) ms /\ no_slot (TablePtr k) m /\ call = Err WildAccess)).
Proof.
  intros Hr Hrs Hsz Hp Hopen Hh. unfold load_process.
  set (b := fresh (dom (stores (kernel k)))). cbn [storeTable set_stores].
  destruct (Table.Alloc_rep _ _ b Hrs) as (tb & i & E1 & Htb & Hor). rewrite E1. cbn [bindr].
  destruct Hor as [[Hleast Hrs']|(-> & -> & Hfull)].
  2: { cbn. eexists. split; [reflexivity|]. right. left. split; [exact Hfull|]. eexists. by split_and!. }
  assert (~ no_slot (storeTable (kernel k)) ms) as Hroom.
  { intros Hfull. destruct Hleast as (Hi & Hn & _). destruct (Hfull i Hi). congruence. }
  replace (i =? -1) with false by (destruct Hleast as [? _]; lia).
  set (v1 := set_storeTable tb _). set (a := fresh (dom (spaces v1))).
  assert (spaces (kernel k) !! a = None) as Ha by apply not_elem_of_dom, (is_fresh (dom (spaces v1))).
  assert (stores (kernel k) !! b = None) as Hb by apply not_elem_of_dom, (is_fresh (dom (stores (kernel k)))).
  rewrite (update_ok _ t p) by done. cbn [bindr].
  assert (0 <= i < 10 ^ 9) as Hi by (destruct Hleast as [? _]; lia).
  destruct (program_added junk rawBits rawName rawID HrawName HrawID (kernel k) a b (AddArguments rawSpace (zlen args) args)
    (BackingStore_new rawStore) tb executable h i Ha Hb Hh Hi) as (v2 & v3 & sp & st & pt & E2 & E3 & W & T3 & Id & Fn & X & OF & A & C & TC).
  unfold kernel at 1. cbn [cpu put_process set_processes set_kernel set_cpu fst]. unfold v1. rewrite E2. cbn [bindr].
  change (negb (0 =? 0)) with false. cbn [bindr]. rewrite E3. cbn [bindr]. change (negb (0 =? 0)) with false. cbn -[kernel].
  unfold count_threads. unfold kernel at 1. cbn. pose proof W as [Wv Wr [_ Ws] [_ Wt] Wf Wfi [Wsb Wst] Wz (Wk & Wfl & Wbm)].
  rewrite Ws, lookup_insert_eq. cbn.
  destruct (Table.Alloc_rep _ _ t Hr) as (tp & j & E5 & Htp & Hor). unfold kernel. cbn. rewrite E5. cbn [bindr].
  destruct Hor as [[Hj Hr']|(-> & -> & Hall)].
  - replace (j =? -1) with false by (destruct Hj as [? _]; lia). eexists. split; [reflexivity|]. left. eexists _, _. split; [done|].
    exists j, a, b, pt, (setThreadCount sp (s32 (threadCount sp + 1))), st. unfold kernel. cbn. rewrite Id, T3, X, A, C, TC. cbn.
    split_and!; try done. split; cbn; try done. split; [done|]. by rewrite Ws, insert_insert_eq.
  - exists (Err WildAccess). split; [|by do 2 right]. cbn. unfold BackingStore_delete, the_store. cbn.
    rewrite Wt, lookup_insert_eq. cbn. rewrite Wfl, Id. cbn.
    assert (Table.rep (storeTable v3) (<[i := b]> ms)) as Hr4 by (by rewrite T3).
    destruct (Table.Release_rep _ _ i Hr4) as (tb2 & -> & _). cbn.
    match goal with |- context [delete_file ?v executable] => destruct (delete_open v executable) as (q & Eq & ->) end.
    { destruct Hopen as (q & Eq & Hq). exists q. cbn. by rewrite OF. }
    cbn [bindr]. rewrite (delete_twice _ executable q _ (setThreadCount sp (s32 (threadCount sp + 1)))); [done|exact Eq| |apply lookup_insert_eq|exact X|].
    + cbn. set_solver.
    + cbn. intros t'. rewrite Wst. intros [= <-]. rewrite Wv. cbn. by rewrite lookup_insert_eq.
Qed.

(** The memory of a process that has been started: the pager's invariant holds with the
    resident pages [l], every page of the process holds what the executable has there,
    the pages of all other processes hold what they held, and the stores are named. *)
Definition in_memory (k k' : Vm) (l : list (positive * page_data)) (a : positive) (executable : name) (h : NoffHeader) : Prop :=
  Pager k' l /\ LRU k' = LRU k /\ spaces k !! a = None /\
  (forall sp v, spaces k' !! a = Some sp -> 0 <= v < numPages sp -> content k' a v = Some (exec_page (files k) executable h v)) /\
  (forall a2 u, 0 <= u -> a2 <> a -> content k' a2 u = content k a2 u) /\
  exists ms', Table.rep (storeTable k') ms' /\ named k' ms'.

Lemma started_in_memory t p executable args k l m ms h k' id :
  started k k' m ms t p executable args h id -> Table.tableSize (storeTable (kernel k)) <= 10 ^ 9 ->
  Pager (kernel k) l -> named (kernel k) ms -> loadable (files (kernel k)) (file_name executable) h ->
  (forall i, file_name executable <> store_name i) ->
  exists a, p_space <$> processes k' !! t = Some (Some a) /\ in_memory (kernel k) (kernel k') l a (file_name executable) h.
Proof.
  intros (i & a & b & pt & sp & st & Hi & _ & _ & _ & Ep & W & Hid2 & Hrs' & Fn & X & _) Hsz HI Hnm Hl Hx.
  assert (ms !! storeID st = None /\ 0 <= storeID st < 10 ^ 9) as [Hms Hrange] by (destruct Hid2 as (? & ? & _); split; [done|lia]).
  subst executable. change (file_name (executableFile sp)) with (currentExecutable sp) in *.
  assert (name_unused (kernel k) (filename st) (currentExecutable sp)) as Hu.
  { rewrite Fn. by apply (named_unused rawName rawID HrawName HrawID _ ms). }
  pose proof (inv_machine _ _ HI) as Hwf.
  destruct (add_program _ _ l _ _ _ _ _ _ (Pager_ok _ _ HI) W Hl Hu (wf_memory _ Hwf) (wf_bytes _ Hwf)) as (P1 & P2 & P3).
  exists a. split; [by rewrite Ep, lookup_insert_eq|]. split; [|split; [apply (wp_rest _ _ _ _ _ _ _ _ W)|split; [|split; [|split]]]].
  - apply ok_Pager; [|done]. rewrite (wp_vm _ _ _ _ _ _ _ _ W). by apply wf_new_table, (wp_table _ _ _ _ _ _ _ _ W).
  - by apply (wp_spaces _ _ _ _ _ _ _ _ W).
  - intros sp' v. rewrite (proj2 (wp_spaces _ _ _ _ _ _ _ _ W)), lookup_insert_eq. intros [= <-]. apply P3.
  - done.
  - eexists. split; [exact Hrs'|]. by eapply named_added.
Qed.

(** C3: the second half of Exec, where the thread and its arguments are there, and the
    executable is open and can be loaded.  If there is room for a backing store and a
    process, the process is started, with the code and the data of the executable in
    its pages, zeros elsewhere, a swap file of its own, the executable open, and the memory of all other
    processes as it was; with no room for a backing store, it answers 0 and no thread is
    forked.  With no room in the table of processes Exec does not answer: it deletes
    the executable, and then the space, which deletes the executable again. *)
Theorem Exec_starts t p executable args k l m ms h :
  Table.rep (TablePtr k) m -> Table.rep (storeTable (kernel k)) ms -> Table.tableSize (storeTable (kernel k)) <= 10 ^ 9 ->
  processes k !! t = Some p -> Pager (kernel k) l -> named (kernel k) ms -> is_open (kernel k) executable ->
  loadable (files (kernel k)) (file_name executable) h -> (forall i, file_name executable <> store_name i) ->
  let call := load_process junk rawStore rawSpace rawBits rawName rawID t executable args k in
  (exists k' id, call = Ok (k', id) /\ started k k' m ms t p executable args h id /\
     exists a, p_space <$> processes k' !! t = Some (Some a) /\ in_memory (kernel k) (kernel k') l a (file_name executable) h) \/
  (no_slot (storeTable (kernel k)) ms /\ exists k', call = Ok (k', 0) /\
     TablePtr k' = TablePtr k /\ forked k' = forked k /\ processes k' = processes k) \/
  (~ no_slot (storeTable (kernel k)) ms /\ no_slot (TablePtr k) m /\ call = Err WildAccess).
Proof.
  intros Hr Hrs Hsz Hp HI Hnm Hopen Hl Hx call.
  destruct (load_process_cases t p executable args k m ms h Hr Hrs Hsz Hp Hopen (lo_header _ _ _ Hl junk)) as (c & Ec & [(k' & id & E & Hst)|Hc]);
    unfold call; rewrite Ec.
  - left. exists k', id. subst c. split; [done|]. split; [done|]. by apply (started_in_memory t p executable args k l m ms h k' id).
  - by right.
Qed.

(** When the executable has no header, the destructor of the space that was never
    initialised goes by what the allocator left in it: with a pointer to an
    executable that is not open, Exec does not answer; only by luck it answers 0. *)
Lemma Exec_bad_header t p executable args k ms :
  Table.rep (storeTable (kernel k)) ms -> ~ no_slot (storeTable (kernel k)) ms -> processes k !! t = Some p -> is_open (kernel k) executable ->
  read_header (files (kernel k)) (file_name executable) junk = Ok None -> Vm.pageTable rawSpace = None ->
  exists call, load_process junk rawStore rawSpace rawBits rawName rawID t executable args k = call /\
  (forall q, file_at (executableFile rawSpace) = Some q -> q ∉ openFiles (kernel k) -> call = Err WildAccess) /\
  (file_at (executableFile rawSpace) = None -> exists k', call = Ok (k', 0) /\ processes k' !! t = None /\ forked k' = forked k).
Proof.
  intros Hrs Hroom Hp Hopen Hh Hpt. unfold load_process.
  set (b := fresh (dom (stores (kernel k)))). cbn [storeTable set_stores].
  destruct (Table.Alloc_rep _ _ b Hrs) as (tb & i & E1 & Htb & Hor). rewrite E1. cbn [bindr].
  destruct Hor as [[Hleast Hrs']|(-> & -> & Hfull)]; [|by destruct Hroom].
  replace (i =? -1) with false by (destruct Hleast as [? _]; lia).
  set (v1 := set_storeTable tb _). set (a := fresh (dom (spaces v1))).
  rewrite (update_ok _ t p) by done. cbn [bindr]. unfold kernel at 1. cbn [cpu put_process set_processes set_kernel set_cpu fst].
  unfold AddrSpace_Initialize. change (files (set_space v1 a _)) with (files (kernel k)). rewrite Hh. cbn [bindr].
  change (negb (1 =? 0)) with true. cbn iota. change (storeTable (set_space v1 a _)) with tb.
  destruct (Table.Release_rep _ _ i Hrs') as (tb2 & -> & _). cbn [bindr].
  match goal with |- context [delete_file ?v executable] => destruct (delete_open v executable Hopen) as (q & Eq & ->) end. cbn [bindr].
  unfold AddrSpace_delete, the_space. cbn. rewrite lookup_insert_eq. cbn. rewrite Hpt. cbn. unfold delete_file. cbn. eexists. split; [reflexivity|]. split.
  - intros q' -> Hq'. rewrite bool_decide_false; [done|]. set_solver.
  - intros ->. eexists. split; [done|]. cbn. by rewrite lookup_delete_eq.
Qed.

(** ** The first process *)

(** The kernel when Initialize is done, on a machine without a TLB. *)
Record booted (k : Vm) : Prop := {
  bo_memory : zlen (mainMemory (vm k)) = MemorySize /\ Forall is_byte (mainMemory (vm k));
  bo_registers : zlen (registers (vm k)) = NumTotalRegs;
  bo_tlb : tlb (vm k) = None;
  bo_none : spaces k = ∅ /\ stores k = ∅;
  bo_files : forall n d, files k !! n = Some d -> Forall is_byte d
}.

Lemma boot_pager k bits tb a :
  booted k -> BitMap.wf bits -> BitMap.numBits bits = NumPhysPages -> BitMap.bits bits = replicate (Z.to_nat NumPhysPages) false ->
  pager_ok (set_current a (set_coreMap (CoreMap_new NumPhysPages) (set_storeTable tb (set_manager bits k)))) [].
Proof.
  intros [_ _ _ [Hsp Hst] Hf] Hb1 Hb2 Hb3 m Hwf _ _. split; cbn; rewrite ?Hsp, ?Hst; try done.
  - by apply rep_new_map.
  - intros f Hf2. assert (BitMap.bits bits !! Z.to_nat f = Some false) as Hb by (rewrite Hb3; apply lookup_replicate_2; lia).
    unfold BitMap.bits in Hb. rewrite list_lookup_fmap, lookup_seq_lt in Hb by lia. cbn in Hb. rewrite Z2Nat.id in Hb by lia.
    injection Hb as ->. split; [done|by intros ?%elem_of_nil].
  - constructor.
  - intros bs f v Hin. by apply elem_of_nil in Hin.
  - intros a2 [? H]. by rewrite lookup_empty in H.
Qed.

Lemma open_file_ok v n d (o := fresh (openFiles v)) :
  files v !! n = Some d -> open_file v n = (set_openFiles ({[o]} ∪ openFiles v) v, Some (mkOpenFile (Some o) n)).
Proof. intros H. unfold open_file, FileSystem_Open. by rewrite H. Qed.

Lemma still_open (v v0 : Vm) sp o executable :
  openFiles v = openFiles v0 -> executableFile sp = mkOpenFile (Some o) executable -> o ∈ openFiles v0 ->
  is_open v (executableFile sp).
Proof. intros E1 E2 Ho. exists o. by rewrite E1, E2. Qed.

(** C19: the first process.  StartProcess on a machine that has just been booted, with the
    name of a program that can be loaded, gets as far as Machine::Run, in a state
    where the pager's invariant holds and no page is resident: the machine is set to the
    page table of the new space, whose pages hold the image of the executable,
    the program counter is 0, the stack pointer 16 below the end, the other registers 0,
    and the main thread is process 0 of the table. *)
Theorem StartProcess_boots executable k p h :
  booted (kernel k) -> processes k !! me k = Some p -> is_Some (files (kernel k) !! executable) ->
  loadable (files (kernel k)) executable h -> (forall i, executable <> store_name i) ->
  exists k' a sp t, StartProcess junk rawStore rawSpace rawBits rawName rawID executable k = Ok (k', true) /\
    Pager (kernel k') [] /\ LRU (kernel k') = LRU (kernel k) /\ current (kernel k') = a /\ spaces (kernel k') !! a = Some sp /\ currentExecutable sp = executable /\ is_open (kernel k') (executableFile sp) /\
    Vm.pageTable sp = Some t /\ Machine.pageTable (vm (kernel k')) = Some t /\ pageTableSize (vm (kernel k')) = numPages sp /\
    (forall v, 0 <= v < numPages sp -> content (kernel k') a v = Some (exec_page (files (kernel k)) executable h v)) /\
    registers (vm (kernel k')) = start_registers (numPages sp) /\
    processes k' = <[me k := setSpace (Some a) p]> (processes k) /\ Table.rep (TablePtr k') {[0 := me k]} /\
    exists b, Table.rep (storeTable (kernel k')) {[0 := b]} /\ named (kernel k') {[0 := b]}.
Proof.
  intros Hb0 Hp [d Hd] Hl Hx. unfold StartProcess. rewrite (open_file_ok _ _ d Hd).
  set (o := fresh _). set (k1 := set_kernel _ k). assert (booted (kernel k1)) as Hb by (destruct Hb0; by split).
  assert (o ∈ openFiles (kernel k1)) as Ho by (apply elem_of_union; left; by apply elem_of_singleton).
  change (files (kernel k)) with (files (kernel k1)) in *. change (processes k) with (processes k1) in *.
  change (me k) with (me k1) in *. change (LRU (kernel k)) with (LRU (kernel k1)). clearbody k1 o. clear Hb0 Hd k. rename k1 into k.
  pose proof Hb as [[Hm1 Hm2] Hr Htlb [Hsp Hst] Hf].
  destruct (BitMap.BitMap_new_bits rawBits NumPhysPages ltac:(done)) as (bits & E0 & B1 & B2 & B3).
  unfold MemoryManager_new. rewrite E0. cbn -[update AddrSpace_Initialize BackingStore_Initialize Table.Alloc].
  set (b := fresh (dom (stores (kernel k)))).
  destruct (Alloc_first b MAXPROCESS eq_refl) as (tb & -> & Hrt). cbn -[update AddrSpace_Initialize BackingStore_Initialize Table.Alloc].
  set (a := fresh (dom (spaces (kernel k)))).
  rewrite (update_ok _ (me k) p) by done. cbn -[AddrSpace_Initialize BackingStore_Initialize Table.Alloc kernel].
  unfold kernel at 1. cbn -[AddrSpace_Initialize BackingStore_Initialize Table.Alloc kernel].
  set (v0 := set_current a (set_coreMap (CoreMap_new NumPhysPages) (set_storeTable (Table.Table_new MAXPROCESS) (set_manager bits (kernel k))))).
  pose proof (boot_pager (kernel k) bits (Table.Table_new MAXPROCESS) a Hb B1 B2 B3) as Hpager. fold v0 in Hpager.
  assert (spaces v0 !! a = None) as Ha by (unfold v0; cbn; by rewrite Hsp, lookup_empty).
  assert (stores v0 !! b = None) as Hbn by (unfold v0; cbn; by rewrite Hst, lookup_empty).
  destruct (program_added junk rawBits rawName rawID HrawName HrawID v0 a b rawSpace (BackingStore_new rawStore) tb (mkOpenFile (Some o) executable) h 0
    Ha Hbn (lo_header _ _ _ Hl junk) ltac:(lia)) as (v2 & v3 & sp & st & pt & E2 & E3 & W & T3 & Id & Fn & EF & OF & A & C & TC).
  assert (currentExecutable sp = executable) as X by (unfold currentExecutable; by rewrite EF).
  match goal with |- context [AddrSpace_Initialize ?x a ?f junk] => replace (AddrSpace_Initialize x a f junk) with (Ok (v2, 0) : res (Vm * Z)) by (symmetry; exact E2) end.
  cbn -[BackingStore_Initialize Table.Alloc kernel count_threads]. rewrite E3.
  cbn -[Table.Alloc kernel]. pose proof W as [Wv (R1 & R2 & R3 & R4) [_ Ws] [_ Wt] Wf Wfi [Wsb Wst] Wz _].
  unfold count_threads. unfold kernel at 1. cbn -[Table.Alloc InitRegisters RestoreState]. rewrite Ws, lookup_insert_eq.
  cbn -[Table.Alloc InitRegisters RestoreState].
  set (sp' := setThreadCount sp (s32 (threadCount sp + 1))). set (v4 := set_space v3 a sp').
  assert (with_program v0 v4 a b pt sp' st h) as W4 by by apply with_program_count.
  assert (spaces v4 !! a = Some sp') as H4 by (cbn; apply lookup_insert_eq).
  rewrite (InitRegisters_ok v4 a sp' H4) by (cbn; by rewrite Wv). cbn [bindr].
  rewrite (RestoreState_ok _ a sp') by done. cbn [bindr].
  destruct (Alloc_first (me k) MAXPROCESS eq_refl) as (tp & -> & Hrp). cbn [bindr].
  assert (loadable (files v0) (currentExecutable sp') h) as Hl4 by (change (currentExecutable sp') with (currentExecutable sp); by rewrite X).
  assert (name_unused v0 (filename st) (currentExecutable sp')) as Hu.
  { change (currentExecutable sp') with (currentExecutable sp). split; [|split]; cbn; rewrite ?Hsp, ?Hst, ?X, ?Fn.
    - intros E. exact (Hx 0 (eq_sym E)). - intros b' st'. by rewrite lookup_empty. - intros a' sp0. by rewrite lookup_empty. }
  destruct (add_program v0 v4 [] a b pt sp' st h Hpager W4 Hl4 Hu Hm1 Hm2) as (P1 & _ & P3).
  set (m := Machine.set_pageTable _ _ _).
  assert (Machine.wf m) as Hwf by (apply (set_up_wf v0 v4 a b pt sp' st h W4 Hm1 Hm2 Htlb)).
  eexists _, a, sp', pt. split; [reflexivity|].
  match goal with |- Pager (kernel ?x) _ /\ _ => assert (kernel x = set_vm m v4) as Ek by reflexivity;
    assert (processes x = <[me k := setSpace (Some a) p]> (processes k)) as Ep by reflexivity;
    assert (TablePtr x = tp) as Et by reflexivity; revert Ek Ep Et; generalize x end.
  intros kf -> -> ->. cbn [current spaces set_vm vm Machine.pageTable pageTableSize m].
  split; [by apply (P1 m Hwf)|]. split; [exact R3|]. split; [exact R4|]. split; [exact H4|]. split; [exact X|].
  split; [by apply (still_open v3 v0 sp o executable OF EF Ho)|]. split; [exact Wst|].
  split; [exact Wst|]. split; [reflexivity|]. split.
  { intros v Hv. rewrite (content_machine v4 m) by done. rewrite (P3 v Hv). change (currentExecutable sp') with (currentExecutable sp). by rewrite X. }
  split; [reflexivity|]. split; [reflexivity|]. split; [exact Hrp|]. exists b. split; [cbn; by rewrite T3|].
  assert (named v4 (<[0 := b]> ∅)) as [N1 N2].
  { apply (named_added v0 v4 ∅ a b pt sp' st h 0); [|exact W4|reflexivity|lia|exact Fn|change (currentExecutable sp') with (currentExecutable sp); rewrite X; exact Hx].
    split; cbn; rewrite ?Hsp, ?Hst; intros ? ?; by rewrite lookup_empty. }
  by split.
Qed.
End Exec.

(** ** Inputs on which the theorems apply *)

Lemma Pager_storeTable {host : Host} k l tb : Pager k l -> Pager (set_storeTable tb k) l.
Proof.
  intros [I1 I3 I4 I5 I6 I7 I8 I9 I10 I11 I12 I13]. split; try done.
  intros a Ha. destruct (I10 a Ha) as (sp & bs & st & t & tab & h & d & []). exists sp, bs, st, t, tab, h, d. by split.
Qed.

(** The process of Paging.v, its slots of the two tables, and a thread that Exec2 has made. *)
Definition demo_process (a : option positive) : Process := mkProcess a 0 0 None None 1 (replicate 40 0).
Definition demo_slots : Table.Table positive := Table.mkTable MAXPROCESS (Some 1%positive :: replicate 13 None).
Definition demo_kern : Kern :=
  mkKern (set_storeTable demo_slots demo_vm, SystemMode) {[1%positive := demo_process (Some 1%positive); 2%positive := demo_process None]}
    1 demo_slots ∅ None [].
Definition demo_raw_space : AddrSpace := mkAddrSpace None 0 0 [] (mkOpenFile None []) 0 None 0.
Definition demo_raw_store : BackingStore := mkBackingStore (BitMap.mkBitMap 0 0 []) 1 [] 0 [] 0.

Lemma demo_slots_rep : Table.rep demo_slots {[0 := 1%positive]}.
Proof. destruct (Alloc_first 1 MAXPROCESS eq_refl) as (t & E & H). vm_compute in E. by injection E as <-. Qed.

Lemma demo_named : named (kernel demo_kern) {[0 := 1%positive]}.
Proof.
  split.
  - intros b st H. change (stores (kernel demo_kern)) with ({[1%positive := demo_store]} : gmap positive BackingStore) in H.
    apply lookup_singleton_Some in H as [<- <-]. exists 0. by split_and!.
  - intros a sp ID H. change (spaces (kernel demo_kern)) with ({[1%positive := demo_space]} : gmap positive AddrSpace) in H.
    apply lookup_singleton_Some in H as [<- <-]. discriminate.
Qed.

Lemma demo_loadable (f : fs) : f !! [120] = Some demo_exe -> loadable (host := i386) f [120] demo_noff.
Proof.
  intros Hf. split; [|by repeat split|vm_compute; congruence].
  intros junk. unfold read_header, ReadAt. rewrite Hf. reflexivity.
Qed.

Definition demo_file : OpenFile := mkOpenFile (Some 1%positive) [120].

Lemma Exec_starts_witness :
  exists k' a, load_process (host := i386) [] demo_raw_store demo_raw_space (fun _ => 0) (replicate 15 0) (replicate 10 0)
      2 demo_file [[120]] demo_kern = Ok (k', 2) /\
    p_space <$> processes k' !! 2%positive = Some (Some a) /\
    in_memory (host := i386) (kernel demo_kern) (kernel k') [] a [120] demo_noff.
Proof.
  destruct (Exec_starts (host := i386) [] demo_raw_store demo_raw_space (fun _ => 0) (replicate 15 0) (replicate 10 0) eq_refl eq_refl
    2 (demo_process None) demo_file [[120]] demo_kern [] {[0 := 1%positive]} {[0 := 1%positive]} demo_noff)
    as [(k' & id & E & Hst & a & Ha & Hm)|[(Hfull & _)|(_ & Hfull & _)]].
  - exact demo_slots_rep.
  - exact demo_slots_rep.
  - vm_compute. congruence.
  - reflexivity.
  - apply Pager_storeTable, demo_Inv.
  - exact demo_named.
  - exists 1%positive. split; [reflexivity|]. exact (proj2 (elem_of_singleton (C := gset positive) 1%positive 1%positive) eq_refl).
  - by apply demo_loadable.
  - discriminate.
  - exists k', a. split; [|by split]. rewrite E. destruct Hst as (i & _ & _ & _ & _ & _ & Hi & -> & _).
    destruct Hi as (Hi & Hn & Hs). destruct (decide (i = 1)) as [->|Hne]; [done|exfalso].
    destruct (decide (i = 0)) as [->|Hne0]; [discriminate Hn|]. destruct (Hs 1 ltac:(lia)) as [x Hx]. discriminate Hx.
  - exfalso. destruct (Hfull 1) as [x Hx]; [vm_compute; split; congruence|discriminate Hx].
  - exfalso. destruct (Hfull 1) as [x Hx]; [vm_compute; split; congruence|discriminate Hx].
Defined.

Lemma Exit_before_Join_witness :
  exists k', SysCallExit 7 demo_kern = Ok k' /\ joinValue <$> processes k' !! 1%positive = Some 7 /\
    Join2 (fun _ k => Ok k) 1 k' = Ok (k', -65535).
Proof.
  destruct (Exit_before_Join 7 demo_kern (demo_process (Some 1%positive)) 1 demo_space {[0 := 1%positive]})
    as (k' & m' & E & _ & _ & Hp & _ & Hj).
  - exact demo_slots_rep.
  - intros i t Hi. apply lookup_singleton_Some in Hi as [_ <-]. by eexists.
  - reflexivity.
  - reflexivity.
  - reflexivity.
  - intros H. discriminate H.
  - intros H. discriminate H.
  - intros H. discriminate H.
  - exists k'. split; [exact E|]. split; [by rewrite Hp|].
    apply (Hj (fun _ k => Ok k) 0 1%positive k'); [reflexivity|done|reflexivity|reflexivity].
Defined.

(** A machine that has just been booted, with the program of Paging.v on its disk. *)
Definition demo_boot : Vm :=
  mkVm (Machine_new false (fun i => new_entry i)) (BitMap.mkBitMap 0 0 []) (CoreMap_new 0) ∅ ∅ (Table.Table_new 0)
    {[[120] := demo_exe]} ∅ 0 0 0 1 false.
Definition demo_main : Kern := mkKern (demo_boot, SystemMode) {[1%positive := demo_process None]} 1 (Table.Table_new 0) ∅ None [].

Lemma demo_boot_booted : booted demo_boot.
Proof.
  split; try reflexivity.
  - split; [reflexivity|by apply Forall_replicate].
  - by split.
  - intros n d H. change (files demo_boot) with ({[ [120] := demo_exe ]} : fs) in H. apply lookup_singleton_Some in H as [_ <-].
    unfold is_byte. by repeat constructor.
Qed.

Lemma StartProcess_boots_witness :
  exists k' a sp, StartProcess (host := i386) [] demo_raw_store demo_raw_space (fun _ => 0) (replicate 15 0) (replicate 10 0) [120] demo_main
      = Ok (k', true) /\ Pager (host := i386) (kernel k') [] /\ spaces (kernel k') !! a = Some sp /\
    (0 < numPages sp -> content (host := i386) (kernel k') a 0 = Some (exec_page {[[120] := demo_exe]} [120] demo_noff 0)).
Proof.
  destruct (StartProcess_boots (host := i386) [] demo_raw_store demo_raw_space (fun _ => 0) (replicate 15 0) (replicate 10 0) eq_refl eq_refl
    [120] demo_main (demo_process None) demo_noff) as (k' & a & sp & t & E & HI & _ & _ & Hsp & _ & _ & _ & _ & _ & Hc & _).
  - exact demo_boot_booted.
  - reflexivity.
  - by eexists.
  - by apply demo_loadable.
  - discriminate.
  - exists k', a, sp. split; [exact E|]. split; [exact HI|]. split; [exact Hsp|]. intros Hn. apply Hc. lia.
Defined.
