(* ===== verification/Pipelines.v ===== *)
(** Pipelines: the processes that Exec2 connects by pipes (Syscalls.v), and the bytes that
    Write2 and Read2 (userprog/exception.cc) move from the memory of one process to that
    of the next (UserMemory.v) through the pipe between them (Tables.v). *)
From Stdlib Require Import ZArith Lia Bool.
From stdpp Require Import base numbers list gmap fin_maps.
From S2P Require Import Prelude Bitmap Lists Machine Tables CoreMap Vm Paging Loading UserMemory Syscalls.

(** ** The pipes of a pipeline *)

Section Pipeline.
Context (rawChars : nat -> Z).

Fixpoint connect_all (l : list (positive * Z)) (k : Kern) : res Kern :=
  match l with
  | [] => Ok k
  | (t, v) :: l => k <- connect_pipes rawChars t v k ;; connect_all l k
  end.

(** A pipe with its ends as they are, and nothing in it. *)
Definition pipe_at (k : Kern) (q : positive) (i o : Z) : Prop :=
  exists x, pipes k !! q = Some x /\ Pipe.getInOpen x = i /\ Pipe.getOutOpen x = o /\ Pipe.rep x [].

Definition reads (k : Kern) (t q : positive) : Prop := exists p, processes k !! t = Some p /\ inPipe p = Some q.
Definition writes (k : Kern) (t q : positive) : Prop := exists p, processes k !! t = Some p /\ outPipe p = Some q.

(** What a step of the pipeline leaves alone. *)
Record beside (ts qs : list positive) (k k' : Kern) : Prop := {
  bd_processes : forall t, t ∉ ts -> processes k' !! t = processes k !! t;
  bd_there : forall t, is_Some (processes k !! t) -> is_Some (processes k' !! t);
  bd_pipes : forall q, q ∉ qs -> is_Some (pipes k !! q) -> pipes k' !! q = pipes k !! q
}.

Lemma bits_of v c : Z.land v 6 = c -> Z.land v 4 = Z.land c 4 /\ Z.land v 2 = Z.land c 2.
Proof. intros <-. by rewrite <- !Z.land_assoc. Qed.

Lemma beside_trans ts qs k1 k2 k3 ts' qs' :
  beside ts qs k1 k2 -> beside ts' qs' k2 k3 -> beside (ts ++ ts') (qs ++ qs') k1 k3.
Proof.
  intros [A1 B1 C1] [A2 B2 C2]. split.
  - intros t [??]%not_elem_of_app. by rewrite A2, A1.
  - eauto.
  - intros q [H1 H2]%not_elem_of_app Hq. rewrite C2; [by apply C1|done|]. by rewrite C1.
Qed.

Lemma plug_in_ok t q i o k :
  is_Some (processes k !! t) -> pipe_at k q i o ->
  exists k', plug_in t (Some q) k = Ok k' /\ freePipe k' = freePipe k /\ reads k' t q /\ pipe_at k' q 1 o /\
    (forall u r, writes k u r -> writes k' u r) /\ (forall u r, u <> t -> reads k u r -> reads k' u r) /\ beside [t] [q] k k'.
Proof.
  intros [p Hp] (x & Hx & Hi & Ho & Hr). unfold plug_in. rewrite (update_ok _ t p) by done. cbn.
  unfold on_pipe. cbn. rewrite Hx. cbn. eexists. split; [done|]. split; [done|]. split_and!.
  - eexists. cbn. by rewrite lookup_insert_eq.
  - eexists. cbn. rewrite lookup_insert_eq. split_and!; try done. by apply Pipe.rep_open; [|left].
  - intros u r (p' & Hp' & Hw). unfold writes. cbn. destruct (decide (u = t)) as [->|];
      [rewrite lookup_insert_eq; assert (p' = p) as -> by congruence|rewrite lookup_insert_ne by done]; eauto.
  - intros u r Hu (p' & Hp' & Hw). unfold reads. cbn. rewrite lookup_insert_ne by done. eauto.
  - split; cbn; [| |].
    + intros u Hu. rewrite lookup_insert_ne; [done|set_solver].
    + intros u Hu. rewrite lookup_insert_is_Some. destruct (decide (t = u)); auto.
    + intros r Hr' _. rewrite lookup_insert_ne; [done|set_solver].
Qed.

Lemma plug_out_ok t q i o k :
  is_Some (processes k !! t) -> pipe_at k q i o ->
  exists k', plug_out t (Some q) k = Ok k' /\ freePipe k' = freePipe k /\ writes k' t q /\ pipe_at k' q i 1 /\
    (forall u r, reads k u r -> reads k' u r) /\ (forall u r, u <> t -> writes k u r -> writes k' u r) /\ beside [t] [q] k k'.
Proof.
  intros [p Hp] (x & Hx & Hi & Ho & Hr). unfold plug_out. rewrite (update_ok _ t p) by done. cbn.
  unfold on_pipe. cbn. rewrite Hx. cbn. eexists. split; [done|]. split; [done|]. split_and!.
  - eexists. cbn. by rewrite lookup_insert_eq.
  - eexists. cbn. rewrite lookup_insert_eq. split_and!; try done. by apply Pipe.rep_open; [|right].
  - intros u r (p' & Hp' & Hw). unfold reads. cbn. destruct (decide (u = t)) as [->|];
      [rewrite lookup_insert_eq; assert (p' = p) as -> by congruence|rewrite lookup_insert_ne by done]; eauto.
  - intros u r Hu (p' & Hp' & Hw). unfold writes. cbn. rewrite lookup_insert_ne by done. eauto.
  - split; cbn.
    + intros u Hu. rewrite lookup_insert_ne; [done|set_solver].
    + intros u Hu. rewrite lookup_insert_is_Some. destruct (decide (t = u)); auto.
    + intros r Hr' _. rewrite lookup_insert_ne; [done|set_solver].
Qed.

Lemma new_pipe_ok k :
  exists k' q, new_pipe rawChars k = (k', Some q) /\ processes k' = processes k /\ freePipe k' = freePipe k /\
    pipes k !! q = None /\ pipe_at k' q 0 0 /\ forall r, r <> q -> pipes k' !! r = pipes k !! r.
Proof.
  eexists _, _. split; [done|]. cbn. split; [done|]. split; [done|]. split; [apply not_elem_of_dom, is_fresh|].
  split; [|intros r Hr; by rewrite lookup_insert_ne].
  eexists. cbn. rewrite lookup_insert_eq. split_and!; try done. by apply Pipe.rep_new_pipe.
Qed.

Lemma pipe_at_other k k' q i o : pipes k' !! q = pipes k !! q -> pipe_at k q i o -> pipe_at k' q i o.
Proof. intros E (x & Hx & H). exists x. by rewrite E. Qed.

(** The process at the head of a pipeline opens a pipe, ... *)
Lemma first_connects t v k :
  Z.land v 6 = 2 -> freePipe k = None -> is_Some (processes k !! t) ->
  exists k' q, connect_pipes rawChars t v k = Ok k' /\ freePipe k' = Some q /\ pipes k !! q = None /\
    pipe_at k' q 0 1 /\ writes k' t q /\ beside [t] [q] k k'.
Proof.
  intros Hv Hf Ht. destruct (bits_of v 2 Hv) as [E4 E2]. unfold connect_pipes. rewrite Hv, E4, E2, Hf. cbn -[new_pipe plug_out].
  destruct (new_pipe_ok k) as (k1 & q & -> & P1 & F1 & Hq & Hat & O1).
  destruct (plug_out_ok t q 0 0 (set_freePipe (Some q) k1)) as (k2 & -> & F2 & Hw & Hat2 & _ & _ & [B1 B2 B3]); [by cbn; rewrite P1|done|].
  exists k2, q. split_and!; try done. split.
  - intros u Hu. rewrite B1 by done. cbn. by rewrite P1.
  - intros u Hu. apply B2. cbn. by rewrite P1.
  - intros r Hr Hrk. rewrite B3; [apply O1; set_solver|done|]. cbn. rewrite O1 by set_solver. done.
Qed.

(** ... the next takes it over and opens another, ... *)
Lemma middle_connects t v k q0 :
  Z.land v 6 = 6 -> freePipe k = Some q0 -> is_Some (processes k !! t) -> pipe_at k q0 0 1 ->
  exists k' q, connect_pipes rawChars t v k = Ok k' /\ freePipe k' = Some q /\ pipes k !! q = None /\
    pipe_at k' q0 1 1 /\ pipe_at k' q 0 1 /\ reads k' t q0 /\ writes k' t q /\ beside [t] [q0; q] k k'.
Proof.
  intros Hv Hf Ht H0. unfold connect_pipes. rewrite Hv, Hf. cbn -[new_pipe plug_out plug_in].
  destruct (plug_in_ok t q0 0 1 k Ht H0) as (k1 & -> & F1 & Hr & Hat & _ & _ & [B1 B2 B3]). cbn [bindr].
  destruct (new_pipe_ok k1) as (k2 & q & -> & P2 & F2 & Hq & Hat2 & O2).
  assert (is_Some (processes (set_freePipe (Some q) k2) !! t)) as Ht2 by (cbn; rewrite P2; by apply B2).
  destruct (plug_out_ok t q 0 0 (set_freePipe (Some q) k2) Ht2 Hat2) as (k3 & -> & F3 & Hw & Hat3 & R3 & _ & [C1 C2 C3]).
  assert (q <> q0) as Hne by (destruct Hat as (x & Hx & _); congruence).
  assert (is_Some (pipes k2 !! q0)) as H02 by (rewrite O2 by done; destruct Hat as (x & -> & _); by eexists).
  exists k3, q. split; [done|]. split; [done|]. split_and!; try done.
  - destruct (pipes k !! q) as [y|] eqn:Ey; [|done]. rewrite (B3 q) in Hq; [congruence|set_solver|by rewrite Ey].
  - apply (pipe_at_other k1); [|done]. rewrite C3; [by apply O2|set_solver|done].
  - apply R3. destruct Hr as (p & Hp & Hi). exists p. cbn. by rewrite P2.
  - split.
    + intros u Hu. rewrite C1 by done. cbn. rewrite P2. by apply B1.
    + intros u Hu. apply C2. cbn. rewrite P2. by apply B2.
    + intros r Hr' Hk. assert (r <> q0 /\ r <> q) as [N1 N2] by set_solver.
      assert (pipes k1 !! r = pipes k !! r) as E1 by (apply B3; [set_solver|done]).
      rewrite C3; [cbn; by rewrite O2|set_solver|]. cbn. by rewrite O2, E1.
Qed.

(** ... and the last takes the last pipe over. *)
Lemma last_connects t v k q0 :
  Z.land v 6 = 4 -> freePipe k = Some q0 -> is_Some (processes k !! t) -> pipe_at k q0 0 1 ->
  exists k', connect_pipes rawChars t v k = Ok k' /\ freePipe k' = None /\
    pipe_at k' q0 1 1 /\ reads k' t q0 /\ beside [t] [q0] k k'.
Proof.
  intros Hv Hf Ht H0. destruct (bits_of v 4 Hv) as [E4 _]. unfold connect_pipes. rewrite Hv, E4, Hf. cbn -[plug_in].
  destruct (plug_in_ok t q0 0 1 k Ht H0) as (k1 & -> & F1 & Hr & Hat & _ & _ & [B1 B2 B3]). cbn [bindr].
  by eexists.
Qed.

Lemma beside_reads ts qs k k' t q : beside ts qs k k' -> t ∉ ts -> reads k t q -> reads k' t q.
Proof. intros [B _ _] Ht (p & Hp & H). exists p. by rewrite B. Qed.
Lemma beside_writes ts qs k k' t q : beside ts qs k k' -> t ∉ ts -> writes k t q -> writes k' t q.
Proof. intros [B _ _] Ht (p & Hp & H). exists p. by rewrite B. Qed.
Lemma beside_pipe ts qs k k' q i o : beside ts qs k k' -> q ∉ qs -> pipe_at k q i o -> pipe_at k' q i o.
Proof.
  intros [_ _ B] Hq Hat. eapply pipe_at_other; [|exact Hat]. apply B; [done|]. destruct Hat as (x & -> & _). by eexists.
Qed.

Definition pid (x : positive * Z) : positive := x.1.

Lemma rest_connects middles last vn k q0 :
  Forall (fun x => Z.land x.2 6 = 6) middles -> Z.land vn 6 = 4 -> freePipe k = Some q0 -> pipe_at k q0 0 1 ->
  NoDup ((pid <$> middles) ++ [last]) -> Forall (fun t => is_Some (processes k !! t)) ((pid <$> middles) ++ [last]) ->
  exists k' qs, connect_all (middles ++ [(last, vn)]) k = Ok k' /\ freePipe k' = None /\
    NoDup (q0 :: qs) /\ Forall (fun q => pipes k !! q = None) qs /\ Forall (fun q => pipe_at k' q 1 1) (q0 :: qs) /\
    Forall2 (reads k') ((pid <$> middles) ++ [last]) (q0 :: qs) /\ Forall2 (writes k') (pid <$> middles) qs /\
    beside ((pid <$> middles) ++ [last]) (q0 :: qs) k k'.
Proof.
  intros Hm Hvn. revert k q0. induction Hm as [|[t v] middles Hv Hm IH]; intros k q0 Hf Hat Hnd Hthere.
  - cbn in Hthere |- *. pose proof (proj1 (Forall_singleton _ _) Hthere) as Hlast.
    destruct (last_connects last vn k q0 Hvn Hf Hlast Hat) as (k1 & -> & F1 & A1 & R1 & B1). cbn.
    exists k1, []. split_and!; try done; first [apply NoDup_singleton|by apply Forall_nil|by apply Forall_singleton|by repeat constructor].
  - cbn in Hnd, Hthere |- *. apply NoDup_cons in Hnd as [Hnt Hnd]. apply Forall_cons in Hthere as [Ht Hthere].
    destruct (middle_connects t v k q0 Hv Hf Ht Hat) as (k1 & q & -> & F1 & Hq & A0 & A1 & R1 & W1 & B1). cbn [bindr].
    destruct (IH k1 q F1 A1 Hnd) as (k' & qs & -> & F2 & Nq & Fr & At & Rd & Wr & B2).
    { eapply Forall_impl; [exact Hthere|]. apply B1. }
    assert (q0 ∉ q :: qs) as Hq0.
    { assert (is_Some (pipes k !! q0)) as [y Hy] by (destruct Hat as (x & -> & _); by eexists).
      apply not_elem_of_cons. split; [congruence|]. intros Hin. rewrite Forall_forall in Fr. specialize (Fr q0 Hin).
      destruct A0 as (x & Hx & _). congruence. }
    exists k', (q :: qs). split; [done|]. split; [done|]. split_and!.
    + by apply NoDup_cons.
    + apply Forall_cons. split; [done|]. rewrite Forall_forall in Fr |- *. intros r Hr. specialize (Fr r Hr).
      destruct (pipes k !! r) as [y|] eqn:Ey; [|done]. rewrite (bd_pipes _ _ _ _ B1 r) in Fr; [congruence| |by rewrite Ey].
      apply NoDup_cons in Nq as [Nq _]. apply not_elem_of_cons in Hq0 as [_ Hq0]. set_solver.
    + apply Forall_cons. split; [by eapply beside_pipe|done].
    + constructor; [by eapply beside_reads|done].
    + constructor; [by eapply beside_writes|done].
    + destruct B1 as [P1 T1 O1], B2 as [P2 T2 O2]. split.
      * intros u [Hu1 Hu2]%not_elem_of_cons. rewrite P2 by done. apply P1. set_solver.
      * eauto.
      * intros r Hr Hk. assert (pipes k1 !! r = pipes k !! r) as E1 by (apply O1; [set_solver|done]).
        rewrite O2, E1; [done|set_solver|by rewrite E1].
Qed.

End Pipeline.

(** ** The bytes that go through a pipe *)

Section Transfer.
Context {host : Host} (junk : list Z) (tick : Cpu -> res Cpu) (Pipe_Wait : positive -> Kern -> res Kern) (tries : nat).

(** The pipe [q] holds the characters [cs]. *)
Definition holds (k : Kern) (q : positive) (cs : list Z) (i o : Z) : Prop :=
  exists x, pipes k !! q = Some x /\ Pipe.rep x cs /\ Pipe.getInOpen x = i /\ Pipe.getOutOpen x = o /\ Pipe.capacity x = PIPE_SIZE.

(** The current process, which runs, with first-in-first-out replacement (UserMemory.v), and
    what a call on a pipe leaves alone. *)
Definition behind (k : Kern) (p : Process) (l : list (positive * page_data)) (sp : AddrSpace) (t : positive) : Prop :=
  processes k !! me k = Some p /\ running (kernel k) l sp t.

Record same_but_pipe (k k' : Kern) (q : positive) : Prop := {
  sq_processes : processes k' = processes k;
  sq_me : me k' = me k;
  sq_pipes : forall r, r <> q -> pipes k' !! r = pipes k !! r
}.

Lemma same_but_pipe_refl k q : same_but_pipe k k q.
Proof. by split. Qed.

Lemma same_but_pipe_trans k1 k2 k3 q : same_but_pipe k1 k2 q -> same_but_pipe k2 k3 q -> same_but_pipe k1 k3 q.
Proof. intros [A1 B1 C1] [A2 B2 C2]. split; [congruence..|]. intros r Hr. by rewrite C2, C1. Qed.

Lemma same_but_pipe_cpu k c q : same_but_pipe k (set_cpu c k) q.
Proof. by split. Qed.

Lemma pipe_call_done call n q k x p v :
  pipes k !! q = Some x -> call x = Ok (Some (p, v)) ->
  pipe_call Pipe_Wait call (S n) (Some q) k = Ok (set_pipes (<[q := p]> (pipes k)) k, v).
Proof. intros Hx Hc. cbn. rewrite Hx. cbn. by rewrite Hc. Qed.

Lemma pipe_Write_room q k cs i o ch :
  holds k q cs i o -> zlen cs < PIPE_SIZE -> (0 < tries)%nat ->
  exists k', pipe_call Pipe_Wait (fun x => Pipe.Write x (s8 ch)) tries (Some q) k = Ok (k', 1) /\
    holds k' q (cs ++ [s8 (s8 ch)]) i o /\ same_but_pipe k k' q /\ cpu k' = cpu k.
Proof.
  intros (x & Hx & Hr & Hi & Ho & Hc) Hroom Ht. destruct tries as [|n]; [lia|].
  destruct (Pipe.Write_room x (s8 ch) cs Hr) as (p & E & Hr' & Ei & Eo & Ec); [by rewrite Hc|].
  rewrite (pipe_call_done _ n q k x p 1 Hx E). eexists. split; [done|]. split; [|split; [split; try done|done]].
  - exists p. cbn. rewrite lookup_insert_eq. unfold Pipe.getInOpen, Pipe.getOutOpen in *. split_and!; congruence.
  - intros r Hne. cbn. by rewrite lookup_insert_ne.
Qed.

Lemma pipe_Read_some q k c cs i o :
  holds k q (c :: cs) i o -> (0 < tries)%nat ->
  exists k', pipe_call Pipe_Wait Pipe.Read tries (Some q) k = Ok (k', c) /\
    holds k' q cs i o /\ same_but_pipe k k' q /\ cpu k' = cpu k.
Proof.
  intros (x & Hx & Hr & Hi & Ho & Hc) Ht. destruct tries as [|n]; [lia|].
  destruct (Pipe.Read_nonempty x c cs Hr) as (p & E & Hr' & Ei & Eo & Ec).
  rewrite (pipe_call_done _ n q k x p c Hx E). eexists. split; [done|]. split; [|split; [split; try done|done]].
  - exists p. cbn. rewrite lookup_insert_eq. unfold Pipe.getInOpen, Pipe.getOutOpen in *. split_and!; congruence.
  - intros r Hne. cbn. by rewrite lookup_insert_ne.
Qed.

(** An empty pipe whose writer is gone. *)
Lemma pipe_Read_end q k i :
  holds k q [] i 0 -> (0 < tries)%nat ->
  exists k', pipe_call Pipe_Wait Pipe.Read tries (Some q) k = Ok (k', 1000000) /\
    holds k' q [] i 0 /\ same_but_pipe k k' q /\ cpu k' = cpu k.
Proof.
  intros (x & Hx & Hr & Hi & Ho & Hc) Ht. destruct tries as [|n]; [lia|].
  assert (Pipe.Read x = Ok (Some (x, 1000000))) as E.
  { unfold Pipe.Read. rewrite (Pipe.rep_size _ _ Hr), Ho. done. }
  rewrite (pipe_call_done _ n q k x x 1000000 Hx E). eexists. split; [done|]. split; [|split; [split; try done|done]].
  - exists x. cbn. by rewrite lookup_insert_eq.
  - intros r Hne. cbn. by rewrite lookup_insert_ne.
Qed.

Lemma Write2_pipe_ok buffer sp t (N := numPages sp * PageSize) p q ci co n i count (k : Kern) l cs :
  behind k p l sp t -> outPipe p = Some q -> holds k q cs ci co -> (0 < tries)%nat ->
  0 <= buffer -> buffer + Z.of_nat i <= N -> zlen cs + Z.min (Z.of_nat n) (N - buffer - Z.of_nat i) <= PIPE_SIZE ->
  exists k' l' more, Write2_pipe junk tick Pipe_Wait tries buffer n i count k = Ok (k', count + zlen more) /\
    behind k' p l' sp t /\ same_contents (kernel k) (kernel k') /\ holds k' q (cs ++ more) ci co /\ same_but_pipe k k' q /\
    Z.of_nat (i + length more) = Z.min (Z.of_nat (i + n)) (N - buffer) /\
    forall j, (j < length more)%nat -> exists b, user_byte (kernel k) (buffer + Z.of_nat (i + j)) = Some b /\ is_byte b /\ more !! j = Some (s8 b).
Proof.
  intros Hbh Hq Hh Ht Hb. revert i count k l cs Hbh Hh. induction n as [|n IH]; intros i count k l cs [Hp Hrun] Hh Hi Hroom.
  - exists k, l, []. rewrite app_nil_r, Z.add_0_r. split_and!; try done; cbn [length]; lia.
  - destruct (space_size (cpu k) l sp t Hrun) as [Esz Hsm]. fold N in Esz, Hsm. cbn [Write2_pipe]. rewrite Esz. cbn [bindr].
    assert (u32 (buffer + Z.of_nat i) = buffer + Z.of_nat i) as Eu by (apply u32_small; unfold is_u32; lia).
    rewrite Eu. destruct (Z.geb_spec (buffer + Z.of_nat i) N) as [Hge|Hlt].
    + exists k, l, []. rewrite app_nil_r, Z.add_0_r. split_and!; try done; cbn [length]; lia.
    + destruct (try_read_byte junk tick (cpu k) l sp t (buffer + Z.of_nat i) Hrun) as (c1 & l1 & b & -> & Hrun1 & Hs1 & Hb1 & Hby); [fold N; lia|].
      cbn [bindr]. unfold the_process. change (processes (set_cpu c1 k)) with (processes k). change (me (set_cpu c1 k)) with (me k).
      rewrite (access_Some _ _ _ Hp). cbn [bindr]. rewrite Hq.
      destruct (pipe_Write_room q (set_cpu c1 k) cs ci co (s8 b) Hh) as (k2 & -> & Hh2 & Hsame2 & Ec2); [lia|done|]. cbn [bindr].
      assert (s8 (s8 (s8 b)) = s8 b) as Es by (unfold is_byte in Hby; word_lia). rewrite Es in Hh2. change (negb (1 =? 0)) with true.
      destruct (IH (S i) (count + 1) k2 l1 (cs ++ [s8 b])) as (k' & l' & more & E & Hbh' & Hs' & Hh' & Hsame' & Hlen & Hj).
      * split; [by rewrite (sq_processes _ _ _ Hsame2), (sq_me _ _ _ Hsame2)|]. unfold kernel. by rewrite Ec2.
      * done.
      * lia.
      * rewrite length_app. cbn [length]. lia.
      * exists k', l', (s8 b :: more). rewrite <- app_assoc in Hh'. split; [cbn iota in E |- *; rewrite E; do 2 f_equal; cbn [length]; lia|].
        unfold kernel in Hs', Hj. rewrite Ec2 in Hs', Hj. cbn [set_cpu cpu] in Hs', Hj.
        split; [done|]. split; [by eapply same_trans|]. split; [done|]. split.
        { eapply same_but_pipe_trans; [apply (same_but_pipe_cpu k c1)|]. by eapply same_but_pipe_trans. }
        split; [cbn [length]; lia|]. intros [|j] Hlt'; cbn in Hlt'.
        -- exists b. rewrite Nat.add_0_r. done.
        -- destruct (Hj j ltac:(lia)) as (b' & Hb' & Hby' & Hm). exists b'. split; [|done].
           rewrite <- (same_user_byte (kernel k) c1.1) by done. rewrite <- Hb'. f_equal. lia.
Qed.

(** The byte stored for a character of the pipe. *)
Lemma Read2_pipe_ok buffer sp t (N := numPages sp * PageSize) p q ci co n i count (k : Kern) l cs :
  behind k p l sp t -> inPipe p = Some q -> holds k q cs ci co -> (0 < tries)%nat -> Forall (fun c => c <> 1000000) cs ->
  0 <= buffer -> buffer + Z.of_nat i <= N -> (Z.min (Z.of_nat n) (N - buffer - Z.of_nat i) <= zlen cs \/ co = 0) ->
  let m := Z.to_nat (Z.min (Z.min (Z.of_nat n) (N - buffer - Z.of_nat i)) (zlen cs)) in
  exists k' l', Read2_pipe junk tick Pipe_Wait tries buffer n i count k = Ok (k', count + Z.of_nat m) /\
    behind k' p l' sp t /\ holds k' q (drop m cs) ci co /\ same_but_pipe k k' q /\
    changed_within (kernel k) (kernel k') (buffer + Z.of_nat i) (buffer + Z.of_nat i + Z.of_nat m) /\
    forall j c, (j < m)%nat -> cs !! j = Some c -> user_byte (kernel k') (buffer + Z.of_nat (i + j)) = Some (c mod 256).
Proof.
  intros Hbh Hq Hh Ht Hnm Hb. revert i count k l cs Hbh Hh Hnm. induction n as [|n IH]; intros i count k l cs [Hp Hrun] Hh Hnm Hi Hor m.
  - assert (m = 0%nat) as Em by (unfold m; lia). rewrite Em. exists k, l. cbn. rewrite Z.add_0_r, drop_0. split_and!; try done; first [by split|lia].
  - destruct (space_size (cpu k) l sp t Hrun) as [Esz Hsm]. fold N in Esz, Hsm. cbn [Read2_pipe]. rewrite Esz. cbn [bindr].
    assert (u32 (buffer + Z.of_nat i) = buffer + Z.of_nat i) as Eu by (apply u32_small; unfold is_u32; lia).
    rewrite Eu. destruct (Z.geb_spec (buffer + Z.of_nat i) N) as [Hge|Hlt].
    + assert (m = 0%nat) as Em by (unfold m; lia). rewrite Em. exists k, l. cbn. rewrite Z.add_0_r, drop_0. split_and!; try done; first [by split|lia].
    + unfold the_process. rewrite (access_Some _ _ _ Hp). cbn [bindr]. rewrite Hq. destruct cs as [|c cs].
      * assert (co = 0) as -> by (cbn in Hor; lia).
        destruct (pipe_Read_end q k ci Hh Ht) as (k2 & -> & Hh2 & Hsame2 & Ec2). cbn [bindr]. change (negb (1000000 =? 1000000)) with false. cbn iota.
        destruct (IH (S i) count k2 l []) as (k' & l' & E & Hbh' & Hh' & Hsame' & Hch & _); [| |done|lia|by right|].
        -- split; [by rewrite (sq_processes _ _ _ Hsame2), (sq_me _ _ _ Hsame2)|]. unfold kernel. by rewrite Ec2.
        -- done.
        -- assert (m = 0%nat) as Em by (unfold m; cbn; lia). rewrite Em. clear m Em. revert E Hch Hh'.
           replace (Z.to_nat (Z.min (Z.min (Z.of_nat n) (N - buffer - Z.of_nat (S i))) (zlen ([] : list Z)))) with 0%nat by (cbn; lia).
           intros E Hch Hh'. exists k', l'. split; [exact E|]. split; [exact Hbh'|]. split; [exact Hh'|]. split; [by eapply same_but_pipe_trans|].
           unfold kernel in *. rewrite Ec2 in Hch. split; [|lia]. destruct Hch as (C1 & C2 & C3). split; [done|]. split; [done|].
           intros va Hva. apply C3. lia.
      * apply Forall_cons in Hnm as [Hc Hnm].
        destruct (pipe_Read_some q k c cs ci co Hh Ht) as (k2 & -> & Hh2 & Hsame2 & Ec2). cbn [bindr].
        rewrite (proj2 (Z.eqb_neq c 1000000) Hc). cbn [negb]. rewrite Ec2.
        destruct (in_space sp (buffer + Z.of_nat i)) as (_ & E2 & Hpg); [fold N; lia|done|].
        destruct (try_write_ok junk tick (cpu k) l sp t (s32 (buffer + Z.of_nat i)) c Hrun Hpg) as (c1 & l1 & -> & Hrun1 & H1 & H2 & H3 & H4).
        cbn [bindr]. rewrite E2 in H4.
        destruct (IH (S i) (count + 1) (set_cpu c1 k2) l1 cs) as (k' & l' & E & Hbh' & Hh' & Hsame' & (C1 & C2 & C3) & Hj); [| |done|lia|cbn [length] in Hor; lia|].
        -- split; [by cbn; rewrite (sq_processes _ _ _ Hsame2), (sq_me _ _ _ Hsame2)|done].
        -- done.
        -- revert E Hh' C3 Hj. set (m' := Z.to_nat _). assert (m = S m') as -> by (unfold m, m'; cbn [length]; fold N; lia).
           assert (buffer + Z.of_nat i + Z.of_nat (S m') <= N) as HmN by (unfold m'; fold N; lia). intros E Hh' C3 Hj.
           exists k', l'. split; [rewrite E; do 2 f_equal; lia|]. split; [done|]. split; [done|]. split.
           { eapply same_but_pipe_trans; [exact Hsame2|]. by eapply same_but_pipe_trans; [apply same_but_pipe_cpu|]. }
           unfold kernel in C1, C2, C3. cbn [set_cpu cpu] in C1, C2, C3. split.
           { split; [unfold kernel; congruence|].
             split; [intros a u Hu Ha; unfold kernel in *; rewrite C2 by congruence; by apply H2|].
             intros va Hva. unfold kernel in *. rewrite C3 by lia. apply H4. intros Ev. apply Hva. rewrite Ev. lia. }
           intros [|j] c' Hjm Hc'; cbn in Hc'.
           ++ injection Hc' as <-. rewrite Nat.add_0_r. unfold kernel in *. rewrite C3 by lia. rewrite <- H3. apply user_byte_u32. by rewrite u32_s32.
           ++ rewrite <- (Hj j c') by (done || lia). f_equal. lia.
Qed.

Context (getchar : nat -> Z).

(** A byte of a buffer, as the [char] that goes into a pipe. *)
Definition is_char (c : Z) : Prop := s8 c = c.

Lemma char_not_mark c : is_char c -> c <> 1000000.
Proof. unfold is_char. intros E ->. discriminate E. Qed.

(** The two routines behind a pipe, up to their loops. *)
Lemma Write2_at_pipe k p l sp t wb n :
  behind k p l sp t -> Z.land (pipeValue p) 2 = 2 -> 0 <= wb < numPages sp * PageSize ->
  Write2 junk tick Pipe_Wait tries wb n 1 k = Write2_pipe junk tick Pipe_Wait tries wb (Z.to_nat n) 0 0 k.
Proof.
  intros [Hp Hrun] Hv Hwb. destruct (space_size (cpu k) l sp t Hrun) as [Esz Hsm].
  unfold Write2. change (negb (1 =? 1)) with false. cbn iota. rewrite Esz. cbn [bindr].
  rewrite (u32_small wb) by (unfold is_u32; lia). destruct (Z.geb_spec wb (numPages sp * PageSize)); [lia|].
  unfold the_process. rewrite (access_Some _ _ _ Hp). cbn [bindr]. by rewrite Hv.
Qed.

Lemma Read2_at_pipe k p l sp t rb n :
  behind k p l sp t -> Z.land (pipeValue p) 4 = 4 -> 0 <= rb < numPages sp * PageSize ->
  Read2 junk tick Pipe_Wait tries getchar rb n 0 k = Read2_pipe junk tick Pipe_Wait tries rb (Z.to_nat n) 0 0 k.
Proof.
  intros [Hp Hrun] Hv Hrb. destruct (space_size (cpu k) l sp t Hrun) as [Esz Hsm].
  unfold Read2. change (negb (0 =? 0)) with false. cbn iota. rewrite Esz. cbn [bindr].
  rewrite (u32_small rb) by (unfold is_u32; lia). destruct (Z.geb_spec rb (numPages sp * PageSize)); [lia|].
  unfold the_process. rewrite (access_Some _ _ _ Hp). cbn [bindr]. by rewrite Hv.
Qed.

(** C8: the bytes of a pipe, as long as nobody has to wait.  A process behind a pipe that holds
    the characters [cs] writes [n] bytes of its memory, no more than there is room for in the
    pipe, whatever pages are resident, with first-in-first-out replacement: Write returns [n], the memory of no process
    changes, and the pipe holds [cs] and the new bytes.  When later another process
    reads from that pipe, which only has been closed by the writer in between or not at
    all, and asks for no more than the pipe holds or the writer is gone, Read returns
    how many bytes there were for it; it finds in its buffer those of [cs] and then those of the
    writer, in order, what it has not asked for stays in the pipe, and no other byte of any
    process changes.  (What a full or an empty pipe makes the two wait for is in SharedPipe.v.) *)
Theorem pipe_moves_bytes k p l sp t q cs ci co wb n :
  (0 < tries)%nat -> behind k p l sp t -> Z.land (pipeValue p) 2 = 2 -> outPipe p = Some q -> holds k q cs ci co -> Forall is_char cs ->
  0 <= wb -> 0 < n -> zlen cs + n <= PIPE_SIZE -> wb + n <= numPages sp * PageSize ->
  exists k1 l1 more, Write2 junk tick Pipe_Wait tries wb n 1 k = Ok (k1, n) /\ behind k1 p l1 sp t /\
    same_contents (kernel k) (kernel k1) /\ same_but_pipe k k1 q /\ holds k1 q (cs ++ more) ci co /\ zlen more = n /\
    (forall j, 0 <= j < n -> exists b, user_byte (kernel k) (wb + j) = Some b /\ more !! Z.to_nat j = Some (s8 b)) /\
    forall k2 p2 l2 sp2 t2 co2 rb size (m := Z.min size (zlen cs + n)),
      behind k2 p2 l2 sp2 t2 -> Z.land (pipeValue p2) 4 = 4 -> inPipe p2 = Some q ->
      pipes k2 !! q = (fun x => Pipe.setOutOpen x co2) <$> pipes k1 !! q ->
      0 <= rb < numPages sp2 * PageSize -> 0 <= size -> rb + size <= numPages sp2 * PageSize -> size <= zlen cs + n \/ co2 = 0 ->
      exists k3 l3, Read2 junk tick Pipe_Wait tries getchar rb size 0 k2 = Ok (k3, m) /\ behind k3 p2 l3 sp2 t2 /\
        changed_within (kernel k2) (kernel k3) rb (rb + m) /\ same_but_pipe k2 k3 q /\
        holds k3 q (drop (Z.to_nat m) (cs ++ more)) ci co2 /\
        forall j, 0 <= j < m -> user_byte (kernel k3) (rb + j) =
          if j <? zlen cs then (fun c => c mod 256) <$> cs !! Z.to_nat j else user_byte (kernel k) (wb + (j - zlen cs)).
Proof.
  intros Htr Hbh Hv Hq Hh Hcs Hwb Hn Hroom HnN. rewrite (Write2_at_pipe k p l sp t wb n) by (done || lia).
  destruct (Write2_pipe_ok wb sp t p q ci co (Z.to_nat n) 0 0 k l cs Hbh Hq Hh Htr Hwb ltac:(lia) ltac:(lia))
    as (k1 & l1 & more & E & Hbh1 & Hs1 & Hh1 & Hsame1 & Hlen & Hj).
  assert (zlen more = n) as Hm by lia. rewrite Hm in E. exists k1, l1, more. split_and!; try done.
  { intros j Hjn. destruct (Hj (Z.to_nat j) ltac:(lia)) as (b & Hb & _ & Eb). cbn [Nat.add] in Hb. rewrite Z2Nat.id in Hb by lia. eauto. }
  assert (Forall is_char (cs ++ more)) as Hall.
  { apply list.Forall_app. split; [done|]. apply Forall_lookup. intros j c Hc.
    destruct (Hj j (lookup_lt_Some _ _ _ Hc)) as (b & _ & Hby & Eb). assert (c = s8 b) as -> by congruence.
    unfold is_char, is_byte in *. word_lia. }
  intros k2 p2 l2 sp2 t2 co2 rb size m Hbh2 Hv2 Hq2 Hpipe Hrb Hsize HsN Hor.
  rewrite (Read2_at_pipe k2 p2 l2 sp2 t2 rb size) by done.
  assert (holds k2 q (cs ++ more) ci co2) as Hh2.
  { destruct Hh1 as (x & Hx & Hr & Hi & Ho & Hc). exists (Pipe.setOutOpen x co2). rewrite Hpipe, Hx. split; [done|].
    split; [apply Pipe.rep_open; auto|]. done. }
  assert (Forall (fun c => c <> 1000000) (cs ++ more)) as Hnm by (eapply list.Forall_impl; [exact Hall|exact char_not_mark]).
  assert (zlen (cs ++ more) = zlen cs + n) as Htot by (rewrite length_app; lia).
  destruct (Read2_pipe_ok rb sp2 t2 p2 q ci co2 (Z.to_nat size) 0 0 k2 l2 (cs ++ more) Hbh2 Hq2 Hh2 Htr Hnm ltac:(lia) ltac:(lia) ltac:(lia))
    as (k3 & l3 & E3 & Hbh3 & Hh3 & Hsame3 & Hch & Hj3).
  revert E3 Hch Hh3 Hj3. set (m' := Z.to_nat (Z.min _ _)). assert (Z.of_nat m' = m) as Em by (unfold m', m; lia).
  assert (m' = Z.to_nat m) as Em' by lia. rewrite Em, !Z.add_0_r, Em'. intros E3 Hch Hh3 Hj3. exists k3, l3. split_and!; try done.
  intros j Hjr. destruct (lookup_lt_is_Some_2 (cs ++ more) (Z.to_nat j)) as [c Hc]; [lia|].
  specialize (Hj3 (Z.to_nat j) c ltac:(lia) Hc). cbn [Nat.add] in Hj3. rewrite Z2Nat.id in Hj3 by lia. rewrite Hj3.
  destruct (Z.ltb_spec j (zlen cs)).
  - rewrite lookup_app_l in Hc by lia. by rewrite Hc.
  - rewrite lookup_app_r in Hc by lia. destruct (Hj (Z.to_nat j - length cs)%nat ltac:(apply lookup_lt_Some in Hc; lia)) as (b & Hb & Hby & Eb).
    cbn [Nat.add] in Hb. replace (Z.of_nat (Z.to_nat j - length cs)) with (j - zlen cs) in Hb by lia.
    rewrite Hb. assert (c = s8 b) as -> by congruence. f_equal. unfold is_byte in Hby. word_lia.
Qed.
End Transfer.

(** ** Inputs on which the theorems apply *)

Definition demo_three : Kern :=
  mkKern demo_cpu_state {[1%positive := demo_process None; 2%positive := demo_process None; 3%positive := demo_process None]}
    1 demo_slots ∅ None [].


(** Two threads of one space, the first behind the front end of a pipe, the second behind the
    other. *)
Definition demo_writer : Process := mkProcess (Some 1%positive) 0 2 None (Some 1%positive) 1 (replicate 40 0).
Definition demo_reader : Process := mkProcess (Some 1%positive) 0 4 (Some 1%positive) None 1 (replicate 40 0).
Definition demo_pipes : Kern :=
  mkKern demo_cpu_state {[1%positive := demo_writer; 2%positive := demo_reader]} 1 demo_slots
    {[1%positive := Pipe.setInOpen (Pipe.setOutOpen (Pipe.Pipe_new (fun _ => 0) PIPE_SIZE) 1) 1]} None [].

Lemma pipe_moves_bytes_witness :
  exists k1 k3, Write2 (host := i386) [] Ok (fun _ k => Ok k) 1 0 4 1 demo_pipes = Ok (k1, 4) /\
    Read2 (host := i386) [] Ok (fun _ k => Ok k) 1 (fun _ => 0) 200 4 0
      (mkKern (cpu k1) (processes k1) 2 (TablePtr k1) (alter (fun x => Pipe.setOutOpen x 0) 1%positive (pipes k1)) (freePipe k1) (forked k1)) = Ok (k3, 4) /\
    user_byte (host := i386) (kernel k3) 201 = Some 22.
Proof.
  destruct (pipe_moves_bytes (host := i386) [] Ok (fun _ k => Ok k) 1 (fun _ => 0) demo_pipes demo_writer [] demo_space 1 1 [] 1 1 0 4)
    as (k1 & l1 & more & E1 & [Hp1 Hrun1] & Hs1 & Hsame & _ & _ & _ & Hread).
  - lia.
  - split; [reflexivity|exact demo_running].
  - reflexivity.
  - reflexivity.
  - eexists. split; [reflexivity|]. split; [|by split_and!]. apply Pipe.rep_open; [|by left]. apply Pipe.rep_open; [|by right]. by apply Pipe.rep_new_pipe.
  - apply Forall_nil_2.
  - lia.
  - lia.
  - unfold PIPE_SIZE. cbn. lia.
  - vm_compute. congruence.
  - destruct (Hread (mkKern (cpu k1) (processes k1) 2 (TablePtr k1) (alter (fun x => Pipe.setOutOpen x 0) 1%positive (pipes k1)) (freePipe k1) (forked k1)) demo_reader l1 demo_space 1%positive 0 200 4)
      as (k3 & l3 & E3 & _ & _ & _ & _ & Hb).
    + split; [|exact Hrun1]. cbn. by rewrite (sq_processes _ _ _ Hsame).
    + reflexivity.
    + reflexivity.
    + apply lookup_alter_eq.
    + vm_compute. split; congruence.
    + lia.
    + vm_compute. congruence.
    + by left.
    + exists k1, k3. split; [exact E1|]. split; [exact E3|]. exact (Hb 1 ltac:(lia)).
Defined.
