(* ===== verification/Threads.v ===== *)
(** Threads and the scheduler (threads/thread.h, thread.cc, scheduler.h and
    scheduler.cc), with the objects of threads/synch.h the threads wait on.  A
    thread is a number; its control block, the ready list and the wait queues
    live in the kernel state [Nachos], whose fields are the globals of
    threads/system.cc.  What a thread does between two calls of the kernel is
    the subject of System.v; here are the data and the context switch. *)
From Stdlib Require Import ZArith Lia Bool Sorting.Sorted.
From stdpp Require Import base numbers list gmap fin_maps.
From S2P Require Import Prelude Lists Machine.

Inductive IntStatus := IntOff | IntOn.
#[export] Instance IntStatus_eq_dec : EqDecision IntStatus.
Proof. solve_decision. Defined.

Inductive ThreadStatus := JUST_CREATED | RUNNING | READY | BLOCKED.
#[export] Instance ThreadStatus_eq_dec : EqDecision ThreadStatus.
Proof. solve_decision. Defined.

(** The part of class Thread the scheduler works on.  [started] is false while the
    stack that StackAllocate has built still returns to ThreadRoot; the fields of
    Join and of the pipes are in Join.v.  The machine-dependent stack and
    [machineState] are what SWITCH exchanges, and are not represented. *)
Record Thread := mkThread {
  status : ThreadStatus;
  priority : Z;
  userRegisters : list Z;
  space : option positive;
  lock : positive;
  cv : positive;
  started : bool
}.

Definition setStatus (st : ThreadStatus) (t : Thread) : Thread :=
  mkThread st (priority t) (userRegisters t) (space t) (lock t) (cv t) (started t).
Definition setPriority (p : Z) (t : Thread) : Thread :=
  mkThread (status t) p (userRegisters t) (space t) (lock t) (cv t) (started t).
Definition getPriority (t : Thread) : Z := priority t.
Definition set_registers_of (r : list Z) (t : Thread) : Thread :=
  mkThread (status t) (priority t) r (space t) (lock t) (cv t) (started t).
Definition set_started (t : Thread) : Thread :=
  mkThread (status t) (priority t) (userRegisters t) (space t) (lock t) (cv t) true.

Section Threads.
Context {Q : Type -> Type} `{!Queue Q}.

(** ** The objects of threads/synch.h *)

Record Semaphore := mkSemaphore { value : Z; sem_queue : Q positive }.
Record Lock := mkLock { locked : Z; threadHeld : option positive; lock_queue : Q positive }.
Record Condition := mkCondition { waitQ : Q positive }.

Definition Semaphore_new (initialValue : Z) : Semaphore := mkSemaphore initialValue q_new.
Definition Lock_new : Lock := mkLock 0 None q_new.
Definition Condition_new : Condition := mkCondition q_new.

(** ** The kernel

    [spaces] gives the page table and the number of pages of an address space. *)
Record Nachos := mkNachos {
  cpu : Machine;
  spaces : gmap positive (option positive * Z);
  threads : gmap positive Thread;
  readyList : Q positive;
  currentThread : positive;
  threadToBeDestroyed : option positive;
  level : IntStatus;
  semaphores : gmap positive Semaphore;
  locks : gmap positive Lock;
  conditions : gmap positive Condition
}.

Definition set_cpu (m : Machine) (k : Nachos) : Nachos :=
  mkNachos m (spaces k) (threads k) (readyList k) (currentThread k) (threadToBeDestroyed k) (level k)
    (semaphores k) (locks k) (conditions k).
Definition set_threads (t : gmap positive Thread) (k : Nachos) : Nachos :=
  mkNachos (cpu k) (spaces k) t (readyList k) (currentThread k) (threadToBeDestroyed k) (level k)
    (semaphores k) (locks k) (conditions k).
Definition set_readyList (q : Q positive) (k : Nachos) : Nachos :=
  mkNachos (cpu k) (spaces k) (threads k) q (currentThread k) (threadToBeDestroyed k) (level k)
    (semaphores k) (locks k) (conditions k).
Definition set_currentThread (t : positive) (k : Nachos) : Nachos :=
  mkNachos (cpu k) (spaces k) (threads k) (readyList k) t (threadToBeDestroyed k) (level k)
    (semaphores k) (locks k) (conditions k).
Definition set_threadToBeDestroyed (t : option positive) (k : Nachos) : Nachos :=
  mkNachos (cpu k) (spaces k) (threads k) (readyList k) (currentThread k) t (level k)
    (semaphores k) (locks k) (conditions k).
Definition set_level (l : IntStatus) (k : Nachos) : Nachos :=
  mkNachos (cpu k) (spaces k) (threads k) (readyList k) (currentThread k) (threadToBeDestroyed k) l
    (semaphores k) (locks k) (conditions k).
Definition set_semaphores (s : gmap positive Semaphore) (k : Nachos) : Nachos :=
  mkNachos (cpu k) (spaces k) (threads k) (readyList k) (currentThread k) (threadToBeDestroyed k) (level k)
    s (locks k) (conditions k).
Definition set_locks (l : gmap positive Lock) (k : Nachos) : Nachos :=
  mkNachos (cpu k) (spaces k) (threads k) (readyList k) (currentThread k) (threadToBeDestroyed k) (level k)
    (semaphores k) l (conditions k).
Definition set_conditions (c : gmap positive Condition) (k : Nachos) : Nachos :=
  mkNachos (cpu k) (spaces k) (threads k) (readyList k) (currentThread k) (threadToBeDestroyed k) (level k)
    (semaphores k) (locks k) c.

(** A pointer that denotes no object. *)
Definition deref {A} (m : gmap positive A) (p : positive) : res A :=
  match m !! p with Some a => Ok a | None => Err WildAccess end.

Definition put_thread (t : positive) (th : Thread) (k : Nachos) : Nachos :=
  set_threads (<[t := th]> (threads k)) k.

(** ** Scheduler *)

Definition ReadyToRun (k : Nachos) (thread : positive) : res Nachos :=
  th <- deref (threads k) thread ;;
  let k := put_thread thread (setStatus READY th) k in
  let priority := s32 (getPriority th * (-1)) in
  q <- q_sorted_insert (readyList k) thread priority ;;
  Ok (set_readyList q k).

Definition FindNextToRun (k : Nachos) : res (Nachos * option positive) :=
  '(q, r) <- q_sorted_remove (readyList k) ;;
  Ok (set_readyList q k, snd <$> r).

Definition SaveUserState (k : Nachos) (t : positive) : res Nachos :=
  th <- deref (threads k) t ;;
  r <- for_range 0 NumTotalRegs
         (fun i r => v <- ReadRegister (cpu k) i ;; aset r i v) (userRegisters th) ;;
  Ok (put_thread t (set_registers_of r th) k).

Definition RestoreUserState (k : Nachos) (t : positive) : res Nachos :=
  th <- deref (threads k) t ;;
  m <- for_range 0 NumTotalRegs
         (fun i m => v <- aget (userRegisters th) i ;; WriteRegister m i v) (cpu k) ;;
  cur <- deref (threads k) (currentThread k) ;;
  match space cur with
  | None => Err WildAccess
  | Some a => sp <- deref (spaces k) a ;; Ok (set_cpu (set_pageTable m sp.1 sp.2) k)
  end.

(** The destructors; [delete lock] and [delete cv] are those of synch.cc. *)
Definition Lock_delete (k : Nachos) (l : positive) : res Nachos :=
  x <- deref (locks k) l ;;
  _ <- ASSERT (negb (locked x =? 1)) ;;
  _ <- ASSERT (q_is_empty (lock_queue x)) ;;
  Ok (set_locks (delete l (locks k)) k).
Definition Condition_delete (k : Nachos) (c : positive) : res Nachos :=
  x <- deref (conditions k) c ;;
  _ <- ASSERT (q_is_empty (waitQ x)) ;;
  Ok (set_conditions (delete c (conditions k)) k).
Definition Thread_delete (k : Nachos) (t : positive) : res Nachos :=
  _ <- ASSERT (negb (bool_decide (t = currentThread k))) ;;
  th <- deref (threads k) t ;;
  k <- Lock_delete k (lock th) ;;
  k <- Condition_delete k (cv th) ;;
  Ok (set_threads (delete t (threads k)) k).

(** What a thread does in Scheduler::Run once SWITCH has come back to it. *)
Definition after_switch (k : Nachos) : res Nachos :=
  k <- match threadToBeDestroyed k with
       | Some t => k <- Thread_delete k t ;; Ok (set_threadToBeDestroyed None k)
       | None => Ok k
       end ;;
  cur <- deref (threads k) (currentThread k) ;;
  match space cur with
  | None => Ok k
  | Some a =>
      k <- RestoreUserState k (currentThread k) ;;
      sp <- deref (spaces k) a ;;
      Ok (set_cpu (set_pageTable (cpu k) sp.1 sp.2) k)
  end.

(** Scheduler::Run, as the two threads see it: the old one up to SWITCH, then the
    new one, which either returns from the SWITCH it once called or begins at
    ThreadRoot. *)
Definition Scheduler_Run (k : Nachos) (nextThread : positive) : res Nachos :=
  old <- deref (threads k) (currentThread k) ;;
  k <- match space old with Some _ => SaveUserState k (currentThread k) | None => Ok k end ;;
  let k := set_currentThread nextThread k in
  th <- deref (threads k) nextThread ;;
  let th' := setStatus RUNNING th in
  if started th then after_switch (put_thread nextThread th' k)
  else Ok (put_thread nextThread (set_started th') k).

(** ** Thread *)

(** [Thread::Thread] and [Thread::Fork]; the identifiers are those of the objects
    the allocator has just provided, and [junk] what it left in the registers. *)
Definition Thread_new (k : Nachos) (this l c : positive) (junk : list Z) : Nachos :=
  set_conditions (<[c := Condition_new]> (conditions k))
    (set_locks (<[l := Lock_new]> (locks k))
       (put_thread this (mkThread JUST_CREATED 0 junk None l c false) k)).

Definition Thread_Fork (k : Nachos) (this : positive) : res Nachos := ReadyToRun k this.

(** The end of Thread::Sleep: the next thread runs, or there is none. *)
Definition dispatch (k : Nachos) : res (Nachos * bool) :=
  '(k, nextThread) <- FindNextToRun k ;;
  match nextThread with
  | None => Ok (k, false)
  | Some n => k <- Scheduler_Run k n ;; Ok (k, true)
  end.

Definition Thread_Sleep (k : Nachos) : res (Nachos * bool) :=
  _ <- ASSERT (bool_decide (level k = IntOff)) ;;
  th <- deref (threads k) (currentThread k) ;;
  dispatch (put_thread (currentThread k) (setStatus BLOCKED th) k).

(** [Thread::Yield] with interrupts off; the answer says whether it switched. *)
Definition Thread_Yield (k : Nachos) : res (Nachos * bool) :=
  '(k, nextThread) <- FindNextToRun k ;;
  match nextThread with
  | None => Ok (k, false)
  | Some n => k <- ReadyToRun k (currentThread k) ;; k <- Scheduler_Run k n ;; Ok (k, true)
  end.
End Threads.
Arguments Semaphore : clear implicits.
Arguments Lock : clear implicits.
Arguments Condition : clear implicits.
Arguments Nachos : clear implicits.

(** Steps of a computation that succeeds. *)
Lemma ASSERT_bind {A} b (m : res A) r : (_ <- ASSERT b ;; m) = Ok r <-> b = true /\ m = Ok r.
Proof. destruct b; cbn; naive_solver. Qed.

Lemma deref_bind {A B} (m : gmap positive A) p (f : A -> res B) r :
  (x <- deref m p ;; f x) = Ok r <-> exists x, m !! p = Some x /\ f x = Ok r.
Proof. unfold deref. destruct (m !! p); cbn; naive_solver. Qed.

(** ** Where threads wait *)

Inductive qid := ReadyQ | SemQ (s : positive) | LockQ (l : positive) | CondQ (c : positive).
#[export] Instance qid_eq_dec : EqDecision qid.
Proof. solve_decision. Defined.

Definition queue_of {Q} (k : Nachos Q) (q : qid) : option (Q positive) :=
  match q with
  | ReadyQ => Some (readyList k)
  | SemQ s => option_map sem_queue (semaphores k !! s)
  | LockQ l => option_map lock_queue (locks k !! l)
  | CondQ c => option_map waitQ (conditions k !! c)
  end.

Abbreviation queues := (qid -> list (Z * positive)).
Definition upd (cts : queues) (q : qid) (l : list (Z * positive)) : queues :=
  fun q' => if decide (q' = q) then l else cts q'.

Lemma upd_eq cts q l : upd cts q l q = l.
Proof. unfold upd. by rewrite decide_True. Qed.
Lemma upd_ne cts q l q' : q' <> q -> upd cts q l q' = cts q'.
Proof. intros. unfold upd. by rewrite decide_False. Qed.

(** The current thread runs; it runs, but is already on a wait queue; or it does
    not run any more. *)
Inductive mode := Running | Enqueued | Away.

Section Invariant.
Context {Q : Type -> Type} `{!Queue Q, !QueueLaws Q}.
Implicit Types k : Nachos Q.

Definition status_in (m : mode) (k : Nachos Q) (t : positive) (st : ThreadStatus) (q : qid) : Prop :=
  match q with
  | ReadyQ => st = READY
  | _ => st = BLOCKED \/ (m = Enqueued /\ t = currentThread k /\ st = RUNNING)
  end.

Lemma status_in_same m k k' t st q :
  currentThread k' = currentThread k -> status_in m k t st q -> status_in m k' t st q.
Proof. intros E. by destruct q; cbn; rewrite ?E. Qed.

Definition key_of (th : Thread) : Z := s32 (getPriority th * (-1)).

(** Every thread is where its status says: on the ready list exactly when it is
    READY, on exactly one wait queue when it is BLOCKED, on none when it is
    RUNNING, which only the current thread is.  [lost] threads are on no queue:
    those that have finished, or that are being moved.  [cts] is what the queues
    hold; they are in order of priority. *)
Record kinv (lost : positive -> Prop) (m : mode) (k : Nachos Q) (cts : queues) : Prop := {
  k_rep : forall q x, queue_of k q = Some x -> q_rep x (cts q);
  k_none : forall q, queue_of k q = None -> cts q = [];
  k_sorted : forall q, Sorted key_le (cts q);
  k_nodup : forall q, NoDup (cts q).*2;
  k_home : forall q p t, (p, t) ∈ cts q ->
    exists th, threads k !! t = Some th /\ status_in m k t (status th) q /\ p = key_of th;
  k_once : forall q q' t, t ∈ (cts q).*2 -> t ∈ (cts q').*2 -> q = q';
  k_ready : forall t th, threads k !! t = Some th -> status th = READY ->
    lost t \/ t ∈ (cts ReadyQ).*2;
  k_blocked : forall t th, threads k !! t = Some th -> status th = BLOCKED ->
    lost t \/ exists q, q <> ReadyQ /\ t ∈ (cts q).*2;
  k_current : exists th, threads k !! currentThread k = Some th /\
    (status th = RUNNING <-> m <> Away) /\ status th <> JUST_CREATED;
  k_running : forall t th, threads k !! t = Some th -> status th = RUNNING -> t = currentThread k;
  k_lost : forall t, lost t -> (forall q, t ∉ (cts q).*2) /\ (m = Away \/ t <> currentThread k);
  k_enqueued : m = Enqueued -> exists q, currentThread k ∈ (cts q).*2;
  k_tbd : forall t, threadToBeDestroyed k = Some t -> lost t
}.

Lemma kinv_ext lost m k cts cts' : (forall q, cts' q = cts q) -> kinv lost m k cts -> kinv lost m k cts'.
Proof.
  intros E []. assert (forall t q, t ∈ (cts' q).*2 <-> t ∈ (cts q).*2) as E' by (intros; by rewrite E).
  split; try done; intros *; rewrite ?E, ?E'; eauto.
  - intros Ht Hs. destruct (k_blocked0 t th Ht Hs) as [|(q & ? & ?)]; [by left|right]. exists q. by rewrite E'.
  - intros Hp. destruct (k_lost0 t Hp). split; [|done]. intros q. by rewrite E'.
  - intros Hm. destruct (k_enqueued0 Hm) as [q ?]. exists q. by rewrite E'.
Qed.

Lemma elem_snd {A B} (l : list (A * B)) b : b ∈ l.*2 <-> exists a, (a, b) ∈ l.
Proof.
  rewrite list_elem_of_fmap. split; [intros ([a b'] & -> & ?); eauto|].
  intros [a ?]. by exists (a, b).
Qed.

Lemma k_home' lost m k cts q t : kinv lost m k cts -> t ∈ (cts q).*2 ->
  exists th, threads k !! t = Some th /\ status_in m k t (status th) q.
Proof. intros Hk [p Hp]%elem_snd. destruct (k_home _ _ _ _ Hk q p t Hp) as (th & ? & ? & _). eauto. Qed.

(** The running thread is on no queue. *)
Lemma running_alone lost k cts : kinv lost Running k cts -> forall q, currentThread k ∉ (cts q).*2.
Proof.
  intros Hk q Hin. destruct (k_home' _ _ _ _ _ _ Hk Hin) as (th & Ht & Hst).
  destruct (k_current _ _ _ _ Hk) as (th' & Ht' & Hr & _). simplify_eq.
  assert (status th = RUNNING) as Hrun by (apply Hr; discriminate). rewrite Hrun in Hst.
  destruct q; cbn in Hst; naive_solver.
Qed.

(** The parts of the state the invariant reads beside the queues. *)
Record same_threads (k k' : Nachos Q) : Prop := {
  st_threads : threads k' = threads k;
  st_current : currentThread k' = currentThread k;
  st_tbd : threadToBeDestroyed k' = threadToBeDestroyed k
}.

#[export] Instance same_threads_equiv : Equivalence same_threads.
Proof.
  split; [by split|intros ?? []; by split|]. intros ??? [] []. split; congruence.
Qed.

Lemma kinv_same lost m k k' cts :
  same_threads k k' -> (forall q, queue_of k' q = queue_of k q) ->
  kinv lost m k cts -> kinv lost m k' cts.
Proof.
  intros [E1 E2 E3] Hq []. split; try done; intros *; rewrite ?Hq, ?E1, ?E2, ?E3; auto.
  - intros (th & ? & Hs & ?)%k_home0. exists th. split; [done|]. split; [|done].
    destruct q; cbn in *; rewrite ?E2; done.
  - eauto.
  - eauto.
  - eauto.
Qed.

Lemma head_sorted (p : Z * positive) l : Sorted key_le (p :: l) -> Sorted key_le l.
Proof. by inversion 1. Qed.

(** Taking the first thread off a queue. *)
Lemma kinv_pop lost m k k' cts q p t l x' :
  kinv lost m k cts -> same_threads k k' -> cts q = (p, t) :: l -> q_rep x' l ->
  (forall q', queue_of k' q' = if decide (q' = q) then Some x' else queue_of k q') ->
  (m = Enqueued -> t <> currentThread k) -> m <> Running \/ t <> currentThread k ->
  kinv (fun x => lost x \/ x = t) m k' (upd cts q l) /\ ~ lost t.
Proof.
  intros Hk [E1 E2 E3] Hq Hrep Hqs Hen Hrun. destruct Hk.
  assert (forall q' y, y ∈ (upd cts q l q').*2 -> y ∈ (cts q').*2) as Hsub.
  { intros q' y. unfold upd. case_decide as E; [subst; rewrite Hq; by right|done]. }
  assert (forall y, y ∈ (cts q).*2 -> y = t \/ y ∈ l.*2) as Hcons.
  { intros y. rewrite Hq, fmap_cons, elem_of_cons. done. }
  assert (t ∈ (cts q).*2) as Htq by (rewrite Hq; by left).
  assert (forall q', t ∉ (upd cts q l q').*2) as Hgone.
  { intros q' Hin. destruct (decide (q' = q)) as [->|Hne].
    - rewrite upd_eq in Hin. specialize (k_nodup0 q). rewrite Hq in k_nodup0. cbn in k_nodup0.
      by apply NoDup_cons in k_nodup0 as [? _].
    - apply Hne. apply (k_once0 q' q t); [by apply Hsub|done]. }
  split; [|intros Hl; destruct (k_lost0 t Hl) as [Hno _]; by apply (Hno q)]. split.
  - intros q' y. rewrite Hqs. unfold upd. case_decide; [congruence|apply k_rep0].
  - intros q'. rewrite Hqs. unfold upd. case_decide; [done|apply k_none0].
  - intros q'. unfold upd. case_decide; [|done]. apply (head_sorted (p, t)). by rewrite <- Hq.
  - intros q'. unfold upd. case_decide; [|done]. specialize (k_nodup0 q). rewrite Hq in k_nodup0.
    by apply NoDup_cons in k_nodup0 as [_ ?].
  - intros q' p' y Hin. rewrite E1. destruct (k_home0 q' p' y) as (th & ? & Hs & ?).
    { revert Hin. unfold upd. case_decide as E; [subst; rewrite Hq; by right|done]. }
    exists th. split; [done|]. split; [|done]. destruct q'; cbn in *; by rewrite ?E2.
  - intros q1 q2 y H1 H2. apply (k_once0 q1 q2 y); by apply Hsub.
  - intros y th. rewrite E1. intros Hy Hst. destruct (k_ready0 y th Hy Hst) as [|Hin]; [by do 2 left|].
    destruct (decide (y = t)) as [->|Hne]; [by left; right|]. right.
    destruct (decide (ReadyQ = q)) as [<-|]; [|by rewrite upd_ne]. rewrite upd_eq.
    by destruct (Hcons y Hin).
  - intros y th. rewrite E1. intros Hy Hst.
    destruct (k_blocked0 y th Hy Hst) as [|(q' & Hq' & Hin)]; [by do 2 left|].
    destruct (decide (y = t)) as [->|Hne]; [by left; right|]. right. exists q'. split; [done|].
    destruct (decide (q' = q)) as [->|]; [|by rewrite upd_ne]. rewrite upd_eq. by destruct (Hcons y Hin).
  - by rewrite E1, E2.
  - intros y th. rewrite E1, E2. apply k_running0.
  - intros y [Hy| ->].
    + destruct (k_lost0 y Hy) as [Hno Hc]. rewrite E2. split; [|done].
      intros q' Hin. by apply (Hno q'), Hsub.
    + rewrite E2. split; [done|]. destruct m; [right|right|by left]; naive_solver.
  - intros ->. rewrite E2. destruct (k_enqueued0 eq_refl) as [q' Hin]. exists q'.
    destruct (decide (q' = q)) as [->|]; [|by rewrite upd_ne]. rewrite upd_eq.
    destruct (Hcons _ Hin) as [Heq|]; [|done]. by destruct (Hen eq_refl).
  - intros y. rewrite E3. intros Hy. left. by apply k_tbd0.
Qed.

(** The current thread stops running, and is to be put on some queue or is done. *)
Lemma kinv_stop lost k cts th st :
  kinv lost Running k cts -> threads k !! currentThread k = Some th -> st = READY \/ st = BLOCKED ->
  kinv (fun x => lost x \/ x = currentThread k) Away (put_thread (currentThread k) (setStatus st th) k) cts.
Proof.
  intros Hk Ht Hst. pose proof (running_alone _ _ _ Hk) as Halone. destruct Hk.
  assert (forall q p t, (p, t) ∈ cts q -> t <> currentThread k) as Hne.
  { intros q p t Hin ->. apply (Halone q). apply elem_snd. eauto. }
  split; cbn; try done.
  - intros q p t Hin. rewrite lookup_insert_ne by (apply not_eq_sym; eauto).
    destruct (k_home0 q p t Hin) as (th' & ? & Hs & ?). exists th'. split; [done|]. split; [|done].
    destruct q; cbn in *; naive_solver.
  - intros t th'. destruct (decide (t = currentThread k)) as [->|Hn]; [by left; right|].
    rewrite lookup_insert_ne by done. intros Hl Hr. destruct (k_ready0 t th' Hl Hr); [by do 2 left|by right].
  - intros t th'. destruct (decide (t = currentThread k)) as [->|Hn]; [by left; right|].
    rewrite lookup_insert_ne by done. intros Hl Hr. destruct (k_blocked0 t th' Hl Hr); [by do 2 left|by right].
  - exists (setStatus st th). rewrite lookup_insert_eq. split; [done|]. cbn. naive_solver.
  - intros t th'. destruct (decide (t = currentThread k)) as [->|Hn]; [done|].
    rewrite lookup_insert_ne by done. apply k_running0.
  - intros t [Hl| ->]; [|split; [done|by left]]. destruct (k_lost0 t Hl). split; [done|by left].
  - intros t Hd. left. by apply k_tbd0.
Qed.

(** It goes to sleep on the wait queue it is on. *)
Lemma kinv_sleep lost k cts th :
  kinv lost Enqueued k cts -> threads k !! currentThread k = Some th ->
  kinv lost Away (put_thread (currentThread k) (setStatus BLOCKED th) k) cts.
Proof.
  intros Hk Ht. destruct Hk.
  assert (status th = RUNNING) as Hrun.
  { destruct k_current0 as (th' & Ht' & Hr & _). assert (th' = th) as -> by congruence. by apply Hr. }
  split; cbn; try done.
  - intros q p t Hin. destruct (k_home0 q p t Hin) as (th' & Ht' & Hs & Hp).
    destruct (decide (t = currentThread k)) as [->|Hn].
    + rewrite lookup_insert_eq. assert (th' = th) as -> by congruence. eexists. split; [done|].
      split; [|done]. rewrite Hrun in Hs. destruct q; cbn in *; naive_solver.
    + rewrite lookup_insert_ne by done. exists th'. split; [done|]. split; [|done].
      destruct q; cbn in *; naive_solver.
  - intros t th'. destruct (decide (t = currentThread k)) as [->|Hn].
    { rewrite lookup_insert_eq. by intros [= <-]. }
    rewrite lookup_insert_ne by done. apply k_ready0.
  - intros t th'. destruct (decide (t = currentThread k)) as [->|Hn].
    + intros _ _. right. destruct (k_enqueued0 eq_refl) as [q Hin]. exists q. split; [|done].
      intros ->. apply elem_snd in Hin as [p Hin]. destruct (k_home0 _ _ _ Hin) as (th2 & Ht2 & Hs & _).
      cbn in Hs. congruence.
    + rewrite lookup_insert_ne by done. apply k_blocked0.
  - exists (setStatus BLOCKED th). rewrite lookup_insert_eq. split; [done|]. cbn. naive_solver.
  - intros t th'. destruct (decide (t = currentThread k)) as [->|Hn]; [done|].
    rewrite lookup_insert_ne by done. apply k_running0.
  - intros t Hl. destruct (k_lost0 t Hl). split; [done|by left].
Qed.

Lemma home_same (ths : gmap positive Thread) m k k' p t q :
  currentThread k' = currentThread k ->
  (exists th, ths !! t = Some th /\ status_in m k t (status th) q /\ p = key_of th) ->
  exists th, ths !! t = Some th /\ status_in m k' t (status th) q /\ p = key_of th.
Proof. intros E (th & ? & ? & ?). exists th. split; [done|]. split; [by eapply status_in_same|done]. Qed.

Lemma insert_sorted_snd p t (l : list (Z * positive)) y : y ∈ (insert_sorted p t l).*2 <-> y = t \/ y ∈ l.*2.
Proof. rewrite (insert_sorted_perm p t l), fmap_cons, elem_of_cons. done. Qed.

Lemma insert_sorted_nodup p t (l : list (Z * positive)) : NoDup l.*2 -> t ∉ l.*2 -> NoDup (insert_sorted p t l).*2.
Proof. intros. rewrite (insert_sorted_perm p t l), fmap_cons. by apply NoDup_cons. Qed.

(** Scheduler::ReadyToRun puts a thread that is on no queue on the ready list,
    behind those of its priority. *)
Lemma ReadyToRun_inv lost m k cts t k' :
  kinv (fun x => lost x \/ x = t) m k cts -> ~ lost t -> threadToBeDestroyed k <> Some t ->
  ReadyToRun k t = Ok k' ->
  exists th q, threads k !! t = Some th /\ k' = set_readyList q (put_thread t (setStatus READY th) k) /\
    kinv lost m k' (upd cts ReadyQ (insert_sorted (key_of th) t (cts ReadyQ))).
Proof.
  intros Hk Hnl Htbd H. unfold ReadyToRun, deref in H.
  destruct (threads k !! t) as [th|] eqn:Ht; [|done]. cbn [bindr] in H. exists th. destruct Hk.
  destruct (q_sorted_insert_rep _ (readyList k) (cts ReadyQ) t (key_of th)) as (q & Eq & Hq);
    [by apply (k_rep0 ReadyQ)|].
  change (readyList (put_thread t (setStatus READY th) k)) with (readyList k) in H. fold (key_of th) in H.
  rewrite Eq in H. cbn [bindr] in H. injection H as <-. exists q. split; [done|]. split; [done|].
  destruct (k_lost0 t) as [Hno Haway]; [by right|].
  assert (t = currentThread k -> m = Away) as Haway' by naive_solver.
  set (cts' := upd _ _ _).
  assert (forall q' y, y ∈ (cts' q').*2 <-> y ∈ (cts q').*2 \/ q' = ReadyQ /\ y = t) as Hin.
  { intros q' y. unfold cts', upd. case_decide as E; [subst|naive_solver].
    rewrite insert_sorted_snd. naive_solver. }
  split; cbn [set_readyList put_thread set_threads threads currentThread threadToBeDestroyed].
  - intros q' x. unfold cts', upd. case_decide as E.
    + subst. cbn. by intros [= <-].
    + intros Hx. apply k_rep0. destruct q'; done.
  - intros q'. unfold cts', upd. case_decide as E; [by subst|]. intros Hx. apply k_none0. destruct q'; done.
  - intros q'. unfold cts', upd. case_decide; [|done]. by apply insert_sorted_sorted.
  - intros q'. unfold cts', upd. case_decide; [|done]. apply insert_sorted_nodup; [done|apply Hno].
  - intros q' p y. unfold cts', upd. case_decide as E.
    + subst. rewrite (insert_sorted_perm (key_of th) t (cts ReadyQ)), elem_of_cons. intros [[= -> ->]|Hy].
      * rewrite lookup_insert_eq. eexists. split; [done|]. done.
      * assert (y <> t) as Hne by (intros ->; apply (Hno ReadyQ), elem_snd; eauto).
        rewrite lookup_insert_ne by done. by eapply home_same, k_home0.
    + intros Hy. assert (y <> t) as Hne by (intros ->; apply (Hno q'), elem_snd; eauto).
      rewrite lookup_insert_ne by done. by eapply home_same, k_home0.
  - intros q1 q2 y. rewrite !Hin. intros [H1|[-> ->]] [H2|[-> H2]]; subst; try done.
    + by apply (k_once0 q1 q2 y).
    + by destruct (Hno q1).
    + by destruct (Hno q2).
  - intros y th'. destruct (decide (y = t)) as [->|Hn].
    + intros _ _. right. apply Hin. by right.
    + rewrite lookup_insert_ne by done. intros Hy Hr.
      destruct (k_ready0 y th' Hy Hr) as [[|]|]; [by left|done|right; apply Hin; by left].
  - intros y th'. destruct (decide (y = t)) as [->|Hn].
    + rewrite lookup_insert_eq. by intros [= <-].
    + rewrite lookup_insert_ne by done. intros Hy Hr.
      destruct (k_blocked0 y th' Hy Hr) as [[|]|(q' & ? & ?)]; [by left|done|right].
      exists q'. split; [done|]. apply Hin. by left.
  - destruct (decide (currentThread k = t)) as [<-|Hn].
    + rewrite lookup_insert_eq. eexists. split; [done|]. cbn. naive_solver.
    + by rewrite lookup_insert_ne.
  - intros y th'. destruct (decide (y = t)) as [->|Hn]; [rewrite lookup_insert_eq; by intros [= <-]|].
    rewrite lookup_insert_ne by done. apply k_running0.
  - intros y Hy. destruct (k_lost0 y) as [Hno' ?]; [by left|]. split; [|done].
    intros q' [|[-> ->]]%Hin; [by apply (Hno' q')|done].
  - intros ->. destruct (k_enqueued0 eq_refl) as [q' Hq']. exists q'. apply Hin. by left.
  - intros y Hy. destruct (k_tbd0 y Hy) as [|E]; [done|]. congruence.
Qed.

(** The running thread puts itself on a wait queue. *)
Lemma kinv_enqueue lost k k' cts q th x' :
  kinv lost Running k cts -> same_threads k k' -> q <> ReadyQ ->
  threads k !! currentThread k = Some th ->
  q_rep x' (insert_sorted (key_of th) (currentThread k) (cts q)) ->
  (forall q', queue_of k' q' = if decide (q' = q) then Some x' else queue_of k q') ->
  kinv lost Enqueued k' (upd cts q (insert_sorted (key_of th) (currentThread k) (cts q))).
Proof.
  intros Hk [E1 E2 E3] Hq Ht Hrep Hqs. pose proof (running_alone _ _ _ Hk) as Halone. destruct Hk.
  set (cts' := upd _ _ _).
  assert (status th = RUNNING) as Hrun.
  { destruct k_current0 as (th' & Ht' & Hr & _). assert (th' = th) as -> by congruence. by apply Hr. }
  assert (forall q' y, y ∈ (cts' q').*2 <-> y ∈ (cts q').*2 \/ q' = q /\ y = currentThread k) as Hin.
  { intros q' y. unfold cts', upd. case_decide as E; [subst|naive_solver].
    rewrite insert_sorted_snd. naive_solver. }
  split.
  - intros q' y. rewrite Hqs. unfold cts', upd. case_decide; [congruence|apply k_rep0].
  - intros q'. rewrite Hqs. unfold cts', upd. case_decide; [done|apply k_none0].
  - intros q'. unfold cts', upd. case_decide; [|done]. by apply insert_sorted_sorted.
  - intros q'. unfold cts', upd. case_decide; [|done]. by apply insert_sorted_nodup.
  - intros q' p y. rewrite E1. unfold cts', upd. case_decide as E.
    + subst. rewrite (insert_sorted_perm (key_of th) _ (cts q)), elem_of_cons. intros [[= -> ->]|Hy].
      * exists th. split; [done|]. split; [|done]. rewrite Hrun. destruct q; cbn; rewrite ?E2; naive_solver.
      * destruct (k_home0 _ _ _ Hy) as (th' & ? & Hs & ?). exists th'. split; [done|]. split; [|done].
        destruct q; cbn in *; naive_solver.
    + intros Hy. destruct (k_home0 _ _ _ Hy) as (th' & ? & Hs & ?). exists th'. split; [done|]. split; [|done].
      destruct q'; cbn in *; naive_solver.
  - intros q1 q2 y. rewrite !Hin. intros [H1|[-> ->]] [H2|[-> H2]]; subst; try done.
    + by apply (k_once0 q1 q2 y).
    + by destruct (Halone q1).
    + by destruct (Halone q2).
  - intros y th'. rewrite E1. intros Hy Hst. destruct (k_ready0 y th' Hy Hst); [by left|].
    right. apply Hin. by left.
  - intros y th'. rewrite E1. intros Hy Hst. destruct (k_blocked0 y th' Hy Hst) as [|(q' & ? & ?)]; [by left|].
    right. exists q'. split; [done|]. apply Hin. by left.
  - rewrite E1, E2. exists th. split; [done|]. rewrite Hrun. done.
  - intros y th'. rewrite E1, E2. apply k_running0.
  - intros y Hy. destruct (k_lost0 y Hy) as [Hno [|Hne]]; [done|]. rewrite E2. split; [|by right].
    intros q' [|[-> ->]]%Hin; [by apply (Hno q')|done].
  - intros _. rewrite E2. exists q. apply Hin. by right.
  - intros y. rewrite E3. apply k_tbd0.
Qed.

(** A control block changes in what the invariant does not read. *)
Lemma kinv_put_thread lost m k cts t th th' :
  kinv lost m k cts -> threads k !! t = Some th -> status th' = status th ->
  priority th' = priority th \/ (forall q, t ∉ (cts q).*2) ->
  kinv lost m (put_thread t th' k) cts.
Proof.
  intros Hk Ht Hst Hp. destruct Hk.
  assert (forall y thy', threads (put_thread t th' k) !! y = Some thy' ->
    exists thy, threads k !! y = Some thy /\ status thy' = status thy) as Hback.
  { intros y thy'. cbn. destruct (decide (y = t)) as [->|]; [rewrite lookup_insert_eq; intros [= <-]|
      rewrite lookup_insert_ne by done]; eauto. }
  assert (forall y thy, threads k !! y = Some thy ->
    exists thy', threads (put_thread t th' k) !! y = Some thy' /\ status thy' = status thy) as Hforth.
  { intros y thy Hy. cbn. destruct (decide (y = t)) as [->|]; [rewrite lookup_insert_eq|
      rewrite lookup_insert_ne by done]; [exists th'; split; congruence|eauto]. }
  split; try done.
  - intros q p y Hin. destruct (k_home0 q p y Hin) as (thy & Hy & Hs & Hkey). cbn.
    destruct (decide (y = t)) as [->|Hne]; [|rewrite lookup_insert_ne by done; eauto].
    rewrite lookup_insert_eq. exists th'. assert (thy = th) as -> by congruence. split; [done|].
    rewrite Hst. split; [done|]. destruct Hp as [Hp|Hno]; [unfold key_of, getPriority in *; congruence|].
    destruct (Hno q). apply elem_snd. eauto.
  - intros y thy' Hy Hr. destruct (Hback y thy' Hy) as (thy & Hy2 & E). apply (k_ready0 y thy); congruence.
  - intros y thy' Hy Hr. destruct (Hback y thy' Hy) as (thy & Hy2 & E). apply (k_blocked0 y thy); congruence.
  - destruct k_current0 as (thc & Hc & Hr & Hj). destruct (Hforth _ _ Hc) as (thc' & ? & E).
    exists thc'. by rewrite E.
  - intros y thy' Hy Hr. destruct (Hback y thy' Hy) as (thy & Hy2 & E). apply (k_running0 y thy); congruence.
Qed.

(** ** The context switch *)

Lemma SaveUserState_ok k t k' :
  SaveUserState k t = Ok k' ->
  exists th r, threads k !! t = Some th /\ k' = put_thread t (set_registers_of r th) k.
Proof.
  unfold SaveUserState, deref. destruct (threads k !! t) as [th|]; [|done]. cbn [bindr].
  intros H. inv_bind H. injection H as <-. eauto.
Qed.

Lemma RestoreUserState_ok k t k' : RestoreUserState k t = Ok k' -> exists m, k' = set_cpu m k.
Proof.
  unfold RestoreUserState. intros H. inv_bind H. inv_bind H. inv_bind H.
  destruct (space _); [|done]. inv_bind H. injection H as <-. eauto.
Qed.

(** Destroying a thread takes its lock and its condition variable away, which no
    one holds or waits for. *)
Lemma Thread_delete_ok k t k' :
  Thread_delete k t = Ok k' ->
  exists th x y, t <> currentThread k /\ threads k !! t = Some th /\
    locks k !! lock th = Some x /\ locked x <> 1 /\ q_is_empty (lock_queue x) = true /\
    conditions k !! cv th = Some y /\ q_is_empty (waitQ y) = true /\
    k' = set_threads (delete t (threads k)) (set_conditions (delete (cv th) (conditions k))
           (set_locks (delete (lock th) (locks k)) k)).
Proof.
  unfold Thread_delete, Lock_delete, Condition_delete. intros H.
  apply ASSERT_bind in H as [Hne H]. apply negb_true_iff, bool_decide_eq_false in Hne.
  apply deref_bind in H as (th & Ht & H). inv_bind H.
  apply deref_bind in H0 as (x & Hx & H0). apply ASSERT_bind in H0 as [Hl H0].
  apply ASSERT_bind in H0 as [Hlq H0]. apply negb_true_iff, Z.eqb_neq in Hl. injection H0 as <-.
  inv_bind H. apply deref_bind in H0 as (y & Hy & H0). apply ASSERT_bind in H0 as [Hcq H0].
  injection H0 as <-. injection H as <-.
  exists th, x, y. done.
Qed.

Lemma lost_not_queued lost m k cts t : kinv lost m k cts -> lost t -> forall q, t ∉ (cts q).*2.
Proof. intros Hk Hl. by destruct (k_lost _ _ _ _ Hk t Hl). Qed.

Lemma kinv_delete lost m k cts t k' :
  kinv lost m k cts -> lost t -> Thread_delete k t = Ok k' -> kinv lost m k' cts.
Proof.
  intros Hk Hl H. pose proof (lost_not_queued _ _ _ _ _ Hk Hl) as Hno.
  apply Thread_delete_ok in H as (th & x & y & Hne & Ht & Hx & _ & Ex & Hy & Ey & ->). destruct Hk.
  assert (cts (LockQ (lock th)) = []) as Hlq.
  { rewrite (q_is_empty_rep _ _ (cts (LockQ (lock th)))) in Ex by (apply k_rep0; cbn; by rewrite Hx).
    by apply bool_decide_eq_true in Ex. }
  assert (cts (CondQ (cv th)) = []) as Hcq.
  { rewrite (q_is_empty_rep _ _ (cts (CondQ (cv th)))) in Ey by (apply k_rep0; cbn; by rewrite Hy).
    by apply bool_decide_eq_true in Ey. }
  split; cbn [set_threads set_conditions set_locks threads currentThread threadToBeDestroyed]; try done.
  - intros q z Hz. apply k_rep0. destruct q as [|s|l|c]; cbn in *; try done.
    + destruct (decide (l = lock th)) as [->|]; [by rewrite lookup_delete_eq in Hz|].
      by rewrite lookup_delete_ne in Hz by done.
    + destruct (decide (c = cv th)) as [->|]; [by rewrite lookup_delete_eq in Hz|].
      by rewrite lookup_delete_ne in Hz by done.
  - intros q Hz. destruct q as [|s|l|c]; cbn in *; try (by apply k_none0).
    + destruct (decide (l = lock th)) as [->|]; [done|]. apply k_none0. cbn.
      by rewrite lookup_delete_ne in Hz by done.
    + destruct (decide (c = cv th)) as [->|]; [done|]. apply k_none0. cbn.
      by rewrite lookup_delete_ne in Hz by done.
  - intros q p z Hz. rewrite lookup_delete_ne.
    + by eapply home_same, k_home0.
    + intros ->. apply (Hno q). apply elem_snd. eauto.
  - intros z thz [_ ?]%lookup_delete_Some. by apply k_ready0.
  - intros z thz [_ ?]%lookup_delete_Some. by apply k_blocked0.
  - by rewrite lookup_delete_ne.
  - intros z thz [_ ?]%lookup_delete_Some. by apply k_running0.
Qed.

(** What a switch leaves alone: semaphores, the ready list, and the locks and
    conditions but for those of a thread it destroys. *)
Record switched (k k' : Nachos Q) : Prop := {
  sw_level : level k' = level k;
  sw_semaphores : semaphores k' = semaphores k;
  sw_ready : readyList k' = readyList k;
  sw_spaces : spaces k' = spaces k;
  sw_locks : forall l x, locks k' !! l = Some x -> locks k !! l = Some x;
  sw_held : forall l x, locks k !! l = Some x -> locked x = 1 -> locks k' !! l = Some x;
  sw_conditions : forall c x, conditions k' !! c = Some x -> conditions k !! c = Some x;
  sw_threads : forall t th', threads k' !! t = Some th' ->
    exists th, threads k !! t = Some th /\ priority th' = priority th
}.

#[export] Instance switched_trans : Transitive switched.
Proof.
  intros k1 k2 k3 [] []. split; try congruence; auto.
  intros t th3 H. destruct (sw_threads1 t th3 H) as (th2 & H2 & E).
  destruct (sw_threads0 t th2 H2) as (th1 & ? & ?). exists th1. split; congruence.
Qed.

Lemma switched_put_thread k t th th' :
  threads k !! t = Some th -> priority th' = priority th -> switched k (put_thread t th' k).
Proof.
  intros Ht Hp. split; try done. intros y thy. cbn.
  destruct (decide (y = t)) as [->|]; [rewrite lookup_insert_eq; intros [= <-]|rewrite lookup_insert_ne by done];
    eauto.
Qed.

Lemma switched_refl_threads k k' :
  level k' = level k -> semaphores k' = semaphores k -> readyList k' = readyList k -> spaces k' = spaces k ->
  locks k' = locks k -> conditions k' = conditions k -> threads k' = threads k -> switched k k'.
Proof. intros ????  E1 E2 E3. split; try done; rewrite ?E1, ?E2, ?E3; eauto. Qed.

Lemma switched_delete k t k' : Thread_delete k t = Ok k' -> switched k k'.
Proof.
  intros (th & x & y & _ & _ & Hx & Hnl & _ & Hy & _ & ->)%Thread_delete_ok. split; try done; cbn.
  - by intros l z [_ ?]%lookup_delete_Some.
  - intros l z Hz Hlk. rewrite lookup_delete_ne; [done|]. intros <-. congruence.
  - by intros c z [_ ?]%lookup_delete_Some.
  - intros z thz [_ ?]%lookup_delete_Some. eauto.
Qed.

Lemma after_switch_inv lost m k cts k' :
  kinv lost m k cts -> after_switch k = Ok k' ->
  kinv lost m k' cts /\ switched k k' /\ currentThread k' = currentThread k.
Proof.
  intros Hk H. unfold after_switch in H. inv_bind H.
  assert (kinv lost m v cts /\ switched k v /\ currentThread v = currentThread k) as (Hk' & Hsw & Hc).
  { destruct (threadToBeDestroyed k) as [t|] eqn:Et; [|injection H0 as <-; split_and!; try done;
      by apply switched_refl_threads].
    inv_bind H0. injection H0 as <-. pose proof (k_tbd _ _ _ _ Hk t Et) as Hl.
    pose proof (kinv_delete _ _ _ _ _ _ Hk Hl H1) as [].
    pose proof (switched_delete _ _ _ H1) as [].
    apply Thread_delete_ok in H1 as (th & x & y & Hne & Ht & Hx & _ & Ex & Hy & Ey & ->).
    split_and!; [by split|by split|done]. }
  inv_bind H. destruct (space v0); [|by injection H as <-].
  inv_bind H. inv_bind H. injection H as <-. apply RestoreUserState_ok in H2 as [m' ->].
  split_and!; [|etransitivity; [exact Hsw|by apply switched_refl_threads]|done].
  apply (kinv_same _ _ v); [by split|by intros []|exact Hk'].
Qed.

Lemma put_thread_twice t (a b : Thread) k : put_thread t a (put_thread t b k) = put_thread t a k.
Proof. unfold put_thread, set_threads. cbn. by rewrite insert_insert_eq. Qed.

(** The chosen thread, on no queue any more, runs. *)
Lemma Scheduler_Run_inv lost k cts n k' :
  kinv (fun x => lost x \/ x = n) Away k cts -> ~ lost n -> threadToBeDestroyed k <> Some n ->
  Scheduler_Run k n = Ok k' ->
  kinv lost Running k' cts /\ switched k k' /\ currentThread k' = n.
Proof.
  intros Hk Hn Htbd H. unfold Scheduler_Run in H.
  apply deref_bind in H as (old & Hold & H). inv_bind H.
  assert (kinv (fun x => lost x \/ x = n) Away v cts /\ switched k v /\
          currentThread v = currentThread k /\ threadToBeDestroyed v = threadToBeDestroyed k)
    as (Hk1 & Hsw1 & Hc1 & Ht1).
  { destruct (space old); [|injection H0 as <-; split_and!; try done; by apply switched_refl_threads].
    apply SaveUserState_ok in H0 as (th & r & Hth & ->). split_and!; try done.
    - apply (kinv_put_thread _ _ _ _ _ th); [done..|by left].
    - by apply (switched_put_thread _ _ th). }
  apply deref_bind in H as (th & Hth & H). cbn [threads set_currentThread] in Hth.
  destruct (k_current _ _ _ _ Hk1) as (thc & Hthc & Hrun & _).
  pose proof (lost_not_queued _ _ _ _ n Hk1 (or_intror eq_refl)) as Hno.
  assert (forall b, kinv lost Running (put_thread n (if b : bool then set_started (setStatus RUNNING th)
                      else setStatus RUNNING th) (set_currentThread n v)) cts) as Hk2.
  { intros b. destruct Hk1. set (th' := if b then _ else _).
    assert (status th' = RUNNING) as Hst by (unfold th'; by destruct b).
    split; cbn [put_thread set_threads set_currentThread threads currentThread threadToBeDestroyed]; try done.
    - intros q p t Hin. rewrite lookup_insert_ne by (intros <-; apply (Hno q), elem_snd; eauto).
      destruct (k_home0 q p t Hin) as (tht & ? & Hs & ?). exists tht. split; [done|]. split; [|done].
      destruct q; cbn in *; naive_solver.
    - intros t tht. destruct (decide (t = n)) as [->|]; [rewrite lookup_insert_eq; congruence|].
      rewrite lookup_insert_ne by done. intros Ht Hr. destruct (k_ready0 t tht Ht Hr); [naive_solver|by right].
    - intros t tht. destruct (decide (t = n)) as [->|]; [rewrite lookup_insert_eq; congruence|].
      rewrite lookup_insert_ne by done. intros Ht Hr. destruct (k_blocked0 t tht Ht Hr); [naive_solver|by right].
    - rewrite lookup_insert_eq. exists th'. rewrite Hst. done.
    - intros t tht. destruct (decide (t = n)) as [->|Hne]; [done|]. rewrite lookup_insert_ne by done.
      intros Ht Hr. pose proof (k_running0 t tht Ht Hr) as ->. assert (tht = thc) as -> by congruence.
      by destruct (proj1 Hrun Hr).
    - intros t Ht. split; [|right; intros ->; done]. by apply (k_lost0 t); left.
    - intros t Ht. rewrite Ht1 in Ht. destruct (k_tbd0 t) as [| ->]; [congruence|done|congruence]. }
  assert (forall b, switched v (put_thread n (if b : bool then set_started (setStatus RUNNING th)
                      else setStatus RUNNING th) (set_currentThread n v))) as Hsw2.
  { intros b. etransitivity; [apply (switched_refl_threads v (set_currentThread n v)); done|].
    apply (switched_put_thread _ _ th); [done|by destruct b]. }
  destruct (started th).
  - destruct (after_switch_inv _ _ _ _ _ (Hk2 false) H) as (Hk3 & Hsw3 & Hc3). split; [done|].
    split; [|done]. etransitivity; [exact Hsw1|]. etransitivity; [apply (Hsw2 false)|exact Hsw3].
  - injection H as <-. split; [apply (Hk2 true)|]. split; [|done].
    etransitivity; [exact Hsw1|apply (Hsw2 true)].
Qed.

Lemma FindNextToRun_inv lost m k cts k' r :
  kinv lost m k cts -> m <> Enqueued -> FindNextToRun k = Ok (k', r) ->
  exists q, k' = set_readyList q k /\
  match cts ReadyQ with
  | [] => r = None /\ kinv lost m k' cts
  | (p, t) :: l => r = Some t /\ ~ lost t /\ kinv (fun x => lost x \/ x = t) m k' (upd cts ReadyQ l)
  end.
Proof.
  intros Hk Hm H. unfold FindNextToRun in H.
  destruct (q_sorted_remove_rep _ (readyList k) (cts ReadyQ)) as (q & Eq & Hq);
    [by apply (k_rep _ _ _ _ Hk ReadyQ)|].
  rewrite Eq in H. cbn in H. injection H as <- <-. exists q. split; [done|].
  destruct (cts ReadyQ) as [|[p t] l] eqn:El; cbn in *.
  - split; [done|]. destruct Hk. split; try done; intros q'; [intros x|by destruct q'; intros; apply k_none0].
    destruct q'; cbn; [intros [= <-]; by rewrite El|apply (k_rep0 (SemQ _))|apply (k_rep0 (LockQ _))|
        apply (k_rep0 (CondQ _))].
  - split; [done|].
    destruct (kinv_pop lost m k (set_readyList q k) cts ReadyQ p t l q Hk) as [Hk' Hnl]; try done.
    + by intros [].
    + destruct m; [right|done|by left]. intros ->. apply (running_alone _ _ _ Hk ReadyQ).
      rewrite El. by left.
Qed.

Lemma not_destroyed lost m k cts t : kinv lost m k cts -> ~ lost t -> threadToBeDestroyed k <> Some t.
Proof. intros Hk Hn Ht. by apply Hn, (k_tbd _ _ _ _ Hk). Qed.

(** Dispatching: the first thread of the ready list runs, unless there is none. *)
Lemma dispatch_inv lost k cts k' b :
  kinv lost Away k cts -> dispatch k = Ok (k', b) ->
  match cts ReadyQ with
  | [] => b = false /\ kinv lost Away k' cts /\ exists q, k' = set_readyList q k
  | (p, n) :: l => b = true /\ kinv lost Running k' (upd cts ReadyQ l) /\ currentThread k' = n /\
      exists q, switched (set_readyList q k) k'
  end.
Proof.
  intros Hk H. unfold dispatch in H. inv_bind H. destruct v as [k1 r].
  destruct (FindNextToRun_inv _ _ _ _ _ _ Hk ltac:(done) H0) as (q & -> & Hcase).
  destruct (cts ReadyQ) as [|[p n] l].
  - destruct Hcase as [-> Hk']. injection H as <- <-. eauto.
  - destruct Hcase as (-> & Hnl & Hk'). inv_bind H. injection H as <- <-.
    pose proof (not_destroyed _ _ _ _ _ Hk Hnl) as Htbd.
    destruct (Scheduler_Run_inv _ _ _ _ _ Hk' Hnl Htbd H1) as (? & ? & ?). split_and!; eauto.
Qed.

Lemma Thread_Sleep_inv lost k cts k' b :
  kinv lost Enqueued k cts -> Thread_Sleep k = Ok (k', b) ->
  exists th, threads k !! currentThread k = Some th /\ level k = IntOff /\
    kinv lost Away (put_thread (currentThread k) (setStatus BLOCKED th) k) cts /\
    dispatch (put_thread (currentThread k) (setStatus BLOCKED th) k) = Ok (k', b).
Proof.
  intros Hk H. unfold Thread_Sleep in H. apply ASSERT_bind in H as [Hl H].
  apply bool_decide_eq_true in Hl. apply deref_bind in H as (th & Hth & H).
  exists th. split_and!; try done. by apply kinv_sleep.
Qed.

(** Yielding: the running thread goes behind the ready threads of its priority. *)
Lemma Thread_Yield_inv lost k cts k' b :
  kinv lost Running k cts -> Thread_Yield k = Ok (k', b) ->
  match cts ReadyQ with
  | [] => b = false /\ kinv lost Running k' cts /\ exists q, k' = set_readyList q k
  | (p, n) :: l => b = true /\ exists th, threads k !! currentThread k = Some th /\
      kinv lost Running k' (upd cts ReadyQ (insert_sorted (key_of th) (currentThread k) l)) /\
      currentThread k' = n /\
      exists q, switched (set_readyList q (put_thread (currentThread k) (setStatus READY th) k)) k'
  end.
Proof.
  intros Hk H. unfold Thread_Yield in H. inv_bind H. destruct v as [k1 r].
  destruct (FindNextToRun_inv _ _ _ _ _ _ Hk ltac:(done) H0) as (q & -> & Hcase).
  destruct (cts ReadyQ) as [|[p n] l].
  - destruct Hcase as [-> Hk']. injection H as <- <-. eauto.
  - destruct Hcase as (-> & Hnl & Hk'). inv_bind H. inv_bind H. injection H as <- <-. split; [done|].
    destruct (k_current _ _ _ _ Hk) as (th & Hth & Hrun & _). exists th. split; [done|].
    cbn [currentThread set_readyList] in H1.
    pose proof (kinv_stop _ _ _ th READY Hk' Hth ltac:(by left)) as Hk2.
    cbn [currentThread set_readyList] in Hk2. set (kc := put_thread _ _ _) in Hk2.
    assert (ReadyToRun kc (currentThread k) = Ok v) as H1'.
    { rewrite <- H1. unfold ReadyToRun, kc, deref. cbn [threads put_thread set_threads set_readyList].
      rewrite lookup_insert_eq, Hth. cbn [bindr]. by rewrite put_thread_twice. }
    assert (n <> currentThread k) as Hne.
    { destruct (k_lost _ _ _ _ Hk' n) as [_ [|]]; [by right|done..]. }
    assert (~ (lost (currentThread k) \/ currentThread k = n)) as Hncur.
    { intros [Hl|E]; [|congruence]. by destruct (k_lost _ _ _ _ Hk _ Hl) as [_ [|]]. }
    destruct (ReadyToRun_inv (fun x => lost x \/ x = n) Away kc _ _ v Hk2 Hncur)
      as (th2 & q2 & Hth2 & -> & Hk3); [|done|].
    { apply (not_destroyed _ _ _ _ _ Hk). naive_solver. }
    unfold kc in Hth2. cbn in Hth2. rewrite lookup_insert_eq in Hth2. injection Hth2 as <-.
    destruct (Scheduler_Run_inv _ _ _ _ _ Hk3 Hnl (not_destroyed _ _ _ _ _ Hk Hnl) H2) as (Hk4 & Hsw & Hc).
    split_and!.
    + eapply kinv_ext; [|exact Hk4]. intros q'. unfold upd. by repeat case_decide.
    + done.
    + exists q2. etransitivity; [|exact Hsw]. unfold kc. cbn.
      apply switched_refl_threads; try done. cbn. by rewrite insert_insert_eq.
Qed.

(** A thread on no queue is set apart. *)
Lemma kinv_lose lost m k cts t :
  kinv lost m k cts -> (forall q, t ∉ (cts q).*2) -> m = Away \/ t <> currentThread k ->
  kinv (fun x => lost x \/ x = t) m k cts.
Proof.
  intros [] Hq Hm. split; try done.
  - intros y th Hy Hst. destruct (k_ready0 y th Hy Hst); [by do 2 left|by right].
  - intros y th Hy Hst. destruct (k_blocked0 y th Hy Hst); [by do 2 left|by right].
  - intros y [Hy| ->]; [by apply k_lost0|done].
  - intros y Hy. left. by apply k_tbd0.
Qed.

Lemma kinv_lost_ext lost lost' m k cts :
  (forall t, lost t <-> lost' t) -> kinv lost m k cts -> kinv lost' m k cts.
Proof.
  intros E []. split; try done.
  - intros y th Hy Hst. rewrite <- E. eauto.
  - intros y th Hy Hst. rewrite <- E. eauto.
  - intros y Hy%E. by apply k_lost0.
  - intros y Hy. apply E. by apply k_tbd0.
Qed.

(** A thread that has been created but not forked yet becomes ready. *)
Lemma Thread_Fork_inv lost k cts t th k' :
  kinv lost Running k cts -> ~ lost t -> threads k !! t = Some th -> status th = JUST_CREATED ->
  Thread_Fork k t = Ok k' ->
  exists q, k' = set_readyList q (put_thread t (setStatus READY th) k) /\
    kinv lost Running k' (upd cts ReadyQ (insert_sorted (key_of th) t (cts ReadyQ))).
Proof.
  intros Hk Hnl Ht Hst H.
  assert (forall q, t ∉ (cts q).*2) as Hno.
  { intros q Hin. destruct (k_home' _ _ _ _ _ _ Hk Hin) as (th' & Ht' & Hs).
    assert (th' = th) as -> by congruence. rewrite Hst in Hs. destruct q; cbn in Hs; naive_solver. }
  assert (t <> currentThread k) as Hne.
  { intros ->. destruct (k_current _ _ _ _ Hk) as (th' & Ht' & _ & Hj). congruence. }
  destruct (ReadyToRun_inv lost Running k cts t k') as (th' & q & Ht' & -> & Hk'); try done.
  - apply kinv_lose; [done..|by right].
  - by apply (not_destroyed _ _ _ _ _ Hk).
  - assert (th' = th) as -> by congruence. eauto.
Qed.

(** The thread that is done is left to be destroyed. *)
Lemma kinv_tbd lost m k cts t :
  kinv lost m k cts -> lost t -> kinv lost m (set_threadToBeDestroyed (Some t) k) cts.
Proof. intros [] Ht. split; try done. by intros y [= <-]. Qed.
End Invariant.
