(* ===== verification/Synch.v ===== *)
(** Semaphores, locks and condition variables (threads/synch.h, synch.cc).  Each
    routine is given up to the point where it blocks: a [while] loop that puts the
    thread on a queue and sleeps becomes one pass through the loop, whose answer
    says whether the thread got through or has to sleep and test again. *)
From Stdlib Require Import ZArith Lia Bool Sorting.Sorted.
From stdpp Require Import base numbers list gmap fin_maps.
From S2P Require Import Prelude Lists Machine Threads.

Section Synch.
Context {Q : Type -> Type} `{!Queue Q}.

Definition put_semaphore (s : positive) (x : Semaphore Q) (k : Nachos Q) : Nachos Q :=
  set_semaphores (<[s := x]> (semaphores k)) k.
Definition put_lock (l : positive) (x : Lock Q) (k : Nachos Q) : Nachos Q :=
  set_locks (<[l := x]> (locks k)) k.
Definition put_condition (c : positive) (x : Condition Q) (k : Nachos Q) : Nachos Q :=
  set_conditions (<[c := x]> (conditions k)) k.

(** [queue->SortedInsert(currentThread, currentThread->getPriority() * -1)] *)
Definition insert_current (k : Nachos Q) (q : Q positive) : res (Q positive) :=
  th <- deref (threads k) (currentThread k) ;;
  q_sorted_insert q (currentThread k) (s32 (getPriority th * (-1))).

(** [thread = queue->Remove(); if (thread != NULL) scheduler->ReadyToRun(thread)] *)
Definition wake (k : Nachos Q) (r : option (Z * positive)) : res (Nachos Q) :=
  match r with Some (_, t) => ReadyToRun k t | None => Ok k end.

(** ** Semaphore *)

(** One pass of the loop of [P]. *)
Definition Semaphore_P (k : Nachos Q) (s : positive) : res (Nachos Q * bool) :=
  x <- deref (semaphores k) s ;;
  if value x =? 0 then
    q <- insert_current k (sem_queue x) ;;
    Ok (put_semaphore s (mkSemaphore (value x) q) k, false)
  else Ok (put_semaphore s (mkSemaphore (s32 (value x - 1)) (sem_queue x)) k, true).

Definition Semaphore_V (k : Nachos Q) (s : positive) : res (Nachos Q) :=
  x <- deref (semaphores k) s ;;
  '(q, r) <- q_sorted_remove (sem_queue x) ;;
  k <- wake (put_semaphore s (mkSemaphore (value x) q) k) r ;;
  x <- deref (semaphores k) s ;;
  Ok (put_semaphore s (mkSemaphore (s32 (value x + 1)) (sem_queue x)) k).

(** ** Lock *)

Definition isHeldByCurrentThread (k : Nachos Q) (x : Lock Q) : bool :=
  bool_decide (Some (currentThread k) = threadHeld x).

(** The test that opens [Acquire], and one pass of its loop. *)
Definition Lock_enter (k : Nachos Q) (l : positive) : res unit :=
  x <- deref (locks k) l ;;
  ASSERT ((locked x =? 0) || negb (isHeldByCurrentThread k x)).

Definition Lock_Acquire (k : Nachos Q) (l : positive) : res (Nachos Q * bool) :=
  x <- deref (locks k) l ;;
  if locked x =? 1 then
    q <- insert_current k (lock_queue x) ;;
    Ok (put_lock l (mkLock (locked x) (threadHeld x) q) k, false)
  else Ok (put_lock l (mkLock 1 (Some (currentThread k)) (lock_queue x)) k, true).

Definition Lock_Release (k : Nachos Q) (l : positive) : res (Nachos Q) :=
  x <- deref (locks k) l ;;
  _ <- ASSERT (locked x =? 1) ;;
  _ <- ASSERT (isHeldByCurrentThread k x) ;;
  '(q, r) <- q_sorted_remove (lock_queue x) ;;
  k <- wake (put_lock l (mkLock (locked x) (threadHeld x) q) k) r ;;
  x <- deref (locks k) l ;;
  Ok (put_lock l (mkLock 0 None (lock_queue x)) k).

(** ** Condition *)

Definition assert_held (k : Nachos Q) (l : positive) : res unit :=
  x <- deref (locks k) l ;; ASSERT (isHeldByCurrentThread k x).

(** [Wait] up to its [Sleep]; what follows is [Acquire] and [assert_held]. *)
Definition Condition_Wait (k : Nachos Q) (c l : positive) : res (Nachos Q) :=
  _ <- assert_held k l ;;
  k <- Lock_Release k l ;;
  y <- deref (conditions k) c ;;
  q <- insert_current k (waitQ y) ;;
  Ok (put_condition c (mkCondition q) k).

Definition Condition_Signal (k : Nachos Q) (c l : positive) : res (Nachos Q) :=
  _ <- assert_held k l ;;
  y <- deref (conditions k) c ;;
  '(q, r) <- q_sorted_remove (waitQ y) ;;
  wake (put_condition c (mkCondition q) k) r.

(** The loop of [Broadcast]; a queue holds every thread at most once, so the
    number of threads is fuel enough. *)
Fixpoint broadcast_loop (fuel : nat) (k : Nachos Q) (c : positive) : res (Nachos Q) :=
  match fuel with
  | O => Err OutOfFuel
  | S fuel =>
      y <- deref (conditions k) c ;;
      if q_is_empty (waitQ y) then Ok k
      else
        '(q, r) <- q_sorted_remove (waitQ y) ;;
        k <- wake (put_condition c (mkCondition q) k) r ;;
        broadcast_loop fuel k c
  end.

Definition Condition_Broadcast (k : Nachos Q) (c l : positive) : res (Nachos Q) :=
  _ <- assert_held k l ;;
  broadcast_loop (S (size (threads k))) k c.
End Synch.

Section SynchInvariant.
Context {Q : Type -> Type} `{!Queue Q, !QueueLaws Q}.
Implicit Types (k : Nachos Q) (cts : queues).

(** The first [n] threads of a wait queue become ready. *)
Record woke (n : nat) (qi : qid) (cts cts' : queues) : Prop := {
  woke_queue : cts' qi = drop n (cts qi);
  woke_ready : (cts' ReadyQ).*2 ≡ₚ take n (cts qi).*2 ++ (cts ReadyQ).*2;
  woke_other : forall q, q <> ReadyQ -> q <> qi -> cts' q = cts q
}.

(** What no routine of synch.cc touches. *)
Record kept k k' : Prop := {
  kp_level : level k' = level k;
  kp_spaces : spaces k' = spaces k;
  kp_current : currentThread k' = currentThread k;
  kp_tbd : threadToBeDestroyed k' = threadToBeDestroyed k;
  kp_size : size (threads k') = size (threads k)
}.
#[export] Instance kept_equiv : PreOrder kept.
Proof. split; [by split|]. intros ??? [] []. split; congruence. Qed.

Lemma insert_current_ok k q x cts q' :
  q_rep x (cts q) -> insert_current k x = Ok q' ->
  exists th, threads k !! currentThread k = Some th /\
    q_rep q' (insert_sorted (key_of th) (currentThread k) (cts q)).
Proof.
  intros Hx H. unfold insert_current in H. apply deref_bind in H as (th & Ht & H).
  exists th. split; [done|].
  destruct (q_sorted_insert_rep _ x (cts q) (currentThread k) (key_of th) Hx) as (y & E & Hy).
  unfold key_of in *. congruence.
Qed.

(** The running thread puts itself on the queue of an object. *)
Lemma enqueue_inv lost k k' cts q x x' :
  kinv lost Running k cts -> q <> ReadyQ -> queue_of k q = Some x -> insert_current k x = Ok x' ->
  same_threads k k' -> (forall q', queue_of k' q' = if decide (q' = q) then Some x' else queue_of k q') ->
  exists th, threads k !! currentThread k = Some th /\
    kinv lost Enqueued k' (upd cts q (insert_sorted (key_of th) (currentThread k) (cts q))).
Proof.
  intros Hk Hq Hx Hi Hs Hqs.
  destruct (insert_current_ok k q x cts x' (k_rep _ _ _ _ Hk q x Hx) Hi) as (th & Ht & Hr).
  exists th. split; [done|]. by apply (kinv_enqueue lost k k' cts q th x').
Qed.

(** The head of a wait queue is taken off and made ready. *)
Lemma pop_wake lost m k k1 k2 cts q x x' r :
  kinv lost m k cts -> m <> Enqueued -> q <> ReadyQ -> queue_of k q = Some x ->
  q_sorted_remove x = Ok (x', r) -> same_threads k k1 ->
  (forall q', queue_of k1 q' = if decide (q' = q) then Some x' else queue_of k q') ->
  wake k1 r = Ok k2 ->
  exists cts', woke 1 q cts cts' /\ kinv lost m k2 cts' /\ kept k1 k2 /\
    semaphores k2 = semaphores k1 /\ locks k2 = locks k1 /\ conditions k2 = conditions k1.
Proof.
  intros Hk Hm Hq Hx Hpop Hs Hqs Hw.
  destruct (q_sorted_remove_rep _ x (cts q) (k_rep _ _ _ _ Hk q x Hx)) as (y & Ey & Hy).
  assert (x' = y /\ r = head (cts q)) as [-> ->] by (split; congruence). clear Ey.
  destruct (cts q) as [|[p t] l] eqn:Eq; cbn in Hw, Hy.
  - injection Hw as <-. exists cts. split_and!; try done.
    + split; rewrite ?Eq; done.
    + destruct Hs as [E1 E2 E3]. destruct Hk. split; try done; rewrite ?E1, ?E2, ?E3; try done.
      * intros q' z. rewrite Hqs. case_decide; [subst; intros [= <-]; by rewrite Eq|apply k_rep].
      * intros q'. rewrite Hqs. case_decide; [done|apply k_none].
      * intros q' p t Hin. by eapply home_same, k_home.
  - destruct (kinv_pop lost m k k1 cts q p t l y Hk Hs Eq Hy Hqs) as [Hk1 Hnl]; [done| |].
    { destruct m; [right|done|by left]. intros ->. apply (running_alone _ _ _ Hk q). rewrite Eq. by left. }
    assert (threadToBeDestroyed k1 <> Some t) as Htbd.
    { rewrite (st_tbd _ _ Hs). by apply (not_destroyed _ _ _ _ _ Hk). }
    destruct (ReadyToRun_inv lost m k1 _ t k2 Hk1 Hnl Htbd Hw) as (th & rq & Hth & -> & Hk2).
    eexists. split; [|split; [exact Hk2|]].
    + rewrite upd_ne by done. split.
      * by rewrite upd_ne, upd_eq, Eq by done.
      * rewrite upd_eq, Eq. by rewrite (insert_sorted_perm _ t (cts ReadyQ)).
      * intros q' ? ?. by rewrite !upd_ne.
    + split_and!; try done. split; try done. cbn. rewrite map_size_insert_Some; done.
Qed.

Lemma queue_put_semaphore k s x q :
  queue_of (put_semaphore s x k) q = if decide (q = SemQ s) then Some (sem_queue x) else queue_of k q.
Proof.
  destruct q as [|s'|l|c]; cbn; try done.
  destruct (decide (s' = s)) as [->|Hne]; [by rewrite lookup_insert_eq, decide_True|].
  rewrite lookup_insert_ne by done. rewrite decide_False; [done|congruence].
Qed.
Lemma queue_put_lock k l x q :
  queue_of (put_lock l x k) q = if decide (q = LockQ l) then Some (lock_queue x) else queue_of k q.
Proof.
  destruct q as [|s|l'|c]; cbn; try done.
  destruct (decide (l' = l)) as [->|Hne]; [by rewrite lookup_insert_eq, decide_True|].
  rewrite lookup_insert_ne by done. rewrite decide_False; [done|congruence].
Qed.
Lemma queue_put_condition k c x q :
  queue_of (put_condition c x k) q = if decide (q = CondQ c) then Some (waitQ x) else queue_of k q.
Proof.
  destruct q as [|s|l|c']; cbn; try done.
  destruct (decide (c' = c)) as [->|Hne]; [by rewrite lookup_insert_eq, decide_True|].
  rewrite lookup_insert_ne by done. rewrite decide_False; [done|congruence].
Qed.

(** Changing an object but not its queue. *)
Lemma kinv_same_queue lost m k k' cts q x :
  kinv lost m k cts -> same_threads k k' -> queue_of k q = Some x ->
  (forall q', queue_of k' q' = if decide (q' = q) then Some x else queue_of k q') -> kinv lost m k' cts.
Proof.
  intros Hk Hs Hq Hqs. apply (kinv_same lost m k k' cts); [done| |done].
  intros q'. rewrite Hqs. case_decide; [congruence|done].
Qed.

(** ** Each routine under the invariant *)

Lemma Semaphore_P_inv lost k cts s k' b :
  kinv lost Running k cts -> Semaphore_P k s = Ok (k', b) ->
  exists x, semaphores k !! s = Some x /\
  if b then value x <> 0 /\ kinv lost Running k' cts /\
    k' = put_semaphore s (mkSemaphore (s32 (value x - 1)) (sem_queue x)) k
  else value x = 0 /\ exists th q, threads k !! currentThread k = Some th /\
    k' = put_semaphore s (mkSemaphore 0 q) k /\
    kinv lost Enqueued k' (upd cts (SemQ s) (insert_sorted (key_of th) (currentThread k) (cts (SemQ s)))).
Proof.
  intros Hk H. unfold Semaphore_P in H. apply deref_bind in H as (x & Hx & H). exists x. split; [done|].
  destruct (Z.eqb_spec (value x) 0) as [Hv|Hv].
  - inv_bind H. injection H as <- <-. split; [done|]. rewrite Hv.
    destruct (enqueue_inv lost k (put_semaphore s (mkSemaphore 0 v) k) cts (SemQ s) (sem_queue x) v) as (th & Ht & Hk');
      try done.
    + cbn. by rewrite Hx.
    + intros q0. by rewrite queue_put_semaphore.
    + eauto.
  - injection H as <- <-. split; [done|]. split; [|done].
    apply (kinv_same_queue lost Running k _ cts (SemQ s) (sem_queue x)); try done.
    + cbn. by rewrite Hx.
    + intros q0. by rewrite queue_put_semaphore.
Qed.

Lemma Semaphore_V_inv lost m k cts s k' :
  kinv lost m k cts -> m <> Enqueued -> Semaphore_V k s = Ok k' ->
  exists x q cts', semaphores k !! s = Some x /\ woke 1 (SemQ s) cts cts' /\ kinv lost m k' cts' /\
    kept k k' /\ semaphores k' = <[s := mkSemaphore (s32 (value x + 1)) q]> (semaphores k) /\
    locks k' = locks k /\ conditions k' = conditions k.
Proof.
  intros Hk Hm H. unfold Semaphore_V in H. apply deref_bind in H as (x & Hx & H). inv_bind H.
  destruct v as [x' r]. inv_bind H. apply deref_bind in H as (y & Hy & H). injection H as <-.
  destruct (pop_wake lost m k (put_semaphore s (mkSemaphore (value x) x') k) v cts (SemQ s) (sem_queue x) x' r
    Hk Hm ltac:(done))
    as (cts' & Hw & Hk' & Hkp & Es & El & Ec); [cbn; by rewrite Hx|done|done|intros q0; by rewrite queue_put_semaphore|done|].
  rewrite Es in Hy. cbn in Hy. rewrite lookup_insert_eq in Hy. injection Hy as <-. cbn [value sem_queue].
  exists x, x', cts'. split; [done|]. split; [done|]. split; [|split; [|split; [|done]]].
  - apply (kinv_same_queue lost m v _ cts' (SemQ s) x'); try done.
    + cbn. rewrite Es. cbn. by rewrite lookup_insert_eq.
    + intros q0. by rewrite queue_put_semaphore.
  - destruct Hkp. by split.
  - cbn. rewrite Es. cbn. by rewrite insert_insert_eq.
Qed.

Lemma Lock_Acquire_inv lost k cts l k' b :
  kinv lost Running k cts -> Lock_Acquire k l = Ok (k', b) ->
  exists x, locks k !! l = Some x /\
  if b then locked x <> 1 /\ kinv lost Running k' cts /\
    k' = put_lock l (mkLock 1 (Some (currentThread k)) (lock_queue x)) k
  else locked x = 1 /\ exists th q, threads k !! currentThread k = Some th /\
    k' = put_lock l (mkLock 1 (threadHeld x) q) k /\
    kinv lost Enqueued k' (upd cts (LockQ l) (insert_sorted (key_of th) (currentThread k) (cts (LockQ l)))).
Proof.
  intros Hk H. unfold Lock_Acquire in H. apply deref_bind in H as (x & Hx & H). exists x. split; [done|].
  destruct (Z.eqb_spec (locked x) 1) as [Hv|Hv].
  - inv_bind H. injection H as <- <-. split; [done|]. rewrite Hv.
    destruct (enqueue_inv lost k (put_lock l (mkLock 1 (threadHeld x) v) k) cts (LockQ l) (lock_queue x) v)
      as (th & Ht & Hk'); try done.
    + cbn. by rewrite Hx.
    + intros q0. by rewrite queue_put_lock.
    + eauto.
  - injection H as <- <-. split; [done|]. split; [|done].
    apply (kinv_same_queue lost Running k _ cts (LockQ l) (lock_queue x)); try done.
    + cbn. by rewrite Hx.
    + intros q0. by rewrite queue_put_lock.
Qed.

Lemma Lock_Release_inv lost k cts l k' :
  kinv lost Running k cts -> Lock_Release k l = Ok k' ->
  exists x q cts', locks k !! l = Some x /\ locked x = 1 /\ threadHeld x = Some (currentThread k) /\
    woke 1 (LockQ l) cts cts' /\ kinv lost Running k' cts' /\ kept k k' /\
    locks k' = <[l := mkLock 0 None q]> (locks k) /\
    semaphores k' = semaphores k /\ conditions k' = conditions k.
Proof.
  intros Hk H. unfold Lock_Release in H. apply deref_bind in H as (x & Hx & H).
  apply ASSERT_bind in H as [Hl H]. apply Z.eqb_eq in Hl. apply ASSERT_bind in H as [Hh H].
  unfold isHeldByCurrentThread in Hh. apply bool_decide_eq_true in Hh. inv_bind H.
  destruct v as [x' r]. inv_bind H. apply deref_bind in H as (y & Hy & H). injection H as <-.
  destruct (pop_wake lost Running k (put_lock l (mkLock (locked x) (threadHeld x) x') k) v cts (LockQ l) (lock_queue x)
    x' r Hk ltac:(done) ltac:(done))
    as (cts' & Hw & Hk' & Hkp & Es & El & Ec); [cbn; by rewrite Hx|done|done|intros q0; by rewrite queue_put_lock|done|].
  rewrite El in Hy. cbn in Hy. rewrite lookup_insert_eq in Hy. injection Hy as <-. cbn [lock_queue].
  exists x, x', cts'. split; [done|]. split; [done|]. split; [done|]. split; [done|].
  split; [|split; [|split; [|done]]].
  - apply (kinv_same_queue lost Running v _ cts' (LockQ l) x'); try done.
    + cbn. rewrite El. cbn. by rewrite lookup_insert_eq.
    + intros q0. by rewrite queue_put_lock.
  - destruct Hkp. by split.
  - cbn. rewrite El. cbn. by rewrite insert_insert_eq.
Qed.

Lemma assert_held_ok k l u :
  assert_held k l = Ok u -> exists x, locks k !! l = Some x /\ threadHeld x = Some (currentThread k).
Proof.
  unfold assert_held. intros H. apply deref_bind in H as (x & Hx & H). exists x. split; [done|].
  apply ASSERT_Ok in H. unfold isHeldByCurrentThread in H. by apply bool_decide_eq_true in H.
Qed.

Lemma Condition_Wait_inv lost k cts c l k' :
  kinv lost Running k cts -> Condition_Wait k c l = Ok k' ->
  exists x q cts' th, locks k !! l = Some x /\ locked x = 1 /\ threadHeld x = Some (currentThread k) /\
    woke 1 (LockQ l) cts cts' /\ kept k k' /\
    kinv lost Enqueued k'
      (upd cts' (CondQ c) (insert_sorted (key_of th) (currentThread k) (cts' (CondQ c)))) /\
    locks k' = <[l := mkLock 0 None q]> (locks k) /\ semaphores k' = semaphores k.
Proof.
  intros Hk H. unfold Condition_Wait in H. inv_bind H. inv_bind H.
  apply deref_bind in H as (y & Hy & H). inv_bind H. injection H as <-.
  destruct (Lock_Release_inv lost k cts l v0 Hk H1) as (x & q & cts' & Hx & Hl & Hh & Hw & Hk' & Hkp & El & Es & Ec).
  destruct (enqueue_inv lost v0 (put_condition c (mkCondition v1) v0) cts' (CondQ c) (waitQ y) v1) as (th & Ht & Hk2);
    try done.
  { cbn. by rewrite Hy. }
  { intros q0. by rewrite queue_put_condition. }
  rewrite (kp_current _ _ Hkp) in Hk2.
  exists x, q, cts', th. split_and!; try done. destruct Hkp. by split.
Qed.

Lemma Condition_Signal_inv lost k cts c l k' :
  kinv lost Running k cts -> Condition_Signal k c l = Ok k' ->
  exists x cts', locks k !! l = Some x /\ threadHeld x = Some (currentThread k) /\
    woke 1 (CondQ c) cts cts' /\ kinv lost Running k' cts' /\ kept k k' /\
    locks k' = locks k /\ semaphores k' = semaphores k.
Proof.
  intros Hk H. unfold Condition_Signal in H. inv_bind H. apply assert_held_ok in H0 as (x & Hx & Hh).
  apply deref_bind in H as (y & Hy & H). inv_bind H. destruct v0 as [y' r].
  destruct (pop_wake lost Running k (put_condition c (mkCondition y') k) k' cts (CondQ c) (waitQ y) y' r Hk
    ltac:(done) ltac:(done))
    as (cts' & Hw & Hk' & Hkp & Es & El & Ec); [cbn; by rewrite Hy|done|done|intros q0; by rewrite queue_put_condition|done|].
  exists x, cts'. split_and!; try done. destruct Hkp. by split.
Qed.

Lemma broadcast_loop_inv lost fuel k cts c k' :
  kinv lost Running k cts -> broadcast_loop fuel k c = Ok k' ->
  exists cts', woke (length (cts (CondQ c))) (CondQ c) cts cts' /\ kinv lost Running k' cts' /\ kept k k' /\
    locks k' = locks k /\ semaphores k' = semaphores k.
Proof.
  revert k cts. induction fuel as [|fuel IH]; intros k cts Hk H; [done|]. cbn in H.
  apply deref_bind in H as (y & Hy & H).
  assert (queue_of k (CondQ c) = Some (waitQ y)) as Hqy by (cbn; by rewrite Hy).
  rewrite (q_is_empty_rep _ _ (cts (CondQ c))) in H by (by apply (k_rep _ _ _ _ Hk)).
  destruct (bool_decide_reflect (cts (CondQ c) = [])) as [He|Hne].
  - injection H as <-. exists cts. split_and!; try done. split; rewrite ?He; done.
  - inv_bind H. destruct v as [y' r]. inv_bind H.
    destruct (pop_wake lost Running k (put_condition c (mkCondition y') k) v cts (CondQ c) (waitQ y) y' r Hk
      ltac:(done) ltac:(done))
      as (cts1 & [W1 W2 W3] & Hk1 & Hkp1 & Es1 & El1 & Ec1); [done..|intros q0; by rewrite queue_put_condition|done|].
    destruct (IH v cts1 Hk1 H) as (cts2 & [U1 U2 U3] & Hk2 & Hkp2 & El2 & Es2).
    destruct (cts (CondQ c)) as [|[p t] l] eqn:E0; [done|]. cbn in W1, W2. rewrite W1, drop_0 in *.
    exists cts2. split_and!; try done.
    + split; rewrite ?E0; cbn.
      * rewrite U1. by rewrite !drop_ge by lia.
      * rewrite U2, W2. rewrite !firstn_all2 by (rewrite ?length_fmap; lia). by rewrite <- Permutation_middle.
      * intros q Hq Hqc. by rewrite U3, W3.
    + transitivity v; [|done]. destruct Hkp1. by split.
    + by rewrite El2, El1.
    + by rewrite Es2, Es1.
Qed.

Lemma Condition_Broadcast_inv lost k cts c l k' :
  kinv lost Running k cts -> Condition_Broadcast k c l = Ok k' ->
  exists x cts', locks k !! l = Some x /\ threadHeld x = Some (currentThread k) /\
    woke (length (cts (CondQ c))) (CondQ c) cts cts' /\ kinv lost Running k' cts' /\ kept k k' /\
    locks k' = locks k /\ semaphores k' = semaphores k.
Proof.
  intros Hk H. unfold Condition_Broadcast in H. inv_bind H. apply assert_held_ok in H0 as (x & Hx & Hh).
  destruct (broadcast_loop_inv _ _ _ _ _ _ Hk H) as (cts' & ?). eauto.
Qed.
End SynchInvariant.
