(* ===== verification/System.v ===== *)
(** Threads that run: the kernel as a machine that executes, on one processor,
    the code of every thread between its calls of the synchronization routines.

    A [Client] gives the code of its threads as program counters and a function
    [view]: from a program counter it runs up to the next call of a routine,
    reading and writing the data [D] the threads share, and says what that call is
    and where the thread goes on.  The simulated machine interrupts a thread only
    when interrupts are re-enabled (Interrupt::OneTick), that is at the end of a
    routine; at these points, and while the machine idles, a [choice] says which
    interrupt handlers are to run and whether the timer makes the thread yield.  An
    interrupt is known by the semaphore its handler does V on (SynchConsole's,
    SynchDisk's and PostOffice's handlers do nothing else to threads); [on_irq] is
    what the device does to the data before, and is [None] when the device has no
    interrupt to give. *)
From Stdlib Require Import ZArith Lia Bool Sorting.Sorted.
From stdpp Require Import base numbers list gmap fin_maps.
From S2P Require Import Prelude Lists Machine Threads Synch.

(** The calls; [Wait] is Condition::Wait up to its Sleep, [AssertHeld] its last
    line, [Die] the last two lines of Thread::Finish. *)
Inductive prim :=
| P (s : positive)
| V (s : positive)
| Acquire (l : positive)
| Release (l : positive)
| Wait (c l : positive)
| Signal (c l : positive)
| Broadcast (c l : positive)
| AssertHeld (l : positive)
| Fork (t : positive)
| SetPriority (n : Z)
| SetLevel (now : IntStatus)
| Yield
| Die.

#[export] Instance prim_eq_dec : EqDecision prim.
Proof. solve_decision. Defined.

(** The routines that turn interrupts off and put them back as they were. *)
Definition masks (p : prim) : bool :=
  match p with
  | P _ | V _ | Acquire _ | Release _ | Wait _ _ | Fork _ | Yield => true
  | _ => false
  end.

(** What a call came to: it is over; the thread sleeps, and on waking tests again
    or goes on; it gave way to another thread; it is gone. *)
Inductive outcome := Completed | Sleeps (again : bool) | GaveWay | Exits.

Record choice := mkChoice { irq : list positive; preempt : bool }.

(** The code of the threads, and the devices' part in an interrupt. *)
Class Client (pc D : Type) := {
  view : positive -> pc -> D -> res (D * option (prim * pc));
  on_irq : positive -> D -> option D
}.

(** A call and its thread, [None] for an interrupt handler. *)
Abbreviation event := (option positive * prim)%type.

Section System.
Context {Q : Type -> Type} `{!Queue Q} {pc D : Type} `{!Client pc D}.

(** One call; [again] when the thread was asleep in it. *)
Definition exec_prim (again : bool) (k : Nachos Q) (p : prim) : res (Nachos Q * outcome) :=
  match p with
  | P s => '(k, b) <- Semaphore_P k s ;; Ok (k, if b : bool then Completed else Sleeps true)
  | V s => k <- Semaphore_V k s ;; Ok (k, Completed)
  | Acquire l =>
      _ <- (if again then Ok tt else Lock_enter k l) ;;
      '(k, b) <- Lock_Acquire k l ;; Ok (k, if b : bool then Completed else Sleeps true)
  | Release l => k <- Lock_Release k l ;; Ok (k, Completed)
  | Wait c l => k <- Condition_Wait k c l ;; Ok (k, Sleeps false)
  | Signal c l => k <- Condition_Signal k c l ;; Ok (k, Completed)
  | Broadcast c l => k <- Condition_Broadcast k c l ;; Ok (k, Completed)
  | AssertHeld l => _ <- assert_held k l ;; Ok (k, Completed)
  | Fork t => k <- Thread_Fork k t ;; Ok (k, Completed)
  | SetPriority n =>
      th <- deref (threads k) (currentThread k) ;;
      Ok (put_thread (currentThread k) (setPriority n th) k, Completed)
  | SetLevel now => Ok (set_level now k, Completed)
  | Yield => '(k, b) <- Thread_Yield k ;; Ok (k, if b : bool then GaveWay else Completed)
  | Die => Ok (set_threadToBeDestroyed (Some (currentThread k)) k, Exits)
  end.

(** The handlers that run at a point where interrupts are taken, and the calls
    they make. *)
Fixpoint handlers (k : Nachos Q) (d : D) (irq : list positive) : res (Nachos Q * D * list event) :=
  match irq with
  | [] => Ok (k, d, [])
  | n :: irq =>
      match on_irq n d with
      | None => handlers k d irq
      | Some d =>
          k <- Semaphore_V k n ;;
          '(k, d, e) <- handlers k d irq ;;
          Ok (k, d, (None, V n) :: e)
      end
  end.

(** Where a thread is: about to run its own code; asleep in a call that has to be
    tried again, with the interrupt level to restore; about to restore the level
    and go on; gone. *)
Inductive ctl :=
| At (p : pc)
| Retry (c : prim) (old : IntStatus) (p : pc)
| Woken (old : IntStatus) (p : pc)
| Dead.

(** [log] is a ghost: the calls that have been made, with their threads ([None]
    for an interrupt handler), the latest last. *)
Record Sys := mkSys {
  kern : Nachos Q;
  data : D;
  ctls : gmap positive ctl;
  idle : bool;
  log : list event
}.

Definition put_ctl (t : positive) (c : ctl) (s : Sys) : Sys :=
  mkSys (kern s) (data s) (<[t := c]> (ctls s)) (idle s) (log s).
Definition set_kern (k : Nachos Q) (s : Sys) : Sys :=
  mkSys k (data s) (ctls s) (idle s) (log s).
Definition set_data (d : D) (s : Sys) : Sys :=
  mkSys (kern s) d (ctls s) (idle s) (log s).
Definition set_idle (b : bool) (s : Sys) : Sys :=
  mkSys (kern s) (data s) (ctls s) b (log s).
Definition record (e : list event) (s : Sys) : Sys :=
  mkSys (kern s) (data s) (ctls s) (idle s) (log s ++ e).

(** Interrupt::OneTick: the handlers run with interrupts off, and then the thread
    yields if the timer's handler has asked for it. *)
Definition tick (ch : choice) (s : Sys) (p : pc) : res Sys :=
  '(k, d, e) <- handlers (set_level IntOff (kern s)) (data s) (irq ch) ;;
  let s := record e (set_data d s) in
  if preempt ch then
    let t := currentThread k in
    '(k, b) <- Thread_Yield k ;;
    if b : bool then Ok (set_kern k (put_ctl t (Woken IntOn p) s))
    else Ok (set_kern (set_level IntOn k) s)
  else Ok (set_kern (set_level IntOn k) s).

(** Thread::Sleep in the system; the machine idles when no thread is ready. *)
Definition fall_asleep (s : Sys) : res Sys :=
  '(k, b) <- Thread_Sleep (kern s) ;; Ok (set_idle (negb b) (set_kern k s)).

(** The current thread makes the call [c], after which it goes on at [p]; [old] is
    the level the call restores. *)
Definition call (ch : choice) (again : bool) (c : prim) (old : IntStatus) (p : pc) (s : Sys) : res Sys :=
  let t := currentThread (kern s) in
  let k := if masks c then set_level IntOff (kern s) else kern s in
  '(k, o) <- exec_prim again k c ;;
  let s := set_kern k s in
  match o with
  | Completed =>
      let s := record [(Some t, c)] s in
      if masks c then
        let s := put_ctl t (At p) (set_kern (set_level old k) s) in
        if bool_decide (old = IntOn) then tick ch s p else Ok s
      else
        let s := put_ctl t (At p) s in
        match c with
        | SetLevel IntOn => if bool_decide (old = IntOff) then tick ch s p else Ok s
        | _ => Ok s
        end
  | Sleeps true => fall_asleep (put_ctl t (Retry c old p) s)
  | Sleeps false => fall_asleep (put_ctl t (Woken old p) (record [(Some t, c)] s))
  | GaveWay => Ok (put_ctl t (Woken old p) (record [(Some t, c)] s))
  | Exits => fall_asleep (put_ctl t Dead (record [(Some t, c)] s))
  end.

(** One step of the system.  A thread whose procedure has returned goes through
    Thread::Finish, which turns interrupts off before it is done. *)
Definition step (ch : choice) (s : Sys) : res Sys :=
  let k := kern s in
  let t := currentThread k in
  if idle s then
    '(k, d, e) <- handlers k (data s) (irq ch) ;;
    let s := record e (set_data d s) in
    '(k, b) <- dispatch k ;;
    Ok (set_idle (negb b) (set_kern k s))
  else
    c <- deref (ctls s) t ;;
    match c with
    | At p =>
        '(d, r) <- view t p (data s) ;;
        let s := set_data d s in
        match r with
        | Some (c, p) => call ch false c (level k) p s
        | None => call ch false Die (level k) p (set_kern (set_level IntOff k) s)
        end
    | Retry c old p => call ch true c old p s
    | Woken old p =>
        let s := put_ctl t (At p) (set_kern (set_level old k) s) in
        if bool_decide (old = IntOn) then tick ch s p else Ok s
    | Dead => Err WildAccess
    end.

(** A thread about to be forked must have just been created: nothing in the code
    checks it. *)
Definition forks_fresh (s : Sys) : bool :=
  if idle s then true
  else
    let t := currentThread (kern s) in
    match ctls s !! t with
    | Some (At p) =>
        match view t p (data s) with
        | Ok (_, Some (Fork u, _)) =>
            match ctls s !! u, threads (kern s) !! u with
            | Some Dead, _ | _, None => false
            | _, Some th => bool_decide (status th = JUST_CREATED)
            end
        | _ => true
        end
    | _ => true
    end.

(** The states the system reaches. *)
Inductive runs (s0 : Sys) : list choice -> Sys -> Prop :=
| runs_init : runs s0 [] s0
| runs_step chs s ch s' :
    runs s0 chs s -> forks_fresh s = true -> step ch s = Ok s' -> runs s0 (chs ++ [ch]) s'.

(** The same, as a function. *)
Fixpoint run (chs : list choice) (s : Sys) : res Sys :=
  match chs with
  | [] => Ok s
  | ch :: chs =>
      _ <- ASSERT (forks_fresh s) ;; s <- step ch s ;; run chs s
  end.

(** Nothing more can happen unless an interrupt comes. *)
Definition stuck (s : Sys) : Prop := idle s = true.
End System.
Arguments ctl : clear implicits.
Arguments Sys : clear implicits.

(** ** The invariant of the system *)

Section SystemInvariant.
Context {Q : Type -> Type} `{!Queue Q, !QueueLaws Q} {pc D : Type} `{!Client pc D}.
Implicit Types (k : Nachos Q) (cts : queues) (cs : gmap positive (ctl pc)) (act : list positive).

(** The call a thread was asleep in and has to try again. *)
Definition pending cs (t : positive) : option prim :=
  match cs !! t with Some (Retry c _ _) => Some c | _ => None end.

(** How many of the threads of [act] have been woken in the call [c]. *)
Definition waking cs (c : prim) act : nat :=
  length (filter (fun t => pending cs t = Some c) act).

(** Nobody sleeps for nothing: the threads on a queue are asleep in the call the
    queue belongs to, and whenever some are, a semaphore has no more units than
    there are woken threads about to take them, and a lock is taken or has a
    woken thread about to take it.  [act] are the threads that run or are ready. *)
Record winv k cts cs act : Prop := {
  w_waits : forall q t, t ∈ (cts q).*2 ->
    match q with
    | ReadyQ => True
    | SemQ s => pending cs t = Some (P s)
    | LockQ l => pending cs t = Some (Acquire l)
    | CondQ _ => exists old p, cs !! t = Some (Woken old p)
    end;
  w_sem : forall s x, semaphores k !! s = Some x ->
    cts (SemQ s) = [] \/ value x <= Z.of_nat (waking cs (P s) act);
  w_lock : forall l x, locks k !! l = Some x ->
    cts (LockQ l) = [] \/ locked x = 1 \/ (1 <= waking cs (Acquire l) act)%nat
}.

Lemma waking_perm cs c act act' : act ≡ₚ act' -> waking cs c act = waking cs c act'.
Proof. unfold waking. by intros ->. Qed.

Lemma waking_app cs c act act' : waking cs c (act ++ act') = (waking cs c act + waking cs c act')%nat.
Proof. unfold waking. by rewrite filter_app, length_app. Qed.

Lemma waking_cons cs c t act :
  waking cs c (t :: act) = ((if decide (pending cs t = Some c) then 1 else 0) + waking cs c act)%nat.
Proof. unfold waking. rewrite filter_cons. by case_decide. Qed.

Lemma waking_put cs c t x act : t ∉ act -> waking (<[t := x]> cs) c act = waking cs c act.
Proof.
  induction act as [|y act IH]; [done|]. intros [Hne Ht]%not_elem_of_cons.
  rewrite !waking_cons, IH by done. unfold pending. by rewrite lookup_insert_ne.
Qed.

Lemma winv_perm k cts cs act act' : act ≡ₚ act' -> winv k cts cs act -> winv k cts cs act'.
Proof.
  intros Hp []. split; [done| |]; intros *; rewrite <- (waking_perm _ _ _ _ Hp); auto.
Qed.

Lemma winv_more k cts cs act t : winv k cts cs act -> winv k cts cs (t :: act).
Proof.
  intros []. split; [done| |]; intros n x Hx; rewrite waking_cons.
  - destruct (w_sem0 n x Hx); [by left|right; lia].
  - destruct (w_lock0 n x Hx) as [|[|]]; [by left|by right; left|right; right; lia].
Qed.

(** A thread stops being counted on when there is nothing for it to take. *)
Lemma winv_drop k cts cs act t :
  winv k cts cs (t :: act) ->
  (forall s x, pending cs t = Some (P s) -> semaphores k !! s = Some x -> value x <= 0) ->
  (forall l x, pending cs t = Some (Acquire l) -> locks k !! l = Some x -> locked x = 1) ->
  winv k cts cs act.
Proof.
  intros [] Hs Hl. split; [done| |]; intros n x Hx.
  - destruct (w_sem0 n x Hx) as [|Hv]; [by left|right]. rewrite waking_cons in Hv.
    case_decide as E; [|lia]. specialize (Hs n x E Hx). lia.
  - destruct (w_lock0 n x Hx) as [|[|Hv]]; [by left|by right; left|right]. rewrite waking_cons in Hv.
    case_decide as E; [left; by apply (Hl n)|right; lia].
Qed.

(** A thread on no queue and not active goes elsewhere in its code. *)
Lemma winv_put_ctl k cts cs act t x :
  winv k cts cs act -> t ∉ act -> (forall q, q <> ReadyQ -> t ∉ (cts q).*2) ->
  winv k cts (<[t := x]> cs) act.
Proof.
  intros [] Ha Hq. split; [|intros *; rewrite waking_put by done; auto..].
  intros q y Hy. specialize (w_waits0 q y Hy). destruct q as [|s|l|c]; [done|..];
    (assert (t <> y) as Hne by (intros ->; eapply Hq; [|exact Hy]; done)); unfold pending in *;
    by rewrite lookup_insert_ne.
Qed.

(** The kernel loses locks at most. *)
Lemma winv_sub k k' cts cts' cs act :
  winv k cts cs act -> semaphores k' = semaphores k ->
  (forall l x, locks k' !! l = Some x -> locks k !! l = Some x) ->
  (forall q, q <> ReadyQ -> cts' q = cts q) -> winv k' cts' cs act.
Proof.
  intros [] Es Hl Hq. split.
  - intros q t. destruct q; [done|..]; rewrite Hq by done; try apply (w_waits0 (SemQ _));
      try apply (w_waits0 (LockQ _)); apply (w_waits0 (CondQ _)).
  - intros s x. rewrite Es, Hq by done. apply w_sem0.
  - intros l x Hx. rewrite Hq by done. by apply w_lock0, Hl.
Qed.

Lemma waits_woke k cts cts' cs act n qi q t :
  winv k cts cs act -> woke n qi cts cts' -> t ∈ (cts' q).*2 ->
  match q with
  | ReadyQ => True
  | SemQ s => pending cs t = Some (P s)
  | LockQ l => pending cs t = Some (Acquire l)
  | CondQ _ => exists old p, cs !! t = Some (Woken old p)
  end.
Proof.
  intros [Hw _ _] [W1 _ W3] Hin. destruct (decide (q = ReadyQ)) as [->|Hr]; [done|].
  apply (Hw q). destruct (decide (q = qi)) as [->|Hne]; [|by rewrite <- W3].
  rewrite W1, fmap_drop in Hin. by eapply subseteq_drop.
Qed.

Lemma woke_nil n qi q cts cts' : woke n qi cts cts' -> q <> ReadyQ -> cts q = [] -> cts' q = [].
Proof.
  intros [W1 _ W3] Hr Hq. destruct (decide (q = qi)) as [->|Hne]; [by rewrite W1, Hq, drop_nil|by rewrite W3].
Qed.

(** A condition wakes threads. *)
Lemma winv_woke_cond k k' cts cts' cs act n c :
  winv k cts cs act -> woke n (CondQ c) cts cts' -> semaphores k' = semaphores k -> locks k' = locks k ->
  winv k' cts' cs (take n (cts (CondQ c)).*2 ++ act).
Proof.
  intros Hv Hw Es El. split; [intros q t; by eapply waits_woke| |]; intros m x.
  - rewrite Es, waking_app. intros Hx. destruct (w_sem _ _ _ _ Hv m x Hx); [left; by eapply woke_nil|right; lia].
  - rewrite El, waking_app. intros Hx.
    destruct (w_lock _ _ _ _ Hv m x Hx) as [|[|]]; [left; by eapply woke_nil|by right; left|right; right; lia].
Qed.

(** [V] gives a unit and wakes the first waiter. *)
Lemma winv_woke_sem k k' cts cts' cs act s x x' :
  winv k cts cs act -> woke 1 (SemQ s) cts cts' -> semaphores k !! s = Some x ->
  semaphores k' = <[s := x']> (semaphores k) -> value x' = value x + 1 -> locks k' = locks k ->
  winv k' cts' cs (take 1 (cts (SemQ s)).*2 ++ act).
Proof.
  intros Hv Hw Hx Es Ev El. split; [intros q t; by eapply waits_woke| |]; intros m y.
  - rewrite Es, waking_app. destruct (decide (m = s)) as [->|Hne].
    + rewrite lookup_insert_eq. intros [= <-]. rewrite Ev.
      destruct (w_sem _ _ _ _ Hv s x Hx) as [He|Hle]; [left; by eapply woke_nil|].
      destruct (cts (SemQ s)) as [|[p t] l] eqn:E; [left; by eapply woke_nil|right].
      assert (pending cs t = Some (P s)) as Ht.
      { apply (w_waits _ _ _ _ Hv (SemQ s)). rewrite E. by left. }
      cbn [fmap list_fmap take snd]. rewrite firstn_O, waking_cons, decide_True by done. lia.
    + rewrite lookup_insert_ne by done. intros Hy.
      destruct (w_sem _ _ _ _ Hv m y Hy); [left; by eapply woke_nil|right; lia].
  - rewrite El, waking_app. intros Hy.
    destruct (w_lock _ _ _ _ Hv m y Hy) as [|[|]]; [left; by eapply woke_nil|by right; left|right; right; lia].
Qed.

(** [Release] frees the lock and wakes the first waiter. *)
Lemma winv_woke_lock k k' cts cts' cs act l x' :
  winv k cts cs act -> woke 1 (LockQ l) cts cts' ->
  locks k' = <[l := x']> (locks k) -> semaphores k' = semaphores k ->
  winv k' cts' cs (take 1 (cts (LockQ l)).*2 ++ act).
Proof.
  intros Hv Hw El Es. split; [intros q t; by eapply waits_woke| |]; intros m y.
  - rewrite Es, waking_app. intros Hy.
    destruct (w_sem _ _ _ _ Hv m y Hy); [left; by eapply woke_nil|right; lia].
  - rewrite El, waking_app. destruct (decide (m = l)) as [->|Hne].
    + intros _. destruct (cts (LockQ l)) as [|[p t] r] eqn:E; [left; by eapply woke_nil|right; right].
      assert (pending cs t = Some (Acquire l)) as Ht.
      { apply (w_waits _ _ _ _ Hv (LockQ l)). rewrite E. by left. }
      cbn [fmap list_fmap take snd]. rewrite firstn_O, waking_cons, decide_True by done. lia.
    + rewrite lookup_insert_ne by done. intros Hy.
      destruct (w_lock _ _ _ _ Hv m y Hy) as [|[|]]; [left; by eapply woke_nil|by right; left|right; right; lia].
Qed.

(** ** The ghost log *)

(** The units a semaphore has gained by the calls of a log. *)
Fixpoint tally (s : positive) (log : list event) : Z :=
  match log with
  | [] => 0
  | (_, V s') :: log => (if decide (s' = s) then 1 else 0) + tally s log
  | (_, P s') :: log => (if decide (s' = s) then -1 else 0) + tally s log
  | _ :: log => tally s log
  end.

Lemma tally_app s log log' : tally s (log ++ log') = tally s log + tally s log'.
Proof. induction log as [|[o []] log IH]; cbn; lia. Qed.

Lemma tally_bound s log : Z.abs (tally s log) <= zlen log.
Proof. induction log as [|[o []] log IH]; cbn [tally length]; repeat case_decide; lia. Qed.

(** Who holds a lock after the calls of a log, provided it is only acquired when
    free, and only released, or waited with, by its holder. *)
Definition lock_event (l : positive) (h : option positive) (e : event) : option (option positive) :=
  match e with
  | (Some t, Acquire l') =>
      if decide (l' = l) then match h with None => Some (Some t) | Some _ => None end else Some h
  | (Some t, Release l') | (Some t, Wait _ l') =>
      if decide (l' = l) then if decide (h = Some t) then Some None else None else Some h
  | _ => Some h
  end.

Fixpoint lock_trace (l : positive) (h : option positive) (log : list event) : option (option positive) :=
  match log with
  | [] => Some h
  | e :: log => match lock_event l h e with Some h => lock_trace l h log | None => None end
  end.

Lemma lock_trace_app l h log log' :
  lock_trace l h (log ++ log') =
  match lock_trace l h log with Some h => lock_trace l h log' | None => None end.
Proof. revert h. induction log as [|e log IH]; intros h; cbn; [done|]. by destruct (lock_event l h e). Qed.

(** Each semaphore's value is its first value and what the log adds; each lock is
    held by the thread the log says. *)
Definition semok (init : positive -> Z) k (log : list event) : Prop :=
  forall s x, semaphores k !! s = Some x -> value x = init s + tally s log /\ 0 <= value x.

Definition lockok k (log : list event) : Prop :=
  forall l, exists h, lock_trace l None log = Some h /\
    forall x, locks k !! l = Some x -> threadHeld x = h /\ locked x = match h with Some _ => 1 | None => 0 end.

Definition small (init : positive -> Z) (log : list event) : Prop :=
  forall s, 0 <= init s /\ init s + zlen log < 2 ^ 31 - 1.

Lemma semok_same init k k' log e :
  semok init k log -> semaphores k' = semaphores k -> (forall s, tally s [e] = 0) -> semok init k' (log ++ [e]).
Proof. intros H Es He s x. rewrite Es. intros Hx. rewrite tally_app, He. destruct (H s x Hx). lia. Qed.

Lemma lockok_same k k' log e :
  lockok k log -> (forall l x, locks k' !! l = Some x -> locks k !! l = Some x) ->
  (forall l h, lock_event l h e = Some h) -> lockok k' (log ++ [e]).
Proof.
  intros H El He l. destruct (H l) as (h & Ht & Hl). exists h. rewrite lock_trace_app, Ht. cbn. rewrite He.
  split; [done|]. intros x Hx. by apply Hl, El.
Qed.

Lemma lockok_sub k k' log :
  lockok k log -> (forall l x, locks k' !! l = Some x -> locks k !! l = Some x) -> lockok k' log.
Proof. intros H El l. destruct (H l) as (h & Ht & Hl). exists h. split; [done|]. intros x Hx. by apply Hl, El. Qed.

Lemma lockok_set k k' log e l h x' :
  lockok k log -> locks k' = <[l := x']> (locks k) ->
  (forall h0, lock_trace l None log = Some h0 -> lock_event l h0 e = Some h) ->
  (forall l' h0, l' <> l -> lock_event l' h0 e = Some h0) ->
  threadHeld x' = h -> locked x' = match h with Some _ => 1 | None => 0 end -> lockok k' (log ++ [e]).
Proof.
  intros H El He Hother Hh Hlk l'. destruct (H l') as (h0 & Ht & Hl).
  destruct (decide (l' = l)) as [->|Hne].
  - exists h. rewrite lock_trace_app, Ht. cbn. rewrite (He h0 Ht). split; [done|]. intros x.
    rewrite El, lookup_insert_eq. by intros [= <-].
  - exists h0. rewrite lock_trace_app, Ht. cbn. rewrite Hother by done. split; [done|]. intros x.
    rewrite El, lookup_insert_ne by done. apply Hl.
Qed.

Lemma woke_members n qi cts cts' q t : woke n qi cts cts' -> t ∈ (cts' q).*2 -> exists q', t ∈ (cts q').*2.
Proof.
  intros [W1 W2 W3] Hin. destruct (decide (q = qi)) as [->|Hne].
  - exists qi. rewrite W1, fmap_drop in Hin. by eapply subseteq_drop.
  - destruct (decide (q = ReadyQ)) as [->|Hr].
    + rewrite W2 in Hin. apply elem_of_app in Hin as [Hin|Hin]; [|by exists ReadyQ].
      exists qi. by eapply subseteq_take.
    + exists q. by rewrite <- W3.
Qed.

Lemma woke_act n qi cts cts' : woke n qi cts cts' -> take n (cts qi).*2 ++ (cts ReadyQ).*2 ≡ₚ (cts' ReadyQ).*2.
Proof. by intros [_ -> _]. Qed.

(** The running thread falls asleep on a queue. *)
Lemma winv_enqueue k k' cts cs act q t (key : Z) (x : ctl pc) :
  winv k cts cs act -> t ∉ act -> (forall q, t ∉ (cts q).*2) -> q <> ReadyQ ->
  match q with
  | SemQ s => exists old p, x = Retry (P s) old p
  | LockQ l => exists old p, x = Retry (Acquire l) old p
  | _ => exists old p, x = Woken old p
  end ->
  (forall s y', semaphores k' !! s = Some y' -> exists y, semaphores k !! s = Some y /\ value y' = value y /\
     (q = SemQ s -> value y = 0)) ->
  (forall l y', locks k' !! l = Some y' -> exists y, locks k !! l = Some y /\ locked y' = locked y /\
     (q = LockQ l -> locked y = 1)) ->
  winv k' (upd cts q (insert_sorted key t (cts q))) (<[t := x]> cs) act.
Proof.
  intros Hv Ha Hno Hr Hx Hs Hl. split.
  - intros q' y. unfold upd. destruct (decide (q' = q)) as [->|Hne].
    + rewrite insert_sorted_snd. intros [->|Hy].
      * destruct q; [done|..]; destruct Hx as (old & p & ->); unfold pending; rewrite lookup_insert_eq; eauto.
      * assert (t <> y) as Hty by (intros ->; by apply (Hno q)).
        pose proof (w_waits _ _ _ _ Hv q y Hy) as Hw. destruct q; unfold pending in *; rewrite ?lookup_insert_ne by done; done.
    + intros Hy. assert (t <> y) as Hty by (intros ->; by apply (Hno q')).
      pose proof (w_waits _ _ _ _ Hv q' y Hy) as Hw. destruct q'; unfold pending in *; rewrite ?lookup_insert_ne by done; done.
  - intros s y' Hy'. destruct (Hs s y' Hy') as (y & Hy & -> & Hz). rewrite waking_put by done.
    destruct (decide (SemQ s = q)) as [E|Hne]; [right; rewrite (Hz (eq_sym E)); lia|].
    rewrite upd_ne by done. by apply (w_sem _ _ _ _ Hv).
  - intros l y' Hy'. destruct (Hl l y' Hy') as (y & Hy & -> & Hz). rewrite waking_put by done.
    destruct (decide (LockQ l = q)) as [E|Hne]; [by right; left; apply Hz|].
    rewrite upd_ne by done. by apply (w_lock _ _ _ _ Hv).
Qed.

(** What one call does to the invariant; [e] is the call and its thread. *)
Definition after_call (init : positive -> Z) (lost : positive -> Prop) k cs (log : list event) (c : prim)
    k' (o : outcome) : Prop :=
  let t := currentThread k in
  match o with
  | Completed => exists cts', kinv lost Running k' cts' /\ currentThread k' = t /\
      winv k' cts' cs (cts' ReadyQ).*2 /\ semok init k' (log ++ [(Some t, c)]) /\ lockok k' (log ++ [(Some t, c)])
  | Sleeps true => exists cts', kinv lost Enqueued k' cts' /\ currentThread k' = t /\
      (forall old p, winv k' cts' (<[t := Retry c old p]> cs) (cts' ReadyQ).*2) /\
      semok init k' log /\ lockok k' log
  | Sleeps false => exists cts', kinv lost Enqueued k' cts' /\ currentThread k' = t /\
      (forall old p, winv k' cts' (<[t := Woken old p]> cs) (cts' ReadyQ).*2) /\
      semok init k' (log ++ [(Some t, c)]) /\ lockok k' (log ++ [(Some t, c)])
  | GaveWay => exists cts', kinv lost Running k' cts' /\ t ∉ [currentThread k'] /\
      (forall old p, winv k' cts' (<[t := Woken old p]> cs) (currentThread k' :: (cts' ReadyQ).*2)) /\
      semok init k' (log ++ [(Some t, c)]) /\ lockok k' (log ++ [(Some t, c)])
  | Exits => k' = set_threadToBeDestroyed (Some t) k /\
      semok init k' (log ++ [(Some t, c)]) /\ lockok k' (log ++ [(Some t, c)])
  end.

Section Calls.
Context (init : positive -> Z) (lost : positive -> Prop) (k : Nachos Q) (cts : queues).
Context (cs : gmap positive (ctl pc)) (log : list event).
Hypotheses (Hk : kinv lost Running k cts) (Hw : winv k cts cs (currentThread k :: (cts ReadyQ).*2)).
Hypotheses (Hs : semok init k log) (Hl : lockok k log).

Lemma not_ready : currentThread k ∉ (cts ReadyQ).*2.
Proof. by apply (running_alone _ _ _ Hk). Qed.

(** A call other than the one the thread waits to make frees nothing. *)
Lemma winv_current : pending cs (currentThread k) = None -> winv k cts cs (cts ReadyQ).*2.
Proof. intros Hp. apply (winv_drop _ _ _ _ _ Hw); intros ??; by rewrite Hp. Qed.

Lemma call_P (again : bool) s k' o :
  pending cs (currentThread k) = (if again then Some (P s) else None) -> small init log ->
  exec_prim again k (P s) = Ok (k', o) -> after_call init lost k cs log (P s) k' o.
Proof.
  intros Hp Hsm H. cbn in H. inv_bind H. destruct v as [k1 b]. injection H as <- <-.
  destruct (Semaphore_P_inv _ _ _ _ _ _ Hk H0) as (x & Hx & Hb). destruct (Hs s x Hx) as [Hv Hpos]. destruct b.
  - destruct Hb as (Hnz & Hk' & ->). exists cts. split; [done|]. split; [done|].
    pose proof (tally_bound s log) as Htb. destruct (Hsm s) as [Hi1 Hi2].
    assert (s32 (value x - 1) = value x - 1) as E by (apply s32_small; unfold is_s32; lia).
    rewrite E. split_and!.
    + split; [by apply (w_waits _ _ _ _ Hw)| |].
      * intros s' y. cbn. destruct (decide (s' = s)) as [->|Hne].
        -- rewrite lookup_insert_eq. intros [= <-]. cbn [value].
           destruct (w_sem _ _ _ _ Hw s x Hx) as [|Hle]; [by left|right].
           rewrite waking_cons in Hle. case_decide; lia.
        -- rewrite lookup_insert_ne by done. intros Hy.
           destruct (w_sem _ _ _ _ Hw s' y Hy) as [|Hle]; [by left|right].
           rewrite waking_cons, decide_False in Hle; [lia|]. rewrite Hp. destruct again; congruence.
      * intros l y Hy. destruct (w_lock _ _ _ _ Hw l y Hy) as [|[|Hle]]; [by left|by right; left|right; right].
        rewrite waking_cons, decide_False in Hle; [lia|]. rewrite Hp. by destruct again.
    + intros s' y. cbn. rewrite tally_app. cbn [tally]. destruct (decide (s = s')) as [->|Hne].
      * rewrite lookup_insert_eq. intros [= <-]. cbn [value]. lia.
      * rewrite lookup_insert_ne by done. intros Hy. destruct (Hs s' y Hy). lia.
    + by apply (lockok_same k).
  - destruct Hb as (Hz & th & q & Hth & -> & Hk'). eexists. split; [exact Hk'|]. split; [done|].
    assert (forall s' y, semaphores (put_semaphore s (mkSemaphore 0 q) k) !! s' = Some y ->
      exists z, semaphores k !! s' = Some z /\ value y = value z /\ (SemQ s = SemQ s' -> value z = 0)) as Hsame.
    { intros s' y. cbn. destruct (decide (s' = s)) as [->|Hne].
      - rewrite lookup_insert_eq. intros [= <-]. exists x. by rewrite Hz.
      - rewrite lookup_insert_ne by done. intros Hy. exists y. split_and!; congruence. }
    split_and!.
    + intros old p. rewrite upd_ne by done.
      apply (winv_enqueue k); [|apply not_ready|by apply (running_alone _ _ _ Hk)|done|by eauto|exact Hsame|].
      * apply (winv_drop _ _ _ _ _ Hw); rewrite Hp; destruct again; try done.
        intros s' y [= <-] Hy. assert (y = x) as -> by congruence. lia.
      * intros l y Hy. exists y. done.
    + intros s' y Hy. destruct (Hsame s' y Hy) as (z & Hz' & -> & _). by apply Hs.
    + exact Hl.
Qed.

Lemma call_V s k' o :
  pending cs (currentThread k) = None -> small init log ->
  exec_prim false k (V s) = Ok (k', o) -> after_call init lost k cs log (V s) k' o.
Proof.
  intros Hp Hsm H. cbn in H. inv_bind H. injection H as <- <-.
  destruct (Semaphore_V_inv _ _ _ _ _ _ Hk ltac:(done) H0) as (x & q & cts' & Hx & Hwk & Hk' & Hkp & Es & El & _).
  destruct (Hs s x Hx) as [Hv Hpos]. pose proof (tally_bound s log) as Htb. destruct (Hsm s) as [Hi1 Hi2].
  assert (s32 (value x + 1) = value x + 1) as E by (apply s32_small; unfold is_s32; lia). rewrite E in Es.
  exists cts'. split; [done|]. split; [apply Hkp|]. split_and!.
  - apply (winv_perm _ _ _ _ _ (woke_act _ _ _ _ Hwk)).
    apply (winv_woke_sem k v cts cts' cs _ s x _ (winv_current Hp) Hwk Hx Es); done.
  - intros s' y. rewrite Es, tally_app. cbn [tally]. destruct (decide (s = s')) as [->|Hne].
    + rewrite lookup_insert_eq. intros [= <-]. cbn [value]. lia.
    + rewrite lookup_insert_ne by done. intros Hy. destruct (Hs s' y Hy). lia.
  - apply (lockok_same k); [done|by rewrite El|done].
Qed.

Lemma call_Acquire (again : bool) l k' o :
  pending cs (currentThread k) = (if again then Some (Acquire l) else None) ->
  exec_prim again k (Acquire l) = Ok (k', o) -> after_call init lost k cs log (Acquire l) k' o.
Proof.
  intros Hp H. cbn in H. inv_bind H. inv_bind H. destruct v0 as [k1 b]. injection H as <- <-.
  destruct (Lock_Acquire_inv _ _ _ _ _ _ Hk H1) as (x & Hx & Hb). destruct (Hl l) as (h & Ht & Hlx).
  destruct (Hlx x Hx) as [Hh Hlk]. destruct b.
  - destruct Hb as (Hnl & Hk' & ->). exists cts. split; [done|]. split; [done|]. split_and!.
    + apply (winv_drop _ _ _ _ (currentThread k)).
      * split; [by apply (w_waits _ _ _ _ Hw)|by apply (w_sem _ _ _ _ Hw)|].
        intros l' y. cbn. destruct (decide (l' = l)) as [->|Hne].
        -- rewrite lookup_insert_eq. intros [= <-]. by right; left.
        -- rewrite lookup_insert_ne by done. apply (w_lock _ _ _ _ Hw).
      * rewrite Hp. by destruct again.
      * rewrite Hp. destruct again; [|done]. intros l' y [= <-]. cbn. rewrite lookup_insert_eq. by intros [= <-].
    + by apply (semok_same _ k).
    + eapply (lockok_set k _ log _ l (Some (currentThread k)) _ Hl); [reflexivity|..]; try done.
      * intros h0 Hh0. cbn. rewrite decide_True by done. assert (h0 = h) as -> by congruence.
        destruct h; [congruence|done].
      * intros l' h0 Hne. cbn. by rewrite decide_False.
  - destruct Hb as (Hz & th & q & Hth & -> & Hk'). eexists. split; [exact Hk'|]. split; [done|].
    assert (forall l' y, locks (put_lock l (mkLock 1 (threadHeld x) q) k) !! l' = Some y ->
      exists z, locks k !! l' = Some z /\ (locked y = locked z /\ threadHeld y = threadHeld z) /\
        (LockQ l = LockQ l' -> locked z = 1)) as Hsame.
    { intros l' y. cbn. destruct (decide (l' = l)) as [->|Hne].
      - rewrite lookup_insert_eq. intros [= <-]. exists x. by rewrite Hz.
      - rewrite lookup_insert_ne by done. intros Hy. exists y. split_and!; congruence. }
    split_and!.
    + intros old p. rewrite upd_ne by done.
      apply (winv_enqueue k); [|apply not_ready|by apply (running_alone _ _ _ Hk)|done|by eauto| |].
      * apply (winv_drop _ _ _ _ _ Hw); rewrite Hp; destruct again; try done.
        intros l' y [= <-] Hy. congruence.
      * intros s y Hy. exists y. done.
      * intros l' y Hy. destruct (Hsame l' y Hy) as (z & ? & [? _] & ?). eauto.
    + exact Hs.
    + intros l'. destruct (Hl l') as (h' & Ht' & Hlx'). exists h'. split; [done|]. intros y Hy.
      destruct (Hsame l' y Hy) as (z & Hz' & [-> ->] & _). by apply Hlx'.
Qed.

Lemma call_Release l k' o :
  pending cs (currentThread k) = None ->
  exec_prim false k (Release l) = Ok (k', o) -> after_call init lost k cs log (Release l) k' o.
Proof.
  intros Hp H. cbn in H. inv_bind H. injection H as <- <-.
  destruct (Lock_Release_inv _ _ _ _ _ Hk H0) as (x & q & cts' & Hx & Hlk & Hh & Hwk & Hk' & Hkp & El & Es & _).
  destruct (Hl l) as (h & Ht & Hlx). destruct (Hlx x Hx) as [Hh' _].
  exists cts'. split; [done|]. split; [apply Hkp|]. split_and!.
  - apply (winv_perm _ _ _ _ _ (woke_act _ _ _ _ Hwk)).
    by apply (winv_woke_lock k v cts cts' cs _ l _ (winv_current Hp) Hwk El).
  - by apply (semok_same _ k).
  - apply (lockok_set k _ log _ l None _ Hl El); try done.
    + intros h0 Hh0. cbn. rewrite !decide_True; [done|congruence|done].
    + intros l' h0 Hne. cbn. by rewrite decide_False.
Qed.

Lemma call_Wait c l k' o :
  pending cs (currentThread k) = None ->
  exec_prim false k (Wait c l) = Ok (k', o) -> after_call init lost k cs log (Wait c l) k' o.
Proof.
  intros Hp H. cbn in H. inv_bind H. injection H as <- <-.
  destruct (Condition_Wait_inv _ _ _ _ _ _ Hk H0) as (x & q & cts' & th & Hx & Hlk & Hh & Hwk & Hkp & Hk' & El & Es).
  destruct (Hl l) as (h & Ht & Hlx). destruct (Hlx x Hx) as [Hh' _].
  assert (forall q', currentThread k ∉ (cts' q').*2) as Hno.
  { intros q' Hin. destruct (woke_members _ _ _ _ _ _ Hwk Hin) as [q2 Hq2].
    by apply (running_alone _ _ _ Hk q2). }
  eexists. split; [exact Hk'|]. split; [apply Hkp|]. split_and!.
  - intros old p. rewrite upd_ne by done.
    apply (winv_enqueue v); [|apply Hno|exact Hno|done|by eauto| |].
    + apply (winv_perm _ _ _ _ _ (woke_act _ _ _ _ Hwk)).
      by apply (winv_woke_lock k v cts cts' cs _ l _ (winv_current Hp) Hwk El).
    + intros s y Hy. exists y. done.
    + intros l' y Hy. exists y. done.
  - by apply (semok_same _ k).
  - apply (lockok_set k _ log _ l None _ Hl El); try done.
    + intros h0 Hh0. cbn. rewrite !decide_True; [done|congruence|done].
    + intros l' h0 Hne. cbn. by rewrite decide_False.
Qed.

(** Signals and broadcasts. *)
Lemma call_wakes n c c' k' cts' :
  pending cs (currentThread k) = None -> woke n (CondQ c) cts cts' -> kinv lost Running k' cts' -> kept k k' ->
  locks k' = locks k -> semaphores k' = semaphores k ->
  (forall s, tally s [(Some (currentThread k), c')] = 0) ->
  (forall l h, lock_event l h (Some (currentThread k), c') = Some h) ->
  after_call init lost k cs log c' k' Completed.
Proof.
  intros Hp Hwk Hk' Hkp El Es Ht Hle. exists cts'. split; [done|]. split; [apply Hkp|]. split_and!.
  - apply (winv_perm _ _ _ _ _ (woke_act _ _ _ _ Hwk)).
    by apply (winv_woke_cond k k' cts cts' cs _ n c (winv_current Hp)).
  - by apply (semok_same _ k).
  - apply (lockok_same k); [done|by rewrite El|done].
Qed.

(** Calls that move no thread. *)
Lemma call_still c' k' :
  pending cs (currentThread k) = None -> kinv lost Running k' cts -> currentThread k' = currentThread k ->
  locks k' = locks k -> semaphores k' = semaphores k ->
  (forall s, tally s [(Some (currentThread k), c')] = 0) ->
  (forall l h, lock_event l h (Some (currentThread k), c') = Some h) ->
  after_call init lost k cs log c' k' Completed.
Proof.
  intros Hp Hk' Hc El Es Ht Hle. exists cts. split; [done|]. split; [done|]. split_and!.
  - apply (winv_sub k _ cts); [by apply winv_current|done|by rewrite El|done].
  - by apply (semok_same _ k).
  - apply (lockok_same k); [done|by rewrite El|done].
Qed.

Lemma call_Fork t th k' o :
  pending cs (currentThread k) = None -> ~ lost t -> threads k !! t = Some th -> status th = JUST_CREATED ->
  exec_prim false k (Fork t) = Ok (k', o) -> after_call init lost k cs log (Fork t) k' o.
Proof.
  intros Hp Hnl Ht Hst H. cbn in H. inv_bind H. injection H as <- <-.
  destruct (Thread_Fork_inv _ _ _ _ _ _ Hk Hnl Ht Hst H0) as (q & -> & Hk').
  eexists. split; [exact Hk'|]. split; [done|]. split_and!.
  - apply (winv_perm _ _ _ (t :: (cts ReadyQ).*2)).
    { rewrite upd_eq. by rewrite (insert_sorted_perm _ t (cts ReadyQ)). }
    apply winv_more. apply (winv_sub k _ cts); [by apply winv_current|done|done|].
    intros q' Hq'. by rewrite upd_ne.
  - by apply (semok_same _ k).
  - by apply (lockok_same k).
Qed.

(** Giving way to the first ready thread, as Yield does. *)
Lemma yield_winv k' :
  pending cs (currentThread k) = None -> Thread_Yield k = Ok (k', true) ->
  exists cts', kinv lost Running k' cts' /\ currentThread k <> currentThread k' /\
    (forall old p, winv k' cts' (<[currentThread k := Woken old p]> cs) (currentThread k' :: (cts' ReadyQ).*2)) /\
    semaphores k' = semaphores k /\ (forall l x, locks k' !! l = Some x -> locks k !! l = Some x).
Proof.
  intros Hp H. pose proof (Thread_Yield_inv _ _ _ _ _ Hk H) as Hy. pose proof not_ready as Hnr.
  pose proof (winv_current Hp) as Hw'.
  destruct (cts ReadyQ) as [|[p n] l] eqn:E; [by destruct Hy|].
  destruct Hy as (_ & th & Ht & Hk' & Hc & q & Hsw). cbn in Hnr. apply not_elem_of_cons in Hnr as [Hne Hnl].
  eexists. split; [exact Hk'|]. rewrite Hc. split; [done|]. split_and!.
  - intros old pp. rewrite upd_eq.
    apply (winv_perm _ _ _ (currentThread k :: n :: l.*2)).
    { rewrite (insert_sorted_perm _ (currentThread k) l). cbn. apply Permutation_swap. }
    apply winv_more. apply (winv_sub k _ cts).
    + apply winv_put_ctl; [done| |].
      * by apply not_elem_of_cons.
      * intros q' _. by apply (running_alone _ _ _ Hk).
    + by rewrite (sw_semaphores _ _ Hsw).
    + apply Hsw.
    + intros q' Hq'. by rewrite upd_ne.
  - by rewrite (sw_semaphores _ _ Hsw).
  - apply Hsw.
Qed.

Lemma call_Yield k' o :
  pending cs (currentThread k) = None ->
  exec_prim false k Yield = Ok (k', o) -> after_call init lost k cs log Yield k' o.
Proof.
  intros Hp H. cbn in H. inv_bind H. destruct v as [k1 b]. injection H as <- <-. destruct b.
  - destruct (yield_winv k1 Hp H0) as (cts' & Hk' & Hne & Hw' & Es & El). exists cts'. split_and!; try done.
    + by rewrite list_elem_of_singleton.
    + by apply (semok_same _ k).
    + by apply (lockok_same k).
  - pose proof (Thread_Yield_inv _ _ _ _ _ Hk H0) as Hy. pose proof (call_still Yield k1 Hp) as Hstill.
    destruct (cts ReadyQ) as [|[p n] l] eqn:E; [|by destruct Hy].
    destruct Hy as (_ & Hk' & q & ->). by apply Hstill.
Qed.

(** Any call a thread may make. *)
Lemma exec_prim_inv (again : bool) c k' o :
  pending cs (currentThread k) = (if again then Some c else None) -> small init log ->
  (again = true -> (exists s, c = P s) \/ (exists l, c = Acquire l)) ->
  (forall t, c = Fork t -> ~ lost t /\ exists th, threads k !! t = Some th /\ status th = JUST_CREATED) ->
  exec_prim again k c = Ok (k', o) -> after_call init lost k cs log c k' o.
Proof.
  intros Hp Hsm Hag Hf H. destruct again.
  { destruct (Hag eq_refl) as [[s ->]|[l ->]]; [by apply (call_P true)|by apply (call_Acquire true)]. }
  destruct c as [s|s|l|l|c l|c l|c l|l|t|n|now| |].
  - by apply (call_P false).
  - by apply call_V.
  - by apply (call_Acquire false).
  - by apply call_Release.
  - by apply call_Wait.
  - cbn in H. inv_bind H. injection H as <- <-.
    destruct (Condition_Signal_inv _ _ _ _ _ _ Hk H0) as (x & cts' & _ & _ & ? & ? & ? & ? & ?).
    by apply (call_wakes 1 c _ _ cts').
  - cbn in H. inv_bind H. injection H as <- <-.
    destruct (Condition_Broadcast_inv _ _ _ _ _ _ Hk H0) as (x & cts' & _ & _ & ? & ? & ? & ? & ?).
    by eapply (call_wakes _ c _ _ cts').
  - cbn in H. inv_bind H. injection H as <- <-. by apply call_still.
  - destruct (Hf t eq_refl) as (Hnl & th & Ht & Hst). by apply (call_Fork t th).
  - cbn in H. apply deref_bind in H as (th & Ht & H). injection H as <- <-. apply call_still; try done.
    apply (kinv_put_thread _ _ _ _ _ th); [done..|]. right. by apply (running_alone _ _ _ Hk).
  - cbn in H. injection H as <- <-. apply call_still; try done. by apply (kinv_same _ _ k).
  - by apply call_Yield.
  - cbn in H. injection H as <- <-. split_and!; [done|by apply (semok_same _ k)|by apply (lockok_same k)].
Qed.
End Calls.

(** ** The invariant holds along every run *)

Section Runs.
Context (init : positive -> Z).
Implicit Types s : Sys Q pc D.

Definition dead s (t : positive) : Prop := ctls s !! t = Some Dead.
Definition retries_ok cs : Prop :=
  forall t c old p, cs !! t = Some (Retry c old p) -> (exists n, c = P n) \/ (exists l, c = Acquire l).

Definition active s cts : list positive :=
  (if idle s then [] else [currentThread (kern s)]) ++ (cts ReadyQ).*2.

Record sinv s cts : Prop := {
  s_kinv : kinv (dead s) (if idle s then Away else Running) (kern s) cts;
  s_idle : idle s = true -> cts ReadyQ = [];
  s_winv : winv (kern s) cts (ctls s) (active s cts);
  s_semok : semok init (kern s) (log s);
  s_lockok : lockok (kern s) (log s);
  s_retries : retries_ok (ctls s)
}.

Lemma forks_fresh_spec s p d t p' :
  forks_fresh s = true -> idle s = false -> ctls s !! currentThread (kern s) = Some (At p) ->
  view (currentThread (kern s)) p (data s) = Ok (d, Some (Fork t, p')) ->
  ~ dead s t /\ exists th, threads (kern s) !! t = Some th /\ status th = JUST_CREATED.
Proof.
  unfold forks_fresh, dead. intros H Hi Hc Hv. rewrite Hi, Hc, Hv in H.
  destruct (ctls s !! t) as [[]|], (threads (kern s) !! t) as [th|]; try done;
    apply bool_decide_eq_true in H; split; try done; eauto.
Qed.

Lemma retries_put cs t x :
  retries_ok cs -> (forall c old p, x = Retry c old p -> (exists n, c = P n) \/ (exists l, c = Acquire l)) ->
  retries_ok (<[t := x]> cs).
Proof.
  intros Hr Hx t' c old p. destruct (decide (t' = t)) as [->|]; [rewrite lookup_insert_eq|
    rewrite lookup_insert_ne by done; apply Hr]. intros [= ->]. by eapply Hx.
Qed.

Lemma small_app log log' : small init (log ++ log') -> small init log.
Proof. intros H n. specialize (H n). rewrite length_app in H. lia. Qed.

Lemma handlers_inv lost m k (d : D) cts cs log irq act k' d' e :
  kinv lost m k cts -> m <> Enqueued -> winv k cts cs (act ++ (cts ReadyQ).*2) -> semok init k log -> lockok k log ->
  small init (log ++ e) -> handlers k d irq = Ok (k', d', e) ->
  exists cts', kinv lost m k' cts' /\ winv k' cts' cs (act ++ (cts' ReadyQ).*2) /\
    semok init k' (log ++ e) /\ lockok k' (log ++ e) /\ kept k k'.
Proof.
  intros Hk Hm. revert k d cts log e Hk.
  induction irq as [|n irq IH]; intros k d cts log e Hk Hw Hs Hl Hsm H; cbn in H.
  - injection H as <- _ <-. exists cts. rewrite app_nil_r. split_and!; done.
  - destruct (on_irq n d) as [d1|]; [|by apply (IH k d cts log e)].
    inv_bind H. inv_bind H. destruct v0 as [[k2 d2] e2]. injection H as <- <- <-.
    destruct (Semaphore_V_inv _ _ _ _ _ _ Hk Hm H0) as (x & q & cts' & Hx & Hwk & Hk' & Hkp & Es & El & _).
    destruct (Hs n x Hx) as [Hv Hpos]. pose proof (tally_bound n log) as Htb.
    destruct (small_app _ _ Hsm n) as [Hi1 Hi2].
    assert (s32 (value x + 1) = value x + 1) as E by (apply s32_small; unfold is_s32; lia). rewrite E in Es.
    rewrite cons_middle, app_assoc in *.
    destruct (IH v d1 cts' (log ++ [(None, V n)]) e2) as (cts2 & H2 & H3 & H4 & H5 & H6); try done.
    + eapply winv_perm; [|exact (winv_woke_sem k v cts cts' cs _ n x _ Hw Hwk Hx Es eq_refl El)].
      rewrite <- (woke_act _ _ _ _ Hwk). apply Permutation_app_swap_app.
    + intros n' y. rewrite Es, tally_app. cbn [tally]. destruct (decide (n = n')) as [->|Hne].
      * rewrite lookup_insert_eq. intros [= <-]. cbn [value]. lia.
      * rewrite lookup_insert_ne by done. intros Hy. destruct (Hs n' y Hy). lia.
    + apply (lockok_same k); [done|by rewrite El|done].
    + exists cts2. split_and!; try done. by transitivity v.
Qed.

(** The machine takes up another thread, or idles. *)
Lemma dispatch_sinv s k cts k' b :
  kinv (dead s) Away k cts -> winv k cts (ctls s) (cts ReadyQ).*2 -> semok init k (log s) -> lockok k (log s) ->
  retries_ok (ctls s) -> dispatch k = Ok (k', b) ->
  exists cts', sinv (set_idle (negb b) (set_kern k' s)) cts'.
Proof.
  intros Hk Hw Hs Hl Hr H. pose proof (dispatch_inv _ _ _ _ _ Hk H) as Hd.
  destruct (cts ReadyQ) as [|[p n] l] eqn:E.
  - destruct Hd as (-> & Hk' & q & ->). exists cts. split; try done. cbn. unfold active. cbn. rewrite E.
    by apply (winv_sub k _ cts).
  - destruct Hd as (-> & Hk' & Hc & q & Hsw). eexists. split; cbn; [exact Hk'|done| | | |done].
    + unfold active. cbn. rewrite Hc, upd_eq. apply (winv_sub k _ cts); [exact Hw| | |].
      * by rewrite (sw_semaphores _ _ Hsw).
      * apply Hsw.
      * intros q' Hq'. by rewrite upd_ne.
    + intros n' x. rewrite (sw_semaphores _ _ Hsw). apply Hs.
    + apply (lockok_sub k); [done|]. apply Hsw.
Qed.

Lemma fall_asleep_sinv s cts s' :
  kinv (dead s) Enqueued (kern s) cts -> winv (kern s) cts (ctls s) (cts ReadyQ).*2 ->
  semok init (kern s) (log s) -> lockok (kern s) (log s) -> retries_ok (ctls s) ->
  fall_asleep s = Ok s' -> exists cts', sinv s' cts'.
Proof.
  intros Hk Hw Hs Hl Hr H. unfold fall_asleep in H. inv_bind H. destruct v as [k' b]. injection H as <-.
  destruct (Thread_Sleep_inv _ _ _ _ _ Hk H0) as (th & Ht & _ & Hk' & Hd).
  eapply (dispatch_sinv s _ _ k' b Hk'); try done. by apply (winv_sub (kern s) _ cts).
Qed.

(** Taking interrupts at the end of a routine. *)
Lemma tick_sinv ch s p cts s' :
  kinv (dead s) Running (kern s) cts -> winv (kern s) cts (ctls s) (currentThread (kern s) :: (cts ReadyQ).*2) ->
  semok init (kern s) (log s) -> lockok (kern s) (log s) -> retries_ok (ctls s) -> idle s = false ->
  ctls s !! currentThread (kern s) = Some (At p) -> small init (log s') -> tick ch s p = Ok s' ->
  exists cts', sinv s' cts'.
Proof.
  intros Hk Hw Hs Hl Hr Hi Hc Hsm H. unfold tick in H. inv_bind H. destruct v as [[k1 d1] e1].
  assert (log s' = log s ++ e1) as Elog.
  { destruct (preempt ch); [|by injection H as <-]. inv_bind H. destruct v as [k2 b].
    by destruct b; injection H as <-. }
  rewrite Elog in Hsm.
  destruct (handlers_inv (dead s) Running (set_level IntOff (kern s)) (data s) cts (ctls s) (log s) (irq ch)
    [currentThread (kern s)] k1 d1 e1) as (cts1 & Hk1 & Hw1 & Hs1 & Hl1 & Hkp); try done.
  { by apply (kinv_same _ _ (kern s)). }
  { by apply (winv_sub (kern s) _ cts). }
  pose proof (kp_current _ _ Hkp) as Ec. cbn in Ec. rewrite <- Ec in Hw1, Hc. cbn [app] in Hw1.
  assert (pending (ctls s) (currentThread k1) = None) as Hp by (unfold pending; by rewrite Hc).
  assert (forall k2 cts2, kinv (dead s) Running k2 cts2 -> currentThread k2 = currentThread k1 ->
    winv k2 cts2 (ctls s) (currentThread k2 :: (cts2 ReadyQ).*2) ->
    semaphores k2 = semaphores k1 -> locks k2 = locks k1 ->
    exists cts', sinv (set_kern (set_level IntOn k2) (record e1 (set_data d1 s))) cts') as Hstay.
  { intros k2 cts2 Hk2 Ec2 Hw2 Es2 El2. exists cts2. split; cbn; try done.
    - rewrite Hi. by apply (kinv_same _ _ k2).
    - by rewrite Hi.
    - unfold active. cbn. rewrite Hi. by apply (winv_sub k2 _ cts2).
    - intros n x. cbn. rewrite Es2. apply Hs1.
    - apply (lockok_sub k1); [done|]. cbn. by rewrite El2. }
  destruct (preempt ch); [|injection H as <-; by apply (Hstay k1 cts1)].
  inv_bind H. destruct v as [k2 b]. destruct b; injection H as <-.
  - destruct (yield_winv (dead s) k1 cts1 (ctls s) Hk1 Hw1 k2 Hp H1) as (cts2 & Hk2 & Hne & Hw2 & Es2 & El2).
    exists cts2. split; cbn; rewrite ?Hi; try done.
    + eapply kinv_lost_ext; [|exact Hk2]. intros t. unfold dead. cbn.
      destruct (decide (t = currentThread k1)) as [->|]; [rewrite lookup_insert_eq, Hc; by split|].
      by rewrite lookup_insert_ne.
    + intros n x. rewrite Es2. apply Hs1.
    + by apply (lockok_sub k1).
    + apply retries_put; [done|]. by intros.
  - pose proof (Thread_Yield_inv _ _ _ _ _ Hk1 H1) as Hy.
    destruct (cts1 ReadyQ) as [|[pp n] l] eqn:E; [|by destruct Hy].
    destruct Hy as (_ & Hk2 & q & ->). apply (Hstay _ cts1); try done. cbn. rewrite E.
    by apply (winv_sub k1 _ cts1).
Qed.

Lemma dead_put s t c x y :
  ctls s !! t = Some c -> c <> Dead -> x <> Dead -> dead s y <-> <[t := x]> (ctls s) !! y = Some Dead.
Proof.
  intros Ht Hc Hx. unfold dead. destruct (decide (y = t)) as [->|]; [rewrite lookup_insert_eq, Ht|
    by rewrite lookup_insert_ne]. split; congruence.
Qed.

Lemma winv_level k cts cs act n : winv k cts cs act -> winv (set_level n k) cts cs act.
Proof. intros H. by apply (winv_sub k _ cts). Qed.

Lemma kinv_level lost m k cts n : kinv lost m k cts -> kinv lost m (set_level n k) cts.
Proof. intros H. by apply (kinv_same _ _ k). Qed.

(** The rest of a completed call. *)
Lemma completed_sinv ch s cts t c x p s' (b : bool) :
  kinv (dead s) Running (kern s) cts -> currentThread (kern s) = t -> winv (kern s) cts (ctls s) (cts ReadyQ).*2 ->
  semok init (kern s) (log s ++ [(Some t, c)]) -> lockok (kern s) (log s ++ [(Some t, c)]) ->
  retries_ok (ctls s) -> idle s = false -> ctls s !! t = Some x -> x <> Dead -> small init (log s') ->
  (let s := put_ctl t (At p) (record [(Some t, c)] s) in if b then tick ch s p else Ok s) = Ok s' ->
  exists cts', sinv s' cts'.
Proof.
  intros Hk Hc Hw Hs Hl Hr Hi Hx Hxd Hsm H. set (s1 := put_ctl _ _ _) in H. cbn zeta in H.
  assert (kinv (dead s1) Running (kern s1) cts) as Hk1.
  { eapply kinv_lost_ext; [|exact Hk]. intros y. by apply (dead_put s t x). }
  assert (winv (kern s1) cts (ctls s1) (currentThread (kern s1) :: (cts ReadyQ).*2)) as Hw1.
  { cbn. apply winv_more. apply winv_put_ctl; [done| |]; subst t; [|intros q _]; by apply (running_alone _ _ _ Hk). }
  assert (retries_ok (ctls s1)) as Hr1 by (apply retries_put; [done|by intros]).
  destruct b.
  - apply (tick_sinv ch s1 p cts s'); try done. cbn. rewrite Hc. apply lookup_insert_eq.
  - injection H as <-. exists cts. split; try done.
    + cbn. by rewrite Hi.
    + cbn. by rewrite Hi.
    + unfold active. cbn. rewrite Hi. by apply Hw1.
Qed.

(** The log only grows. *)
Definition longer (log log' : list event) : Prop := exists e, log' = log ++ e.
#[local] Instance longer_refl : Reflexive longer.
Proof. intros log. exists []. by rewrite app_nil_r. Qed.
#[local] Instance longer_trans : Transitive longer.
Proof. intros ??? [e1 ->] [e2 ->]. exists (e1 ++ e2). by rewrite app_assoc. Qed.
Lemma longer_app log e : longer log (log ++ e).
Proof. by exists e. Qed.
Lemma longer_small log log' : longer log log' -> small init log' -> small init log.
Proof. intros [e ->]. apply small_app. Qed.

Lemma tick_log ch s p s' : tick ch s p = Ok s' -> longer (log s) (log s').
Proof.
  unfold tick. intros H. inv_bind H. destruct v as [[k1 d1] e1]. destruct (preempt ch); [|injection H as <-; apply longer_app].
  inv_bind H. destruct v as [k2 b]. destruct b; injection H as <-; apply longer_app.
Qed.

Lemma fall_asleep_log s s' : fall_asleep s = Ok s' -> log s' = log s.
Proof. unfold fall_asleep. intros H. inv_bind H. destruct v. by injection H as <-. Qed.

Lemma call_log ch again c old p s s' : call ch again c old p s = Ok s' -> longer (log s) (log s').
Proof.
  unfold call. intros H. inv_bind H. destruct v as [k1 o].
  destruct o as [|[]| |]; [|apply fall_asleep_log in H; rewrite H; cbn; try done; apply longer_app..|
    injection H as <-; apply longer_app|apply fall_asleep_log in H; rewrite H; apply longer_app].
  destruct (masks c).
  - case_bool_decide; [|injection H as <-; apply longer_app].
    apply tick_log in H. etransitivity; [|exact H]. apply longer_app.
  - destruct c as [| | | | | | | | | |[]| |]; try (injection H as <-; apply longer_app).
    case_bool_decide; [|injection H as <-; apply longer_app].
    apply tick_log in H. etransitivity; [|exact H]. apply longer_app.
Qed.

Lemma step_log ch s s' : step ch s = Ok s' -> longer (log s) (log s').
Proof.
  unfold step. intros H. destruct (idle s).
  - inv_bind H. destruct v as [[k1 d1] e1]. inv_bind H. destruct v. injection H as <-. apply longer_app.
  - inv_bind H. destruct v as [p|c old p|old p|]; [| | |done].
    + inv_bind H. destruct v as [d [[c p']|]]; apply call_log in H; exact H.
    + by apply call_log in H.
    + case_bool_decide; [by apply tick_log in H|]. by injection H as <-.
Qed.

(** Only [P] and [Acquire] test again after sleeping. *)
Lemma sleeps_again again k c k' :
  exec_prim again k c = Ok (k', Sleeps true) -> (exists n, c = P n) \/ (exists l, c = Acquire l).
Proof.
  destruct c; cbn; intros H; eauto; repeat (apply deref_bind in H as (? & ? & H)); try inv_bind H;
    try (destruct v as [? []]); simplify_eq.
Qed.

Lemma exits again k c k' : exec_prim again k c = Ok (k', Exits) -> c = Die.
Proof.
  destruct c; cbn; intros H; eauto; repeat (apply deref_bind in H as (? & ? & H)); try inv_bind H;
    try inv_bind H; repeat match goal with v : (_ * bool)%type |- _ => destruct v as [? []] end; simplify_eq.
Qed.

Lemma call_sinv ch (again : bool) c old p s cts x s' :
  sinv s cts -> idle s = false -> ctls s !! currentThread (kern s) = Some x ->
  x = (if again then Retry c old p else x) -> (again = false -> exists p', x = At p') ->
  (forall t, c = Fork t -> ~ dead s t /\ exists th, threads (kern s) !! t = Some th /\ status th = JUST_CREATED) ->
  small init (log s') -> call ch again c old p s = Ok s' -> exists cts', sinv s' cts'.
Proof.
  intros [Hk _ Hw Hs Hl Hr] Hi Hx Hxr Hxa Hf Hsm H. rewrite Hi in Hk. unfold active in Hw.
  rewrite Hi in Hw. cbn [app] in Hw. set (t := currentThread (kern s)) in *.
  assert (x <> Dead) as Hxd by (destruct again; [rewrite Hxr; done|destruct (Hxa eq_refl) as [p' ->]; done]).
  assert (pending (ctls s) t = if again then Some c else None) as Hp.
  { unfold pending. rewrite Hx. destruct again; [by rewrite Hxr|by destruct (Hxa eq_refl) as [p' ->]]. }
  pose proof H as Hcall. unfold call in H. fold t in H. set (k := if masks c then set_level IntOff (kern s) else kern s) in H.
  inv_bind H. destruct v as [k1 o].
  assert (kinv (dead s) Running k cts) as Hk1 by (unfold k; destruct (masks c); [by apply kinv_level|done]).
  assert (winv k cts (ctls s) (t :: (cts ReadyQ).*2)) as Hw1
    by (unfold k; destruct (masks c); [by apply winv_level|done]).
  assert (currentThread k = t) as Ec by (unfold k; by destruct (masks c)).
  pose proof (longer_small _ _ (call_log _ _ _ _ _ _ _ Hcall) Hsm) as Hsm0.
  assert (after_call init (dead s) k (ctls s) (log s) c k1 o) as Ha.
  { apply (exec_prim_inv init (dead s) k cts (ctls s) (log s)) with (again := again); try done.
    - by rewrite Ec.
    - unfold k. by destruct (masks c).
    - unfold k. by destruct (masks c).
    - by rewrite Ec.
    - intros ->. rewrite Hxr in Hx. by eapply Hr.
    - intros u ->. apply (Hf u eq_refl). }
  unfold after_call in Ha. rewrite Ec in Ha.
  destruct o as [|ag| |].
  - clear Hk1 Hw1. destruct Ha as (cts1 & Hk1 & Ec1 & Hw1 & Hs1 & Hl1). destruct (masks c).
    + apply (completed_sinv ch (set_kern (set_level old k1) s) cts1 t c x p s' (bool_decide (old = IntOn))); try done.
      * by apply kinv_level.
      * by apply winv_level.
    + apply (completed_sinv ch (set_kern k1 s) cts1 t c x p s'
        (match c with SetLevel IntOn => bool_decide (old = IntOff) | _ => false end)); try done.
      destruct c; try done. by destruct now.
  - clear Hk1 Hw1. destruct ag; destruct Ha as (cts1 & Hk1 & Ec1 & Hw1 & Hs1 & Hl1).
    + eapply (fall_asleep_sinv (put_ctl t (Retry c old p) (set_kern k1 s)) cts1); try done.
      * eapply kinv_lost_ext; [|exact Hk1]. intros y. by apply (dead_put s t x).
      * apply Hw1.
      * apply retries_put; [done|]. intros c' old' p' [= <- _ _]. by eapply sleeps_again.
    + eapply (fall_asleep_sinv (put_ctl t (Woken old p) (record [(Some t, c)] (set_kern k1 s))) cts1); try done.
      * eapply kinv_lost_ext; [|exact Hk1]. intros y. by apply (dead_put s t x).
      * apply Hw1.
      * apply retries_put; [done|]. by intros.
  - clear Hk1 Hw1. destruct Ha as (cts1 & Hk1 & Hne & Hw1 & Hs1 & Hl1). injection H as <-. exists cts1. split; try done.
    + cbn. rewrite Hi. eapply kinv_lost_ext; [|exact Hk1]. intros y. by apply (dead_put s t x).
    + cbn. by rewrite Hi.
    + unfold active. cbn. rewrite Hi. apply Hw1.
    + apply retries_put; [done|]. by intros.
  - destruct Ha as (-> & Hs1 & Hl1). clearbody k. set (s1 := put_ctl _ _ _) in H.
    unfold fall_asleep in H. inv_bind H. destruct v as [k2 b]. injection H as <-.
    unfold Thread_Sleep in H1. apply ASSERT_bind in H1 as [_ H1]. apply deref_bind in H1 as (th & Ht & H1).
    apply exits in H0 as ->.
    eapply (dispatch_sinv s1 _ cts); [| | | | |exact H1]; try done.
    + cbn in Ht |- *. rewrite Ec in Ht |- *.
      assert (threads k !! currentThread k = Some th) as Ht' by (by rewrite Ec).
      pose proof (kinv_stop _ _ _ th BLOCKED Hk1 Ht' (or_intror eq_refl)) as Hk2.
      apply (kinv_tbd _ _ _ _ t) in Hk2; [|by right]. rewrite Ec in Hk2.
      eapply kinv_lost_ext; [|exact Hk2]. intros y. unfold dead. cbn.
      destruct (decide (y = t)) as [->|]; [rewrite lookup_insert_eq; naive_solver|].
      rewrite lookup_insert_ne by done. naive_solver.
    + apply (winv_sub k _ cts); try done. cbn. apply winv_put_ctl.
      * apply (winv_drop _ _ _ _ _ Hw1); rewrite Hp; by destruct again.
      * rewrite <- Ec. by apply (running_alone _ _ _ Hk1).
      * intros q _. rewrite <- Ec. by apply (running_alone _ _ _ Hk1).
    + apply retries_put; [done|]. by intros.
Qed.

(** One step, then a whole run, keeps the invariant. *)
Lemma step_sinv ch s cts s' :
  sinv s cts -> forks_fresh s = true -> small init (log s') -> step ch s = Ok s' -> exists cts', sinv s' cts'.
Proof.
  intros Hi Hf Hsm H. pose proof Hi as [Hk Hid Hw Hs Hl Hr]. unfold step in H. destruct (idle s) eqn:Ei.
  - inv_bind H. destruct v as [[k1 d1] e1]. inv_bind H. destruct v as [k2 b]. injection H as <-. cbn in Hsm.
    unfold active in Hw. rewrite Ei in Hw.
    destruct (handlers_inv _ _ _ _ _ _ _ _ [] _ _ _ Hk ltac:(done) Hw Hs Hl Hsm H0) as
      (cts1 & Hk1 & Hw1 & Hs1 & Hl1 & Hkp).
    by apply (dispatch_sinv (record e1 (set_data d1 s)) k1 cts1).
  - inv_bind H. unfold deref in H0. destruct (ctls s !! currentThread (kern s)) as [c|] eqn:Ec; [|done].
    injection H0 as <-. destruct c as [p|c old p|old p|]; [| | |done].
    + inv_bind H. destruct v as [d r].
      assert (forall d', sinv (set_data d' s) cts) as Hd by (intros d'; destruct Hi; by split).
      destruct r as [[c p']|].
      * apply (call_sinv ch false c (level (kern s)) p' (set_data d s) cts (At p)); try done; [by eauto|].
        intros t ->. by apply (forks_fresh_spec s p d t p').
      * apply (call_sinv ch false Die (level (kern s)) p (set_kern (set_level IntOff (kern s)) (set_data d s)) cts (At p));
          try done; [|by eauto].
        destruct (Hd d). split; try done.
        -- cbn in *. rewrite Ei in *. by apply kinv_level.
        -- unfold active in *. cbn in *. rewrite Ei in *. by apply winv_level.
    + apply (call_sinv ch true c old p s cts (Retry c old p)); try done.
      intros t ->. destruct (Hr _ _ _ _ Ec) as [[? ?]|[? ?]]; done.
    + rewrite ?Ei in *. unfold active in Hw. rewrite Ei in Hw. cbn [app] in Hw.
      set (s1 := put_ctl _ _ _) in H.
      assert (kinv (dead s1) Running (kern s1) cts) as Hk1.
      { apply kinv_level. eapply kinv_lost_ext; [|exact Hk]. intros y. by apply (dead_put s _ (Woken old p)). }
      assert (winv (kern s1) cts (ctls s1) (currentThread (kern s1) :: (cts ReadyQ).*2)) as Hw1.
      { apply winv_level. cbn. apply winv_more. apply winv_put_ctl.
        - apply (winv_drop _ _ _ _ _ Hw); unfold pending; by rewrite Ec.
        - by apply (running_alone _ _ _ Hk).
        - intros q _. by apply (running_alone _ _ _ Hk). }
      assert (retries_ok (ctls s1)) as Hr1 by (apply retries_put; [done|by intros]).
      case_bool_decide.
      * apply (tick_sinv ch s1 p cts s'); try done. cbn. apply lookup_insert_eq.
      * injection H as <-. exists cts. split; try done.
        -- cbn. by rewrite Ei.
        -- cbn. by rewrite Ei.
        -- unfold active. cbn. rewrite Ei. by apply Hw1.
Qed.

(** A system at its start: one thread runs, the others have been created, nobody
    waits, the locks are free. *)
Record booted s : Prop := {
  b_log : log s = [];
  b_idle : idle s = false;
  b_queues : forall q x, queue_of (kern s) q = Some x -> q_rep x [];
  b_main : exists th, threads (kern s) !! currentThread (kern s) = Some th /\ status th = RUNNING;
  b_others : forall t th, threads (kern s) !! t = Some th -> t <> currentThread (kern s) ->
    status th = JUST_CREATED;
  b_ctls : forall t c, ctls s !! t = Some c -> (exists p, c = At p) \/ (exists old p, c = Woken old p);
  b_tbd : threadToBeDestroyed (kern s) = None;
  b_semaphores : forall n x, semaphores (kern s) !! n = Some x -> value x = init n /\ 0 <= init n;
  b_locks : forall l x, locks (kern s) !! l = Some x -> locked x = 0 /\ threadHeld x = None
}.

Lemma booted_sinv s : booted s -> sinv s (fun _ => []).
Proof.
  intros [Hlog Hi Hq (th & Ht & Hst) Ho Hc Htbd Hs Hl].
  assert (forall t, ~ dead s t) as Hd.
  { intros t Hd. destruct (Hc t _ Hd) as [[p ?]|(old & p & ?)]; done. }
  split.
  - rewrite Hi. split; try done.
    + intros q. by constructor.
    + intros q p t Hin. by inversion Hin.
    + intros q q' t Hin. by inversion Hin.
    + intros t th' Ht' Hr. destruct (decide (t = currentThread (kern s))) as [->|Hne]; [congruence|].
      rewrite (Ho t th' Ht' Hne) in Hr. done.
    + intros t th' Ht' Hr. destruct (decide (t = currentThread (kern s))) as [->|Hne]; [congruence|].
      rewrite (Ho t th' Ht' Hne) in Hr. done.
    + exists th. rewrite Hst. done.
    + intros t th' Ht' Hr. destruct (decide (t = currentThread (kern s))) as [->|Hne]; [done|].
      rewrite (Ho t th' Ht' Hne) in Hr. done.
    + intros t Hdt. by destruct (Hd t).
    + intros t. by rewrite Htbd.
  - done.
  - split; [intros q t Hin; by inversion Hin|intros; by left..].
  - intros n x Hx. rewrite Hlog. destruct (Hs n x Hx). cbn. lia.
  - intros l. exists None. rewrite Hlog. split; [done|]. intros x Hx. by destruct (Hl l x Hx).
  - intros t c old p Hr. destruct (Hc t _ Hr) as [[p' ?]|(old' & p' & ?)]; done.
Qed.

Lemma runs_log s0 chs s : runs s0 chs s -> longer (log s0) (log s).
Proof.
  induction 1 as [|chs s ch s' _ IH _ H]; [done|]. etransitivity; [exact IH|]. by apply step_log in H.
Qed.

Lemma runs_sinv s0 chs s :
  booted s0 -> runs s0 chs s -> small init (log s) -> exists cts, sinv s cts.
Proof.
  intros Hb H. induction H as [|chs s ch s' H IH Hf Hst]; intros Hsm.
  - eexists. by apply booted_sinv.
  - destruct IH as [cts Hi]; [by apply (longer_small _ _ (step_log _ _ _ Hst))|]. by apply (step_sinv ch s cts s').
Qed.
End Runs.

(** Running the function of the same name reaches the states of [runs]. *)
Lemma run_runs s0 chs chs' (s s' : Sys Q pc D) :
  runs s0 chs s -> run chs' s = Ok s' -> runs s0 (chs ++ chs') s'.
Proof.
  revert chs s. induction chs' as [|ch chs' IH]; intros chs s Hr H; cbn in H.
  - injection H as <-. by rewrite app_nil_r.
  - apply ASSERT_bind in H as [Hf H]. inv_bind H. rewrite cons_middle, app_assoc.
    apply (IH _ v); [|done]. by apply (runs_step _ _ s).
Qed.

Lemma run_reaches chs (s s' : Sys Q pc D) : run chs s = Ok s' -> runs s chs s'.
Proof. apply (run_runs s []). constructor. Qed.

(** A run of the executable semantics that does not fail is a run. *)
Lemma run_ends chs (s0 : Sys Q pc D) :
  match run chs s0 with Ok _ => true | Err _ => false end = true ->
  runs s0 chs (match run chs s0 with Ok s => s | Err _ => s0 end).
Proof. intros H. apply run_reaches. by destruct (run chs s0). Qed.
End SystemInvariant.

(** ** What every run keeps *)

Section Results.
Context {Q : Type -> Type} `{!Queue Q, !QueueLaws Q} {pc D : Type} `{!Client pc D}.

(** C9: at every moment of every run, whatever the threads do and whatever
    interrupts come, every thread is where its status says.  The running thread is
    the current one and is on no queue; a READY thread is on the ready list; a
    BLOCKED thread is on the queue of exactly one semaphore, lock or condition
    variable; a thread that has finished is on no queue; no thread is on two queues, or twice on one;
    the machine idles only when no thread is ready; and every queue is in order of
    priority. *)
Theorem thread_placement (init : positive -> Z) (s0 s : Sys Q pc D) (chs : list choice) :
  booted init s0 -> runs s0 chs s -> small init (log s) ->
  exists cts : queues,
    (forall q x, queue_of (kern s) q = Some x -> q_rep x (cts q)) /\
    (forall t th, threads (kern s) !! t = Some th ->
       match status th with
       | JUST_CREATED => forall q, t ∉ (cts q).*2
       | RUNNING => t = currentThread (kern s) /\ idle s = false /\ forall q, t ∉ (cts q).*2
       | READY => ctls s !! t = Some Dead \/ t ∈ (cts ReadyQ).*2 /\ idle s = false
       | BLOCKED => ctls s !! t = Some Dead \/ exists q, q <> ReadyQ /\ t ∈ (cts q).*2
       end) /\
    (forall t, ctls s !! t = Some Dead -> forall q, t ∉ (cts q).*2) /\
    (forall q q' t, t ∈ (cts q).*2 -> t ∈ (cts q').*2 -> q = q') /\
    (forall q, NoDup (cts q).*2) /\
    (forall q, Sorted key_le (cts q)) /\
    (forall q p t, (p, t) ∈ cts q -> exists th, threads (kern s) !! t = Some th /\ p = key_of th).
Proof.
  intros Hb Hr Hsm. destruct (runs_sinv init s0 chs s Hb Hr Hsm) as [cts [Hk Hid _ _ _ _]].
  exists cts. split; [apply Hk|]. split; [|split; [|split; [apply Hk|split; [apply Hk|split; [apply Hk|]]]]].
  - intros t th Ht.
    assert (forall q, t ∈ (cts q).*2 -> status th = match q with ReadyQ => READY | _ => BLOCKED end) as Hhome.
    { intros q Hin. destruct (k_home' _ _ _ _ _ _ Hk Hin) as (th' & Ht' & Hs). simplify_eq.
      assert ((if idle s then Away else Running) <> Enqueued) by by destruct (idle s).
      destruct q; cbn in Hs; naive_solver. }
    destruct (status th) eqn:Hst.
    + intros q Hin. specialize (Hhome _ Hin); by destruct q.
    + assert (t = currentThread (kern s)) as Hc by by apply (k_running _ _ _ _ Hk t th).
      split; [done|]. split; [|intros q Hin; specialize (Hhome _ Hin); by destruct q].
      destruct (idle s); [|done]. destruct (k_current _ _ _ _ Hk) as (th' & Ht' & Hrun & _).
      rewrite <- Hc in Ht'. simplify_eq. by destruct (proj1 Hrun Hst).
    + destruct (k_ready _ _ _ _ Hk t th Ht Hst) as [Hl|Hin].
      * by left.
      * right. split; [done|]. destruct (idle s); [|done]. rewrite Hid in Hin by done. by apply elem_of_nil in Hin.
    + destruct (k_blocked _ _ _ _ Hk t th Ht Hst) as [Hl|]; [by left|by right].
  - intros t Hd. by apply (lost_not_queued _ _ _ _ _ Hk).
  - intros q p t Hin. destruct (k_home _ _ _ _ Hk q p t Hin) as (th & ? & _ & ?). eauto.
Qed.

(** C4: no wakeup is lost.  When the machine has nothing left to run, every
    semaphore somebody waits for has no unit, every lock somebody waits for is
    held, by a thread that is not running, and no thread waits that could go on. *)
Theorem no_lost_wakeup (init : positive -> Z) (s0 s : Sys Q pc D) (chs : list choice) :
  booted init s0 -> runs s0 chs s -> small init (log s) -> stuck s ->
  (forall n x, semaphores (kern s) !! n = Some x -> q_is_empty (sem_queue x) = false -> value x = 0) /\
  (forall l x, locks (kern s) !! l = Some x -> q_is_empty (lock_queue x) = false ->
     locked x = 1 /\ exists t, threadHeld x = Some t) /\
  (forall t th, threads (kern s) !! t = Some th -> status th <> RUNNING).
Proof.
  intros Hb Hr Hsm Hst. destruct (runs_sinv init s0 chs s Hb Hr Hsm) as [cts [Hk Hid Hw Hs Hl _]].
  unfold stuck in Hst. unfold active in Hw. rewrite Hst, Hid in Hw by done.
  assert (forall q x, queue_of (kern s) q = Some x -> q_is_empty x = false -> cts q <> []) as Hne.
  { intros q x Hx He Hc. rewrite (q_is_empty_rep _ x (cts q)) in He by by apply (k_rep _ _ _ _ Hk).
    by rewrite Hc in He. }
  split; [|split].
  - intros n x Hx He. destruct (w_sem _ _ _ _ Hw n x Hx) as [Hc|Hle].
    + destruct (Hne (SemQ n) (sem_queue x)); [cbn; by rewrite Hx|done..].
    + cbn in Hle. destruct (Hs n x Hx). lia.
  - intros l x Hx He. destruct (Hl l) as (h & _ & Hh). destruct (Hh x Hx) as [Hh1 Hh2].
    destruct (w_lock _ _ _ _ Hw l x Hx) as [Hc|[H1|Hle]].
    + destruct (Hne (LockQ l) (lock_queue x)); [cbn; by rewrite Hx|done..].
    + split; [done|]. rewrite H1 in Hh2. destruct h as [t|]; [by exists t|done].
    + cbn in Hle. lia.
  - intros t th Ht Hrun. rewrite Hst in Hk. pose proof (k_running _ _ _ _ Hk t th Ht Hrun) as ->.
    destruct (k_current _ _ _ _ Hk) as (th' & Ht' & Hc & _). simplify_eq. by destruct (proj1 Hc Hrun).
Qed.

(** C25: mutual exclusion and conservation.  In the order in which the calls of a
    run take effect, every lock is acquired only while it is free, and released or
    waited with only by the thread that acquired it last, which is the one the
    lock names; and the value of every semaphore is its first value, plus one for
    each V, by a thread or an interrupt handler, minus one for each P that came
    through; it is never negative. *)
Theorem synchronization_log (init : positive -> Z) (s0 s : Sys Q pc D) (chs : list choice) :
  booted init s0 -> runs s0 chs s -> small init (log s) ->
  (forall l, exists h, lock_trace l None (log s) = Some h /\
     forall x, locks (kern s) !! l = Some x -> threadHeld x = h /\ (locked x = 1 <-> is_Some h)) /\
  (forall n x, semaphores (kern s) !! n = Some x ->
     value x = init n + tally n (log s) /\ 0 <= value x).
Proof.
  intros Hb Hr Hsm. destruct (runs_sinv init s0 chs s Hb Hr Hsm) as [cts [_ _ _ Hs Hl _]].
  split; [|exact Hs]. intros l. destruct (Hl l) as (h & Ht & Hh). exists h. split; [done|].
  intros x Hx. destruct (Hh x Hx) as [-> ->]. split; [done|]. by destruct h.
Qed.
End Results.

(** ** Starting a system *)

Section Boot.
Context {Q : Type -> Type} `{!Queue Q, !QueueLaws Q} {pc D : Type}.

(** The lock and the condition variable a thread's constructor allocates. *)
Definition own (t : positive) : positive := (t + 100)%positive.

(** A running thread, threads with their priorities that have been created, and
    the semaphores, locks and condition variables they use. *)
Definition boot (main : positive) (mainpc : pc) (others : list (positive * Z * pc)) (sems : list (positive * Z))
    (lks conds : list positive) (d : D) : Sys Q pc D :=
  let created := main :: ((fun x => x.1.1) <$> others) in
  let m := Machine_new false (fun _ => mkTE 0 0 false false false false) in
  let ths := <[main := mkThread RUNNING 0 (registers m) None (own main) (own main) true]>
    (list_to_map ((fun x => (x.1.1, mkThread JUST_CREATED x.1.2 (registers m) None (own x.1.1) (own x.1.1) false))
       <$> others)) in
  mkSys
    (mkNachos m ∅ ths q_new main None IntOn
       (list_to_map ((fun x => (x.1, Semaphore_new x.2)) <$> sems))
       (list_to_map ((fun l => (l, Lock_new)) <$> lks ++ (own <$> created)))
       (list_to_map ((fun c => (c, Condition_new)) <$> conds ++ (own <$> created))))
    d
    (<[main := At mainpc]> (list_to_map ((fun x => (x.1.1, Woken IntOn x.2)) <$> others)))
    false [].

(** First values of the semaphores. *)
Definition first_value (sems : list (positive * Z)) (n : positive) : Z :=
  default 0 ((list_to_map sems : gmap positive Z) !! n).

Lemma lookup_map_list {A B} (f : A -> positive * B) (l : list A) n y :
  (list_to_map (f <$> l) : gmap positive B) !! n = Some y -> exists x, x ∈ l /\ f x = (n, y).
Proof. intros H%elem_of_list_to_map_2. apply list_elem_of_fmap in H as (x & ? & ?). eauto. Qed.

Lemma boot_sites main mainpc others sems lks conds (d : D) t x :
  ctls (boot main mainpc others sems lks conds d) !! t = Some x ->
  x = At mainpc \/ exists y, y ∈ others /\ x = Woken IntOn y.2.
Proof.
  intros Hx. cbn in Hx. apply lookup_insert_Some in Hx as [[_ <-]|[_ Hx]]; [by left|right].
  apply lookup_map_list in Hx as (y & Hy & [= _ <-]). by exists y.
Qed.

Lemma boot_booted main mainpc others sems lks conds (d : D) :
  Forall (fun x => 0 <= x.2) sems -> NoDup sems.*1 ->
  booted (first_value sems) (boot main mainpc others sems lks conds d).
Proof.
  intros Hs Hnd. split; try done; cbn.
  - intros q x. destruct q as [|n|l|c]; cbn.
    + intros [= <-]. apply q_new_rep.
    + destruct (_ !! n) as [y|] eqn:E; [|done]. intros [= <-].
      apply lookup_map_list in E as (z & _ & [= _ <-]). apply q_new_rep.
    + destruct (_ !! l) as [y|] eqn:E; [|done]. intros [= <-].
      apply lookup_map_list in E as (z & _ & [= _ <-]). apply q_new_rep.
    + destruct (_ !! c) as [y|] eqn:E; [|done]. intros [= <-].
      apply lookup_map_list in E as (z & _ & [= _ <-]). apply q_new_rep.
  - eexists. by rewrite lookup_insert_eq.
  - intros t th. cbn. intros Ht Hne. rewrite lookup_insert_ne in Ht by done.
    by apply lookup_map_list in Ht as (z & _ & [= _ <-]).
  - intros t c. destruct (decide (t = main)) as [->|Hne].
    + rewrite lookup_insert_eq. intros [= <-]. eauto.
    + rewrite lookup_insert_ne by done. intros H. apply lookup_map_list in H as (z & _ & [= _ <-]). eauto.
  - intros n x H. apply lookup_map_list in H as ([n' v] & Hin & [= -> <-]). cbn.
    unfold first_value. rewrite (elem_of_list_to_map_1 _ n v) by done. cbn. split; [done|].
    rewrite Forall_forall in Hs. by apply (Hs (n, v)).
  - intros l x H. by apply lookup_map_list in H as (z & _ & [= _ <-]).
Qed.
End Boot.

Lemma small_first_value sems (log : list event) :
  Forall (fun x => 0 <= x.2 /\ x.2 + zlen log < 2 ^ 31 - 1) sems -> zlen log < 2 ^ 31 - 1 ->
  small (first_value sems) log.
Proof.
  intros Hs Hl n. unfold first_value.
  destruct ((list_to_map sems : gmap positive Z) !! n) as [v|] eqn:E; cbn; [|lia].
  apply elem_of_list_to_map_2 in E. rewrite Forall_forall in Hs. by apply (Hs (n, v)).
Qed.

(** A thread whose code is a sequence of calls; any device may interrupt. *)
#[export] Instance script : Client (list prim) unit := {
  view t p d := match p with [] => Ok (d, None) | c :: p => Ok (d, Some (c, p)) end;
  on_irq n d := Some d
}.

Definition quiet : choice := mkChoice [] false.

(** Two threads want a unit of semaphore 1, which a third gives once. *)
Definition demo_boot : Sys NList.List (list prim) unit :=
  boot 1%positive [Fork 2; Fork 3; V 1] [(2%positive, 0, [P 1; Acquire 1; Release 1]); (3%positive, 5, [P 1; Acquire 1])]
    [(1%positive, 0)] [1%positive] [] tt.
Definition demo_choices : list choice := replicate 24 quiet.
Definition demo_stuck : Sys NList.List (list prim) unit :=
  match run demo_choices demo_boot with Ok s => s | Err _ => demo_boot end.

Lemma demo_runs : runs demo_boot demo_choices demo_stuck.
Proof. apply run_reaches. vm_compute. reflexivity. Qed.

Lemma demo_booted : booted (first_value [(1%positive, 0)]) demo_boot.
Proof. apply boot_booted; [by repeat constructor|apply NoDup_singleton]. Qed.

Lemma demo_small : small (first_value [(1%positive, 0)]) (log demo_stuck).
Proof.
  assert (zlen (log demo_stuck) < 100) as Hlog by (vm_compute; done).
  apply small_first_value; [repeat constructor; cbn; lia|lia].
Qed.

(** In that run thread 3, the more urgent, took the unit of the semaphore and the
    lock, and ended with the lock held; thread 2 waits for a unit. *)
Lemma thread_placement_witness :
  booted (first_value [(1%positive, 0)]) demo_boot /\ runs demo_boot demo_choices demo_stuck /\
  (exists th, threads (kern demo_stuck) !! 2%positive = Some th /\ status th = BLOCKED) /\
  exists cts : queues, forall t th, threads (kern demo_stuck) !! t = Some th -> status th = BLOCKED ->
    ctls demo_stuck !! t = Some Dead \/ exists q, q <> ReadyQ /\ t ∈ (cts q).*2.
Proof.
  split; [apply demo_booted|]. split; [apply demo_runs|].
  split; [vm_compute; eexists; split; reflexivity|].
  destruct (thread_placement _ demo_boot demo_stuck demo_choices demo_booted demo_runs demo_small)
    as (cts & _ & H & _).
  exists cts. intros t th Ht Hs. specialize (H t th Ht). by rewrite Hs in H.
Defined.

Lemma no_lost_wakeup_witness :
  stuck demo_stuck /\
  (forall n x, semaphores (kern demo_stuck) !! n = Some x -> q_is_empty (sem_queue x) = false -> value x = 0).
Proof.
  assert (stuck demo_stuck) as Hst by (vm_compute; reflexivity).
  split; [exact Hst|].
  apply (no_lost_wakeup _ demo_boot demo_stuck demo_choices demo_booted demo_runs demo_small Hst).
Defined.

Lemma synchronization_log_witness :
  (exists x, locks (kern demo_stuck) !! 1%positive = Some x /\ is_Some (threadHeld x)) /\
  exists h, lock_trace 1%positive None (log demo_stuck) = Some h.
Proof.
  split; [vm_compute; eexists; split; [reflexivity|eexists; reflexivity]|].
  destruct (proj1 (synchronization_log _ demo_boot demo_stuck demo_choices demo_booted demo_runs demo_small)
    1%positive) as (h & Hh & _).
  exists h. exact Hh.
Defined.
