(* ===== verification/Steps.v ===== *)
(** Runs of the system as steps of its threads.

    A run is seen through what the threads do to their data and in which order their
    calls take effect: [astep] has one rule for a thread that runs up to its next
    call, one for a call that takes effect, one for an interrupt. *)
From Stdlib Require Import ZArith Lia Bool.
From stdpp Require Import base numbers list gmap fin_maps relations.
From S2P Require Import Prelude Lists Machine Threads Synch System.

Section Abstraction.
Context {Q : Type -> Type} `{!Queue Q, !QueueLaws Q} {pc D : Type} `{!Client pc D}.
Context (init : positive -> Z).
Implicit Types (k : Nachos Q) (s : Sys Q pc D).

(** What is left of a state: where the threads are, the data and the calls that
    have taken effect.  [Retry c old p]: in the call [c], to go on at [p]. *)
Record view_state := mkView {
  sites : gmap positive (ctl pc);
  vdata : D;
  vlog : list event
}.

Definition abs (s : Sys Q pc D) : view_state := mkView (ctls s) (data s) (log s).

(** When a call can take effect. *)
Definition enabled (t : positive) (c : prim) (l : list event) : Prop :=
  match c with
  | P n => 0 < init n + tally n l
  | Acquire k => lock_trace k None l = Some None
  | Release k | Wait _ k | Signal _ k | Broadcast _ k | AssertHeld k => lock_trace k None l = Some (Some t)
  | _ => True
  end.

Inductive astep (a : view_state) : view_state -> Prop :=
| as_view t p d c p' old :
    sites a !! t = Some (At p) -> view t p (vdata a) = Ok (d, Some (c, p')) ->
    astep a (mkView (<[t := Retry c old p']> (sites a)) d (vlog a))
| as_end t p d old :
    sites a !! t = Some (At p) -> view t p (vdata a) = Ok (d, None) ->
    astep a (mkView (<[t := Retry Die old p]> (sites a)) d (vlog a))
| as_done t c old p x :
    sites a !! t = Some (Retry c old p) -> x = At p \/ x = Woken old p -> c <> Die ->
    enabled t c (vlog a) ->
    astep a (mkView (<[t := x]> (sites a)) (vdata a) (vlog a ++ [(Some t, c)]))
| as_die t old p :
    sites a !! t = Some (Retry Die old p) ->
    astep a (mkView (<[t := Dead]> (sites a)) (vdata a) (vlog a ++ [(Some t, Die)]))
| as_irq n d :
    on_irq n (vdata a) = Some d ->
    astep a (mkView (sites a) d (vlog a ++ [(None, V n)]))
| as_move t old p x :
    sites a !! t = Some (At p) \/ sites a !! t = Some (Woken old p) -> x = At p \/ x = Woken old p ->
    astep a (mkView (<[t := x]> (sites a)) (vdata a) (vlog a)).

Lemma lock_held_by k l n x log :
  lockok k log -> locks k !! n = Some x -> Some (currentThread k) = threadHeld x ->
  l = n -> lock_trace l None log = Some (Some (currentThread k)).
Proof. intros H Hx Hh ->. destruct (H n) as (h & -> & Hl). destruct (Hl x Hx) as [<- _]. by rewrite Hh. Qed.

Lemma assert_held_trace k l u log :
  lockok k log -> assert_held k l = Ok u -> lock_trace l None log = Some (Some (currentThread k)).
Proof.
  intros H Ha. unfold assert_held in Ha. apply deref_bind in Ha as (x & Hx & Ha).
  apply ASSERT_Ok, bool_decide_eq_true in Ha. by eapply lock_held_by.
Qed.

(** A call that takes effect was enabled. *)
Lemma exec_enabled again k c k' o log :
  semok init k log -> lockok k log -> exec_prim again k c = Ok (k', o) -> o <> Sleeps true ->
  enabled (currentThread k) c log.
Proof.
  intros Hs Hl H Ho. destruct c; cbn in H |- *; try done.
  - inv_bind H. destruct v as [k1 [|]]; injection H as <- <-; [|done].
    unfold Semaphore_P in H0. apply deref_bind in H0 as (x & Hx & H0).
    destruct (Z.eqb_spec (value x) 0); [by inv_bind H0|]. destruct (Hs _ _ Hx). lia.
  - inv_bind H. inv_bind H. destruct v0 as [k1 [|]]; injection H as <- <-; [|done].
    unfold Lock_Acquire in H1. apply deref_bind in H1 as (x & Hx & H1).
    destruct (Z.eqb_spec (locked x) 1); [by inv_bind H1|].
    destruct (Hl l) as (h & -> & Hh). destruct (Hh x Hx) as [_ Hk]. by destruct h.
  - inv_bind H. unfold Lock_Release in H0. apply deref_bind in H0 as (x & Hx & H0).
    apply ASSERT_bind in H0 as [_ H0]. apply ASSERT_bind in H0 as [Hh _].
    apply bool_decide_eq_true in Hh. by eapply lock_held_by.
  - inv_bind H. unfold Condition_Wait in H0. inv_bind H0. by eapply assert_held_trace.
  - inv_bind H. unfold Condition_Signal in H0. inv_bind H0. by eapply assert_held_trace.
  - inv_bind H. unfold Condition_Broadcast in H0. inv_bind H0. by eapply assert_held_trace.
  - inv_bind H. by eapply assert_held_trace.
Qed.

(** Interrupts. *)
Lemma handlers_asteps irq k d k' d' e cs l :
  handlers (Q := Q) k d irq = Ok (k', d', e) -> rtc astep (mkView cs d l) (mkView cs d' (l ++ e)).
Proof.
  revert k d e l. induction irq as [|n irq IH]; intros k d e l H; cbn in H.
  - injection H as <- <- <-. by rewrite app_nil_r.
  - destruct (on_irq n d) as [d1|] eqn:E; [|by eapply IH]. inv_bind H. inv_bind H.
    destruct v0 as [[k2 d2] e2]. injection H as <- <- <-.
    eapply rtc_l; [by apply (as_irq _ n d1)|]. cbn. rewrite (cons_middle _ l e2), app_assoc.
    by apply (IH v d1 e2).
Qed.

Lemma ReadyToRun_current k t k' : ReadyToRun k t = Ok k' -> currentThread k' = currentThread k.
Proof.
  unfold ReadyToRun. intros H. apply deref_bind in H as (th & _ & H). inv_bind H. by injection H as <-.
Qed.

Lemma wake_current k r k' : wake k r = Ok k' -> currentThread k' = currentThread k.
Proof. destruct r as [[? t]|]; cbn; intros H; [by apply ReadyToRun_current in H|by injection H as <-]. Qed.

Lemma V_current k n k' : Semaphore_V k n = Ok k' -> currentThread k' = currentThread k.
Proof.
  unfold Semaphore_V. intros H. apply deref_bind in H as (x & _ & H). inv_bind H. destruct v as [q r].
  inv_bind H. apply deref_bind in H as (y & _ & H). injection H as <-. cbn. by apply wake_current in H1.
Qed.

Lemma broadcast_current fuel k c k' : broadcast_loop fuel k c = Ok k' -> currentThread k' = currentThread k.
Proof.
  revert k. induction fuel as [|fuel IH]; intros k H; [done|]. cbn in H.
  apply deref_bind in H as (y & _ & H). destruct (q_is_empty _); [by injection H as <-|].
  inv_bind H. destruct v as [q r]. inv_bind H. rewrite (IH _ H). by apply wake_current in H1.
Qed.

Lemma exec_current again k c k' :
  exec_prim again k c = Ok (k', Completed) -> currentThread k' = currentThread k.
Proof.
  destruct c; cbn; intros H.
  - inv_bind H. destruct v as [k1 [|]]; [injection H as <-|done]. unfold Semaphore_P in H0.
    apply deref_bind in H0 as (x & _ & H0). destruct (value x =? 0); [by inv_bind H0|by injection H0 as <-].
  - inv_bind H. injection H as <-. by apply V_current in H0.
  - inv_bind H. inv_bind H. destruct v0 as [k1 [|]]; [injection H as <-|done]. unfold Lock_Acquire in H1.
    apply deref_bind in H1 as (x & _ & H1). destruct (locked x =? 1); [by inv_bind H1|by injection H1 as <-].
  - inv_bind H. injection H as <-. unfold Lock_Release in H0. apply deref_bind in H0 as (x & _ & H0).
    inv_bind H0. inv_bind H0. inv_bind H0. destruct v2 as [q r]. inv_bind H0.
    apply deref_bind in H0 as (y & _ & H0). injection H0 as <-. by apply wake_current in H4.
  - by inv_bind H.
  - inv_bind H. injection H as <-. unfold Condition_Signal in H0. inv_bind H0.
    apply deref_bind in H0 as (y & _ & H0). inv_bind H0. destruct v1 as [q r]. by apply wake_current in H0.
  - inv_bind H. injection H as <-. unfold Condition_Broadcast in H0. inv_bind H0. by apply broadcast_current in H0.
  - inv_bind H. by injection H as <-.
  - inv_bind H. injection H as <-. by apply ReadyToRun_current in H0.
  - apply deref_bind in H as (th & _ & H). by injection H as <-.
  - by injection H as <-.
  - inv_bind H. destruct v as [k1 [|]]; [done|injection H as <-]. unfold Thread_Yield in H0.
    inv_bind H0. destruct v as [k2 [n|]]; [inv_bind H0; by inv_bind H0|]. injection H0 as <-.
    unfold FindNextToRun in H1. inv_bind H1. destruct v as [q r]. by injection H1 as <- _.
  - done.
Qed.

Lemma handlers_current irq k d k' d' e :
  handlers (Q := Q) k d irq = Ok (k', d', e) -> currentThread k' = currentThread k.
Proof.
  revert k d d' e. induction irq as [|n irq IH]; intros k d d' e H; cbn in H.
  - by injection H as <- _ _.
  - destruct (on_irq n d) as [d1|]; [|by eapply IH]. inv_bind H. inv_bind H.
    destruct v0 as [[k2 d2] e2]. injection H as <- _ _. rewrite (IH _ _ _ _ H1). by eapply V_current.
Qed.

Lemma tick_asteps ch s p s' :
  ctls s !! currentThread (kern s) = Some (At p) -> tick ch s p = Ok s' -> rtc astep (abs s) (abs s').
Proof.
  intros Hc H. unfold tick in H. inv_bind H. destruct v as [[k1 d1] e1].
  pose proof (handlers_asteps _ _ _ _ _ _ (ctls s) (log s) H0) as Hr.
  pose proof (handlers_current _ _ _ _ _ _ H0) as Hcur. cbn in Hcur.
  destruct (preempt ch); [|by injection H as <-].
  inv_bind H. destruct v as [k2 [|]]; injection H as <-; [|done].
  etransitivity; [exact Hr|]. apply rtc_once. cbn. rewrite Hcur. eapply as_move; cbn; eauto.
Qed.

Lemma fall_asleep_abs s s' : fall_asleep s = Ok s' -> abs s' = abs s.
Proof. unfold fall_asleep. intros H. inv_bind H. destruct v. by injection H as <-. Qed.

(** A call, from the moment the thread is in it. *)
Lemma call_asteps ch again c old p s s' (t := currentThread (kern s)) :
  semok init (kern s) (log s) -> lockok (kern s) (log s) -> call ch again c old p s = Ok s' ->
  rtc astep (mkView (<[t := Retry c old p]> (ctls s)) (data s) (log s)) (abs s').
Proof.
  intros Hs Hl H. unfold call in H. fold t in H. set (k := if masks c then _ else kern s) in H.
  inv_bind H. destruct v as [k1 o]. set (a := mkView _ _ _).
  assert (sites a !! t = Some (Retry c old p)) as Ha by apply lookup_insert_eq.
  assert (o <> Sleeps true -> enabled t c (vlog a)) as Hen.
  { intros Ho. replace t with (currentThread k) by (unfold k; by destruct (masks c)).
    apply (exec_enabled again k c k1 o); [by unfold k; destruct (masks c)..|done|done]. }
  assert (forall x, x = At p \/ x = Woken old p -> o <> Sleeps true -> c <> Die ->
    astep a (mkView (<[t := x]> (ctls s)) (data s) (log s ++ [(Some t, c)]))) as Hdone.
  { intros x Hx Ho Hd. pose proof (as_done a t c old p x Ha Hx Hd (Hen Ho)) as Hst.
    cbn in Hst. by rewrite insert_insert_eq in Hst. }
  assert (o <> Exits -> c <> Die) as Hnd.
  { intros Ho ->. cbn in H0. by injection H0 as _ <-. }
  destruct o as [|[|]| |].
  - eapply rtc_l; [apply (Hdone (At p)); auto|].
    assert (currentThread k1 = t) as Ec.
    { apply exec_current in H0. rewrite H0. unfold k. by destruct (masks c). }
    destruct (masks c).
    + case_bool_decide; [|by injection H as <-].
      apply tick_asteps in H; [done|]. cbn. rewrite Ec. apply lookup_insert_eq.
    + destruct c as [| | | | | | | | | |[]| |]; try (by injection H as <-).
      case_bool_decide; [|by injection H as <-].
      apply tick_asteps in H; [done|]. cbn. rewrite Ec. apply lookup_insert_eq.
  - apply fall_asleep_abs in H. by rewrite H.
  - apply fall_asleep_abs in H. rewrite H. apply rtc_once. apply (Hdone (Woken old p)); auto.
  - injection H as <-. apply rtc_once. apply (Hdone (Woken old p)); auto.
  - apply fall_asleep_abs in H. rewrite H. apply rtc_once.
    apply exits in H0 as ->. pose proof (as_die a t old p Ha) as Hst. cbn in Hst.
    by rewrite insert_insert_eq in Hst.
Qed.

Lemma step_asteps ch s s' :
  semok init (kern s) (log s) -> lockok (kern s) (log s) -> step ch s = Ok s' -> rtc astep (abs s) (abs s').
Proof.
  intros Hs Hl H. unfold step in H. destruct (idle s).
  - inv_bind H. destruct v as [[k1 d1] e1]. inv_bind H. destruct v as [k2 b]. injection H as <-.
    by apply (handlers_asteps _ _ _ _ _ _ (ctls s) (log s) H0).
  - apply deref_bind in H as (c & Hc & H). destruct c as [p|c old p|old p|]; [| | |done].
    + inv_bind H. destruct v as [d [[c p']|]].
      * eapply rtc_l; [by apply (as_view (abs s) _ _ _ _ _ (level (kern s)) Hc H0)|].
        by apply (call_asteps ch false c _ p' (set_data d s) s').
      * eapply rtc_l; [by apply (as_end (abs s) _ _ _ (level (kern s)) Hc H0)|].
        by apply (call_asteps ch false Die _ p (set_kern (set_level IntOff (kern s)) (set_data d s)) s').
    + replace (abs s) with (mkView (<[currentThread (kern s) := Retry c old p]> (ctls s)) (data s) (log s)).
      * by apply (call_asteps ch true c old p s s').
      * unfold abs. by rewrite insert_id.
    + eapply rtc_l; [apply (as_move (abs s) (currentThread (kern s)) old p (At p)); auto|].
      case_bool_decide; [|by injection H as <-].
      apply tick_asteps in H; [done|]. cbn. apply lookup_insert_eq.
Qed.

End Abstraction.
Arguments view_state : clear implicits.
