(* ===== verification/Conditions.v ===== *)
(** Who waits for a condition variable, and what it means that nothing runs.

    Conditions have no memory: whether a thread is waiting depends on the order of
    the Waits, Signals and Broadcasts alone.  Here the queue of every condition
    variable is tied to the log of the calls, so that clients can reason about it
    with [waiters]; and the states in which the machine has nothing left to run are
    described by what every thread waits for there. *)
From Stdlib Require Import ZArith Lia Bool.
From stdpp Require Import base numbers list gmap fin_maps fin_sets relations.
From S2P Require Import Prelude Lists Machine Threads Synch System Steps.

(** ** Counting in the log *)

(** How many threads a condition variable has waiting, after one more call. *)
Definition wait_event (c : positive) (n : nat) (e : event) : nat :=
  match e with
  | (Some _, Wait c' _) => if decide (c' = c) then S n else n
  | (Some _, Signal c' _) => if decide (c' = c) then Nat.pred n else n
  | (Some _, Broadcast c' _) => if decide (c' = c) then 0%nat else n
  | _ => n
  end.
Definition waiters (c : positive) (log : list event) : nat := foldl (wait_event c) 0%nat log.

(** The last call of a thread that has taken effect. *)
Definition call_event (t : positive) (r : option prim) (e : event) : option prim :=
  match e with
  | (Some u, c) => if decide (u = t) then Some c else r
  | _ => r
  end.
Definition last_call (t : positive) (log : list event) : option prim := foldl (call_event t) None log.

Lemma waiters_snoc c log e : waiters c (log ++ [e]) = wait_event c (waiters c log) e.
Proof. apply foldl_snoc. Qed.
Lemma last_call_snoc t log e : last_call t (log ++ [e]) = call_event t (last_call t log) e.
Proof. apply foldl_snoc. Qed.
Lemma last_call_same t log c : last_call t (log ++ [(Some t, c)]) = Some c.
Proof. rewrite last_call_snoc. cbn. by rewrite decide_True. Qed.
Lemma last_call_other t u log c : u <> t -> last_call t (log ++ [(Some u, c)]) = last_call t log.
Proof. intros. rewrite last_call_snoc. cbn. by rewrite decide_False. Qed.

(** The threads whose last call is a Wait for [c]: those that wait, and those that have
    been woken but have not got the lock again. *)
Definition parked_event (c : positive) (s : gset positive) (e : event) : gset positive :=
  match e with
  | (Some t, Wait c' _) => if decide (c' = c) then {[t]} ∪ s else s ∖ {[t]}
  | (Some t, _) => s ∖ {[t]}
  | _ => s
  end.
Definition parked (c : positive) (log : list event) : gset positive := foldl (parked_event c) ∅ log.

Lemma parked_snoc c log e : parked c (log ++ [e]) = parked_event c (parked c log) e.
Proof. apply foldl_snoc. Qed.

Lemma elem_of_parked c log t : t ∈ parked c log <-> exists lk, last_call t log = Some (Wait c lk).
Proof.
  induction log as [|[o p] log IH] using rev_ind; [cbn; set_solver|]. rewrite parked_snoc, last_call_snoc.
  destruct o as [u|]; [|done]. cbn. destruct (decide (u = t)) as [->|Hne].
  - destruct p; cbn; try set_solver. case_decide as E; [subst|]; set_solver.
  - rewrite <- IH. destruct p; cbn; try set_solver. case_decide; set_solver.
Qed.

(** The threads that may still wait: a signal when there is one waiter leaves none, and
    so does a broadcast. *)
Definition sleep_event (c : positive) (x : nat * gset positive) (e : event) : nat * gset positive :=
  (wait_event c x.1 e,
   match e with
   | (Some t, Wait c' _) => if decide (c' = c) then {[t]} ∪ x.2 else x.2 ∖ {[t]}
   | (Some t, Signal c' _) => if decide (c' = c /\ (x.1 <= 1)%nat) then ∅ else x.2 ∖ {[t]}
   | (Some t, Broadcast c' _) => if decide (c' = c) then ∅ else x.2 ∖ {[t]}
   | (Some t, _) => x.2 ∖ {[t]}
   | _ => x.2
   end).
Definition sleepers (c : positive) (log : list event) : gset positive := (foldl (sleep_event c) (0%nat, ∅) log).2.

Lemma sleepers_snoc c log e : sleepers c (log ++ [e]) = (sleep_event c (waiters c log, sleepers c log) e).2.
Proof.
  assert (forall log, (foldl (sleep_event c) (0%nat, ∅) log).1 = waiters c log) as Hw.
  { clear. intros log. induction log as [|e log IH] using rev_ind; [done|]. by rewrite foldl_snoc, waiters_snoc, <- IH. }
  unfold sleepers. rewrite foldl_snoc. cbn. by rewrite Hw.
Qed.

Lemma sleepers_parked c log : sleepers c log ⊆ parked c log.
Proof.
  induction log as [|[[t|] p] log IH] using rev_ind; [done| |]; rewrite sleepers_snoc, parked_snoc; cbn; [|done].
  destruct p; cbn; repeat case_decide; set_solver.
Qed.

(** A thread that sleeps stays asleep when another makes a call that wakes nobody. *)
Lemma sleepers_other c log t u x : u <> t ->
  match x with Signal c' _ | Broadcast c' _ => c' <> c | _ => True end ->
  t ∈ sleepers c log -> t ∈ sleepers c (log ++ [(Some u, x)]).
Proof. intros Hne Hx Ht. rewrite sleepers_snoc. destruct x; cbn; repeat case_decide; try set_solver; naive_solver. Qed.

(** In the logs of runs, those that wait are among the sleepers. *)
Definition counted (log : list event) : Prop :=
  forall pre, pre `prefix_of` log -> forall c, (waiters c pre <= size (sleepers c pre))%nat.

Lemma counted_parked log c : counted log -> (waiters c log <= size (parked c log))%nat.
Proof. intros H. etransitivity; [by apply H|]. apply subseteq_size, sleepers_parked. Qed.

Lemma counted_nil : counted [].
Proof. intros pre ->%prefix_nil_inv c. cbn. lia. Qed.

Lemma counted_prefix log log' : log `prefix_of` log' -> counted log' -> counted log.
Proof. intros Hp H pre Hpre. apply H. by etransitivity. Qed.

Lemma counted_snoc log e :
  counted log -> (forall c, (waiters c (log ++ [e]) <= size (sleepers c (log ++ [e])))%nat) -> counted (log ++ [e]).
Proof.
  intros H He pre [rest E]. destruct rest as [|x rest _] using rev_ind.
  - rewrite app_nil_r in E. by subst pre.
  - rewrite app_assoc in E. apply app_inj_tail in E as [-> _]. apply H. by eexists.
Qed.

Section Conditions.
Context {Q : Type -> Type} `{!Queue Q, !QueueLaws Q}.
Context {pc : Type} (there : positive -> Prop).
Implicit Types (k : Nachos Q) (log : list event) (cs : gmap positive (ctl pc)).

(** A queue stands for one list only. *)
Lemma q_rep_inj {A} (q : Q A) l l' : q_rep q l -> q_rep q l' -> l = l'.
Proof.
  revert q l'. induction l as [|x l IH]; intros q l' H H'.
  - destruct (q_sorted_remove_rep _ _ _ H) as (q1 & E1 & _).
    destruct (q_sorted_remove_rep _ _ _ H') as (q2 & E2 & _). rewrite E1 in E2.
    destruct l'; [done|]. discriminate E2.
  - destruct (q_sorted_remove_rep _ _ _ H) as (q1 & E1 & H1).
    destruct (q_sorted_remove_rep _ _ _ H') as (q2 & E2 & H2). rewrite E1 in E2.
    destruct l' as [|x' l']; [discriminate E2|]. injection E2 as <- <-. f_equal. by apply (IH q1).
Qed.

(** The queue of every condition variable holds the threads that wait, who are asleep;
    and a thread that has not been forked has made no call. *)
Definition condok k log : Prop :=
  forall c, match conditions k !! c with
    | Some y => exists l, q_rep (waitQ y) l /\ NoDup l.*2 /\ length l = waiters c log /\
        forall t, t ∈ l.*2 -> t ∈ sleepers c log
    | None => waiters c log = 0%nat
    end.

Lemma condok_elim k log c y : condok k log -> conditions k !! c = Some y ->
  exists l, q_rep (waitQ y) l /\ NoDup l.*2 /\ length l = waiters c log /\
    forall t, t ∈ l.*2 -> t ∈ sleepers c log.
Proof. intros H Hy. specialize (H c). by rewrite Hy in H. Qed.

Lemma condok_counted k log c : condok k log -> (waiters c log <= size (sleepers c log))%nat.
Proof.
  intros H. specialize (H c). destruct (conditions k !! c) as [y|]; [|lia].
  destruct H as (l & _ & Hnd & <- & Ht). rewrite <- (length_fmap snd), <- (size_list_to_set (C := gset positive) _ Hnd).
  apply subseteq_size. intros t. rewrite elem_of_list_to_set. apply Ht.
Qed.

Definition unforked k log : Prop :=
  forall t th, threads k !! t = Some th -> status th = JUST_CREATED -> last_call t log = None.

(** A thread is there until it has finished, and tries no call again before it is
    forked; [there] are the threads of the code that exist at first. *)
Definition tries_again (x : ctl pc) : Prop := match x with Retry _ _ _ => True | _ => False end.
Definition alive k cs : Prop :=
  forall t x, there t -> cs !! t = Some x -> x <> Dead -> threadToBeDestroyed k <> Some t /\
    exists th, threads k !! t = Some th /\ (status th = JUST_CREATED -> ~ tries_again x).

(** No thread becomes new, and none goes but the one to be destroyed. *)
Record steady k k' : Prop := {
  sd_created : forall t th', threads k' !! t = Some th' -> status th' = JUST_CREATED ->
    exists th, threads k !! t = Some th /\ status th = JUST_CREATED;
  sd_there : forall t, is_Some (threads k !! t) -> threadToBeDestroyed k <> Some t -> is_Some (threads k' !! t);
  sd_tbd : threadToBeDestroyed k' = threadToBeDestroyed k \/ threadToBeDestroyed k' = None
}.

(** What only moves threads about: no condition variable gains or loses one. *)
Record quiet k k' : Prop := {
  qt_conditions : forall c, conditions k' !! c = conditions k !! c \/
    conditions k' !! c = None /\ exists y, conditions k !! c = Some y /\ q_is_empty (waitQ y) = true;
  qt_steady : steady k k'
}.

#[export] Instance steady_preorder : PreOrder steady.
Proof.
  split; [split; eauto|]. intros k1 k2 k3 [A1 B1 C1] [A2 B2 C2]. split.
  - intros t th Ht Hs. destruct (A2 _ _ Ht Hs) as (th2 & ? & ?). by eapply A1.
  - intros t Ht Hn. apply B2; [by apply B1|]. destruct C1 as [-> | ->]; done.
  - destruct C2 as [-> | ->]; auto.
Qed.

#[export] Instance quiet_preorder : PreOrder quiet.
Proof.
  split; [split; [auto|reflexivity]|]. intros k1 k2 k3 [A1 B1] [A2 B2]. split; [|by transitivity k2].
  intros c. destruct (A1 c) as [E|(E & y & Hy & He)], (A2 c) as [E2|(E2 & y2 & Hy2 & He2)]; [left|right|right|]; try congruence.
  - split; [done|]. exists y2. split; congruence.
  - split; [congruence|]. by exists y.
Qed.

Lemma quiet_condition k k' c y : quiet k k' -> conditions k' !! c = Some y -> conditions k !! c = Some y.
Proof. intros [H _] Hy. destruct (H c) as [E|[E _]]; congruence.
Qed.

Lemma quiet_put k t th th' :
  threads k !! t = Some th -> (status th' = JUST_CREATED -> status th = JUST_CREATED) -> quiet k (put_thread t th' k).
Proof.
  intros Ht Hs. split; [auto|]. split; cbn; [| |by left].
  - intros u thu. destruct (decide (u = t)) as [->|].
    + rewrite lookup_insert_eq. intros [= <-]. eauto.
    + rewrite lookup_insert_ne by done. eauto.
  - intros u Hu _. destruct (decide (u = t)) as [->|]; [by rewrite lookup_insert_eq|by rewrite lookup_insert_ne].
Qed.

Lemma quiet_same k k' :
  threads k' = threads k -> conditions k' = conditions k -> threadToBeDestroyed k' = threadToBeDestroyed k -> quiet k k'.
Proof. intros E1 E2 E3. split; [|split]; rewrite ?E1, ?E2, ?E3; eauto. Qed.

Lemma ReadyToRun_quiet k t k' : ReadyToRun k t = Ok k' -> quiet k k' /\ conditions k' = conditions k.
Proof.
  unfold ReadyToRun. intros H. apply deref_bind in H as (th & Ht & H). inv_bind H. injection H as <-.
  split; [|done]. etransitivity; [by apply (quiet_put k t th (setStatus READY th))|by apply quiet_same].
Qed.

Lemma FindNextToRun_quiet k k' n : FindNextToRun k = Ok (k', n) -> quiet k k'.
Proof. unfold FindNextToRun. intros H. inv_bind H. destruct v. injection H as <- _. by apply quiet_same. Qed.

Lemma destroy_quiet k t k' :
  threadToBeDestroyed k = Some t -> Thread_delete k t = Ok k' -> quiet k (set_threadToBeDestroyed None k').
Proof.
  intros Ht (th & x & y & _ & _ & _ & _ & _ & Hy & Ey & ->)%Thread_delete_ok. split; [|split]; cbn; [| | |by right].
  - intros c. destruct (decide (cv th = c)) as [<-|]; [|left; by rewrite lookup_delete_ne].
    right. rewrite lookup_delete_eq. eauto.
  - intros u thu [_ ?]%lookup_delete_Some. eauto.
  - intros u Hu Hne. rewrite lookup_delete_ne by congruence. done.
Qed.

Lemma after_switch_quiet k k' : after_switch k = Ok k' -> quiet k k'.
Proof.
  unfold after_switch. intros H. inv_bind H.
  assert (quiet k v) as Hv.
  { destruct (threadToBeDestroyed k) as [t|] eqn:Et; [|injection H0 as <-; reflexivity].
    inv_bind H0. injection H0 as <-. by eapply destroy_quiet. }
  apply deref_bind in H as (cur & _ & H). destruct (space cur); [|by injection H as <-].
  inv_bind H. apply RestoreUserState_ok in H1 as [m ->]. apply deref_bind in H as (sp & _ & H). injection H as <-.
  etransitivity; [exact Hv|by apply quiet_same].
Qed.

Lemma Scheduler_Run_quiet k n k' : Scheduler_Run k n = Ok k' -> quiet k k'.
Proof.
  unfold Scheduler_Run. intros H. apply deref_bind in H as (old & _ & H). inv_bind H.
  assert (quiet k v) as Hv.
  { destruct (space old); [|injection H0 as <-; reflexivity].
    apply SaveUserState_ok in H0 as (th & r & Ht & ->). by eapply quiet_put. }
  apply deref_bind in H as (th & Hth & H). cbn in Hth. etransitivity; [exact Hv|].
  transitivity (set_currentThread n v); [by apply quiet_same|].
  destruct (started th).
  - apply after_switch_quiet in H. etransitivity; [|exact H]. by apply (quiet_put _ n th (setStatus RUNNING th)).
  - injection H as <-. by apply (quiet_put _ n th).
Qed.

Lemma dispatch_quiet k k' b : dispatch k = Ok (k', b) -> quiet k k'.
Proof.
  unfold dispatch. intros H. inv_bind H. destruct v as [k1 [n|]].
  - inv_bind H. injection H as <- _. etransitivity; [by eapply FindNextToRun_quiet|by eapply Scheduler_Run_quiet].
  - injection H as <- _. by eapply FindNextToRun_quiet.
Qed.

Lemma Thread_Sleep_quiet k k' b : Thread_Sleep k = Ok (k', b) -> quiet k k'.
Proof.
  unfold Thread_Sleep. intros H. apply ASSERT_bind in H as [_ H]. apply deref_bind in H as (th & Ht & H).
  etransitivity; [by apply (quiet_put k (currentThread k) th (setStatus BLOCKED th))|by eapply dispatch_quiet].
Qed.

Lemma Thread_Yield_quiet k k' b : Thread_Yield k = Ok (k', b) -> quiet k k'.
Proof.
  unfold Thread_Yield. intros H. inv_bind H. destruct v as [k1 [n|]].
  - inv_bind H. inv_bind H. injection H as <- _. etransitivity; [by eapply FindNextToRun_quiet|].
    etransitivity; [by apply ReadyToRun_quiet in H1 as [? _]|by eapply Scheduler_Run_quiet].
  - injection H as <- _. by eapply FindNextToRun_quiet.
Qed.

Lemma wake_quiet k r k' : wake k r = Ok k' -> quiet k k' /\ conditions k' = conditions k.
Proof. destruct r as [[? t]|]; cbn; intros H; [by apply ReadyToRun_quiet in H|by injection H as <-]. Qed.

Lemma Semaphore_V_quiet k n k' : Semaphore_V k n = Ok k' -> quiet k k'.
Proof.
  unfold Semaphore_V. intros H. apply deref_bind in H as (x & _ & H). inv_bind H. destruct v as [q r].
  inv_bind H. apply deref_bind in H as (y & _ & H). injection H as <-. apply wake_quiet in H1 as [Hq _].
  transitivity (put_semaphore n (mkSemaphore (value x) q) k); [by apply quiet_same|].
  etransitivity; [exact Hq|by apply quiet_same].
Qed.

Lemma Lock_Release_quiet k l k' : Lock_Release k l = Ok k' -> quiet k k' /\ conditions k' = conditions k.
Proof.
  unfold Lock_Release. intros H. apply deref_bind in H as (x & _ & H). apply ASSERT_bind in H as [_ H].
  apply ASSERT_bind in H as [_ H]. inv_bind H. destruct v as [q r]. inv_bind H.
  apply deref_bind in H as (y & _ & H). injection H as <-. apply wake_quiet in H1 as [Hq Ec]. split; [|exact Ec].
  transitivity (put_lock l (mkLock (locked x) (threadHeld x) q) k); [by apply quiet_same|].
  etransitivity; [exact Hq|by apply quiet_same].
Qed.

(** ** Calls *)

Lemma condok_quiet k k' log : quiet k k' -> condok k log -> condok k' log.
Proof.
  intros [Hc _] H c. specialize (H c). destruct (Hc c) as [-> | (-> & y & Hy & He)]; [done|]. rewrite Hy in H.
  destruct H as (l & Hl & _ & <- & _). rewrite (q_is_empty_rep _ _ _ Hl) in He. apply bool_decide_eq_true in He. by subst.
Qed.

Lemma unforked_quiet k k' log : quiet k k' -> unforked k log -> unforked k' log.
Proof. intros [_ Hf] H t th' Ht Hs. destruct (sd_created _ _ Hf _ _ Ht Hs) as (th & ? & ?). by apply (H t th). Qed.

Lemma alive_steady k k' cs : steady k k' -> alive k cs -> alive k' cs.
Proof.
  intros [H1 H2 H3] H t x Hin Ht Hx. destruct (H t x Hin Ht Hx) as (Hn & th & Hth & Hs).
  split; [by destruct H3 as [-> | ->]|]. destruct (H2 t ltac:(eauto) Hn) as [th' Hth']. exists th'. split; [done|].
  intros Hj. destruct (H1 _ _ Hth' Hj) as (th2 & ? & ?). apply Hs. congruence.
Qed.

Lemma alive_put k cs t x :
  alive k cs -> (exists y, cs !! t = Some y /\ y <> Dead) ->
  (forall th, threads k !! t = Some th -> status th = JUST_CREATED -> ~ tries_again x) -> alive k (<[t := x]> cs).
Proof.
  intros H (y & Hy & Hyd) Hx u z. destruct (decide (u = t)) as [->|].
  - rewrite lookup_insert_eq. intros Hin [= <-] _. destruct (H t y Hin Hy Hyd) as (Hn & th & Hth & _). eauto.
  - rewrite lookup_insert_ne by done. apply H.
Qed.

Definition tie k cs log : Prop := condok k log /\ counted log /\ unforked k log /\ alive k cs.

Lemma tie_quiet k k' cs log : quiet k k' -> tie k cs log -> tie k' cs log.
Proof.
  intros Hq (? & ? & ? & ?).
  split_and!; [by eapply condok_quiet|done|by eapply unforked_quiet|by eapply alive_steady; [apply Hq|]].
Qed.

Lemma steady_condition k c y : steady k (put_condition c y k).
Proof. split; cbn; eauto. Qed.

(** A thread on no queue of a condition makes a call. *)
Definition unqueued k (t : positive) : Prop :=
  forall c y l, conditions k !! c = Some y -> q_rep (waitQ y) l -> t ∉ l.*2.

(** A call that changes no count wakes nobody. *)
Lemma silent t c d : (forall d n, wait_event d n (Some t, c) = n) ->
  match c with Signal c' _ | Broadcast c' _ => c' <> d | _ => True end.
Proof. intros He. destruct c as [| | | | |c' l|c' l| | | | | |]; try done; specialize (He c' 1%nat); cbn in He; by rewrite decide_True in He. Qed.

Lemma condok_call k log t c :
  condok k log -> unqueued k t -> (forall d n, wait_event d n (Some t, c) = n) ->
  condok k (log ++ [(Some t, c)]).
Proof.
  intros H Hno He d. specialize (H d). rewrite waiters_snoc, He. destruct (conditions k !! d) as [y|] eqn:Hy; [|done].
  destruct H as (l & Hl & Hnd & Hn & Ht). exists l. split_and!; [done..|]. intros u Hu.
  apply sleepers_other; [intros ->; by apply (Hno d y l Hy Hl)| |by apply Ht]. by apply (silent t).
Qed.

Lemma unqueued_quiet k k' t : quiet k k' -> unqueued k t -> unqueued k' t.
Proof. intros Hq H c y l Hy. apply (H c y l). by eapply quiet_condition. Qed.

(** Signalling takes the first thread off the queue, if there is one. *)
Lemma pop_condok k c lk y y' r k' log t :
  condok k log -> unqueued k t -> conditions k !! c = Some y ->
  q_sorted_remove (waitQ y) = Ok (y', r) -> wake (put_condition c (mkCondition y') k) r = Ok k' ->
  condok k' (log ++ [(Some t, Signal c lk)]).
Proof.
  intros Hc Hno Hy Hpop Hw. apply wake_quiet in Hw as [_ Ec]. intros d. rewrite Ec, waiters_snoc, sleepers_snoc. cbn.
  destruct (decide (c = d)) as [<-|Hne].
  - rewrite lookup_insert_eq. cbn. destruct (condok_elim _ _ _ _ Hc Hy) as (l & Hl & Hnd & Hn & Ht).
    destruct (q_sorted_remove_rep _ _ _ Hl) as (q & E & Hq). rewrite E in Hpop. injection Hpop as <- _.
    exists (tail l). split; [done|]. split; [destruct l; [done|by apply NoDup_cons in Hnd as [_ ?]]|].
    split; [rewrite <- Hn; by destruct l|]. intros u Hu.
    assert (u ∈ l.*2) as Hul by (destruct l; [done|by right]).
    rewrite decide_False.
    + assert (u <> t) by (intros ->; by apply (Hno c y l)). specialize (Ht u Hul). set_solver.
    + intros [_ Hle]. destruct l as [|? [|? l]]; cbn in Hu, Hn; [| |lia]; by apply elem_of_nil in Hu.
  - rewrite lookup_insert_ne by done. specialize (Hc d). destruct (conditions k !! d) as [z|] eqn:Hz; [|done].
    destruct Hc as (l & Hl & Hnd & Hn & Ht). exists l. split_and!; [done..|]. intros u Hu.
    rewrite decide_False by naive_solver. assert (u <> t) by (intros ->; by apply (Hno d z l)).
    specialize (Ht u Hu). set_solver.
Qed.

(** Interrupt handlers are no calls of threads. *)
Lemma irq_events log e :
  Forall (fun x : event => x.1 = None) e ->
  (forall c, waiters c (log ++ e) = waiters c log) /\ (forall t, last_call t (log ++ e) = last_call t log) /\
  (forall c, sleepers c (log ++ e) = sleepers c log) /\ (counted log -> counted (log ++ e)).
Proof.
  revert log. induction e as [|[o c] e IH]; intros log He; [by rewrite app_nil_r|].
  inversion He as [|? ? Ho He']; subst. cbn in Ho. subst o. rewrite cons_middle, app_assoc.
  destruct (IH (log ++ [(None, c)]) He') as (E1 & E2 & E3 & E4).
  split_and!; intros; [rewrite E1, waiters_snoc|rewrite E2, last_call_snoc|rewrite E3, sleepers_snoc|apply E4, counted_snoc]; try done.
  intros d. rewrite waiters_snoc, sleepers_snoc. by apply H.
Qed.

Section Exec.
Context (lost : positive -> Prop) (k : Nachos Q) (cts : queues) (cs : gmap positive (ctl pc)) (log : list event).
Hypotheses (Hk : kinv lost Running k cts) (Hc : condok k log) (Hn : counted log) (Hu : unforked k log) (Ha : alive k cs).

Lemma condition_queue c y : conditions k !! c = Some y -> q_rep (waitQ y) (cts (CondQ c)).
Proof. intros Hy. apply (k_rep _ _ _ _ Hk). cbn. by rewrite Hy. Qed.

Lemma current_unqueued : unqueued k (currentThread k).
Proof.
  intros c y l Hy Hl. rewrite (q_rep_inj _ _ _ Hl (condition_queue c y Hy)). by apply (running_alone _ _ _ Hk).
Qed.

Lemma current_forked k' c : steady k k' -> unforked k' (log ++ [(Some (currentThread k), c)]).
Proof.
  intros Hq t th' Ht Hs. destruct (sd_created _ _ Hq _ _ Ht Hs) as (th & Ht' & Hs').
  destruct (k_current _ _ _ _ Hk) as (thc & Hcur & _ & Hj).
  rewrite last_call_other; [by apply (Hu t th)|]. intros <-. congruence.
Qed.

(** Waiting puts the thread on the queue. *)
Lemma Wait_condok c l k' : Condition_Wait k c l = Ok k' ->
  condok k' (log ++ [(Some (currentThread k), Wait c l)]) /\ steady k k'.
Proof.
  unfold Condition_Wait. intros H. inv_bind H. inv_bind H. apply deref_bind in H as (y & Hy & H).
  apply Lock_Release_inv with (cts := cts) (lost := lost) in H1 as Hrel; [|done].
  destruct Hrel as (_ & _ & _ & _ & _ & _ & _ & _ & Hkp & _). apply Lock_Release_quiet in H1 as [Hq Ec].
  inv_bind H. injection H as <-. unfold insert_current in H1. apply deref_bind in H1 as (th & Hth & H1).
  rewrite (kp_current _ _ Hkp) in H1. split; [|etransitivity; [apply Hq|apply steady_condition]].
  intros d. cbn. rewrite Ec, waiters_snoc. cbn. destruct (decide (d = c)) as [->|Hne].
  - rewrite lookup_insert_eq. cbn. rewrite decide_True by done. rewrite Ec in Hy.
    destruct (condok_elim _ _ _ _ Hc Hy) as (l' & Hl & Hnd & Hlen & Ht).
    destruct (q_sorted_insert_rep _ _ _ (currentThread k) (s32 (getPriority th * -1)) Hl) as (q & E & Hq').
    rewrite E in H1. injection H1 as <-. eexists. split; [exact Hq'|].
    split; [by apply insert_sorted_nodup; [|apply (current_unqueued c y l')]|]. split.
    + rewrite (Permutation_length (insert_sorted_perm _ _ _)). cbn. by rewrite Hlen.
    + intros t Hin. rewrite sleepers_snoc. cbn. rewrite decide_True by done.
      apply insert_sorted_snd in Hin as [->|Hin]; [set_solver|]. specialize (Ht t Hin). set_solver.
  - rewrite lookup_insert_ne by done. rewrite decide_False by done. specialize (Hc d).
    destruct (conditions k !! d) as [y'|] eqn:Hy'; [|done]. destruct Hc as (l' & Hl & Hnd & Hlen & Ht).
    exists l'. split_and!; [done..|]. intros t Hin.
    apply sleepers_other; [intros <-; by apply (current_unqueued d y' l')|done|by apply Ht].
Qed.

Lemma Signal_condok c l k' : Condition_Signal k c l = Ok k' ->
  condok k' (log ++ [(Some (currentThread k), Signal c l)]) /\ steady k k'.
Proof.
  unfold Condition_Signal. intros H. inv_bind H. apply deref_bind in H as (y & Hy & H). inv_bind H.
  destruct v0 as [y' r]. split.
  - by apply (pop_condok k c l y y' r k' log _ Hc current_unqueued Hy H1).
  - apply wake_quiet in H as [Hq _]. etransitivity; [apply steady_condition|apply Hq].
Qed.

(** The loop of Broadcast empties one queue. *)
Lemma broadcast_queue fuel k0 c k' : broadcast_loop fuel k0 c = Ok k' ->
  (forall y, conditions k0 !! c = Some y -> exists l, q_rep (waitQ y) l) ->
  steady k0 k' /\ (exists y, conditions k' !! c = Some y /\ q_rep (waitQ y) []) /\
  forall d, d <> c -> conditions k' !! d = conditions k0 !! d.
Proof.
  revert k0. induction fuel as [|fuel IH]; intros k0 H Hq; [done|]. cbn in H.
  apply deref_bind in H as (y & Hy & H). destruct (Hq y Hy) as [l Hl]. rewrite (q_is_empty_rep _ _ l Hl) in H.
  case_bool_decide as El; [subst l|].
  - injection H as <-. split; [reflexivity|]. by split; [exists y|].
  - inv_bind H. destruct v as [y' r]. inv_bind H.
    destruct (q_sorted_remove_rep _ _ _ Hl) as (q & E & Hq'). rewrite E in H0. injection H0 as <- _.
    apply wake_quiet in H1 as [Hq0 Ec]. destruct (IH v H) as (Hn' & Hc' & Hd).
    { intros z. rewrite Ec. cbn. rewrite lookup_insert_eq. intros [= <-]. by exists (tail l). }
    split_and!; [|exact Hc'|].
    + etransitivity; [apply steady_condition|]. etransitivity; [exact (qt_steady _ _ Hq0)|exact Hn'].
    + intros d Hne. rewrite (Hd d Hne), Ec. cbn. by rewrite lookup_insert_ne.
Qed.

Lemma Broadcast_condok c l k' : Condition_Broadcast k c l = Ok k' ->
  condok k' (log ++ [(Some (currentThread k), Broadcast c l)]) /\ steady k k'.
Proof.
  unfold Condition_Broadcast. intros H. inv_bind H.
  destruct (broadcast_queue _ _ _ _ H) as (Hsd & (y & Hy & Hl) & Hd).
  { intros y Hy. destruct (condok_elim _ _ _ _ Hc Hy) as (l' & Hl' & _). by exists l'. }
  split; [|done]. intros d. rewrite waiters_snoc. cbn. destruct (decide (c = d)) as [->|Hne].
  - rewrite Hy. exists []. split; [done|]. split; [apply NoDup_nil_2|]. split; [done|]. intros t Ht. by apply elem_of_nil in Ht.
  - rewrite Hd by done. specialize (Hc d). destruct (conditions k !! d) as [z|] eqn:Hz; [|done].
    destruct Hc as (l' & Hl' & Hnd & Hlen & Ht). exists l'. split_and!; [done..|].
    intros t Hin. apply sleepers_other; [intros <-; by apply (current_unqueued d z l')|done|by apply Ht].
Qed.

(** Any call. *)
Lemma tie_call k' c : quiet k k' -> (forall d n, wait_event d n (Some (currentThread k), c) = n) ->
  tie k' cs (log ++ [(Some (currentThread k), c)]).
Proof.
  intros Hq He. assert (condok k' (log ++ [(Some (currentThread k), c)])).
  { apply (condok_quiet k); [done|]. apply condok_call; [done|apply current_unqueued|done]. }
  split_and!; [done| |by apply current_forked, Hq|by eapply alive_steady; [apply Hq|]].
  apply counted_snoc; [done|]. intros d. by eapply condok_counted.
Qed.

Lemma tie_condition k' c :
  condok k' (log ++ [(Some (currentThread k), c)]) -> steady k k' -> tie k' cs (log ++ [(Some (currentThread k), c)]).
Proof.
  intros Hc' Hs. split_and!; [done| |by apply current_forked|by eapply alive_steady].
  apply counted_snoc; [done|]. intros d. by eapply condok_counted.
Qed.

Lemma exec_tie again c k' o : exec_prim again k c = Ok (k', o) ->
  tie k' (match o with Exits => <[currentThread k := Dead]> cs | _ => cs end)
    (match o with Sleeps true => log | _ => log ++ [(Some (currentThread k), c)] end).
Proof.
  intros H. destruct c; cbn in H.
  - inv_bind H. destruct v as [k1 b]. assert (quiet k k1) as Hq.
    { unfold Semaphore_P in H0. apply deref_bind in H0 as (x & _ & H0). destruct (value x =? 0).
      - inv_bind H0. injection H0 as <- _. by apply quiet_same.
      - injection H0 as <- _. by apply quiet_same. }
    destruct b; injection H as <- <-; [by apply tie_call|].
    by apply (tie_quiet k).
  - inv_bind H. injection H as <- <-. apply tie_call; [by eapply Semaphore_V_quiet|done].
  - inv_bind H. inv_bind H. destruct v0 as [k1 b]. assert (quiet k k1) as Hq.
    { unfold Lock_Acquire in H1. apply deref_bind in H1 as (x & _ & H1). destruct (locked x =? 1).
      - inv_bind H1. injection H1 as <- _. by apply quiet_same.
      - injection H1 as <- _. by apply quiet_same. }
    destruct b; injection H as <- <-; [by apply tie_call|].
    by apply (tie_quiet k).
  - inv_bind H. injection H as <- <-.
    apply tie_call; [by eapply Lock_Release_quiet|done].
  - inv_bind H. injection H as <- <-.
    destruct (Wait_condok _ _ _ H0). by apply tie_condition.
  - inv_bind H. injection H as <- <-.
    destruct (Signal_condok _ _ _ H0). by apply tie_condition.
  - inv_bind H. injection H as <- <-.
    destruct (Broadcast_condok _ _ _ H0). by apply tie_condition.
  - inv_bind H. injection H as <- <-. by apply tie_call.
  - inv_bind H. injection H as <- <-.
    apply tie_call; [by eapply ReadyToRun_quiet|done].
  - apply deref_bind in H as (th & Ht & H). injection H as <- <-.
    apply tie_call; [by eapply quiet_put|done].
  - injection H as <- <-. apply tie_call; [by apply quiet_same|done].
  - inv_bind H. destruct v as [k1 b]. apply Thread_Yield_quiet in H0.
    destruct b; injection H as <- <-; by apply tie_call.
  - injection H as <- <-. destruct (tie_call k Die ltac:(reflexivity) ltac:(done)) as (H1 & H2 & H3 & H4).
    split_and!; [done..|]. intros t x. cbn. destruct (decide (t = currentThread k)) as [->|Hne].
    + rewrite lookup_insert_eq. by intros _ [= <-].
    + rewrite lookup_insert_ne by done. intros Hin Hx Hxd. destruct (Ha t x Hin Hx Hxd). split; [congruence|done].
Qed.
End Exec.
End Conditions.

(** ** Runs *)

Section Runs.
Context {Q : Type -> Type} `{!Queue Q, !QueueLaws Q} {pc D : Type} `{!Client pc D}.
Context (init : positive -> Z) (there : positive -> Prop).
Implicit Types (k : Nachos Q) (s : Sys Q pc D).

Definition tied s : Prop := tie there (kern s) (ctls s) (log s).

Lemma handlers_tie irq k d k' d' e (cs : gmap positive (ctl pc)) log :
  handlers (Q := Q) k d irq = Ok (k', d', e) -> tie there k cs log -> tie there k' cs (log ++ e).
Proof.
  intros H Ht. assert (quiet k k' /\ Forall (fun x : event => x.1 = None) e) as [Hq He].
  { clear Ht. revert k d k' d' e H. induction irq as [|n irq IH]; intros k d k' d' e H; cbn in H.
    - injection H as <- _ <-. split; [reflexivity|by apply Forall_nil].
    - destruct (on_irq n d) as [d1|]; [|by eapply IH]. inv_bind H. inv_bind H. destruct v0 as [[k2 d2] e2].
      injection H as <- _ <-. destruct (IH _ _ _ _ _ H1) as [Hq He]. split; [|by apply Forall_cons].
      etransitivity; [by eapply Semaphore_V_quiet|done]. }
  apply (tie_quiet there k k' cs log Hq) in Ht as (H1 & H2 & H3 & H4). destruct (irq_events log e He) as (E1 & E2 & E3 & E4).
  split_and!; [|by apply E4| |done].
  - intros c. specialize (H1 c). rewrite E1. destruct (conditions k' !! c) as [y|]; [|done].
    destruct H1 as (l & Hl & Hnd & Hn & Hlast). exists l. split_and!; [done..|]. intros t. rewrite E3. apply Hlast.
  - intros t th Hth Hs. rewrite E2. by apply (H3 t th).
Qed.

Lemma tie_put k (cs : gmap positive (ctl pc)) log t x :
  (exists y, cs !! t = Some y /\ y <> Dead) ->
  (forall th, threads k !! t = Some th -> status th = JUST_CREATED -> ~ tries_again x) ->
  tie there k cs log -> tie there k (<[t := x]> cs) log.
Proof. intros Hy Hx (? & ? & ? & ?). split_and!; [done..|by apply alive_put]. Qed.

Lemma tie_level k (cs : gmap positive (ctl pc)) log n : tie there k cs log -> tie there (set_level n k) cs log.
Proof. apply tie_quiet. by apply quiet_same. Qed.

Lemma tick_tie ch s p s' :
  ctls s !! currentThread (kern s) = Some (At p) -> tick ch s p = Ok s' -> tied s -> tied s'.
Proof.
  unfold tick. intros Hcur H Ht. inv_bind H. destruct v as [[k1 d1] e1].
  pose proof (handlers_current _ _ _ _ _ _ H0) as Ec. cbn in Ec.
  apply (handlers_tie _ _ _ _ _ _ (ctls s) (log s)) in H0; [|by apply tie_level].
  destruct (preempt ch); [|injection H as <-; by apply tie_level].
  inv_bind H. destruct v as [k2 b]. apply Thread_Yield_quiet in H1. apply (tie_quiet there k1 k2) in H0; [|done].
  destruct b; injection H as <-; [|by apply tie_level]. apply tie_put; [rewrite Ec; by eauto|by intros ??? []|done].
Qed.

Lemma fall_asleep_tie s s' : fall_asleep s = Ok s' -> tied s -> tied s'.
Proof.
  unfold fall_asleep. intros H Ht. inv_bind H. destruct v as [k1 b]. injection H as <-.
  by apply (tie_quiet there (kern s)); [eapply Thread_Sleep_quiet|].
Qed.

Lemma sleeps_steady again k c k' : exec_prim again k c = Ok (k', Sleeps true) -> steady k k'.
Proof.
  intros H. destruct (sleeps_again _ _ _ _ H) as [[n ->]|[l ->]]; cbn in H.
  - inv_bind H. destruct v as [k1 [|]]; [done|]. injection H as <-. unfold Semaphore_P in H0.
    apply deref_bind in H0 as (x & _ & H0). destruct (value x =? 0); [|done]. inv_bind H0. injection H0 as <-.
    by apply quiet_same.
  - inv_bind H. inv_bind H. destruct v0 as [k1 [|]]; [done|]. injection H as <-. unfold Lock_Acquire in H1.
    apply deref_bind in H1 as (x & _ & H1). destruct (locked x =? 1); [|done]. inv_bind H1. injection H1 as <-.
    by apply quiet_same.
Qed.

Lemma call_tie ch again c old p s cts s' :
  kinv (dead s) Running (kern s) cts -> (exists y, ctls s !! currentThread (kern s) = Some y /\ y <> Dead) ->
  call ch again c old p s = Ok s' -> tied s -> tied s'.
Proof.
  intros Hk Hy H Ht. unfold call in H. set (t := currentThread (kern s)) in *.
  set (k := if masks c then _ else kern s) in H. inv_bind H. destruct v as [k1 o].
  assert (tie there k (ctls s) (log s)) as (Hc & Hn & Hu & Ha) by (unfold k; destruct (masks c); [by apply tie_level|done]).
  assert (kinv (dead s) Running k cts) as Hk' by (unfold k; destruct (masks c); [by apply kinv_level|done]).
  pose proof (exec_tie there (dead s) k cts (ctls s) (log s) Hk' Hc Hn Hu Ha again c k1 o H0) as He.
  assert (currentThread k = t) as Ec by (unfold k; by destruct (masks c)). rewrite Ec in He.
  destruct o as [|[|]| |].
  - assert (currentThread k1 = t) as Ec1 by (by rewrite (exec_current _ _ _ _ H0)).
    assert (forall q, tie there k1 (<[t := At q]> (ctls s)) (log s ++ [(Some t, c)])) as Hq
      by (intros; apply tie_put; [done|by intros ??? []|done]).
    destruct (masks c).
    + case_bool_decide; [|injection H as <-; apply tie_level, Hq].
      apply (tick_tie _ _ _ _) in H; [done| |apply tie_level, Hq]. cbn. rewrite Ec1. apply lookup_insert_eq.
    + destruct c as [| | | | | | | | | |[]| |]; try (injection H as <-; apply Hq).
      case_bool_decide; [|injection H as <-; apply Hq].
      apply (tick_tie _ _ _ _) in H; [done| |apply Hq]. cbn. rewrite Ec1. apply lookup_insert_eq.
  - apply (fall_asleep_tie _ _ H). apply tie_put; [done| |done]. intros th Hth Hj. cbn in Hth.
    destruct (sleeps_steady _ _ _ _ H0) as [Hsd _ _]. destruct (Hsd _ _ Hth Hj) as (th' & Hth' & Hj').
    destruct (k_current _ _ _ _ Hk') as (thc & Hcur & _ & Hnj). congruence.
  - apply (fall_asleep_tie _ _ H). apply tie_put; [done|by intros ??? []|done].
  - injection H as <-. apply tie_put; [done|by intros ??? []|done].
  - by apply (fall_asleep_tie _ _ H).
Qed.

Lemma step_tie ch s cts s' : sinv init s cts -> step ch s = Ok s' -> tied s -> tied s'.
Proof.
  intros [Hk _ _ _ _ _] H Ht. unfold step in H. destruct (idle s).
  - inv_bind H. destruct v as [[k1 d1] e1]. inv_bind H. destruct v as [k2 b]. injection H as <-.
    apply (tie_quiet there k1); [by eapply dispatch_quiet|]. by eapply handlers_tie.
  - apply deref_bind in H as (c & Hc & H).
    assert (c <> Dead -> exists y, ctls s !! currentThread (kern s) = Some y /\ y <> Dead) as Hy by eauto.
    destruct c as [p|c old p|old p|]; [| | |done].
    + inv_bind H. destruct v as [d [[c p']|]].
      * by apply (call_tie _ _ _ _ _ (set_data d s) cts _ Hk (Hy ltac:(done)) H).
      * eapply (call_tie _ _ _ _ _ (set_kern (set_level IntOff (kern s)) (set_data d s)) cts); [|exact (Hy ltac:(done))|exact H|].
        -- by apply kinv_level.
        -- by apply tie_level.
    + by apply (call_tie _ _ _ _ _ s cts _ Hk (Hy ltac:(done)) H).
    + assert (tied (put_ctl (currentThread (kern s)) (At p) (set_kern (set_level old (kern s)) s))) as Ht'.
      { apply tie_level, tie_put; [by apply Hy|by intros ??? []|done]. }
      case_bool_decide; [|by injection H as <-]. apply (tick_tie _ _ _ _) in H; [done| |done]. cbn. apply lookup_insert_eq.
Qed.

Lemma runs_tie s0 chs s :
  booted init s0 -> (forall t x, there t -> ctls s0 !! t = Some x -> is_Some (threads (kern s0) !! t)) -> runs s0 chs s -> small init (log s) -> tied s.
Proof.
  intros Hb Hp Hr. induction Hr as [|chs s ch s' Hr IH Hf Hst]; intros Hsm.
  - split_and!.
    + intros c. destruct (conditions (kern s0) !! c) as [y|] eqn:Hy; [|by rewrite (b_log _ _ Hb)].
      exists []. split; [|split; [apply NoDup_nil_2|split; [by rewrite (b_log _ _ Hb)|]]].
      * apply (b_queues _ _ Hb (CondQ c)). cbn. by rewrite Hy.
      * intros t Ht. by apply elem_of_nil in Ht.
    + rewrite (b_log _ _ Hb). apply counted_nil.
    + intros t th _ _. by rewrite (b_log _ _ Hb).
    + intros t x Hin Hx _. split; [by rewrite (b_tbd _ _ Hb)|]. destruct (Hp t x Hin Hx) as [th Hth]. exists th. split; [done|].
      intros _. destruct (b_ctls _ _ Hb _ _ Hx) as [[? ->]|(? & ? & ->)]; by intros [].
  - assert (small init (log s)) as Hsm0 by by apply (longer_small init _ _ (step_log _ _ _ Hst)).
    destruct (runs_sinv init s0 chs s Hb Hr Hsm0) as [cts Hinv]. apply (step_tie ch s cts s' Hinv Hst). by apply IH.
Qed.
End Runs.

(** ** Invariants of runs *)

Section Invariants.
Context {Q : Type -> Type} `{!Queue Q, !QueueLaws Q} {pc D : Type} `{!Client pc D}.
Context (init : positive -> Z).
Implicit Types (s : Sys Q pc D).

(** The logs of runs: the lock discipline accepts them, and who waits is counted. *)
Definition traced (a : view_state pc D) : Prop := forall l, is_Some (lock_trace l None (vlog a)).

Lemma astep_longer (a a' : view_state pc D) : astep init a a' -> longer (vlog a) (vlog a').
Proof. destruct 1; cbn; try apply longer_app; by exists []; rewrite app_nil_r. Qed.

Lemma traced_shorter (a a' : view_state pc D) : rtc (astep init) a a' -> traced a' -> traced a.
Proof.
  intros Hr. induction Hr as [|a1 a2 a3 H1 _ IH]; [done|]. intros Ht l. destruct (IH Ht l) as [h Hh].
  destruct (astep_longer _ _ H1) as [e E]. rewrite E, lock_trace_app in Hh.
  by destruct (lock_trace l None (vlog a1)).
Qed.

Definition plausible (a : view_state pc D) : Prop := traced a /\ counted (vlog a).

Lemma plausible_shorter (a a' : view_state pc D) : rtc (astep init) a a' -> plausible a' -> plausible a.
Proof.
  intros Hr [Ht Hc]. split; [by eapply traced_shorter|]. eapply counted_prefix; [|exact Hc]. clear Ht Hc.
  induction Hr as [a|a1 a2 a3 H1 _ IH]; [done|]. destruct (astep_longer _ _ H1) as [e E].
  etransitivity; [by eexists|exact IH].
Qed.

(** An invariant of the abstract steps holds in every state a run reaches; the
    steps may be taken to have plausible logs. *)
Lemma asteps_invariant (I : view_state pc D -> Prop) a a' :
  (forall b b', I b -> plausible b' -> astep init b b' -> I b') -> rtc (astep init) a a' -> plausible a' -> I a -> I a'.
Proof.
  intros Hstep Hr. induction Hr as [|a1 a2 a3 H1 Hr IH]; [done|]. intros Ht Hi.
  apply IH; [done|]. eapply Hstep; [done| |done]. by eapply plausible_shorter.
Qed.

Lemma runs_invariant (I : view_state pc D -> Prop) s0 chs s :
  (forall b b', I b -> plausible b' -> astep init b b' -> I b') ->
  booted init s0 -> runs s0 chs s -> small init (log s) -> I (abs s0) -> I (abs s).
Proof.
  intros Hstep Hb Hr. induction Hr as [|chs s ch s' Hr IH Hf Hst]; [done|]. intros Hsm Hi.
  assert (small init (log s)) as Hsm0 by by apply (longer_small init _ _ (step_log _ _ _ Hst)).
  destruct (runs_sinv init s0 chs s Hb Hr Hsm0) as [cts Hinv].
  destruct (step_sinv init ch s cts s' Hinv Hf Hsm Hst) as [cts' Hinv'].
  eapply asteps_invariant; [done| | |by apply IH].
  - apply (step_asteps init ch); [apply Hinv|apply Hinv|done].
  - split.
    + intros l. destruct (s_lockok _ _ _ Hinv' l) as (h & Hh & _). by exists h.
    + destruct (runs_tie init (fun _ => False) s0 (chs ++ [ch]) s') as (_ & Hc & _); [done|done| |done|done].
      by eapply runs_step.
Qed.

(** No thread leaves the system. *)
Lemma runs_sites s0 chs s t :
  booted init s0 -> runs s0 chs s -> small init (log s) -> is_Some (ctls s0 !! t) -> is_Some (ctls s !! t).
Proof.
  intros Hb Hr Hsm Ht.
  apply (runs_invariant (fun a => is_Some (sites a !! t)) s0 chs s); try done. intros a a' Ha _ Hst.
  assert (forall u x, is_Some ((<[u := x]> (sites a)) !! t)) as Hput
    by (intros u x; rewrite lookup_insert_is_Some; destruct (decide (u = t)); auto).
  destruct Hst; cbn; auto.
Qed.

(** ** When nothing runs *)

(** [code] is a set of program counters the calls of the threads do not leave, [first]
    those the threads start at; a thread that has made its last call goes on behind it. *)
Context (code first : pc -> Prop).
Hypothesis first_code : forall p, first p -> code p.
Hypothesis code_closed : forall t p d d' c p', code p -> view t p d = Ok (d', Some (c, p')) -> code p'.

Definition comes_from (t : positive) (c : prim) (p : pc) : Prop :=
  exists q d d', code q /\ view t q d = Ok (d', Some (c, p)).

(** The program counter is the one behind the last call of the log. *)
Definition behind (t : positive) (p : pc) (log : list event) : Prop :=
  match last_call t log with Some c => comes_from t c p | None => first p end.

Definition origin (t : positive) (x : ctl pc) (log : list event) : Prop :=
  match x with
  | At p | Woken _ p => code p /\ behind t p log
  | Retry c _ p => exists q d d' r, code q /\ behind t q log /\ view t q d = Ok (d', r) /\
      match r with Some r => r = (c, p) | None => c = Die end
  | Dead => last_call t log = Some Die
  end.

Definition origins (a : view_state pc D) : Prop :=
  (forall t x, sites a !! t = Some x -> origin t x (vlog a)) /\
  (forall t c, last_call t (vlog a) = Some c -> is_Some (sites a !! t)).

Lemma comes_from_code t c p : comes_from t c p -> code p.
Proof. intros (q & d & d' & Hq & Hv). by eapply code_closed. Qed.

Lemma behind_call t p log c : behind t p log -> last_call t log = Some c -> comes_from t c p.
Proof. unfold behind. intros H E. by rewrite E in H. Qed.
Lemma behind_first t p log : behind t p log -> last_call t log = None -> first p.
Proof. unfold behind. intros H E. by rewrite E in H. Qed.

Lemma behind_log t p log log' : last_call t log' = last_call t log -> behind t p log -> behind t p log'.
Proof. unfold behind. intros E. by rewrite E. Qed.

Lemma origin_log t x log log' : last_call t log' = last_call t log -> origin t x log -> origin t x log'.
Proof.
  intros E. destruct x as [p|c old p|old p|]; cbn; [| | |by rewrite E].
  1, 3: intros [Hp Hb]; split; [done|by eapply behind_log].
  intros (q & d & d' & r & Hq & Hb & Hv). exists q, d, d', r. split; [done|]. split; [by eapply behind_log|done].
Qed.

Lemma astep_origins (a a' : view_state pc D) : origins a -> astep init a a' -> origins a'.
Proof.
  intros [Ho Hc] Hst.
  assert (forall t x d, origin t x (vlog a) -> origins (mkView (<[t := x]> (sites a)) d (vlog a))) as Hput.
  { intros t x d Hx. split; intros u y; cbn [sites vlog]; destruct (decide (u = t)) as [->|];
      rewrite ?lookup_insert_eq, ?lookup_insert_ne by done; [by intros [= <-]|apply Ho|done|apply Hc]. }
  assert (forall t x c d, origin t x (vlog a ++ [(Some t, c)]) ->
    origins (mkView (<[t := x]> (sites a)) d (vlog a ++ [(Some t, c)]))) as Hcall.
  { intros t x c d Hx. split; intros u y; cbn [sites vlog]; destruct (decide (u = t)) as [->|];
      rewrite ?lookup_insert_eq, ?lookup_insert_ne by done; [by intros [= <-]| |done|].
    - intros Hy%Ho. eapply origin_log; [|exact Hy]. by apply last_call_other.
    - rewrite last_call_other by done. apply Hc. }
  destruct Hst as [t p d c p' old Hp Hv|t p d old Hp Hv|t c old p x Hp Hx Hd He|t old p Hp|n d Hi|t old p x Hp Hx].
  - apply Hput. apply Ho in Hp as [Hp Hb]. by exists p, (vdata a), d, (Some (c, p')).
  - apply Hput. apply Ho in Hp as [Hp Hb]. by exists p, (vdata a), d, None.
  - apply Hcall. apply Ho in Hp as (q & d & d' & r & Hq & Hb & Hv & Hr). destruct r as [r|]; [subst r|done].
    assert (comes_from t c p) as Hf by by exists q, d, d'. pose proof (comes_from_code _ _ _ Hf).
    destruct Hx as [-> | ->]; (split; [done|]); unfold behind; by rewrite last_call_same.
  - apply Hcall. apply last_call_same.
  - split; intros u y; cbn [vlog sites]; [|rewrite last_call_snoc; apply Hc].
    intros Hy%Ho. eapply origin_log; [|exact Hy]. by rewrite last_call_snoc.
  - apply Hput. destruct Hp as [Hp|Hp]; apply Ho in Hp; by destruct Hx as [-> | ->].
Qed.

(** Threads start in the code. *)
Definition starts s : Prop :=
  forall t x, ctls s !! t = Some x -> exists p, first p /\ (x = At p \/ exists old, x = Woken old p).

Lemma starts_origins s : starts s -> log s = [] -> origins (abs s).
Proof.
  intros H0 Hlog. split; cbn [abs vlog sites]; rewrite Hlog; [|done]. intros t x Hx.
  destruct (H0 _ _ Hx) as (p & Hp & [->|[old ->]]); (split; [by apply first_code|done]).
Qed.

Lemma runs_origins s0 chs s :
  starts s0 -> booted init s0 -> runs s0 chs s -> small init (log s) -> origins (abs s).
Proof.
  intros H0 Hb Hr Hsm. apply (runs_invariant origins s0 chs s); try done.
  - intros b b' Ho _ Hst. by eapply astep_origins.
  - apply starts_origins; [done|]. apply (b_log _ _ Hb).
Qed.

(** Every thread of the code is there at first. *)
Definition present s : Prop := forall t x, ctls s !! t = Some x -> is_Some (threads (kern s) !! t).

(** What is left when the machine has nothing to run: every thread that has been
    forked is gone, or waits for a semaphore without units, for a lock that is held,
    or for a condition variable, behind a Wait; and the threads waiting for a
    condition variable are as many as the log says. *)
Record settled s (cts : queues) : Prop := {
  se_queues : forall q x, queue_of (kern s) q = Some x -> q_rep x (cts q);
  se_locks : forall l t, t ∈ (cts (LockQ l)).*2 -> exists u, lock_trace l None (log s) = Some (Some u);
  se_waiters : forall c y, conditions (kern s) !! c = Some y -> length (cts (CondQ c)) = waiters c (log s);
  se_nodup : forall c, NoDup (cts (CondQ c)).*2;
  se_conditions : forall c t, t ∈ (cts (CondQ c)).*2 -> is_Some (conditions (kern s) !! c) /\
    exists lk old p, last_call t (log s) = Some (Wait c lk) /\ ctls s !! t = Some (Woken old p);
  se_asleep : forall c t, t ∈ (cts (CondQ c)).*2 -> t ∈ sleepers c (log s);
  se_called : forall t c, last_call t (log s) = Some c -> is_Some (ctls s !! t);
  se_sites : forall t x, ctls s !! t = Some x ->
    match x with
    | Dead => last_call t (log s) = Some Die
    | Retry c _ p => (exists q d d', code q /\ behind t q (log s) /\ view t q d = Ok (d', Some (c, p))) /\
        ((exists n y, c = P n /\ semaphores (kern s) !! n = Some y /\ value y = 0) \/
         (exists l u, c = Acquire l /\ lock_trace l None (log s) = Some (Some u)))
    | At p | Woken _ p => last_call t (log s) = None /\ first p \/
        exists c lk, last_call t (log s) = Some (Wait c lk) /\ comes_from t (Wait c lk) p /\ t ∈ (cts (CondQ c)).*2
    end
}.

Section Idle.
Context (s : Sys Q pc D) (cts : queues).
Hypotheses (Hinv : sinv init s cts) (Hidle : idle s = true).

Lemma idle_kinv : kinv (dead s) Away (kern s) cts.
Proof. pose proof (s_kinv _ _ _ Hinv) as Hk. by rewrite Hidle in Hk. Qed.

Lemma idle_winv : winv (kern s) cts (ctls s) [].
Proof.
  pose proof (s_winv _ _ _ Hinv) as Hw. unfold active in Hw. by rewrite Hidle, (s_idle _ _ _ Hinv Hidle) in Hw.
Qed.

Lemma idle_queue q t : t ∈ (cts q).*2 -> exists x, queue_of (kern s) q = Some x.
Proof.
  intros Hq. destruct (queue_of (kern s) q) eqn:E; [by eexists|]. rewrite (k_none _ _ _ _ idle_kinv q E) in Hq.
  by apply elem_of_nil in Hq.
Qed.

Lemma idle_lock l t : t ∈ (cts (LockQ l)).*2 -> exists u, lock_trace l None (log s) = Some (Some u).
Proof.
  intros Hin. destruct (idle_queue _ _ Hin) as [y Hy]. cbn in Hy.
  destruct (locks (kern s) !! l) as [z|] eqn:Ez; [|done].
  destruct (s_lockok _ _ _ Hinv l) as (h & Hh & Hz). destruct (Hz z Ez) as [_ Hlk].
  destruct (w_lock _ _ _ _ idle_winv l z Ez) as [E|[E|Hle]]; [rewrite E in Hin; by apply elem_of_nil in Hin| |cbn in Hle; lia].
  rewrite E in Hlk. destruct h as [u|]; [|done]. by exists u.
Qed.

Lemma idle_semaphore n t : t ∈ (cts (SemQ n)).*2 -> exists y, semaphores (kern s) !! n = Some y /\ value y = 0.
Proof.
  intros Hin. destruct (idle_queue _ _ Hin) as [y Hy]. cbn in Hy.
  destruct (semaphores (kern s) !! n) as [z|] eqn:Ez; [|done]. exists z. split; [done|].
  destruct (w_sem _ _ _ _ idle_winv n z Ez) as [E|Hle]; [rewrite E in Hin; by apply elem_of_nil in Hin|].
  destruct (s_semok _ _ _ Hinv n z Ez). cbn in Hle. lia.
Qed.

(** A thread of the code has not begun, is gone, or is on a wait queue. *)
Lemma idle_place t x :
  unforked (kern s) (log s) -> alive (fun _ => True) (kern s) (ctls s) -> ctls s !! t = Some x -> x <> Dead ->
  last_call t (log s) = None /\ ~ tries_again x \/ exists q, q <> ReadyQ /\ t ∈ (cts q).*2.
Proof.
  intros Hu Ha Hx Hxd. pose proof idle_kinv as Hk.
  destruct (Ha t x I Hx Hxd) as (_ & th & Hth & Hj). destruct (status th) eqn:Est.
  - left. split; [by apply (Hu t th)|by apply Hj].
  - pose proof (k_running _ _ _ _ Hk t th Hth Est) as ->.
    destruct (k_current _ _ _ _ Hk) as (th' & Hth' & Hrun & _). assert (th' = th) as -> by congruence.
    by destruct (proj1 Hrun Est).
  - right. destruct (k_ready _ _ _ _ Hk t th Hth Est) as [Hdd|Hin]; [unfold dead in Hdd; congruence|].
    rewrite (s_idle _ _ _ Hinv Hidle) in Hin. by apply elem_of_nil in Hin.
  - right. destruct (k_blocked _ _ _ _ Hk t th Hth Est) as [Hdd|]; [unfold dead in Hdd; congruence|done].
Qed.
End Idle.

Lemma stuck_places s0 chs s :
  starts s0 -> booted init s0 -> present s0 -> runs s0 chs s -> small init (log s) -> stuck s ->
  exists cts, sinv init s cts /\ settled s cts.
Proof.
  intros H0 Hb Hp Hr Hsm Hst. destruct (runs_sinv init s0 chs s Hb Hr Hsm) as [cts Hinv].
  destruct (runs_tie init (fun _ => True) s0 chs s Hb (fun t x _ => Hp t x) Hr Hsm) as (Hc & _ & Hu & Ha).
  pose proof (runs_origins s0 chs s H0 Hb Hr Hsm) as [Ho Hcalled]. cbn [abs sites vlog] in Ho, Hcalled.
  pose proof (idle_winv s cts Hinv Hst) as Hw. pose proof (idle_kinv s cts Hinv Hst) as Hk.
  assert (forall c y, conditions (kern s) !! c = Some y -> length (cts (CondQ c)) = waiters c (log s) /\
    forall t, t ∈ (cts (CondQ c)).*2 -> t ∈ sleepers c (log s)) as Hcond.
  { intros c y Hy. destruct (condok_elim _ _ _ _ Hc Hy) as (l & Hrep & _ & Hn & Ht).
    rewrite <- (q_rep_inj (waitQ y) l (cts (CondQ c))); [done..|]. apply (k_rep _ _ _ _ Hk). cbn. by rewrite Hy. }
  assert (forall c t, t ∈ (cts (CondQ c)).*2 -> exists y, conditions (kern s) !! c = Some y /\
    t ∈ sleepers c (log s) /\ exists lk, last_call t (log s) = Some (Wait c lk)) as Hlast.
  { intros c t Hin. destruct (idle_queue s cts Hinv Hst _ _ Hin) as [y Hy]. cbn in Hy.
    destruct (conditions (kern s) !! c) as [z|] eqn:Ez; [|done]. exists z. split; [done|].
    assert (t ∈ sleepers c (log s)) as Hsl by by apply (Hcond c z). split; [done|]. by apply elem_of_parked, sleepers_parked. }
  exists cts. split; [done|]. split.
  - apply Hk.
  - apply (idle_lock s cts Hinv Hst).
  - intros c y Hy. by apply (Hcond c y).
  - intros c. apply Hk.
  - intros c t Ht. destruct (Hlast c t Ht) as (y & Hy & _ & lk & Hlk). split; [by rewrite Hy|].
    destruct (w_waits _ _ _ _ Hw (CondQ c) t Ht) as (old & p & Hx). by exists lk, old, p.
  - intros c t Ht. by destruct (Hlast c t Ht) as (_ & _ & ? & _).
  - exact Hcalled.
  - intros t x Hx. pose proof (Ho t x Hx) as Hox.
    pose proof (idle_place s cts Hinv Hst t x Hu Ha Hx) as Hwhere.
    assert (forall q, t ∈ (cts q).*2 -> match q with
      | ReadyQ => True | SemQ n => pending (ctls s) t = Some (P n) | LockQ l => pending (ctls s) t = Some (Acquire l)
      | CondQ _ => exists old p, ctls s !! t = Some (Woken old p) end) as Hww by (intros q; apply (w_waits _ _ _ _ Hw)).
    unfold pending in Hww. rewrite Hx in Hww. destruct x as [p|c old p|old p|]; [| | |done].
    1, 3: destruct (Hwhere ltac:(done)) as [[? _]|(q & Hq & Hin)]; [left; split; [done|by eapply behind_first; [apply Hox|]]|]; specialize (Hww q Hin);
      destruct q as [| | |c]; try done; right; destruct (Hlast c t Hin) as (y & _ & _ & lk & Hlk);
      exists c, lk; split_and!; [done|by eapply behind_call; [apply Hox|]|done].
    destruct (Hwhere ltac:(done)) as [[_ Hn]|(q & Hq & Hin)]; [by destruct Hn|]. specialize (Hww q Hin).
    destruct Hox as (q0 & d0 & d1 & r & Hq0 & Hb0 & Hv & Hrc).
    destruct r as [r|]; [subst r|subst c; destruct q; [done|discriminate|discriminate|by destruct Hww as (? & ? & ?)]].
    split; [by exists q0, d0, d1|]. destruct q as [|n|l|d]; [done|left|right|by destruct Hww as (? & ? & ?)].
    + injection Hww as ->. destruct (idle_semaphore s cts Hinv Hst n t Hin) as (y & Hy & Hv0). by exists n, y.
    + injection Hww as ->. destruct (idle_lock s cts Hinv Hst l t Hin) as [u Hu0]. by exists l, u.
Qed.

(** The holder of a lock has made a call. *)
Lemma holder_called l t log : lock_trace l None log = Some (Some t) -> last_call t log <> None.
Proof.
  induction log as [|[o c] log IH] using rev_ind; [done|].
  rewrite lock_trace_app, last_call_snoc. destruct (lock_trace l None log) as [h|]; [|done]. cbn.
  destruct o as [u|]; [|by intros [= ->]; apply IH]. destruct (decide (u = t)) as [->|Hne]; [done|].
  assert (Some h = Some (Some t) -> last_call t log <> None) as IH' by (intros [= ->]; by apply IH).
  destruct c; cbn; repeat case_decide; try done; try (destruct h; congruence).
Qed.
End Invariants.

Lemma boot_present {Q : Type -> Type} `{!Queue Q, !QueueLaws Q} {pc D : Type} `{!Client pc D} main (mainpc : pc) others sems lks conds (d : D) :
  present (boot (Q := Q) main mainpc others sems lks conds d).
Proof.
  intros t x Hx. cbn in Hx |- *. apply lookup_insert_Some in Hx as [[<- _]|[Hne Hx]].
  - eexists. apply lookup_insert_eq.
  - apply lookup_map_list in Hx as (y & Hy & [= <- _]). apply lookup_insert_is_Some. right. split; [done|].
    match goal with |- is_Some ?o => destruct o eqn:E end; [by eexists|]. exfalso.
    apply not_elem_of_list_to_map_2 in E. apply E. apply list_elem_of_fmap. eexists (_, _). split; [done|].
    apply list_elem_of_fmap. by eexists.
Qed.
