(* ===== verification/Monitor.v ===== *)
(** Reasoning about the clients of the synchronization routines.

    On the steps of Steps.v rest a type system for locks, which gives every program
    counter the set of locks held there, and the rule of monitors: data a lock
    protects satisfy their invariant whenever the lock is free, and what the code
    says at its program counter while a thread holds it. *)
From Stdlib Require Import ZArith Lia Bool.
From stdpp Require Import base numbers list gmap fin_maps fin_sets relations.
From S2P Require Import Prelude Lists Machine Threads Synch System Steps Conditions.

(** ** A type system for locks *)

(** The locks held after a call, when the call respects the discipline: a lock is
    acquired by a thread that does not hold it, and everything else that names a
    lock is done by a thread that does. *)
Definition locks_after (c : prim) (h : gset positive) : option (gset positive) :=
  match c with
  | Acquire l => if decide (l ∈ h) then None else Some ({[l]} ∪ h)
  | Release l | Wait _ l => if decide (l ∈ h) then Some (h ∖ {[l]}) else None
  | Signal _ l | Broadcast _ l | AssertHeld l => if decide (l ∈ h) then Some h else None
  | Die => None
  | _ => Some h
  end.

Lemma acquires l c h h' : locks_after c h = Some h' -> l ∉ h -> l ∈ h' -> c = Acquire l.
Proof. intros H Hn Hi. destruct c; cbn in H; simplify_option_eq; set_solver. Qed.

Lemma locks_after_inj l c h1 h2 h : locks_after c h1 = Some h -> locks_after c h2 = Some h -> l ∈ h1 <-> l ∈ h2.
Proof.
  intros H1 H2. destruct c as [|n|x|x|? x| | | | | | | |]; cbn in H1, H2; repeat case_decide; try done;
    injection H1 as <-; injection H2 as E; try (by rewrite E).
  all: assert (forall a b : gset positive, a = b -> l ∈ a <-> l ∈ b) as Hs by (by intros ?? ->).
  all: apply Hs in E; destruct (decide (l = x)) as [->|]; set_solver.
Qed.

Lemma acquire_first (l : positive) : locks_after (Acquire l) ∅ = Some {[l]}.
Proof. cbn. rewrite decide_False by set_solver. f_equal. set_solver. Qed.
Lemma release_last (l : positive) : locks_after (Release l) {[l]} = Some ∅.
Proof. cbn. rewrite decide_True by set_solver. f_equal. set_solver. Qed.

Section Locks.
Context {Q : Type -> Type} `{!Queue Q, !QueueLaws Q} {pc D : Type} `{!Client pc D}.
Context (init : positive -> Z).
Implicit Types (k : Nachos Q) (s : Sys Q pc D).

(** [held] types the [code] of the threads, which is a set of program counters
    their calls do not leave: the locks held at each. *)
Record typed (code : pc -> Prop) (held : pc -> gset positive) : Prop := {
  ty_call : forall t p d d' c p', code p -> view t p d = Ok (d', Some (c, p')) ->
    code p' /\ locks_after c (held p) = Some (held p');
  ty_end : forall t p d d', code p -> view t p d = Ok (d', None) -> held p = ∅
}.

Definition site_typed (code : pc -> Prop) (held : pc -> gset positive) (x : ctl pc) (h : gset positive) : Prop :=
  match x with
  | At p | Woken _ p => code p /\ h = held p
  | Retry c _ p => code p /\ locks_after c h = Some (held p) \/ c = Die /\ h = ∅
  | Dead => h = ∅
  end.

(** Every thread holds, according to the calls made, what its place in the code
    says. *)
Definition well_typed (code : pc -> Prop) (held : pc -> gset positive) (own : positive -> gset positive) (a : view_state pc D) : Prop :=
  (forall t x, sites a !! t = Some x -> site_typed code held x (own t)) /\
  (forall t l, l ∈ own t <-> lock_trace l None (vlog a) = Some (Some t)).

Lemma lock_trace_snoc l e log :
  lock_trace l None (log ++ [e]) =
  match lock_trace l None log with Some h => lock_event l h e | None => None end.
Proof. rewrite lock_trace_app. destruct (lock_trace l None log); [|done]. cbn. by destruct (lock_event _ _ _). Qed.

(** One call, on the locks its thread and the others hold. *)
Lemma own_after (own : positive -> gset positive) t c h log (own' := fun u => if decide (u = t) then h else own u) :
  (forall u l, l ∈ own u <-> lock_trace l None log = Some (Some u)) ->
  enabled init t c log -> locks_after c (own t) = Some h ->
  (forall l, is_Some (lock_trace l None (log ++ [(Some t, c)]))) ->
  forall u l, l ∈ own' u <-> lock_trace l None (log ++ [(Some t, c)]) = Some (Some u).
Proof.
  intros Ho He Hc Htr u l. rewrite lock_trace_snoc. specialize (Htr l). rewrite lock_trace_snoc in Htr.
  destruct (lock_trace l None log) as [o|] eqn:El; [|by destruct Htr].
  assert (l ∈ own u <-> o = Some u) as Hl by (rewrite Ho, El; naive_solver).
  assert (l ∈ own t <-> o = Some t) as Hl' by (rewrite Ho, El; naive_solver).
  assert (forall v, l ∈ own' v <-> if decide (v = t) then l ∈ h else l ∈ own v) as Hown.
  { intros v. unfold own'. by destruct (decide (v = t)). }
  rewrite Hown. clear Hown own'.
  destruct c; cbn in Hc, He |- *; simplify_option_eq; try (destruct (decide (u = t)) as [->|]; naive_solver);
    repeat case_decide; subst; rewrite ?elem_of_union, ?elem_of_difference, ?elem_of_singleton; naive_solver.
Qed.

Lemma astep_well_typed code held own a a' :
  typed code held -> well_typed code held own a -> traced a' -> astep init a a' ->
  exists own', well_typed code held own' a'.
Proof.
  intros Hty [Hs Ho] Htr Hst. destruct Hst as [t p d c p' old Hp Hv|t p d old Hp Hv|t c old p x Hp Hx Hd He|t old p Hp|n d Hi|t old p x Hp Hx]; cbn in *.
  - exists own. split; [|done]. intros u y. cbn. destruct (decide (u = t)) as [->|]; [|rewrite lookup_insert_ne by done; apply Hs].
    rewrite lookup_insert_eq. intros [= <-]. left. apply Hs in Hp as [Hc Hh]. rewrite Hh. by eapply ty_call.
  - exists own. split; [|done]. intros u y. cbn. destruct (decide (u = t)) as [->|]; [|rewrite lookup_insert_ne by done; apply Hs].
    rewrite lookup_insert_eq. intros [= <-]. right. apply Hs in Hp as [Hc Hh]. rewrite Hh. split; [done|]. by eapply ty_end.
  - pose proof (Hs _ _ Hp) as [[Hcode Hc]|[-> _]]; [|done].
    exists (fun u => if decide (u = t) then held p else own u). split.
    + intros u y. cbn. destruct (decide (u = t)) as [->|]; [|rewrite lookup_insert_ne by done; apply Hs].
      rewrite lookup_insert_eq. intros [= <-]. by destruct Hx as [-> | ->].
    + by apply own_after.
  - pose proof (Hs _ _ Hp) as [[_ Hc]|[_ Hh]]; [done|]. exists own. split.
    + intros u y. cbn. destruct (decide (u = t)) as [->|]; [|rewrite lookup_insert_ne by done; apply Hs].
      rewrite lookup_insert_eq. by intros [= <-].
    + intros u l. rewrite Ho. cbn. rewrite lock_trace_snoc. by destruct (lock_trace l None _).
  - exists own. split; [done|]. intros u l. rewrite Ho. cbn. rewrite lock_trace_snoc. by destruct (lock_trace l None _).
  - exists own. split; [|done]. intros u y. cbn. destruct (decide (u = t)) as [->|]; [|rewrite lookup_insert_ne by done; apply Hs].
    rewrite lookup_insert_eq. intros [= <-].
    assert (code p /\ own t = held p) as E by (destruct Hp as [Hp|Hp]; by apply Hs in Hp).
    by destruct Hx as [-> | ->].
Qed.

Lemma runs_well_typed code held s0 chs s :
  typed code held -> (forall t x, ctls s0 !! t = Some x -> site_typed code held x ∅) ->
  booted init s0 -> runs s0 chs s -> small init (log s) -> exists own, well_typed code held own (abs s).
Proof.
  intros Hty H0 Hb Hr Hsm.
  apply (runs_invariant init (fun a => exists own, well_typed code held own a) s0 chs s); try done.
  - intros b b' [own Hw] [Htr _] Hst. by eapply astep_well_typed.
  - exists (fun _ => ∅). split; [exact H0|]. cbn. rewrite (b_log _ _ Hb). cbn. set_solver.
Qed.

(** *** Well-typed code meets no failing ASSERT *)

Abbreviation no_assert m := (m <> Err AssertionFailed).

Lemma no_assert_bind {A B} (m : res A) (f : A -> res B) :
  no_assert m -> (forall a, m = Ok a -> no_assert (f a)) -> no_assert (bindr m f).
Proof. destruct m; cbn; intros H Hf; [by apply Hf|naive_solver]. Qed.

Lemma no_assert_deref {A B} (m : gmap positive A) p (f : A -> res B) :
  (forall x, m !! p = Some x -> no_assert (f x)) -> no_assert (x <- deref m p ;; f x).
Proof. unfold deref. destruct (m !! p) as [x|]; cbn; [|done]. intros H. by apply H. Qed.

Lemma no_assert_true {A} b (m : res A) : b = true -> no_assert m -> no_assert (_ <- ASSERT b ;; m).
Proof. by intros ->. Qed.

Definition readable k : Prop := exists l, q_rep (readyList k) l.

Lemma no_assert_ReadyToRun k t : readable k -> no_assert (ReadyToRun k t).
Proof.
  intros [l Hl]. apply no_assert_deref. intros th _. cbn.
  by destruct (q_sorted_insert_rep _ _ _ t (s32 (getPriority th * -1)) Hl) as (q & -> & _).
Qed.

Lemma no_assert_wake k r : readable k -> no_assert (wake k r).
Proof. destruct r as [[? t]|]; [apply no_assert_ReadyToRun|done]. Qed.

Lemma no_assert_insert k x l : q_rep x l -> no_assert (insert_current k x).
Proof.
  intros Hx. apply no_assert_deref. intros th _.
  by destruct (q_sorted_insert_rep _ _ _ (currentThread k) (s32 (getPriority th * -1)) Hx) as (q & -> & _).
Qed.

Lemma wake_readable k r k' : readable k -> wake k r = Ok k' -> readable k' /\ conditions k' = conditions k.
Proof.
  intros [l Hl] H. destruct r as [[? t]|]; cbn in H; [|injection H as <-; split; [by exists l|done]].
  unfold ReadyToRun in H. apply deref_bind in H as (th & _ & H).
  destruct (q_sorted_insert_rep _ _ _ t (s32 (getPriority th * -1)) Hl) as (q & E & Hq).
  cbn in H. rewrite E in H. injection H as <-. split; [by eexists|done].
Qed.

Lemma no_assert_broadcast fuel k c :
  readable k -> (forall y, conditions k !! c = Some y -> exists l, q_rep (waitQ y) l) ->
  no_assert (broadcast_loop fuel k c).
Proof.
  revert k. induction fuel as [|fuel IH]; intros k Hr Hc; [done|]. cbn.
  apply no_assert_deref. intros y Hy. destruct (q_is_empty _); [done|].
  destruct (Hc y Hy) as [l Hl]. destruct (q_sorted_remove_rep _ _ _ Hl) as (q & -> & Hq). cbn.
  apply no_assert_bind; [by apply no_assert_wake|]. intros k' Hk'.
  apply wake_readable in Hk' as [Hr' Ec]; [|done]. apply IH; [done|]. intros z. rewrite Ec.
  cbn. rewrite lookup_insert_eq. intros [= <-]. by exists (tail l).
Qed.

Section Calls.
Context (lost : positive -> Prop) (k : Nachos Q) (cts : queues) (log : list event) (own : gset positive).
Hypothesis Hk : kinv lost Running k cts.
Hypothesis Hl : lockok k log.
Hypothesis Ho : forall l, l ∈ own <-> lock_trace l None log = Some (Some (currentThread k)).

Lemma held_lock l x : l ∈ own -> locks k !! l = Some x -> locked x = 1 /\ isHeldByCurrentThread k x = true.
Proof.
  intros Hin Hx. apply Ho in Hin. destruct (Hl l) as (h & Hh & Hx'). rewrite Hin in Hh. injection Hh as <-.
  destruct (Hx' x Hx) as [E ->]. split; [done|]. unfold isHeldByCurrentThread. rewrite E.
  by apply bool_decide_eq_true.
Qed.

Lemma no_assert_held l : l ∈ own -> no_assert (assert_held k l).
Proof. intros Hin. apply no_assert_deref. intros x Hx. by rewrite (proj2 (held_lock l x Hin Hx)). Qed.

Lemma readable_now k' : readyList k' = readyList k -> readable k'.
Proof. intros E. exists (cts ReadyQ). rewrite E. by apply (k_rep _ _ _ _ Hk ReadyQ). Qed.

Lemma no_assert_release l : l ∈ own -> no_assert (Lock_Release k l).
Proof.
  intros Hin. apply no_assert_deref. intros x Hx. destruct (held_lock l x Hin Hx) as [-> ->]. cbn.
  destruct (q_sorted_remove_rep _ (lock_queue x) (cts (LockQ l))) as (q & -> & _).
  { apply (k_rep _ _ _ _ Hk). cbn. by rewrite Hx. }
  cbn. apply no_assert_bind; [apply no_assert_wake; by apply readable_now|]. intros k' _.
  apply no_assert_deref. by intros.
Qed.

Lemma exec_no_assert again c h :
  locks_after c own = Some h -> c <> Yield -> no_assert (exec_prim again k c).
Proof.
  intros Hc Hy. pose proof no_assert_held as Hah. pose proof no_assert_release as Har.
  pose proof readable_now as Hrn. destruct c; cbn in Hc |- *; simplify_option_eq; try done.
  - apply no_assert_bind; [|intros [? []] _; done]. apply no_assert_deref. intros x Hx.
    destruct (value x =? 0); [|done]. apply no_assert_bind; [|done].
    apply (no_assert_insert _ _ (cts (SemQ s))). apply (k_rep _ _ _ _ Hk). cbn. by rewrite Hx.
  - apply no_assert_bind; [|done]. apply no_assert_deref. intros x Hx.
    destruct (q_sorted_remove_rep _ (sem_queue x) (cts (SemQ s))) as (q & -> & _).
    { apply (k_rep _ _ _ _ Hk). cbn. by rewrite Hx. }
    cbn. apply no_assert_bind; [apply no_assert_wake; by apply Hrn|]. intros k' _.
    apply no_assert_deref. by intros.
  - apply no_assert_bind.
    + destruct again; [done|]. apply no_assert_deref. intros x Hx.
      replace ((locked x =? 0) || negb (isHeldByCurrentThread k x)) with true; [done|]. symmetry.
      destruct (Hl l) as (o & Hh & Hx'). destruct (Hx' x Hx) as [E1 E2]. unfold isHeldByCurrentThread.
      rewrite E1, E2. destruct o as [u|]; [|done]. cbn. apply negb_true_iff, bool_decide_eq_false.
      intros [= <-]. apply Ho in Hh. done.
    + intros _ _. apply no_assert_bind; [|intros [? []] _; done]. apply no_assert_deref. intros x Hx.
      destruct (locked x =? 1); [|done]. apply no_assert_bind; [|done].
      apply (no_assert_insert _ _ (cts (LockQ l))). apply (k_rep _ _ _ _ Hk). cbn. by rewrite Hx.
  - apply no_assert_bind; [by apply Har|done].
  - apply no_assert_bind; [|done]. apply no_assert_bind; [by apply Hah|]. intros _ _.
    apply no_assert_bind; [by apply Har|]. intros k' Hk'.
    destruct (Lock_Release_inv _ _ _ _ _ Hk Hk') as (_ & _ & cts' & _ & _ & _ & _ & Hk2 & _).
    apply no_assert_deref. intros y Hy'. apply no_assert_bind; [|done].
    apply (no_assert_insert _ _ (cts' (CondQ c))). apply (k_rep _ _ _ _ Hk2). cbn. by rewrite Hy'.
  - apply no_assert_bind; [|done]. apply no_assert_bind; [by apply Hah|]. intros _ _.
    apply no_assert_deref. intros y Hy'.
    destruct (q_sorted_remove_rep _ (waitQ y) (cts (CondQ c))) as (q & -> & _).
    { apply (k_rep _ _ _ _ Hk). cbn. by rewrite Hy'. }
    cbn. apply no_assert_wake. by apply Hrn.
  - apply no_assert_bind; [|done]. apply no_assert_bind; [by apply Hah|]. intros _ _.
    apply no_assert_broadcast; [by apply Hrn|]. intros y Hy'. exists (cts (CondQ c)).
    apply (k_rep _ _ _ _ Hk). cbn. by rewrite Hy'.
  - apply no_assert_bind; [by apply Hah|done].
  - apply no_assert_bind; [apply no_assert_ReadyToRun; by apply Hrn|done].
  - apply no_assert_deref. by intros.
Qed.
End Calls.

(** The call the current thread is making, or is about to make. *)
Definition calls s (again : bool) (c : prim) : Prop :=
  let t := currentThread (kern s) in
  if again then exists old p, ctls s !! t = Some (Retry c old p)
  else exists p d p', ctls s !! t = Some (At p) /\ view t p (data s) = Ok (d, Some (c, p')).

(** C10: code that follows the lock discipline is safe.  Give every program
    counter a set of locks such that the code acquires only locks not in the set,
    releases, waits with and signals under only locks in it, and ends with none.
    Then at every moment of every run each thread holds exactly the locks of its
    program counter, as the lock objects themselves say, a finished thread holds
    none, and no ASSERT of Acquire, Release, Wait, Signal or Broadcast fails. *)
Theorem typed_clients (code : pc -> Prop) (held : pc -> gset positive) (s0 s : Sys Q pc D) (chs : list choice) :
  typed code held -> (forall t x, ctls s0 !! t = Some x -> site_typed code held x ∅) ->
  booted init s0 -> runs s0 chs s -> small init (log s) ->
  exists own : positive -> gset positive,
    (forall t x, ctls s !! t = Some x -> site_typed code held x (own t)) /\
    (forall l x t, locks (kern s) !! l = Some x -> threadHeld x = Some t <-> l ∈ own t) /\
    (forall again c, idle s = false -> calls s again c -> c <> Yield -> c <> Die ->
       exec_prim again (if masks c then set_level IntOff (kern s) else kern s) c <> Err AssertionFailed).
Proof.
  intros Hty H0 Hb Hr Hsm.
  destruct (runs_well_typed code held s0 chs s Hty H0 Hb Hr Hsm) as [own [Hs Ho]].
  destruct (runs_sinv init s0 chs s Hb Hr Hsm) as [cts Hinv]. exists own. split; [done|]. split.
  - intros l x t Hx. rewrite Ho. destruct (s_lockok _ _ _ Hinv l) as (h & Hh & Hlk). cbn. rewrite Hh.
    destruct (Hlk x Hx) as [-> _]. naive_solver.
  - intros again c Hi Hc Hy Hd. set (k := if masks c then _ else _).
    assert (currentThread k = currentThread (kern s)) as Ec by (unfold k; by destruct (masks c)).
    assert (exists h, locks_after c (own (currentThread (kern s))) = Some h) as [h Hh].
    { destruct again.
      - destruct Hc as (old & p & Hc). destruct (Hs _ _ Hc) as [[_ Hl]|[-> _]]; [by eexists|done].
      - destruct Hc as (p & d & p' & Hc & Hv). destruct (Hs _ _ Hc) as [Hcode ->]. eexists. by eapply ty_call. }
    apply (exec_no_assert (dead s) k cts (log s) (own (currentThread (kern s)))) with (h := h); try done.
    + pose proof (s_kinv _ _ _ Hinv) as Hk. rewrite Hi in Hk. unfold k.
      destruct (masks c); [by apply kinv_level|done].
    + pose proof (s_lockok _ _ _ Hinv) as Hl. unfold k. by destruct (masks c).
    + intros l. rewrite Ec. apply Ho.
Qed.
End Locks.

(** The locks a sequence of calls needs to hold where it starts, and whether it
    then follows the discipline. *)
Fixpoint script_held (p : list prim) : gset positive :=
  match p with
  | [] => ∅
  | Acquire l :: p => script_held p ∖ {[l]}
  | (Release l | Wait _ l) :: p => {[l]} ∪ script_held p
  | _ :: p => script_held p
  end.
Fixpoint script_typed (p : list prim) : Prop :=
  match p with
  | [] => True
  | c :: p' => locks_after c (script_held p) = Some (script_held p') /\ script_typed p'
  end.

Lemma scripts_typed : typed script_typed script_held.
Proof.
  split.
  - intros t [|c0 p] [] [] c p' Hp Hv; cbn in Hv; [done|]. injection Hv as <- <-. destruct Hp. by split.
  - intros t [|c0 p] [] [] Hp Hv; done.
Qed.

Ltac script_typing :=
  cbn; try done; rewrite ?decide_True, ?decide_False by set_solver; f_equal; set_solver.

(** Thread 1 lets thread 2 wait for condition 1 and signals it. *)
Definition demo_locks : Sys NList.List (list prim) unit :=
  boot 1%positive [Fork 2; Yield; Acquire 1; Signal 1 1; Release 1]
    [(2%positive, 0, [Acquire 1; Wait 1 1; Acquire 1; AssertHeld 1; Release 1])] [] [1%positive] [1%positive] tt.
Definition demo_locks_end : Sys NList.List (list prim) unit :=
  match run (replicate 13 (mkChoice [] false)) demo_locks with Ok s => s | Err _ => demo_locks end.

Lemma typed_clients_witness :
  (exists x, locks (kern demo_locks_end) !! 1%positive = Some x /\ threadHeld x = Some 2%positive) /\
  exists own : positive -> gset positive, forall l x t,
    locks (kern demo_locks_end) !! l = Some x -> threadHeld x = Some t <-> l ∈ own t.
Proof.
  split; [eexists; split; vm_compute; reflexivity|].
  destruct (typed_clients (first_value []) script_typed script_held demo_locks demo_locks_end
    (replicate 13 (mkChoice [] false)) scripts_typed) as (own & _ & H & _).
  - intros t x Hx. apply boot_sites in Hx as [->|(y & Hy & ->)]; [|apply list_elem_of_singleton in Hy as ->];
      (split; [cbn [script_typed]; split_and!|]; script_typing).
  - apply boot_booted; [by apply Forall_nil|apply NoDup_nil_2].
  - apply run_reaches. vm_compute. reflexivity.
  - assert (zlen (log demo_locks_end) < 100) as Hlog by (vm_compute; done).
    apply small_first_value; [by apply Forall_nil|lia].
  - exists own. exact H.
Defined.

(** ** Monitors *)

Section Monitor.
Context {Q : Type -> Type} `{!Queue Q, !QueueLaws Q} {pc D : Type} `{!Client pc D}.
Context (init : positive -> Z) (code first : pc -> Prop) (held : pc -> gset positive) (l : positive).
Implicit Types (d : D) (log : list event) (s : Sys Q pc D).
Hypothesis first_code : forall p, first p -> code p.

(** What the data say of a thread at a program counter or on its way to it, and of one
    that is done. *)
Context (here : positive -> option pc -> D -> Prop).

Record tracks : Prop := {
  tk_view : forall t p d d' c p', code p -> here t (Some p) d -> view t p d = Ok (d', Some (c, p')) -> here t (Some p') d';
  tk_end : forall t p d d', code p -> here t (Some p) d -> view t p d = Ok (d', None) -> here t None d';
  tk_others : forall t p d d' r u q, code p -> here t (Some p) d -> view t p d = Ok (d', r) -> u <> t -> here u q d -> here u q d';
  tk_irq : forall n d d' t p, on_irq n d = Some d' -> here t p d -> here t p d'
}.

Definition going (x : ctl pc) : option pc :=
  match x with
  | At p | Woken _ p => Some p
  | Retry c _ p => if decide (c = Die) then None else Some p
  | Dead => None
  end.
Definition tracked (a : view_state pc D) : Prop :=
  forall t x, sites a !! t = Some x -> here t (going x) (vdata a).

(** What the data, and the calls so far, satisfy while the lock [l] is free; while
    a thread holds it at a program counter; and while it is in a call, on its way
    to a program counter. *)
Record assertions := mkAssertions {
  free : D -> list event -> Prop;
  at_pc : pc -> D -> list event -> Prop;
  in_call : prim -> pc -> D -> list event -> Prop
}.

(** The rest of the system does not disturb them. *)
Definition stable (A : assertions) d log d' log' : Prop :=
  (free A d log -> free A d' log') /\
  (forall p, l ∈ held p -> at_pc A p d log -> at_pc A p d' log') /\
  (forall c p, in_call A c p d log -> in_call A c p d' log').

(** What the code of a monitor guarantees: the holder of the lock goes from
    assertion to assertion, taking the lock gives what holds when it is free, and
    giving it up leaves that; the others, and the devices, do not interfere. *)
Record monitor (A : assertions) : Prop := {
  mo_view : forall t p d log, code p -> here t (Some p) d -> l ∈ held p -> at_pc A p d log ->
    exists d' c p', view t p d = Ok (d', Some (c, p')) /\ in_call A c p' d' log;
  mo_call : forall t c q p d0 d1 h d log, code q -> here t (Some p) d -> behind code first t q log -> view t q d0 = Ok (d1, Some (c, p)) ->
    l ∈ h -> locks_after c h = Some (held p) -> in_call A c p d log ->
    enabled init t c log -> counted (log ++ [(Some t, c)]) ->
    if decide (l ∈ held p) then at_pc A p d (log ++ [(Some t, c)]) else free A d (log ++ [(Some t, c)]);
  mo_acquire : forall t p p' d d' d'' log, code p -> here t (Some p') d'' -> behind code first t p log ->
    view t p d = Ok (d', Some (Acquire l, p')) -> counted (log ++ [(Some t, Acquire l)]) ->
    free A d'' log -> at_pc A p' d'' (log ++ [(Some t, Acquire l)]);
  mo_others : forall t p d d' r log, code p -> here t (Some p) d -> l ∉ held p -> view t p d = Ok (d', r) -> stable A d log d' log;
  mo_calls : forall t c q p d0 d1 d log, code q -> here t (Some p) d -> behind code first t q log -> view t q d0 = Ok (d1, Some (c, p)) ->
    l ∉ held q -> l ∉ held p -> stable A d log d (log ++ [(Some t, c)]);
  mo_die : forall t q d0 d1 d log, code q -> behind code first t q log -> view t q d0 = Ok (d1, None) ->
    stable A d log d (log ++ [(Some t, Die)]);
  mo_irq : forall n d d' log, on_irq n d = Some d' -> stable A d log d' (log ++ [(None, V n)])
}.

(** The invariant: the assertion that goes with the state of the lock. *)
Definition site_holds (A : assertions) (x : ctl pc) d log : Prop :=
  match x with
  | At p | Woken _ p => at_pc A p d log
  | Retry c _ p => in_call A c p d log
  | Dead => False
  end.

Definition protected (A : assertions) (a : view_state pc D) : Prop :=
  (lock_trace l None (vlog a) = Some None -> free A (vdata a) (vlog a)) /\
  (forall t, lock_trace l None (vlog a) = Some (Some t) ->
     exists x, sites a !! t = Some x /\ site_holds A x (vdata a) (vlog a)).

Lemma site_stable A held_by x d log d' log' :
  stable A d log d' log' -> site_typed code held x held_by -> l ∈ held_by ->
  site_holds A x d log -> site_holds A x d' log'.
Proof.
  intros (_ & Hp & Hc) Ht Hin. destruct x as [p|c old p|old p|]; cbn in *; [destruct Ht as [_ ->]; auto|auto|destruct Ht as [_ ->]; auto|done].
Qed.

Lemma stable_refl A d log : stable A d log d log.
Proof. by repeat split. Qed.

(** A step of [t] that leaves the lock alone. *)
Lemma protected_others A own a d' log' t y :
  protected A a -> well_typed code held own a -> stable A (vdata a) (vlog a) d' log' ->
  lock_trace l None log' = lock_trace l None (vlog a) ->
  (lock_trace l None (vlog a) = Some (Some t) -> site_holds A y d' log') ->
  protected A (mkView (<[t := y]> (sites a)) d' log').
Proof.
  intros [Hf Hp] [Hs Ho] Hst Htr Hy. split; cbn; rewrite Htr.
  - intros E. by apply Hst, Hf.
  - intros u Hu. destruct (decide (u = t)) as [->|Hne].
    + exists y. rewrite lookup_insert_eq. split; [done|]. by apply Hy.
    + destruct (Hp u Hu) as (x & Hx & Hh). exists x. rewrite lookup_insert_ne by done. split; [done|].
      eapply site_stable; [done|by apply Hs|by apply Ho|done].
Qed.

Lemma astep_tracked own a a' :
  typed code held -> tracks -> well_typed code held own a -> tracked a -> astep init a a' -> tracked a'.
Proof.
  intros Hty Htk [Hs _] Ht Hst.
  assert (forall t x d log, here t (going x) d ->
    (forall u q, u <> t -> here u q (vdata a) -> here u q d) -> tracked (mkView (<[t := x]> (sites a)) d log)) as Hput.
  { intros t x d log Hx Hd u y. cbn [sites vdata]. destruct (decide (u = t)) as [->|Hne].
    - rewrite lookup_insert_eq. by intros [= <-].
    - rewrite lookup_insert_ne by done. intros Hy%Ht. eauto. }
  destruct Hst as [t p d c p' old Hp Hv|t p d old Hp Hv|t c old p x Hp Hx Hd He|t old p Hp|n d Hi|t old p x Hp Hx].
  1, 2: pose proof (Hs _ _ Hp) as [Hcode _]; pose proof (Ht _ _ Hp) as Hhere.
  - apply Hput; [|intros; by eapply (tk_others Htk)]. cbn. rewrite decide_False; [by eapply (tk_view Htk)|].
    intros ->. destruct (ty_call _ _ Hty _ _ _ _ _ _ Hcode Hv) as [_ Hl]. discriminate Hl.
  - apply Hput; [by eapply (tk_end Htk)|intros; by eapply (tk_others Htk)].
  - apply Hput; [|done]. pose proof (Ht _ _ Hp) as Hh. cbn in Hh. rewrite decide_False in Hh by done. by destruct Hx as [-> | ->].
  - apply Hput; [|done]. apply (Ht _ _ Hp).
  - intros t x Hx. eapply (tk_irq Htk); [done|]. by apply Ht.
  - apply Hput; [|done]. destruct Hp as [Hp|Hp]; pose proof (Ht _ _ Hp); by destruct Hx as [-> | ->].
Qed.

Lemma protected_call A own a t c h p x :
  typed code held -> monitor A -> protected A a -> well_typed code held own a -> origins code first a -> here t (Some p) (vdata a) ->
  (exists old, sites a !! t = Some (Retry c old p)) -> (exists old, x = At p \/ x = Woken old p) ->
  own t = h -> locks_after c h = Some (held p) -> c <> Die -> enabled init t c (vlog a) ->
  plausible (mkView (<[t := x]> (sites a)) (vdata a) (vlog a ++ [(Some t, c)])) ->
  protected A (mkView (<[t := x]> (sites a)) (vdata a) (vlog a ++ [(Some t, c)])).
Proof.
  intros Hty Hm Hpr Hwt Hfc Hhere [old Hp] [old' Hx] <- Hc Hnd He [Htr Hcnt].
  pose proof Hwt as [Hs Ho]. pose proof Hpr as [Hf Hh].
  assert (exists q d d', code q /\ behind code first t q (vlog a) /\ view t q d = Ok (d', Some (c, p))) as
    (q & d0 & d1 & Hcode & Hbeh & Hv).
  { destruct (proj1 Hfc _ _ Hp) as (q & d & d' & [r|] & Hq & Hb & Hv & Hr); [subst r; eauto 10|done]. }
  pose proof (own_after init own t c (held p) (vlog a) Ho He Hc Htr) as Hafter. cbn in Hafter.
  assert (site_holds A x (vdata a) (vlog a ++ [(Some t, c)]) <-> at_pc A p (vdata a) (vlog a ++ [(Some t, c)])) as Hsx
    by by destruct Hx as [-> | ->].
  assert (forall u, u <> t -> lock_trace l None (vlog a ++ [(Some t, c)]) = Some (Some u) <->
    lock_trace l None (vlog a) = Some (Some u)) as Hothers.
  { intros u Hu. rewrite <- Hafter, <- Ho. by rewrite decide_False. }
  assert (lock_trace l None (vlog a ++ [(Some t, c)]) = Some (Some t) <-> l ∈ held p) as Hmine
    by by rewrite <- Hafter, decide_True.
  destruct (decide (l ∈ own t)) as [Hin|Hout].
  - pose proof (proj1 (Ho t l) Hin) as Et.
    destruct (Hh t Et) as (y & Hy & Hhold). rewrite Hp in Hy. injection Hy as <-. cbn in Hhold.
    pose proof (mo_call _ Hm t c q p d0 d1 (own t) (vdata a) (vlog a) Hcode Hhere Hbeh Hv Hin Hc Hhold He Hcnt) as Hnext.
    split; cbn.
    + intros E. rewrite decide_False in Hnext; [done|]. intros Hl. apply Hmine in Hl. congruence.
    + intros u Hu. destruct (decide (u = t)) as [->|Hne].
      * exists x. rewrite lookup_insert_eq. split; [done|]. rewrite decide_True in Hnext by by apply Hmine.
        by apply Hsx.
      * apply Hothers in Hu; [|done]. congruence.
  - destruct (decide (l ∈ held p)) as [Hin'|Hout'].
    + apply (acquires l) in Hc as ->; [|done|done]. cbn in He. split; cbn.
      * intros E. apply Hmine in Hin'. congruence.
      * intros u Hu. destruct (decide (u = t)) as [->|Hne].
        -- exists x. rewrite lookup_insert_eq. split; [done|]. apply Hsx.
           eapply mo_acquire; [done|done|done|done|done|done|]. by apply Hf.
        -- apply Hothers in Hu; [|done]. congruence.
    + eapply protected_others; [done|done| | |].
      * eapply mo_calls; [done|done|done|done|done| |done]. intros Hin. apply Hout.
        by eapply (locks_after_inj l c _ (held q)); [|eapply ty_call|].
      * specialize (Htr l) as [h Htr]. cbn in Htr. rewrite Htr. symmetry.
        rewrite lock_trace_snoc in Htr. destruct (lock_trace l None (vlog a)) as [h0|] eqn:E0; [|done].
        assert (lock_trace l None (vlog a ++ [(Some t, c)]) = Some h) as E1 by by rewrite lock_trace_snoc, E0.
        rewrite E1 in Hothers, Hmine. assert (h0 <> Some t) by (intros ->; by apply Hout, Ho).
        assert (h <> Some t) by (intros ->; by apply Hout', Hmine).
        destruct h as [u|], h0 as [u0|]; try done.
        -- destruct (Hothers u) as [H1 _]; [congruence|]. by rewrite H1.
        -- destruct (Hothers u) as [H1 _]; [congruence|]. by rewrite H1.
        -- destruct (Hothers u0) as [_ H1]; [congruence|]. by rewrite H1.
      * intros E. by apply Ho in E.
Qed.

Lemma astep_protected A own a a' :
  typed code held -> monitor A -> origins code first a -> well_typed code held own a -> protected A a -> tracked a -> plausible a' ->
  astep init a a' -> protected A a'.
Proof.
  intros Hty Hm Hfc Hwt Hpr Htk Htr Hst. pose proof Hwt as [Hs Ho]. pose proof Hpr as [Hf Hh].
  destruct Hst as [t p d c p' old Hp Hv|t p d old Hp Hv|t c old p x Hp Hx Hd He|t old p Hp|n d Hi|t old p x Hp Hx].
  - pose proof (Hs _ _ Hp) as [Hcode Et]. destruct (decide (l ∈ held p)) as [Hin|Hout].
    + assert (lock_trace l None (vlog a) = Some (Some t)) as E by (apply Ho; by rewrite Et).
      destruct (Hh t E) as (y & Hy & Hhold). rewrite Hp in Hy. injection Hy as <-. cbn in Hhold.
      destruct (mo_view _ Hm t p (vdata a) (vlog a) Hcode (Htk _ _ Hp) Hin Hhold) as (d2 & c2 & p2 & Hv2 & Hc2).
      rewrite Hv in Hv2. injection Hv2 as <- <- <-. split; cbn; [congruence|].
      intros u Hu. rewrite E in Hu. injection Hu as <-. eexists. rewrite lookup_insert_eq. by split.
    + apply (protected_others A own); [done|done|eapply mo_others; [done|done|exact (Htk _ _ Hp)|done|done]|done|].
      intros E. apply Ho in E. by rewrite Et in E.
  - pose proof (Hs _ _ Hp) as [Hcode Et]. pose proof (ty_end _ _ Hty _ _ _ _ Hcode Hv) as E0.
    apply (protected_others A own); [done|done|eapply mo_others; [done|done|exact (Htk _ _ Hp)|by rewrite E0|done]|done|].
    intros E. apply Ho in E. rewrite Et, E0 in E. set_solver.
  - pose proof (Hs _ _ Hp) as [[_ Hc]|[-> _]]; [|done].
    pose proof (Htk _ _ Hp) as Hhere. cbn in Hhere. rewrite decide_False in Hhere by done.
    eapply protected_call; [done|done|done|done|done|done|eauto|eauto|done|done|done|done|done].
  - pose proof (Hs _ _ Hp) as [[_ Hc]|[_ E0]]; [done|].
    apply (protected_others A own); [done|done| | |].
    + destruct (proj1 Hfc _ _ Hp) as (q & d & d' & [r|] & Hq & Hb & Hv & Hr); [|by eapply mo_die].
      subst r. destruct (ty_call _ _ Hty _ _ _ _ _ _ Hq Hv) as [_ Hl]. discriminate Hl.
    + rewrite lock_trace_snoc. by destruct (lock_trace l None (vlog a)).
    + intros E. apply Ho in E. rewrite E0 in E. set_solver.
  - pose proof (mo_irq _ Hm n _ _ (vlog a) Hi) as Hsi. split; cbn; rewrite lock_trace_snoc.
    + destruct (lock_trace l None (vlog a)); [|done]. intros E. by apply Hsi, Hf.
    + intros u Hu. destruct (lock_trace l None (vlog a)) eqn:E; [|done].
      destruct (Hh u Hu) as (x & Hx & Hhold). exists x. split; [done|].
      eapply site_stable; [done|by apply Hs|apply Ho; by rewrite E|done].
  - apply (protected_others A own); [done|done|apply stable_refl|done|].
    intros E. destruct (Hh t E) as (y & Hy & Hhold).
    assert (site_holds A y (vdata a) (vlog a) -> site_holds A x (vdata a) (vlog a)) as H.
    { destruct Hp as [Hp|Hp], Hx as [-> | ->]; rewrite Hp in Hy; by injection Hy as <-. }
    by apply H.
Qed.

(** The rule of monitors: in every state a run reaches, either the lock is free
    and the data satisfy what goes with that, or one thread holds it, and they
    satisfy what its place in the code says. *)
Lemma monitor_rule_own (A : assertions) s0 s chs :
  typed code held -> (forall t x, ctls s0 !! t = Some x -> site_typed code held x ∅) -> monitor A ->
  tracks -> tracked (abs s0) -> free A (data s0) [] ->
  starts first s0 -> booted init s0 -> runs s0 chs s -> small init (log s) ->
  tracked (abs s) /\ exists own : positive -> gset positive,
    (forall t x, ctls s !! t = Some x -> site_typed code held x (own t)) /\
    (forall t k, k ∈ own t <-> lock_trace k None (log s) = Some (Some t)) /\
    ((forall t, l ∉ own t) /\ free A (data s) (log s) \/
     exists t x, l ∈ own t /\ (forall u, l ∈ own u -> u = t) /\
       ctls s !! t = Some x /\ site_holds A x (data s) (log s)).
Proof.
  intros Hty H0 Hm Htk Ht0 Hf0 Hfst Hb Hr Hsm.
  assert (tracked (abs s) /\
    exists own, origins code first (abs s) /\ well_typed code held own (abs s) /\ protected A (abs s)) as (Ht & own & _ & [Hs Ho] & Hf & Hh).
  { apply (runs_invariant init (fun a => tracked a /\ exists own, origins code first a /\ well_typed code held own a /\ protected A a) s0 chs s); try done.
    - intros b b' (Ht & own & Hfc & Hw & Hp) Hpl Hst. split; [by eapply astep_tracked|]. destruct (astep_well_typed init code held own b b') as [own' Hw']; [done|done|apply Hpl|done|].
      exists own'. split; [|split; [done|by eapply astep_protected]].
      eapply astep_origins; [|done|done]. intros ? ? ? ? ? ? Hq Hv. by apply (ty_call _ _ Hty _ _ _ _ _ _ Hq Hv).
    - split; [done|]. exists (fun _ => ∅). split; [|split; [split; [exact H0|]|]].
      + apply starts_origins; [done|done|apply (b_log _ _ Hb)].
      + cbn. rewrite (b_log _ _ Hb). cbn. set_solver.
      + unfold protected. cbn. rewrite (b_log _ _ Hb). cbn. split; [done|naive_solver]. }
  destruct (runs_sinv init s0 chs s Hb Hr Hsm) as [cts Hinv].
  destruct (s_lockok _ _ _ Hinv l) as (h & Hh' & _). cbn in *.
  split; [done|]. exists own. split; [done|]. split; [done|]. destruct h as [t|].
  - right. destruct (Hh t Hh') as (x & Hx & Hs'). exists t, x. split; [by apply Ho|].
    split; [|done]. intros u Hu. apply Ho in Hu. congruence.
  - left. split; [|by apply Hf]. intros u Hu. apply Ho in Hu. congruence.
Qed.

End Monitor.

(** The same, when the data say nothing of where the threads are. *)
Definition nowhere {pc D : Type} : positive -> option pc -> D -> Prop := fun _ _ _ => True.

Section Rule.
Context {Q : Type -> Type} `{!Queue Q, !QueueLaws Q} {pc D : Type} `{!Client pc D}.
Context (init : positive -> Z) (code : pc -> Prop) (held : pc -> gset positive) (l : positive).
Implicit Types (s : Sys Q pc D).

Lemma tracks_nowhere : tracks code (nowhere (pc := pc) (D := D)).
Proof. done. Qed.

Lemma tracked_nowhere (a : view_state pc D) : tracked nowhere a.
Proof. done. Qed.

Lemma monitor_rule (A : assertions) s0 s chs :
  typed code held -> (forall t x, ctls s0 !! t = Some x -> site_typed code held x ∅) -> monitor init code code held l nowhere A ->
  free A (data s0) [] ->
  booted init s0 -> runs s0 chs s -> small init (log s) ->
  exists own : positive -> gset positive,
    (forall t x, ctls s !! t = Some x -> site_typed code held x (own t)) /\
    (forall t k, k ∈ own t <-> lock_trace k None (log s) = Some (Some t)) /\
    ((forall t, l ∉ own t) /\ free A (data s) (log s) \/
     exists t x, l ∈ own t /\ (forall u, l ∈ own u -> u = t) /\
       ctls s !! t = Some x /\ site_holds A x (data s) (log s)).
Proof.
  intros Hty H0 Hm Hf Hb Hr Hsm.
  apply (monitor_rule_own init code code held l (fun _ H => H) nowhere A s0 s chs); try done.
  intros t x Hx. pose proof (H0 _ _ Hx) as Hst.
  destruct (b_ctls _ _ Hb _ _ Hx) as [[p ->]|(old & p & ->)]; exists p; (split; [apply Hst|]); [by left|right; by exists old].
Qed.
End Rule.
