(* ===== verification/SynchList.v ===== *)
(** Synchronized lists (threads/synchlist.h, threads/synchlist.cc): lists that any
    number of threads append to and remove from, where Remove waits while there is
    nothing to remove.

    The code of the threads is any [Caller]: what it does between two calls of
    Append or Remove is its own, as long as it leaves the locks and conditions of the
    lists alone.  List [b] has its lock and its condition listEmpty under the same
    number. *)
From Stdlib Require Import ZArith Lia Bool.
From stdpp Require Import base numbers list gmap fin_maps fin_sets functions.
From S2P Require Import Prelude Lists Machine Threads Synch System Steps Conditions Monitor.

(** What a caller does next: another call of the kernel, Append, Remove, whose item
    it goes on with, or it is done. *)
Inductive action (I P : Type) :=
| Other (c : prim) (p : P)
| AppendTo (b : positive) (x : I) (p : P)
| RemoveFrom (b : positive) (k : I -> P)
| Return.
Arguments Other {I P} c p.
Arguments AppendTo {I P} b x p.
Arguments RemoveFrom {I P} b k.
Arguments Return {I P}.

Class Caller (I P E : Type) := {
  next : positive -> P -> E -> res (E * action I P);
  next_irq : positive -> E -> option E
}.

Section SynchList.
Context {Q : Type -> Type} `{!Queue Q, !QueueLaws Q} {I P E : Type} `{!Caller I P E}.

(** Where a thread is in Append and Remove: behind Acquire; behind Signal; at the test
    of the loop; behind the Sleep of Wait; behind its Acquire. *)
Inductive sl_pc :=
| Outside (p : P)
| Appending (b : positive) (x : I) (p : P)
| Appended (b : positive) (p : P)
| Testing (b : positive) (k : I -> P)
| Waited (b : positive) (k : I -> P)
| Checked (b : positive) (k : I -> P).

(** [appended] and [removed] are ghosts: the items of each list in the order they went
    in and came out. *)
Record sl_data := mkSl {
  env : E;
  lists : positive -> Q I;
  appended : positive -> list I;
  removed : positive -> list I
}.

Definition set_env (e : E) (d : sl_data) : sl_data := mkSl e (lists d) (appended d) (removed d).

(** [list->Append(item)] *)
Definition SynchList_Append (b : positive) (x : I) (d : sl_data) : res sl_data :=
  q <- q_append (lists d b) x ;;
  Ok (mkSl (env d) (<[b := q]> (lists d)) (<[b := appended d b ++ [x]]> (appended d)) (removed d)).

(** [item = list->Remove(); ASSERT(item != NULL)] *)
Definition SynchList_Remove (b : positive) (d : sl_data) : res (sl_data * I) :=
  '(q, r) <- q_sorted_remove (lists d b) ;;
  match r with
  | Some (_, x) => Ok (mkSl (env d) (<[b := q]> (lists d)) (appended d) (<[b := removed d b ++ [x]]> (removed d)), x)
  | None => Err AssertionFailed
  end.

Definition SynchList_view (t : positive) (p : sl_pc) (d : sl_data) : res (sl_data * option (prim * sl_pc)) :=
  match p with
  | Outside p =>
      '(e, a) <- next t p (env d) ;;
      Ok (set_env e d,
          match a with
          | Other c p => Some (c, Outside p)
          | AppendTo b x p => Some (Acquire b, Appending b x p)
          | RemoveFrom b k => Some (Acquire b, Testing b k)
          | Return => None
          end)
  | Appending b x p => d <- SynchList_Append b x d ;; Ok (d, Some (Signal b b, Appended b p))
  | Appended b p => Ok (d, Some (Release b, Outside p))
  | Testing b k =>
      if q_is_empty (lists d b) then Ok (d, Some (Wait b b, Waited b k))
      else '(d, x) <- SynchList_Remove b d ;; Ok (d, Some (Release b, Outside (k x)))
  | Waited b k => Ok (d, Some (Acquire b, Checked b k))
  | Checked b k => Ok (d, Some (AssertHeld b, Testing b k))
  end.

#[export] Instance SynchList_client : Client sl_pc sl_data := {
  view := SynchList_view;
  on_irq n d := match next_irq n (env d) with Some e => Some (set_env e d) | None => None end
}.

(** ** What is asked of the callers *)

(** [boxes] are the lists. *)
Context (boxes : gset positive).

Definition foreign (c : prim) : Prop :=
  match c with
  | Acquire l | Release l | AssertHeld l => l ∉ boxes
  | Wait c l | Signal c l | Broadcast c l => l ∉ boxes /\ c ∉ boxes
  | Die => False
  | _ => True
  end.

Record caller_ok (ocode : P -> Prop) (oheld : P -> gset positive) : Prop := {
  co_other : forall t p e e' c p', ocode p -> next t p e = Ok (e', Other c p') ->
    ocode p' /\ foreign c /\ locks_after c (oheld p) = Some (oheld p');
  co_append : forall t p e e' b x p', ocode p -> next t p e = Ok (e', AppendTo b x p') ->
    b ∈ boxes /\ oheld p = ∅ /\ ocode p' /\ oheld p' = ∅;
  co_remove : forall t p e e' b k, ocode p -> next t p e = Ok (e', RemoveFrom b k) ->
    b ∈ boxes /\ oheld p = ∅ /\ forall x, ocode (k x) /\ oheld (k x) = ∅;
  co_return : forall t p e e', ocode p -> next t p e = Ok (e', Return) -> oheld p = ∅;
  co_apart : forall p b, ocode p -> b ∈ boxes -> b ∉ oheld p
}.

Context (ocode : P -> Prop) (oheld : P -> gset positive).
Hypothesis Hcaller : caller_ok ocode oheld.

Definition sl_code (p : sl_pc) : Prop :=
  match p with
  | Outside p => ocode p
  | Appending b _ p | Appended b p => b ∈ boxes /\ ocode p /\ oheld p = ∅
  | Testing b k | Waited b k | Checked b k => b ∈ boxes /\ forall x, ocode (k x) /\ oheld (k x) = ∅
  end.

Definition sl_held (p : sl_pc) : gset positive :=
  match p with
  | Outside p => oheld p
  | Waited _ _ => ∅
  | Appending b _ _ | Appended b _ | Testing b _ | Checked b _ => {[b]}
  end.


(** What each program counter leads to. *)
Inductive sl_step (t : positive) : sl_pc -> prim -> sl_pc -> Prop :=
| st_other p e e' c p' : next t p e = Ok (e', Other c p') -> sl_step t (Outside p) c (Outside p')
| st_append p e e' b x p' : next t p e = Ok (e', AppendTo b x p') -> sl_step t (Outside p) (Acquire b) (Appending b x p')
| st_remove p e e' b k : next t p e = Ok (e', RemoveFrom b k) -> sl_step t (Outside p) (Acquire b) (Testing b k)
| st_appending b x p : sl_step t (Appending b x p) (Signal b b) (Appended b p)
| st_appended b p : sl_step t (Appended b p) (Release b) (Outside p)
| st_wait b k : sl_step t (Testing b k) (Wait b b) (Waited b k)
| st_take b k x : sl_step t (Testing b k) (Release b) (Outside (k x))
| st_waited b k : sl_step t (Waited b k) (Acquire b) (Checked b k)
| st_checked b k : sl_step t (Checked b k) (AssertHeld b) (Testing b k).

Lemma view_step t p d d' c p' :
  view (Client := SynchList_client) t p d = Ok (d', Some (c, p')) -> sl_step t p c p'.
Proof.
  destruct p as [p|b x p|b p|b k|b k|b k]; cbn; intros H.
  - inv_bind H. destruct v as [e [c0 p0|b x p0|b k|]]; [injection H as _ <- <-; by econstructor..|done].
  - inv_bind H. injection H as _ <- <-. constructor.
  - injection H as _ <- <-. constructor.
  - destruct (q_is_empty _); [injection H as _ <- <-; constructor|]. inv_bind H. destruct v as [d1 x].
    injection H as _ <- <-. constructor.
  - injection H as _ <- <-. constructor.
  - injection H as _ <- <-. constructor.
Qed.

Lemma SynchList_typed : typed sl_code sl_held.
Proof.
  split.
  - intros t p d d' c p' Hc H. apply view_step in H.
    destruct H as [p e e' c p' H|p e e' b x p' H|p e e' b k H|b x p|b p|b k|b k x|b k|b k]; cbn in Hc |- *.
    + destruct (co_other _ _ Hcaller _ _ _ _ _ _ Hc H) as (? & _ & ?). done.
    + destruct (co_append _ _ Hcaller _ _ _ _ _ _ _ Hc H) as (? & -> & ? & ?). split; [done|]. apply acquire_first.
    + destruct (co_remove _ _ Hcaller _ _ _ _ _ _ Hc H) as (? & -> & ?). split; [done|]. apply acquire_first.
    + split; [done|]. by rewrite decide_True by set_solver.
    + destruct Hc as (? & ? & ->). split; [done|]. apply release_last.
    + split; [done|]. apply release_last.
    + destruct Hc as (? & Hk). destruct (Hk x) as [? ->]. split; [done|]. apply release_last.
    + split; [done|]. apply acquire_first.
    + split; [done|]. by rewrite decide_True by set_solver.
  - intros t p d d' Hc H. destruct p as [p|b x p|b p|b k|b k|b k]; cbn in Hc, H |- *; try done; try inv_bind H.
    + destruct v as [e [c0 p0|b x p0|b k|]]; try done. by eapply (co_return _ _ Hcaller).
    + done.
    + destruct (q_is_empty _); [done|]. inv_bind H. by destruct v.
Qed.

(** ** Nothing is lost, nothing is forgotten *)

Section Runs.
Context (init : positive -> Z) (b : positive).
Hypothesis Hb : b ∈ boxes.
Implicit Types (d : sl_data) (log : list event).

(** What was appended to the list and not removed is in it, in order; and unless nobody
    waits, there are at most [n] items more than woken threads to take them. *)
Definition holds (n : nat) d log : Prop :=
  exists xs, q_rep (lists d b) xs /\ appended d b = removed d b ++ xs.*2 /\
    (waiters b log = 0%nat \/ (length xs + waiters b log <= size (parked b log) + n)%nat).

Definition sl_assertions : assertions := {|
  free := holds 0;
  at_pc p d log :=
    match p with
    | Outside _ | Waited _ _ => True
    | Appending _ _ _ | Appended _ _ => holds 0 d log
    | Testing _ _ | Checked _ _ => holds 1 d log
    end;
  in_call c p d log :=
    match p with
    | Outside _ => c = Release b /\ holds 0 d log
    | Appended _ _ => c = Signal b b /\ holds 1 d log
    | Testing _ _ => c = AssertHeld b /\ holds 1 d log
    | Waited _ _ => c = Wait b b /\ holds 1 d log /\ q_is_empty (lists d b) = true
    | Appending _ _ _ | Checked _ _ => False
    end
|}.

Lemma holds_le n m d log : (n <= m)%nat -> holds n d log -> holds m d log.
Proof. intros Hle (xs & H1 & H2 & H3). exists xs. split_and!; [done..|]. destruct H3; [by left|right; lia]. Qed.

Lemma holds_same n d d' log log' :
  lists d' b = lists d b -> appended d' b = appended d b -> removed d' b = removed d b ->
  waiters b log' = waiters b log -> parked b log' = parked b log -> holds n d log -> holds n d' log'.
Proof. intros E1 E2 E3 E4 E5 (xs & H1 & H2 & H3). exists xs. by rewrite E1, E2, E3, E4, E5. Qed.

Lemma sl_stable d d' log log' :
  lists d' b = lists d b -> appended d' b = appended d b -> removed d' b = removed d b ->
  waiters b log' = waiters b log -> parked b log' = parked b log -> stable sl_held b sl_assertions d log d' log'.
Proof.
  intros E1 E2 E3 E4 E5.
  assert (forall n, holds n d log -> holds n d' log') as Hh by (intros n; by apply holds_same).
  split; [|split]; cbn.
  - apply Hh.
  - intros []; auto.
  - intros c []; rewrite ?E1; naive_solver.
Qed.

(** A thread anywhere but behind the Sleep of its Wait is not parked. *)
Lemma not_parked t q log :
  behind sl_code sl_code t q log -> (forall k, q <> Waited b k) -> t ∉ parked b log.
Proof.
  intros Hbeh Hq [lk Hl]%elem_of_parked. destruct (behind_call _ _ _ _ _ _ Hbeh Hl) as (q0 & d & d' & Hc & Hv).
  apply view_step in Hv. inversion Hv; subst; cbn in Hc.
  - match goal with H : next _ _ _ = _ |- _ => destruct (co_other _ _ Hcaller _ _ _ _ _ _ Hc H) as (_ & Hf & _) end.
    cbn in Hf. set_solver.
  - by eapply Hq.
Qed.

Lemma parked_call t c log :
  t ∉ parked b log -> (forall lk, c <> Wait b lk) -> parked b (log ++ [(Some t, c)]) = parked b log.
Proof.
  intros Ht Hc. rewrite parked_snoc. cbn. assert (parked b log ∖ {[t]} = parked b log) as Ep by set_solver.
  destruct c; try exact Ep. case_decide; [subst; by destruct (Hc l)|exact Ep].
Qed.

Lemma parked_acquire t log : (size (parked b log) <= size (parked b (log ++ [(Some t, Acquire b)])) + 1)%nat.
Proof.
  rewrite parked_snoc. cbn. destruct (decide (t ∈ parked b log)) as [Ht|Ht].
  - rewrite (union_difference_singleton_L t (parked b log)) at 1 by done. rewrite size_union by set_solver.
    rewrite size_singleton. lia.
  - assert (parked b log ∖ {[t]} = parked b log) as -> by set_solver. lia.
Qed.

Lemma waiters_acquire t log : waiters b (log ++ [(Some t, Acquire b)]) = waiters b log.
Proof. by rewrite waiters_snoc. Qed.

(** Taking the lock costs at most one woken thread. *)
Lemma holds_acquire t d log : holds 0 d log -> holds 1 d (log ++ [(Some t, Acquire b)]).
Proof.
  intros (xs & H1 & H2 & H3). exists xs. split_and!; [done..|]. rewrite waiters_acquire.
  pose proof (parked_acquire t log). destruct H3; [by left|right; lia].
Qed.

Lemma Append_ok x d log : holds 0 d log ->
  exists d', SynchList_Append b x d = Ok d' /\ holds 1 d' log.
Proof.
  intros (xs & H1 & H2 & H3). unfold SynchList_Append. destruct (q_append_rep _ _ _ x H1) as (q & -> & Hq).
  eexists. split; [done|]. exists (xs ++ [(0, x)]). cbn. rewrite !fn_lookup_insert. split_and!; [done| |].
  - by rewrite H2, fmap_app, <- app_assoc.
  - rewrite length_app. cbn. destruct H3; [by left|right; lia].
Qed.

Lemma Remove_ok d log : holds 1 d log -> q_is_empty (lists d b) = false ->
  exists d' x, SynchList_Remove b d = Ok (d', x) /\ holds 0 d' log.
Proof.
  intros (xs & H1 & H2 & H3) He. rewrite (q_is_empty_rep _ _ _ H1) in He. apply bool_decide_eq_false in He.
  destruct xs as [|[key x] xs]; [done|]. unfold SynchList_Remove.
  destruct (q_sorted_remove_rep _ _ _ H1) as (q & -> & Hq). cbn. eexists _, x. split; [done|].
  exists xs. cbn. rewrite !fn_lookup_insert. split_and!; [done| |].
  - by rewrite H2, <- app_assoc.
  - cbn in H3. destruct H3; [by left|right; lia].
Qed.

Lemma holder_view t p d log : sl_code p -> b ∈ sl_held p -> at_pc sl_assertions p d log ->
  exists d' c p', view (Client := SynchList_client) t p d = Ok (d', Some (c, p')) /\ in_call sl_assertions c p' d' log.
Proof.
  intros Hc Hin Hp. destruct p as [p|b' x p|b' p|b' k|b' k|b' k]; cbn in Hc, Hin, Hp; [|apply elem_of_singleton in Hin as <-..| |apply elem_of_singleton in Hin as <-].
  - by destruct (co_apart _ _ Hcaller p b).
  - destruct (Append_ok x d log Hp) as (d' & Ea & Hd). eexists _, _, _. cbn. rewrite Ea. by split.
  - by eexists _, _, _.
  - cbn. destruct (q_is_empty (lists d b)) eqn:Ee.
    + eexists _, _, _. split; [done|]. by split_and!.
    + destruct (Remove_ok d log Hp Ee) as (d' & x & Er & Hd). eexists _, _, _. rewrite Er. cbn. by split.
  - set_solver.
  - by eexists _, _, _.
Qed.

Lemma after_call t q p c d0 d1 h d log :
  sl_code q -> behind sl_code sl_code t q log -> view (Client := SynchList_client) t q d0 = Ok (d1, Some (c, p)) ->
  b ∈ h -> locks_after c h = Some (sl_held p) -> in_call sl_assertions c p d log -> counted (log ++ [(Some t, c)]) ->
  if decide (b ∈ sl_held p) then at_pc sl_assertions p d (log ++ [(Some t, c)]) else holds 0 d (log ++ [(Some t, c)]).
Proof.
  intros Hc Hbeh Hv Hin Hl Hp Hcnt. apply view_step in Hv.
  assert (c <> Acquire b -> t ∉ parked b log) as Hnp.
  { intros Ha. apply (not_parked t q log Hbeh). intros k ->. inversion Hv; subst. done. }
  destruct p as [p|b' x p|b' p|b' k|b' k|b' k]; cbn in Hp; try done.
  - destruct Hp as [-> Hp]. rewrite decide_False.
    + eapply holds_same; [done..| | |exact Hp]; [by rewrite waiters_snoc|apply parked_call; [by apply Hnp|done]].
    + cbn in Hl |- *. rewrite decide_True in Hl by done. injection Hl as <-. set_solver.
  - destruct Hp as [-> Hp]. rewrite decide_True.
    + destruct Hp as (xs & H1 & H2 & H3). exists xs. split_and!; [done..|].
      rewrite waiters_snoc, parked_call by (done || by apply Hnp). cbn. rewrite decide_True by done.
      destruct (decide (waiters b log = 0%nat)) as [->|]; [by left|right; lia].
    + cbn in Hl |- *. rewrite decide_True in Hl by done. by injection Hl as <-.
  - destruct Hp as [-> Hp]. rewrite decide_True.
    + eapply holds_same; [done..| | |exact Hp]; [by rewrite waiters_snoc|apply parked_call; [by apply Hnp|done]].
    + cbn in Hl |- *. rewrite decide_True in Hl by done. by injection Hl as <-.
  - destruct Hp as (-> & (xs & H1 & H2 & _) & He). rewrite decide_False by (cbn; set_solver).
    rewrite (q_is_empty_rep _ _ _ H1) in He. apply bool_decide_eq_true in He. subst xs.
    exists []. split_and!; [done..|]. right. cbn. pose proof (counted_parked _ b Hcnt). lia.
Qed.

(** What the other threads do. *)
Lemma others_view t p d d' r log :
  sl_code p -> b ∉ sl_held p -> view (Client := SynchList_client) t p d = Ok (d', r) ->
  stable sl_held b sl_assertions d log d' log.
Proof.
  intros Hc Hn Hv. assert (lists d' b = lists d b /\ appended d' b = appended d b /\ removed d' b = removed d b) as (E1 & E2 & E3).
  { destruct p as [p|b' x p|b' p|b' k|b' k|b' k]; cbn in Hn, Hv.
    - inv_bind Hv. destruct v as [e a]. by injection Hv as <- _.
    - destruct (SynchList_Append b' x d) as [d2|] eqn:Ha; [|done]. injection Hv as <- _.
      unfold SynchList_Append in Ha. inv_bind Ha. injection Ha as <-. cbn.
      assert (b' <> b) by set_solver. by rewrite !fn_lookup_insert_ne.
    - by injection Hv as <- _.
    - destruct (q_is_empty _); [by injection Hv as <- _|]. destruct (SynchList_Remove b' d) as [[d1 x]|] eqn:Ha; [|done].
      injection Hv as <- _. unfold SynchList_Remove in Ha. inv_bind Ha. destruct v as [q [[key y]|]]; [|done]. injection Ha as <- _. cbn.
      assert (b' <> b) by set_solver. by rewrite !fn_lookup_insert_ne.
    - by injection Hv as <- _.
    - by injection Hv as <- _. }
  by apply sl_stable.
Qed.

Lemma others_call t c q p d log :
  sl_code q -> behind sl_code sl_code t q log -> sl_step t q c p -> b ∉ sl_held q -> b ∉ sl_held p ->
  stable sl_held b sl_assertions d log d (log ++ [(Some t, c)]).
Proof.
  intros Hc Hbeh Hs Hq Hp. assert (t ∉ parked b log) as Hnp.
  { apply (not_parked t q log Hbeh). intros k ->. inversion Hs; subst. cbn in Hp. set_solver. }
  assert (match c with Wait c' _ | Signal c' _ | Broadcast c' _ => c' <> b | _ => True end) as Hcond.
  { destruct Hs; cbn in Hc, Hq; try done; try set_solver.
    match goal with H : next _ _ _ = _ |- _ => destruct (co_other _ _ Hcaller _ _ _ _ _ _ Hc H) as (_ & Hf & _) end.
    destruct c; cbn in Hf; try done; set_solver. }
  apply sl_stable; [done..| |].
  - rewrite waiters_snoc. destruct c; cbn; try done; by rewrite decide_False.
  - apply parked_call; [done|]. intros lk ->. done.
Qed.

Lemma SynchList_monitor : monitor init sl_code sl_code sl_held b nowhere sl_assertions.
Proof.
  split.
  - intros t p d log Hc _. by apply holder_view.
  - intros t c q p d0 d1 h d log Hc _ Hbeh Hv Hin Hl Hp _. by eapply after_call.
  - intros t p p' d d' d'' log Hc _ Hbeh Hv _ Hf. apply view_step in Hv.
    inversion Hv; subst; cbn in Hc |- *; [| |by apply holds_acquire..].
    + match goal with H : next _ _ _ = _ |- _ => destruct (co_other _ _ Hcaller _ _ _ _ _ _ Hc H) as (_ & Hn & _) end.
      done.
    + eapply holds_same; [done..| | |exact Hf]; [by rewrite waiters_snoc|apply parked_call; [|done]].
      by eapply (not_parked t _ log Hbeh).
  - intros t p d d' r log Hc _. by apply others_view.
  - intros t c q p d0 d1 d log Hc _ Hbeh Hv. apply view_step in Hv. by apply (others_call t c q).
  - intros t q d0 d1 d log Hc Hbeh Hv. apply sl_stable; [done..|by rewrite waiters_snoc|apply parked_call; [|done]].
    apply (not_parked t q log Hbeh). intros k ->. done.
  - intros n d d' log Hi. cbn in Hi. destruct (next_irq n (env d)); [|done]. injection Hi as <-.
    apply sl_stable; [done..|by rewrite waiters_snoc|by rewrite parked_snoc].
Qed.

(** Whoever has the lock, the list is in order. *)
Lemma site_fifo (own : positive -> gset positive) x t d log :
  site_typed sl_code sl_held x (own t) -> b ∈ own t -> site_holds sl_assertions x d log -> exists n, holds n d log.
Proof.
  intros Hty Hin Hh. destruct x as [p|c old p|old p|]; cbn in Hty, Hh; [| | |done].
  1, 3: destruct Hty as [Hc E1]; rewrite E1 in Hin; destruct p; cbn in Hc, Hin, Hh; eauto;
    [by destruct (co_apart _ _ Hcaller _ _ Hc Hb)|set_solver].
  destruct p; [| done | | | |done]; destruct Hh as [_ Hh]; [| | |destruct Hh]; eauto.
Qed.
End Runs.

Section Results.
Context (init : positive -> Z).
Implicit Types s : Sys Q sl_pc sl_data.

(** The threads start outside, with empty lists. *)
Record sl_starts s : Prop := {
  sb_booted : booted init s;
  sb_sites : forall t x, ctls s !! t = Some x -> exists p, ocode p /\ oheld p = ∅ /\
    (x = At (Outside p) \/ exists old, x = Woken old (Outside p));
  sb_lists : forall b, b ∈ boxes ->
    q_rep (lists (data s) b) [] /\ appended (data s) b = [] /\ removed (data s) b = []
}.

Lemma sl_runs s0 s chs b :
  sl_starts s0 -> runs s0 chs s -> small init (log s) -> b ∈ boxes ->
  exists own : positive -> gset positive,
    (forall t x, ctls s !! t = Some x -> site_typed sl_code sl_held x (own t)) /\
    (forall t k, k ∈ own t <-> lock_trace k None (log s) = Some (Some t)) /\
    ((forall t, b ∉ own t) /\ holds b 0 (data s) (log s) \/
     exists t x, b ∈ own t /\ (forall u, b ∈ own u -> u = t) /\
       ctls s !! t = Some x /\ site_holds (sl_assertions b) x (data s) (log s)).
Proof.
  intros [Hb H0 Hl] Hr Hsm Hin.
  apply (monitor_rule init sl_code sl_held b (sl_assertions b) s0 s chs); try done.
  - apply SynchList_typed.
  - intros t x Hx. destruct (H0 t x Hx) as (p & Hp & Hh & [->|[old ->]]); (split; [done|]); by rewrite <- Hh.
  - by apply SynchList_monitor.
  - destruct (Hl b Hin) as (H1 & H2 & H3). exists []. rewrite H2, H3. split_and!; [done..|]. by left.
Qed.

(** C11: a synchronized list is a queue, for any number of threads and any code
    around the calls.  In every run, what has been appended is what Remove has
    given out, in the same order and each item once, followed by what is in the
    list; and the ASSERT of Remove never fails. *)
Theorem SynchList_fifo s0 s (chs : list choice) :
  sl_starts s0 -> runs s0 chs s -> small init (log s) ->
  forall b, b ∈ boxes ->
    (exists xs, q_rep (lists (data s) b) xs /\ appended (data s) b = removed (data s) b ++ xs.*2) /\
    (forall t k, ctls s !! t = Some (At (Testing b k)) ->
       exists d' c p', view (Client := SynchList_client) t (Testing b k) (data s) = Ok (d', Some (c, p')) /\
         (c = Wait b b \/ exists x, p' = Outside (k x) /\ removed d' b = removed (data s) b ++ [x])).
Proof.
  intros Hs Hr Hsm b Hin. destruct (sl_runs s0 s chs b Hs Hr Hsm Hin) as (own & Hty & _ & Hor).
  assert (exists n, holds b n (data s) (log s)) as [n Hn].
  { destruct Hor as [[_ Hf]|(t & x & Ht & _ & Hx & Hh)]; [by exists 0%nat|]. by eapply site_fifo; [|apply Hty|done|]. }
  destruct Hn as (xs & H1 & H2 & _). split; [by exists xs|]. intros t k Hx. cbn.
  rewrite (q_is_empty_rep _ _ _ H1). case_bool_decide as E1; [eexists _, _, _; split; [done|by left]|].
  destruct xs as [|[key y] xs]; [done|]. unfold SynchList_Remove.
  destruct (q_sorted_remove_rep _ _ _ H1) as (q & -> & _). cbn. eexists _, _, _. split; [done|]. right.
  exists y. split; [done|]. cbn. by rewrite fn_lookup_insert.
Qed.

(** When nothing is left to run, nobody is inside Append or Remove. *)
Lemma settled_outside s cts (own : positive -> gset positive) t x b :
  settled sl_code sl_code s cts -> b ∈ boxes -> ctls s !! t = Some x -> site_typed sl_code sl_held x (own t) ->
  lock_trace b None (log s) = Some (Some t) -> b ∈ own t -> False.
Proof.
  intros Hset Hin Hx Hty Htr Hown. pose proof (holder_called _ _ _ Htr) as Hcalled.
  assert (forall p, sl_code p -> own t = sl_held p -> comes_from sl_code t (Wait b b) p \/
    (exists c lk, comes_from sl_code t (Wait c lk) p) -> False) as Hwait.
  { intros p Hp Eo Hf. assert (exists c lk, comes_from sl_code t (Wait c lk) p) as (c & lk & q & d & d' & Hq & Hv)
      by (destruct Hf; eauto). clear Hf.
    apply view_step in Hv. rewrite Eo in Hown. inversion Hv; subst; cbn in Hown; [|set_solver].
    by destruct (co_apart _ _ Hcaller _ _ Hp Hin). }
  pose proof (se_sites _ _ _ _ Hset t x Hx) as Hsite. destruct x as [p|c old p|old p|]; cbn in Hty.
  1, 3: destruct Hty as [Hp Eo]; destruct Hsite as [[? _]|(c & lk & _ & Hf & _)]; [done|]; eapply Hwait; eauto.
  - destruct Hsite as [(q & d & d' & Hq & _ & Hv) Hc]. apply view_step in Hv.
    destruct Hty as [[Hp Hl]|[-> Ho]]; [|rewrite Ho in Hown; set_solver].
    destruct Hc as [(n & y & -> & _)|(l & u & -> & _)]; cbn in Hl.
    + injection Hl as Hl. rewrite Hl in Hown. inversion Hv; subst. by destruct (co_apart _ _ Hcaller _ _ Hp Hin).
    + case_decide as Hnl; [done|]. injection Hl as Hl. assert (b ∈ sl_held p) as Hbp by (rewrite <- Hl; set_solver).
      inversion Hv; subst; cbn in Hbp; [by destruct (co_apart _ _ Hcaller _ _ Hp Hin)|..];
        apply elem_of_singleton in Hbp; congruence.
  - rewrite Hty in Hown. set_solver.
Qed.

(** The parked threads all wait. *)
Lemma settled_parked s cts b t :
  settled sl_code sl_code s cts -> b ∈ boxes -> lock_trace b None (log s) = Some None ->
  t ∈ parked b (log s) -> t ∈ (cts (CondQ b)).*2.
Proof.
  intros Hset Hin Hfree [lk Hlk]%elem_of_parked. destruct (se_called _ _ _ _ Hset _ _ Hlk) as [x Hx].
  pose proof (se_sites _ _ _ _ Hset t x Hx) as Hsite. destruct x as [p|c old p|old p|]; [| | |congruence].
  1, 3: destruct Hsite as [[? _]|(c & lk' & H1 & _ & H2)]; [congruence|]; rewrite Hlk in H1; by injection H1 as <- _.
  destruct Hsite as [(q & d & d' & Hq & Hbeh & Hv) Hc]. apply view_step in Hv.
  assert (exists k, q = Waited b k) as [k ->].
  { destruct (behind_call _ _ _ _ _ _ Hbeh Hlk) as (q0 & d0 & d1 & Hq0 & Hv0). apply view_step in Hv0. inversion Hv0; subst; [|eauto].
    match goal with H : next _ _ _ = _ |- _ => destruct (co_other _ _ Hcaller _ _ _ _ _ _ Hq0 H) as (_ & Hf & _) end.
    cbn in Hf. set_solver. }
  inversion Hv; subst. destruct Hc as [(n & y & ? & _)|(l & u & Hl & Hu)]; [done|]. injection Hl as <-. congruence.
Qed.

(** Then the locks of the lists are free, and the lists as they are when their locks are. *)
Lemma sl_settled s0 s (chs : list choice) b :
  sl_starts s0 -> present s0 -> runs s0 chs s -> small init (log s) -> stuck s -> b ∈ boxes ->
  exists cts, sinv init s cts /\ settled sl_code sl_code s cts /\
    lock_trace b None (log s) = Some None /\ holds b 0 (data s) (log s).
Proof.
  intros Hs Hp Hr Hsm Hst Hin. destruct (sl_runs s0 s chs b Hs Hr Hsm Hin) as (own & Hty & Htr & Hor).
  destruct (stuck_places init sl_code sl_code (fun _ H => H) (fun t p d d' c p' Hc Hv => proj1 (ty_call _ _ SynchList_typed t p d d' c p' Hc Hv)) s0 chs s)
    as (cts & Hinv & Hset); [|apply Hs|done..|].
  { intros t x Hx. destruct (sb_sites _ Hs t x Hx) as (p & Hc & _ & Hx'). exists (Outside p). split; [done|].
    destruct Hx' as [->|[old ->]]; eauto. }
  exists cts. split; [done|]. split; [done|]. destruct Hor as [[Hno Hf]|(t & x & Ht & _ & Hx & _)].
  - split; [|done]. destruct (s_lockok _ _ _ Hinv b) as (h & Hh & _). rewrite Hh. destruct h as [t|]; [|done].
    destruct (Hno t). by apply Htr.
  - destruct (settled_outside s cts own t x b Hset Hin Hx (Hty _ _ Hx)); [by apply Htr|done].
Qed.

(** Whoever waits in Remove then waits for an empty list. *)
Lemma settled_waits s cts b y :
  settled sl_code sl_code s cts -> b ∈ boxes -> lock_trace b None (log s) = Some None -> holds b 0 (data s) (log s) ->
  conditions (kern s) !! b = Some y -> q_is_empty (waitQ y) = false ->
  q_is_empty (lists (data s) b) = true /\ removed (data s) b = appended (data s) b.
Proof.
  intros Hset Hin Hfree Hf Hy He. destruct Hf as (xs & H1 & H2 & H3).
  assert (q_rep (waitQ y) (cts (CondQ b))) as Hq by (apply (se_queues _ _ _ _ Hset); cbn; by rewrite Hy).
  rewrite (q_is_empty_rep _ _ _ Hq) in He. apply bool_decide_eq_false in He.
  pose proof (se_waiters _ _ _ _ Hset b y Hy) as Hw.
  assert (size (parked b (log s)) <= length (cts (CondQ b)))%nat as Hle.
  { rewrite <- (length_fmap snd (cts (CondQ b))), <- (size_list_to_set (C := gset positive)) by apply (se_nodup _ _ _ _ Hset).
    apply subseteq_size. intros t Ht. apply elem_of_list_to_set. by eapply settled_parked. }
  assert (xs = []) as ->.
  { destruct xs; [done|]. cbn in H3. destruct (cts (CondQ b)); [done|]. cbn in Hw, Hle. lia. }
  rewrite (q_is_empty_rep _ _ _ H1). split; [done|]. by rewrite H2, app_nil_r.
Qed.

(** C12: no wakeup is lost.  When nothing is left to run, nobody waits for the lock of
    a list, and if somebody waits in Remove, the list is empty: everything that was
    appended has been given out. *)
Theorem SynchList_live s0 s (chs : list choice) :
  sl_starts s0 -> present s0 -> runs s0 chs s -> small init (log s) -> stuck s ->
  forall b, b ∈ boxes ->
    (forall x, locks (kern s) !! b = Some x -> locked x = 0 /\ q_is_empty (lock_queue x) = true) /\
    (forall y, conditions (kern s) !! b = Some y -> q_is_empty (waitQ y) = false ->
       q_is_empty (lists (data s) b) = true /\ removed (data s) b = appended (data s) b).
Proof.
  intros Hs Hp Hr Hsm Hst b Hin. destruct (sl_settled s0 s chs b) as (cts & Hinv & Hset & Hfree & Hf); try done.
  destruct (s_lockok _ _ _ Hinv b) as (h & Hh & Hlk).
  rewrite Hfree in Hh. injection Hh as <-. split.
  - intros x Hx. destruct (Hlk x Hx) as [_ E1]. split; [done|].
    assert (q_rep (lock_queue x) (cts (LockQ b))) as Hq by (apply (se_queues _ _ _ _ Hset); cbn; by rewrite Hx).
    rewrite (q_is_empty_rep _ _ _ Hq). apply bool_decide_eq_true. destruct (cts (LockQ b)) as [|[key t] l] eqn:El; [done|].
    destruct (se_locks _ _ _ _ Hset b t) as [u Hu]; [rewrite El; by left|congruence].
  - intros y Hy He. by eapply settled_waits.
Qed.
End Results.
End SynchList.

(** ** Threads that put numbers on lists and take them off *)

Inductive sl_op := Put (b : positive) (x : Z) | Take (b : positive) | Start (u : positive).

(** What a thread has taken, and what it still has to do. *)
#[export] Instance sl_script : Caller Z (list Z * list sl_op) unit := {
  next t p e :=
    match p with
    | (_, []) => Ok (e, Return)
    | (got, Put b x :: ops) => Ok (e, AppendTo b x (got, ops))
    | (got, Take b :: ops) => Ok (e, RemoveFrom b (fun x => (got ++ [x], ops)))
    | (got, Start u :: ops) => Ok (e, Other (Fork u) (got, ops))
    end;
  next_irq n e := None
}.

Definition sl_op_ok (boxes : gset positive) (o : sl_op) : Prop :=
  match o with Put b _ | Take b => b ∈ boxes | Start _ => True end.

Lemma sl_script_ok (boxes : gset positive) :
  caller_ok boxes (fun p : list Z * list sl_op => Forall (sl_op_ok boxes) p.2) (fun _ => ∅).
Proof.
  split.
  - intros t [got [|[b x|b|u] ops]] e e' c p' Hc H; cbn in H; try done. injection H as _ <- <-.
    by inversion Hc; subst.
  - intros t [got [|[b' y|b'|u] ops]] e e' b x p' Hc H; cbn in H; try done. injection H as _ <- <- <-.
    by inversion Hc; subst.
  - intros t [got [|[b' y|b'|u] ops]] e e' b k Hc H; cbn in H; try done. injection H as _ <- <-.
    by inversion Hc; subst.
  - done.
  - set_solver.
Qed.

(** Three threads: one puts two numbers on list 1, the others want three. *)
Definition demo_boxes : gset positive := {[1%positive]}.
Definition demo_lists : Sys NList.List (sl_pc (I := Z) (P := list Z * list sl_op)) (sl_data (Q := NList.List) (I := Z) (E := unit)) :=
  boot 1%positive (Outside ([], [Start 2; Start 3; Put 1 10; Put 1 20]))
    [(2%positive, 5, Outside ([], [Take 1; Take 1])); (3%positive, 0, Outside ([], [Take 1]))] [] [1%positive] [1%positive]
    (mkSl tt (fun _ => q_new) (fun _ => []) (fun _ => [])).
Definition demo_lists_end := match run (replicate 45 System.quiet) demo_lists with Ok s => s | Err _ => demo_lists end.

Lemma demo_lists_runs : runs demo_lists (replicate 45 System.quiet) demo_lists_end.
Proof. apply run_reaches. vm_compute. reflexivity. Qed.

Lemma demo_lists_starts :
  sl_starts demo_boxes (fun p : list Z * list sl_op => Forall (sl_op_ok demo_boxes) p.2) (fun _ => ∅)
    (first_value []) demo_lists.
Proof.
  split.
  - apply boot_booted; [by apply Forall_nil|apply NoDup_nil_2].
  - intros t x Hx. apply boot_sites in Hx as [->|(y & Hy & ->)].
    + eexists. split; [|split; [done|by left]]. repeat constructor; cbn; set_solver.
    + apply elem_of_cons in Hy as [->|Hy%list_elem_of_singleton]; [|subst y];
        (eexists; split; [|split; [done|right; by eexists]]; repeat constructor; cbn; set_solver).
  - intros b _. split; [apply q_new_rep|done].
Qed.

Lemma demo_lists_small : small (first_value []) (log demo_lists_end).
Proof.
  assert (zlen (log demo_lists_end) < 100) as Hlog by (vm_compute; done).
  apply small_first_value; [by apply Forall_nil|lia].
Qed.

Lemma SynchList_fifo_witness :
  1%positive ∈ demo_boxes /\ removed (data demo_lists_end) 1%positive = [10; 20] /\
  exists xs, q_rep (lists (data demo_lists_end) 1%positive) xs /\
    appended (data demo_lists_end) 1%positive = removed (data demo_lists_end) 1%positive ++ xs.*2.
Proof.
  assert (1%positive ∈ demo_boxes) as Hin by (by apply elem_of_singleton). split; [exact Hin|].
  split; [vm_compute; reflexivity|].
  exact (proj1 (SynchList_fifo demo_boxes _ _ (sl_script_ok demo_boxes) _ demo_lists demo_lists_end _
    demo_lists_starts demo_lists_runs demo_lists_small 1%positive Hin)).
Defined.

(** The third number never comes, and one thread waits for it. *)
Lemma SynchList_live_witness :
  stuck demo_lists_end /\
  exists y, conditions (kern demo_lists_end) !! 1%positive = Some y /\ q_is_empty (waitQ y) = false /\
    q_is_empty (lists (data demo_lists_end) 1%positive) = true /\
    removed (data demo_lists_end) 1%positive = appended (data demo_lists_end) 1%positive.
Proof.
  assert (1%positive ∈ demo_boxes) as Hin by (by apply elem_of_singleton).
  assert (stuck demo_lists_end) as Hst by (vm_compute; reflexivity). split; [exact Hst|].
  eexists. split; [vm_compute; reflexivity|]. split; [vm_compute; reflexivity|].
  refine (proj2 (SynchList_live demo_boxes _ _ (sl_script_ok demo_boxes) _ demo_lists demo_lists_end _
    demo_lists_starts _ demo_lists_runs demo_lists_small Hst 1%positive Hin) _ _ _); [|vm_compute; reflexivity..].
  apply boot_present.
Defined.
