(* ===== verification/Objects.v ===== *)
(** Objects that many threads call, each behind a lock of its own: the pattern of
    Pipe (userprog/exception.cc), Mailbox and Whale (threads/synch.cc), whose routines
    take the lock, test and change the fields, signal conditions and wait for them in
    loops, and give the lock up at the end.

    The code of an object is an [object]; the threads are any [Visitor], which calls
    objects with any code of its own around the calls.  The rule of this file takes an
    invariant of the fields, shown for the code of one object alone, to all runs. *)
From Stdlib Require Import ZArith Lia Bool.
From stdpp Require Import base numbers list gmap fin_maps fin_sets functions.
From S2P Require Import Prelude Lists Machine Threads Synch System Steps Conditions Monitor.

(** What a routine does next with the lock in its hands: signal a condition of the object,
    or wait for it, or give up the lock and return. *)
Inductive act (C X R : Type) :=
| SignalTo (c : C) (x : X)
| BroadcastTo (c : C) (x : X)
| WaitFor (c : C) (x : X)
| Leave (r : R).
Arguments SignalTo {C X R} c x.
Arguments BroadcastTo {C X R} c x.
Arguments WaitFor {C X R} c x.
Arguments Leave {C X R} r.

(** The calls [M] of an object and where they start; its fields [S]; its conditions [C];
    what is changed without the lock, [T]. *)
Class object (S M T C X R : Type) := {
  enter : M -> X;
  step_in : X -> S -> res (S * act C X R);
  touch : T -> S -> S
}.

(** What a visitor does next: another call of the kernel, a call of an object, a change of
    an object without its lock and then a call of the kernel, or it is done. *)
Inductive visit (M T R P : Type) :=
| Elsewhere (c : prim) (p : P)
| CallOf (b : positive) (m : M) (k : R -> P)
| TouchOf (b : positive) (x : T) (c : prim) (p : P)
| GoHome.
Arguments Elsewhere {M T R P} c p.
Arguments CallOf {M T R P} b m k.
Arguments TouchOf {M T R P} b x c p.
Arguments GoHome {M T R P}.

Class Visitor (M T R P E : Type) := {
  visits : positive -> P -> E -> res (E * visit M T R P);
  visits_irq : positive -> E -> option E
}.

Section Objects.
Context {Q : Type -> Type} `{!Queue Q, !QueueLaws Q} {S M T C X R P E : Type} `{!object S M T C X R, !Visitor M T R P E}.
Context (cond : positive -> C -> positive).

(** Where a thread is: outside; inside object [b], whose lock is number [b]; behind the
    Sleep of Wait; behind its Acquire. *)
Inductive ob_pc :=
| Apart (p : P)
| Inside (b : positive) (x : X) (k : R -> P)
| Dozing (b : positive) (x : X) (k : R -> P)
| Awake (b : positive) (x : X) (k : R -> P).

Record ob_data := mkOb { ob_env : E; fields : positive -> S }.

Definition Objects_view (t : positive) (p : ob_pc) (d : ob_data) : res (ob_data * option (prim * ob_pc)) :=
  match p with
  | Apart p =>
      '(e, a) <- visits t p (ob_env d) ;;
      let d := mkOb e (fields d) in
      Ok (match a with
          | Elsewhere c p => (d, Some (c, Apart p))
          | CallOf b m k => (d, Some (Acquire b, Inside b (enter m) k))
          | TouchOf b x c p => (mkOb e (<[b := touch x (fields d b)]> (fields d)), Some (c, Apart p))
          | GoHome => (d, None)
          end)
  | Inside b x k =>
      '(s, a) <- step_in x (fields d b) ;;
      let d := mkOb (ob_env d) (<[b := s]> (fields d)) in
      Ok (d, Some (match a with
                   | SignalTo c x => (Signal (cond b c) b, Inside b x k)
                   | BroadcastTo c x => (Broadcast (cond b c) b, Inside b x k)
                   | WaitFor c x => (Wait (cond b c) b, Dozing b x k)
                   | Leave r => (Release b, Apart (k r))
                   end))
  | Dozing b x k => Ok (d, Some (Acquire b, Awake b x k))
  | Awake b x k => Ok (d, Some (AssertHeld b, Inside b x k))
  end.

#[export] Instance Objects_client : Client ob_pc ob_data := {
  view := Objects_view;
  on_irq n d := match visits_irq n (ob_env d) with Some e => Some (mkOb e (fields d)) | None => None end
}.

(** ** What is asked of the visitors *)

(** [boxes] are the objects; their locks are nobody else's. *)
Context (boxes : gset positive).

Definition hands_off (c : prim) : Prop :=
  match c with
  | Acquire l | Release l | AssertHeld l | Wait _ l | Signal _ l | Broadcast _ l => l ∉ boxes
  | Die => False
  | _ => True
  end.

Record visitor_ok (ocode : P -> Prop) (oheld : P -> gset positive) : Prop := {
  vo_other : forall t p e e' c p', ocode p -> visits t p e = Ok (e', Elsewhere c p') ->
    ocode p' /\ hands_off c /\ locks_after c (oheld p) = Some (oheld p');
  vo_touch : forall t p e e' b x c p', ocode p -> visits t p e = Ok (e', TouchOf b x c p') ->
    ocode p' /\ hands_off c /\ locks_after c (oheld p) = Some (oheld p');
  vo_call : forall t p e e' b m k, ocode p -> visits t p e = Ok (e', CallOf b m k) ->
    b ∈ boxes /\ oheld p = ∅ /\ forall r, ocode (k r) /\ oheld (k r) = ∅;
  vo_home : forall t p e e', ocode p -> visits t p e = Ok (e', GoHome) -> oheld p = ∅;
  vo_apart : forall p b, ocode p -> b ∈ boxes -> b ∉ oheld p
}.

(** ** What is asked of the object *)

(** [J] holds of the fields while the lock is free, [A x] where the holder is at [x]; a
    loop that has waited goes on from [J].  The changes made without the lock keep both. *)
Record object_ok (J : S -> Prop) (A : X -> S -> Prop) : Prop := {
  ob_enter : forall m s, J s -> A (enter m) s;
  ob_step : forall x s, A x s -> exists s' a, step_in x s = Ok (s', a) /\
    match a with SignalTo _ x | BroadcastTo _ x => A x s' | WaitFor _ _ | Leave _ => J s' end;
  ob_wait : forall x s s' c x', step_in x s = Ok (s', WaitFor c x') -> forall s2, J s2 -> A x' s2;
  ob_touch : forall y s, (J s -> J (touch y s)) /\ forall x, A x s -> A x (touch y s)
}.

Context (ocode : P -> Prop) (oheld : P -> gset positive) (J : S -> Prop) (A : X -> S -> Prop).
Hypotheses (Hvis : visitor_ok ocode oheld) (Hobj : object_ok J A).

Definition ob_code (p : ob_pc) : Prop :=
  match p with
  | Apart p => ocode p
  | Inside b _ k => b ∈ boxes /\ forall r, ocode (k r) /\ oheld (k r) = ∅
  | Dozing b x k | Awake b x k => b ∈ boxes /\ (forall s, J s -> A x s) /\ forall r, ocode (k r) /\ oheld (k r) = ∅
  end.

Definition ob_held (p : ob_pc) : gset positive :=
  match p with
  | Apart p => oheld p
  | Dozing _ _ _ => ∅
  | Inside b _ _ | Awake b _ _ => {[b]}
  end.


Lemma Objects_typed : typed ob_code ob_held.
Proof.
  split.
  - intros t p d d' c p' Hc H. destruct p as [p|b x k|b x k|b x k]; cbn in Hc, H.
    + destruct (visits t p (ob_env d)) as [[e [c0 p0|b m k|b x c0 p0|]]|] eqn:E0; cbn in H; simplify_eq/=.
      * destruct (vo_other _ _ Hvis _ _ _ _ _ _ Hc E0) as (? & _ & ?). done.
      * destruct (vo_call _ _ Hvis _ _ _ _ _ _ _ Hc E0) as (? & -> & ?). split; [done|]. apply acquire_first.
      * destruct (vo_touch _ _ Hvis _ _ _ _ _ _ _ _ Hc E0) as (? & _ & ?). done.
    + destruct (step_in x (fields d b)) as [[s a]|] eqn:E0; [|done]. destruct Hc as [Hb Hk]. cbn in H.
      destruct a as [c0 x0|c0 x0|c0 x0|r]; cbn in H; simplify_eq/=.
      * split; [done|]. by rewrite decide_True by set_solver.
      * split; [done|]. by rewrite decide_True by set_solver.
      * split; [split; [done|]; split; [by eapply (ob_wait _ _ Hobj)|done]|]. apply release_last.
      * destruct (Hk r) as [? ->]. split; [done|]. apply release_last.
    + simplify_eq/=. destruct Hc as (? & ? & ?). split; [done|]. apply acquire_first.
    + simplify_eq/=. destruct Hc as (? & ? & ?). split; [done|]. by rewrite decide_True by set_solver.
  - intros t p d d' Hc H. destruct p as [p|b x k|b x k|b x k]; cbn in Hc, H |- *; try done.
    + destruct (visits t p (ob_env d)) as [[e [c0 p0|b m k|b x c0 p0|]]|] eqn:E0; cbn in H; simplify_eq/=. by eapply (vo_home _ _ Hvis).
    + destruct (step_in x (fields d b)) as [[s a]|]; [|done]. cbn in H. done.
Qed.

(** ** The rule *)

Section Rule.
Context (init : positive -> Z) (l : positive).
Hypothesis Hl : l ∈ boxes.
Implicit Types (d : ob_data) (log : list event).

(** A call that leaves the locks of the thread as they are. *)
Definition keeps (c : prim) : Prop :=
  match c with Signal _ _ | Broadcast _ _ | AssertHeld _ => True | _ => False end.

Definition ob_assertions : assertions := {|
  free d log := J (fields d l);
  at_pc p d log :=
    match p with Inside _ x _ => A x (fields d l) | Awake _ _ _ => J (fields d l) | _ => True end;
  in_call c p d log :=
    match p with
    | Apart _ => c = Release l /\ J (fields d l)
    | Inside _ x _ => keeps c /\ A x (fields d l)
    | Dozing _ _ _ => (exists n, c = Wait n l) /\ J (fields d l)
    | Awake _ _ _ => False
    end
|}.

(** What happens to the fields of [l] when somebody does not hold its lock. *)
Definition undisturbed d d' : Prop := fields d' l = fields d l \/ exists y, fields d' l = touch y (fields d l).

Lemma undisturbed_stable d d' log log' : undisturbed d d' -> stable ob_held l ob_assertions d log d' log'.
Proof.
  intros [E0|[y E0]]; unfold stable; cbn; rewrite E0; [by split_and!|].
  pose proof (ob_touch _ _ Hobj y (fields d l)) as [HJ HA]. split_and!; [done| |].
  - intros [] _; auto.
  - intros c []; naive_solver.
Qed.

Lemma others_undisturbed t p d d' r :
  l ∉ ob_held p -> view (Client := Objects_client) t p d = Ok (d', r) -> undisturbed d d'.
Proof.
  intros Hn H. destruct p as [p|b x k|b x k|b x k]; cbn in Hn, H.
  - destruct (visits t p (ob_env d)) as [[e [c0 p0|b m k|b x c0 p0|]]|]; cbn in H; simplify_eq/=; [by left..| |by left].
    destruct (decide (b = l)) as [->|Hne]; [right; exists x; cbn; by rewrite fn_lookup_insert|left; cbn; by rewrite fn_lookup_insert_ne].
  - destruct (step_in x (fields d b)) as [[s a]|]; [|done]. cbn in H. injection H as <- _. left. cbn.
    rewrite fn_lookup_insert_ne; [done|set_solver].
  - injection H as <- _. by left.
  - injection H as <- _. by left.
Qed.

Lemma Objects_monitor : monitor init ob_code ob_code ob_held l nowhere ob_assertions.
Proof.
  split.
  - intros t p d log Hc _ Hin Hp. destruct p as [p|b x k|b x k|b x k]; cbn in Hc, Hin, Hp.
    + by destruct (vo_apart _ _ Hvis p l).
    + apply elem_of_singleton in Hin as <-. destruct (ob_step _ _ Hobj x _ Hp) as (s' & a & Es & Ha).
      cbn. rewrite Es. cbn. destruct a; (do 3 eexists; split; [reflexivity|]; cbn; rewrite fn_lookup_insert; split; [|exact Ha]); cbn; eauto.
    + set_solver.
    + destruct Hc as (_ & Hj & _). do 3 eexists. split; [reflexivity|]. cbn. auto.
  - intros t c q p d0 d1 h d log _ _ _ _ Hin Hlk Hp _ _. destruct p as [p|b x k|b x k|b x k]; cbn in Hp.
    + destruct Hp as [-> Hp]. cbn in Hlk |- *. rewrite decide_True in Hlk by done. injection Hlk as E0.
      rewrite decide_False; [done|]. rewrite <- E0. set_solver.
    + destruct Hp as [Hk Hp]. assert (h = ob_held (Inside b x k)) as <-
        by (destruct c; try done; cbn in Hlk |- *; case_decide; try done; by injection Hlk). by rewrite decide_True.
    + destruct Hp as [_ Hp]. cbn. rewrite decide_False by set_solver. done.
    + done.
  - intros t p p' d d' d'' log Hc _ _ Hv _ Hf. cbn in Hf. destruct p as [p|b x k|b x k|b x k]; cbn in Hc, Hv.
    + destruct (visits t p (ob_env d)) as [[e [c0 p0|b m k|b x c0 p0|]]|] eqn:Ev; cbn in Hv; simplify_eq/=.
      * destruct (vo_other _ _ Hvis _ _ _ _ _ _ Hc Ev) as (_ & Hno & _). by cbn in Hno.
      * by apply (ob_enter _ _ Hobj).
      * destruct (vo_touch _ _ Hvis _ _ _ _ _ _ _ _ Hc Ev) as (_ & Hno & _). by cbn in Hno.
    + destruct (step_in x (fields d b)) as [[s []]|]; cbn in Hv; simplify_eq/=.
    + simplify_eq/=. done.
    + simplify_eq/=.
  - intros t p d d' r log _ _ Hn Hv. by eapply undisturbed_stable, others_undisturbed.
  - intros t c q p d0 d1 d log _ _ _ _ _ _. by apply undisturbed_stable; left.
  - intros t q d0 d1 d log _ _ _. by apply undisturbed_stable; left.
  - intros n d d' log Hi. cbn in Hi. destruct (visits_irq n (ob_env d)); [|done]. injection Hi as <-.
    by apply undisturbed_stable; left.
Qed.

(** The visitors start apart, with the fields as the constructors leave them. *)
Record ob_starts (s : Sys Q ob_pc ob_data) : Prop := {
  os_booted : booted init s;
  os_sites : forall t x, ctls s !! t = Some x -> exists p, ocode p /\ oheld p = ∅ /\
    (x = At (Apart p) \/ exists old, x = Woken old (Apart p));
  os_fields : J (fields (data s) l)
}.

(** In every run, the fields satisfy the invariant while the lock is free, and while a
    thread has it what goes with its place in the code; so what these have in common
    holds always. *)
Lemma objects_rule (I : S -> Prop) s0 s chs :
  (forall x, J x -> I x) -> (forall x s', A x s' -> I s') ->
  ob_starts s0 -> runs s0 chs s -> small init (log s) ->
  I (fields (data s) l) /\ (lock_trace l None (log s) = Some None -> J (fields (data s) l)).
Proof.
  intros HJ HA [Hb H0 Hf] Hr Hsm.
  destruct (monitor_rule init ob_code ob_held l ob_assertions s0 s chs) as (own & Hty & Htr & Hor); try done.
  - apply Objects_typed.
  - intros t x Hx. destruct (H0 t x Hx) as (p & Hp & Hh & [->|[old ->]]); (split; [done|]); by rewrite <- Hh.
  - apply Objects_monitor.
  - destruct Hor as [[_ H]|(t & x & Ht & _ & Hx & H)]; [by split; [apply HJ|]|]. split.
    2: { intros Hfree. apply Htr in Ht. congruence. }
    pose proof (Hty _ _ Hx) as Hst. destruct x as [p|c old p|old p|]; cbn in Hst, H; [| | |done].
    1, 3: destruct Hst as [Hc E0]; rewrite E0 in Ht; destruct p as [p|b x k|b x k|b x k]; cbn in Hc, Ht, H;
      [by destruct (vo_apart _ _ Hvis p l)|by eapply HA|set_solver|by apply HJ].
    destruct p as [p|b x k|b x k|b x k]; cbn in H; [apply HJ, H|eapply HA, H|apply HJ, H|done].
Qed.
End Rule.
End Objects.

(** ** Visitors that follow a list *)

Section Scripts.
Context {M T R : Type}.

Inductive ob_op := DoPrim (c : prim) | DoCall (b : positive) (m : M) | DoTouch (b : positive) (x : T).

(** What the calls of a visitor have returned, and what it still has to do. *)
#[export] Instance scripts : Visitor M T R (list R * list ob_op) unit := {
  visits t p e :=
    match p with
    | (_, []) => Ok (e, GoHome)
    | (got, DoPrim c :: ops) => Ok (e, Elsewhere c (got, ops))
    | (got, DoCall b m :: ops) => Ok (e, CallOf b m (fun r => (got ++ [r], ops)))
    | (got, DoTouch b x :: ops) => Ok (e, TouchOf b x Yield (got, ops))
    end;
  visits_irq n e := None
}.

Definition ob_op_ok (boxes : gset positive) (o : ob_op) : Prop :=
  match o with
  | DoPrim c => match c with Fork _ | Yield => True | _ => False end
  | DoCall b _ => b ∈ boxes
  | DoTouch _ _ => True
  end.

Lemma scripts_ok (boxes : gset positive) :
  visitor_ok boxes (fun p : list R * list ob_op => Forall (ob_op_ok boxes) p.2) (fun _ => ∅).
Proof.
  split.
  - intros t [got [|[c0|b m|b x] ops]] e e' c p' Hc H; cbn in H; try done. injection H as _ <- <-.
    inversion Hc as [|? ? Hc1 Hc2]; subst. cbn in Hc1 |- *. by destruct c0.
  - intros t [got [|[c0|b' m|b' x'] ops]] e e' b x c p' Hc H; cbn in H; try done. injection H as _ _ _ <- <-.
    inversion Hc as [|? ? Hc1 Hc2]; subst. done.
  - intros t [got [|[c0|b' m'|b' x] ops]] e e' b m k Hc H; cbn in H; try done. injection H as _ <- _ <-.
    inversion Hc as [|? ? Hc1 Hc2]; subst. done.
  - done.
  - set_solver.
Qed.

(** Threads with their scripts, thread 1 first. *)
Context {Q : Type -> Type} `{!Queue Q} {S C X : Type} `{!object S M T C X R}.
Definition ob_boot (conds : list positive) (s0 : S) (main : list ob_op) (others : list (positive * list ob_op)) :
  Sys Q (ob_pc (X := X) (R := R) (P := list R * list ob_op)) (ob_data (S := S) (E := unit)) :=
  boot 1%positive (Apart ([], main)) ((fun x => (x.1, 0, Apart ([], x.2))) <$> others) [] [1%positive] conds
    (mkOb tt (fun _ => s0)).
End Scripts.
Arguments ob_op : clear implicits.

Lemma ob_boot_starts {M T R S C X : Type} `{!object S M T C X R} (cond : positive -> C -> positive)
    (boxes : gset positive) (J : S -> Prop) (conds : list positive) (s0 : S) (main : list (ob_op M T)) (others : list (positive * list (ob_op M T))) b :
  Forall (ob_op_ok boxes) main -> Forall (fun x => Forall (ob_op_ok boxes) x.2) others -> J s0 ->
  ob_starts (Q := NList.List) (R := R) (X := X) (fun p : list R * list (ob_op M T) => Forall (ob_op_ok boxes) p.2) (fun _ => ∅) J
    (first_value []) b (ob_boot (R := R) (X := X) conds s0 main others).
Proof.
  intros Hm Ho HJ. split; [| |done].
  - apply boot_booted; [by apply Forall_nil|apply NoDup_nil_2].
  - intros t x [->|(y & Hy & ->)]%boot_sites; [by exists ([], main); auto|].
    apply list_elem_of_fmap in Hy as (z & -> & Hz). exists ([], z.2). split; [exact (proj1 (list.Forall_forall _ _) Ho z Hz)|]. split; [done|right; by eexists].
Qed.
