(* ===== verification/Mailbox.v ===== *)
(** Mailbox (threads/synch.h, threads/synch.cc): a place for one message, which Send
    fills when a Receive has come for it, and Receive empties.  As an object in the
    sense of Objects.v: any number of mailboxes, called by any visitors.

    Shown are what the mailbox keeps in every run, and a run in which it forgets
    to wake a sender. *)
From Stdlib Require Import ZArith Lia Bool.
From stdpp Require Import base numbers list gmap fin_maps fin_sets functions.
From S2P Require Import Prelude Lists Machine Threads Synch System Steps Conditions Monitor Objects.

(** [sent], [received] and [arrived] are ghosts: the messages put into the buffer and those
    taken from it, in order, and how many calls of Receive have begun. *)
Record Mailbox := mkMailbox {
  receivePres : Z;
  bufferRead : Z;
  buffer : Z;
  sent : list Z;
  received : list Z;
  arrived : Z
}.

Definition Mailbox_new : Mailbox := mkMailbox 0 0 0 [] [] 0.

Inductive mb_call := Send (message : Z) | Receive.
Inductive mb_condition := sendWait | receiveWait.

(** The loop of Send; behind its Signal; the start of Receive; its loop. *)
Inductive mb_place := Sending (message : Z) | Sent | Receiving | Emptying.

Definition Send_put (message : Z) (x : Mailbox) : Mailbox :=
  mkMailbox (receivePres x) 1 message (sent x ++ [message]) (received x) (arrived x).
Definition Receive_come (x : Mailbox) : Mailbox :=
  mkMailbox (s32 (receivePres x + 1)) (bufferRead x) (buffer x) (sent x) (received x) (arrived x + 1).
Definition Receive_take (x : Mailbox) : Mailbox :=
  mkMailbox (s32 (receivePres x - 1)) 0 0 (sent x) (received x ++ [buffer x]) (arrived x).

(** A call of Receive gives the message. *)
Definition Mailbox_step (p : mb_place) (x : Mailbox) : res (Mailbox * act mb_condition mb_place (option Z)) :=
  Ok match p with
     | Sending message =>
         if (bufferRead x =? 1) || (receivePres x <=? 0) then (x, WaitFor sendWait (Sending message))
         else (Send_put message x, SignalTo receiveWait Sent)
     | Sent => (x, Leave None)
     | Receiving => (Receive_come x, SignalTo sendWait Emptying)
     | Emptying =>
         if bufferRead x =? 0 then (x, WaitFor receiveWait Emptying)
         else (Receive_take x, Leave (Some (buffer x)))
     end.

#[export] Instance Mailbox_object : object Mailbox mb_call Empty_set mb_condition mb_place (option Z) := {
  enter m := match m with Send message => Sending message | Receive => Receiving end;
  step_in := Mailbox_step;
  touch y x := match y with end
}.

(** ** What a mailbox keeps *)

(** The messages taken are those put, in order, but for the one in the buffer; and no
    message is put before a Receive has come for it. *)
Record mailed (x : Mailbox) : Prop := {
  ml_pending : sent x = received x ++ (if bufferRead x =? 1 then [buffer x] else []);
  ml_flag : bufferRead x = 0 \/ bufferRead x = 1;
  ml_met : zlen (sent x) <= arrived x;
  ml_count : receivePres x = s32 (arrived x - zlen (received x))
}.

Lemma mailed_put m x : mailed x -> bufferRead x <> 1 -> 0 < receivePres x -> mailed (Send_put m x).
Proof.
  intros [Hp Hf Hm Hc] Hb Hr. destruct Hf as [Hf|Hf]; [|done]. rewrite Hf in Hp. cbn in Hp. rewrite app_nil_r in Hp.
  split; cbn; [by rewrite Hp|by right| |done]. rewrite Hc in Hr. rewrite length_app. cbn. rewrite Hp in Hm |- *.
  destruct (Z.eq_dec (arrived x - zlen (received x)) 0) as [E|]; [rewrite E in Hr; done|lia].
Qed.

Lemma mailed_come x : mailed x -> mailed (Receive_come x).
Proof.
  intros [Hp Hf Hm Hc]. split; cbn; [done|done|lia|]. rewrite Hc, s32_add_mod. f_equal. lia.
Qed.

Lemma mailed_take x : mailed x -> bufferRead x <> 0 -> mailed (Receive_take x).
Proof.
  intros [Hp Hf Hm Hc] Hb. destruct Hf as [Hf|Hf]; [done|]. rewrite Hf in Hp. cbn in Hp.
  split; cbn; [by rewrite Hp, app_nil_r|by left|done|]. rewrite Hc, length_app. cbn.
  unfold Z.sub at 1. rewrite s32_add_mod. f_equal. lia.
Qed.

Lemma Mailbox_ok : object_ok mailed (fun _ : mb_place => mailed).
Proof.
  split.
  - done.
  - intros [m| | |] x Hx; cbn; unfold Mailbox_step.
    + destruct (Z.eqb_spec (bufferRead x) 1), (Z.leb_spec (receivePres x) 0); cbn; (do 2 eexists; split; [done|]); cbn; try done.
      by apply mailed_put.
    + do 2 eexists. by split.
    + do 2 eexists. split; [done|]. by apply mailed_come.
    + destruct (Z.eqb_spec (bufferRead x) 0); (do 2 eexists; split; [done|]); cbn; [done|by apply mailed_take].
  - done.
  - by intros [].
Qed.

(** The conditions of mailbox [b]. *)
Definition mb_cond (b : positive) (c : mb_condition) : positive :=
  match c with sendWait => b~0 | receiveWait => b~1 end.

Section Runs.
Context {Q : Type -> Type} `{!Queue Q, !QueueLaws Q} {V E : Type} `{!Visitor mb_call Empty_set (option Z) V E}.
Local Instance mailboxes : Client _ _ := Objects_client (S := Mailbox) (X := mb_place) mb_cond.

(** C16: a mailbox, for any number of senders and receivers and any code around the
    calls.  In every run, what has been taken out is what has been put in, in the same
    order and each message once, but for one message that may be in the buffer; and
    no message is put in before a Receive has come for it. *)
Theorem Mailbox_rendezvous (boxes : gset positive) (ocode : V -> Prop) (oheld : V -> gset positive) (init : positive -> Z)
    (s0 s : Sys Q (ob_pc (X := mb_place) (R := option Z) (P := V)) (ob_data (S := Mailbox) (E := E))) (chs : list choice) (b : positive) :
  visitor_ok boxes ocode oheld -> b ∈ boxes -> ob_starts ocode oheld mailed init b s0 -> runs s0 chs s -> small init (log s) ->
  let x := fields (data s) b in
  sent x = received x ++ (if bufferRead x =? 1 then [buffer x] else []) /\ zlen (sent x) <= arrived x.
Proof.
  intros Hv Hb Hs Hr Hsm x.
  destruct (objects_rule mb_cond boxes ocode oheld mailed (fun _ => mailed) Hv Mailbox_ok init b Hb mailed s0 s chs) as [[H1 _ H2 _] _]; done.
Qed.
End Runs.

(** ** A sender and a receiver that miss each other *)

(** Two threads receive and two send. *)
Definition mb_script := list (ob_op mb_call Empty_set).
#[export] Instance demo_mailboxes : Client _ _ :=
  Objects_client (S := Mailbox) (X := mb_place) (P := list (option Z) * mb_script) (E := unit) mb_cond.
Definition demo_mail : Sys NList.List _ _ :=
  ob_boot (M := mb_call) (T := Empty_set) (S := Mailbox) (R := option Z) (X := mb_place) [2%positive; 3%positive] Mailbox_new
    [DoPrim (Fork 2); DoPrim (Fork 3); DoPrim (Fork 4); DoPrim (Fork 5)]
    [(2%positive, [DoCall 1 Receive]); (3%positive, [DoCall 1 Receive]); (4%positive, [DoCall 1 (Send 10)]); (5%positive, [DoCall 1 (Send 20)])].
Definition demo_mail_end := match run (replicate 60 System.quiet) demo_mail with Ok s => s | Err _ => demo_mail end.

Lemma demo_mail_runs : runs demo_mail (replicate 60 System.quiet) demo_mail_end.
Proof. apply run_ends. vm_compute. reflexivity. Qed.

Lemma demo_mail_small : small (first_value []) (log demo_mail_end).
Proof.
  assert (zlen (log demo_mail_end) < 200) as Hlog by (vm_compute; done).
  apply small_first_value; [by apply Forall_nil|lia].
Qed.

Lemma Mailbox_rendezvous_witness :
  sent (fields (data demo_mail_end) 1%positive) = [10] /\ zlen (sent (fields (data demo_mail_end) 1%positive)) <= arrived (fields (data demo_mail_end) 1%positive).
Proof.
  assert (1%positive ∈ ({[1%positive]} : gset positive)) as Hin by (by apply elem_of_singleton).
  split; [vm_compute; reflexivity|].
  refine (proj2 (Mailbox_rendezvous {[1%positive]} _ _ (first_value []) demo_mail demo_mail_end (replicate 60 System.quiet) 1
    (scripts_ok (R := option Z) {[1%positive]}) Hin (ob_boot_starts mb_cond {[1%positive]} mailed _ _ _ _ _ _ _ _) demo_mail_runs demo_mail_small)).
  - by repeat constructor.
  - repeat constructor; cbn; exact Hin.
  - split; cbn; [done|by left|lia|done].
Defined.

(** A Receive that has taken the message tells no sender.  Two threads receive and
    two send; the second sender waits because the buffer is full; when it has been
    emptied, nothing is left to run: the sender and the second receiver wait for ever,
    although the buffer is empty, a Receive is there, and each of the two could go on. *)
Theorem Mailbox_forgets :
  runs demo_mail (replicate 60 System.quiet) demo_mail_end /\ stuck demo_mail_end /\
  (exists old k, ctls demo_mail_end !! 5%positive = Some (Woken old (Dozing 1 (Sending 20) k))) /\
  (exists old k, ctls demo_mail_end !! 3%positive = Some (Woken old (Dozing 1 Emptying k))) /\
  let x := fields (data demo_mail_end) 1%positive in
  bufferRead x = 0 /\ receivePres x = 1 /\
  Mailbox_step (Sending 20) x = Ok (Send_put 20 x, SignalTo receiveWait Sent).
Proof.
  split; [apply run_ends; vm_compute; reflexivity|]. split; [vm_compute; reflexivity|].
  split; [do 2 eexists; vm_compute; reflexivity|]. split; [do 2 eexists; vm_compute; reflexivity|].
  split_and!; vm_compute; reflexivity.
Qed.
