(* ===== verification/Whale.v ===== *)
(** Whale (threads/synch.h, threads/synch.cc): the matching of calls of Male, Female and
    Matchmaker by threes, as an object in the sense of Objects.v.

    Shown are what the counts and flags mean in every run and what the loops wait for, and a
    run in which a call returns that has not been matched. *)
From Stdlib Require Import ZArith Lia Bool.
From stdpp Require Import base numbers list gmap fin_maps fin_sets functions.
From S2P Require Import Prelude Lists Machine Threads Synch System Steps Conditions Monitor Objects.

(** The three routines, and the condition each waits for. *)
Inductive role := Male | Female | Matchmaker.

#[export] Instance role_eq_dec : EqDecision role.
Proof. solve_decision. Defined.

(** maleCount, femaleCount and matchmakerCount; maleFound, femaleFound and
    matchmakerFound.  Ghosts: how many calls of each have begun, and have got past
    their loop, in all and since the last match, and how many matches have been made. *)
Record Whale := mkWhale {
  count : role -> Z;
  found : role -> Z;
  came : role -> Z;
  left : role -> Z;
  lately : role -> Z;
  matches : Z
}.

Definition Whale_new : Whale := mkWhale (fun _ => 0) (fun _ => 0) (fun _ => 0) (fun _ => 0) (fun _ => 0) 0.

(** The other two, in the order in which a routine signals them. *)
Definition others (r : role) : role * role :=
  match r with Male => (Female, Matchmaker) | Female => (Male, Matchmaker) | Matchmaker => (Male, Female) end.

(** The start of a routine; its second Signal; its loop; the Signals of resetAll. *)
Inductive wh_place := Coming (r : role) | Calling (r : role) | Looking (r : role) | Reset_female | Reset_matchmaker | Going.

Definition come (r : role) (w : Whale) : Whale :=
  mkWhale (<[r := s32 (count w r + 1)]> (count w)) (found w) (<[r := came w r + 1]> (came w)) (left w) (lately w) (matches w).
Definition find_match (r : role) (w : Whale) : Whale :=
  mkWhale (count w) (<[r := 1]> (found w)) (came w) (<[r := left w r + 1]> (left w))
    (<[r := lately w r + 1]> (lately w)) (matches w).
Definition all_found (w : Whale) : bool :=
  negb (found w Male =? 0) && negb (found w Female =? 0) && negb (found w Matchmaker =? 0).

(** The fields in resetAll. *)
Definition resetAll (w : Whale) : Whale :=
  mkWhale (fun r => s32 (count w r - 1)) (fun _ => 0) (came w) (left w) (fun _ => 0) (matches w + 1).

Definition must_wait (r : role) (w : Whale) : bool :=
  ((count w (others r).1 <? 1) || (count w (others r).2 <? 1)) && (found w r =? 0).

Definition Whale_step (p : wh_place) (w : Whale) : res (Whale * act role wh_place unit) :=
  Ok match p with
     | Coming r => (come r w, SignalTo (others r).1 (Calling r))
     | Calling r => (w, SignalTo (others r).2 (Looking r))
     | Looking r =>
         if must_wait r w then (w, WaitFor r (Looking r))
         else
           let w := find_match r w in
           if all_found w then (resetAll w, SignalTo Male Reset_female) else (w, Leave tt)
     | Reset_female => (w, SignalTo Female Reset_matchmaker)
     | Reset_matchmaker => (w, SignalTo Matchmaker Going)
     | Going => (w, Leave tt)
     end.

#[export] Instance Whale_object : object Whale role Empty_set role wh_place unit := {
  enter := Coming;
  step_in := Whale_step;
  touch y x := match y with end
}.

(** ** What the fields mean *)

(** A count is that of the calls that have begun less the matches, and is never negative.
    A flag is set exactly when a call of its routine has got past its loop since the
    last match, and then both other routines have been called more often than matches
    have been made: this is what the loops wait for, and why a match is of three calls. *)
Record counted_right (w : Whale) : Prop := {
  wc_count : forall r, count w r = s32 (came w r - matches w);
  wc_enough : forall r, matches w <= came w r;
  wc_flag : forall r, 0 <= lately w r /\ found w r = (if 0 <? lately w r then 1 else 0);
  wc_others : forall r q, 0 < lately w r -> q <> r -> matches w < came w q;
  wc_left : forall r, matches w + found w r <= left w r
}.

Definition settled (w : Whale) : Prop := counted_right w /\ all_found w = false.

Lemma others_all r q : q <> r -> q = (others r).1 \/ q = (others r).2.
Proof. destruct r, q; cbn; intros; auto; done. Qed.

Lemma flag_set w r : counted_right w -> found w r <> 0 -> 0 < lately w r.
Proof. intros Hw. destruct (wc_flag w Hw r) as [_ ->]. destruct (Z.ltb_spec 0 (lately w r)); done. Qed.

(** A count of at least one is a call more than there are matches. *)
Lemma count_partner w q : counted_right w -> 1 <= count w q -> matches w < came w q.
Proof.
  intros Hw Hq. rewrite (wc_count w Hw) in Hq. pose proof (wc_enough w Hw q).
  destruct (decide (came w q = matches w)) as [E|]; [|lia]. by rewrite E, Z.sub_diag in Hq.
Qed.

(** A call that need not wait has its partners. *)
Lemma go_on r w q : counted_right w -> must_wait r w = false -> q <> r -> matches w < came w q.
Proof.
  intros Hw Hm Hne. unfold must_wait in Hm. apply andb_false_iff in Hm as [Hm|Hm%Z.eqb_neq].
  - apply orb_false_iff in Hm as [H1%Z.ltb_ge H2%Z.ltb_ge].
    destruct (others_all r q Hne) as [->| ->]; by apply count_partner.
  - apply (wc_others w Hw r); [by apply flag_set|done].
Qed.

Lemma come_right r w : counted_right w -> counted_right (come r w).
Proof.
  intros [Hc He Hf Hp Hl]. split; cbn; try done.
  - intros q. destruct (decide (q = r)) as [->|Hne]; [|by rewrite !fn_lookup_insert_ne].
    rewrite !fn_lookup_insert, Hc, s32_add_mod. f_equal. lia.
  - intros q. specialize (He q). destruct (decide (q = r)) as [->|Hne];
      [rewrite fn_lookup_insert; lia|by rewrite fn_lookup_insert_ne].
  - intros p q Hq Hne. specialize (Hp p q Hq Hne). destruct (decide (q = r)) as [->|Hnr];
      [rewrite fn_lookup_insert; lia|by rewrite fn_lookup_insert_ne].
Qed.

Lemma find_right r w : counted_right w -> must_wait r w = false -> counted_right (find_match r w).
Proof.
  intros Hw Hm. pose proof (fun q => go_on r w q Hw Hm) as Hgo. destruct Hw as [Hc He Hf Hp Hl].
  split; cbn; try done.
  - intros q. specialize (Hf q). destruct (decide (q = r)) as [->|Hne]; [|by rewrite !fn_lookup_insert_ne].
    rewrite !fn_lookup_insert. destruct (Z.ltb_spec 0 (lately w r + 1)); lia.
  - intros p q Hq Hne. destruct (decide (p = r)) as [->|Hnr]; [by apply Hgo|].
    rewrite fn_lookup_insert_ne in Hq by done. by apply (Hp p).
  - intros q. specialize (Hf q). specialize (Hl q).
    destruct (decide (q = r)) as [->|Hne]; [rewrite !fn_lookup_insert|by rewrite !fn_lookup_insert_ne].
    destruct (Z.ltb_spec 0 (lately w r)); lia.
Qed.

(** When all three are found each routine has a call for the match. *)
Lemma reset_right w : counted_right w -> all_found w = true -> counted_right (resetAll w).
Proof.
  intros Hw Ho. assert (forall q, found w q <> 0) as Hall.
  { unfold all_found in Ho. apply andb_true_iff in Ho as [[H1 H2]%andb_true_iff H3].
    apply negb_true_iff, Z.eqb_neq in H1, H2, H3. by intros []. }
  assert (forall q, 0 < lately w q) as Hlate by (intros q; by apply flag_set).
  destruct Hw as [Hc He Hf Hp Hl]. split; cbn; try done; intros q.
  - rewrite Hc. unfold Z.sub at 1. rewrite s32_add_mod. f_equal. lia.
  - assert (matches w < came w q); [|lia]. destruct q; [apply (Hp Female)|apply (Hp Male)|apply (Hp Male)]; done.
  - specialize (Hl q). destruct (Hf q) as [_ E]. specialize (Hlate q). destruct (Z.ltb_spec 0 (lately w q)); lia.
Qed.

Lemma Whale_ok : object_ok settled (fun _ : wh_place => settled).
Proof.
  split.
  - done.
  - intros p w [Hw Ho]. cbn. unfold Whale_step. destruct p as [r|r|r| | |]; try (do 2 eexists; by split).
    + do 2 eexists. split; [done|]. split; [by apply come_right|exact Ho].
    + destruct (must_wait r w) eqn:Em; [do 2 eexists; by split|]. pose proof (find_right r w Hw Em) as Hw'.
      destruct (all_found (find_match r w)) eqn:Ea; (do 2 eexists; split; [done|]); cbn; [|by split].
      split; [by apply reset_right|done].
  - done.
  - by intros [].
Qed.

(** The conditions of whale [b]. *)
Definition wh_cond (b : positive) (r : role) : positive :=
  match r with Male => b~0~0 | Female => b~0~1 | Matchmaker => b~1~0 end.

Section Runs.
Context {Q : Type -> Type} `{!Queue Q, !QueueLaws Q} {V E : Type} `{!Visitor role Empty_set unit V E}.
Local Instance whales : Client _ _ := Objects_client (S := Whale) (X := wh_place) wh_cond.

(** C31: what the loops of a whale wait for, for any number of threads and any code
    around the calls.  In every run no routine has been called less often than matches have been
    made, and its count is the difference; a call of a routine that has got past its
    loop since the last match did so with partners: the two other routines have each been called
    more often than there were matches then.  Its flag says whether there is such a call,
    and each match is of three calls past their loops, one of each routine. *)
Theorem Whale_matches (boxes : gset positive) (ocode : V -> Prop) (oheld : V -> gset positive) (init : positive -> Z)
    (s0 s : Sys Q (ob_pc (X := wh_place) (R := unit) (P := V)) (ob_data (S := Whale) (E := E))) (chs : list choice) (b : positive) :
  visitor_ok boxes ocode oheld -> b ∈ boxes -> ob_starts ocode oheld settled init b s0 -> runs s0 chs s -> small init (log s) ->
  let w := fields (data s) b in
  forall r, matches w <= came w r /\ count w r = s32 (came w r - matches w) /\
    (forall q, 0 < lately w r -> q <> r -> matches w < came w q) /\
    found w r = (if 0 <? lately w r then 1 else 0) /\ matches w + found w r <= left w r.
Proof.
  intros Hv Hb Hs Hr Hsm w r.
  destruct (objects_rule wh_cond boxes ocode oheld settled (fun _ => settled) Hv Whale_ok init b Hb settled s0 s chs)
    as [[[H1 H2 H3 H4 H5] _] _]; try done. split_and!; [apply H2|apply H1|intros q; apply H4|apply H3|apply H5].
Qed.
End Runs.

(** ** A call that is not matched *)

(** Threads 2 and 5 call Male, thread 3 Female, thread 4 Matchmaker. *)
#[export] Instance demo_whales : Client _ _ :=
  Objects_client (S := Whale) (X := wh_place) (P := list unit * list (ob_op role Empty_set)) (E := unit) wh_cond.
Definition demo_whale : Sys NList.List _ _ :=
  ob_boot (M := role) (T := Empty_set) (S := Whale) (R := unit) (X := wh_place) [4%positive; 5%positive; 6%positive] Whale_new
    [DoPrim (Fork 2); DoPrim (Fork 3); DoPrim (Fork 4); DoPrim (Fork 5)]
    [(2%positive, [DoCall 1 Male]); (3%positive, [DoCall 1 Female]); (4%positive, [DoCall 1 Matchmaker]); (5%positive, [DoCall 1 Male])].
Definition demo_whale_end := match run (replicate 100 System.quiet) demo_whale with Ok s => s | Err _ => demo_whale end.

Lemma demo_whale_runs : runs demo_whale (replicate 100 System.quiet) demo_whale_end.
Proof. apply run_ends. vm_compute. reflexivity. Qed.

Lemma demo_whale_small : small (first_value []) (log demo_whale_end).
Proof.
  assert (zlen (log demo_whale_end) < 200) as Hlog by (vm_compute; done).
  apply small_first_value; [by apply Forall_nil|lia].
Qed.

Lemma Whale_matches_witness :
  let w := fields (data demo_whale_end) 1%positive in
  matches w = 1 /\ lately w Male = 0 /\ left w Male = 2 /\ matches w <= came w Female.
Proof.
  assert (1%positive ∈ ({[1%positive]} : gset positive)) as Hin by (by apply elem_of_singleton).
  split; [vm_compute; reflexivity|]. split; [vm_compute; reflexivity|]. split; [vm_compute; reflexivity|].
  refine (proj1 (Whale_matches {[1%positive]} _ _ (first_value []) demo_whale demo_whale_end (replicate 100 System.quiet) 1
    (scripts_ok (R := unit) {[1%positive]}) Hin (ob_boot_starts wh_cond {[1%positive]} settled _ _ _ _ _ _ _ _) demo_whale_runs demo_whale_small Female)).
  - by repeat constructor.
  - repeat constructor; cbn; exact Hin.
  - split; [|done]. split; cbn; [done|lia|intros q; split; [lia|done]|lia|lia].
Defined.

(** A call may return unmatched.  Male and Female wait; a matchmaker comes, goes past
    its loop, and returns; before the two it has woken get the lock, a second Male
    finds both counts at one and returns as well.  In the end four calls have returned,
    two of Male, with one match made, and nobody is left to be the other two. *)
Theorem Whale_unmatched :
  runs demo_whale (replicate 100 System.quiet) demo_whale_end /\ stuck demo_whale_end /\
  (forall t, t ∈ [2; 3; 4; 5]%positive -> ctls demo_whale_end !! t = Some Dead) /\
  let w := fields (data demo_whale_end) 1%positive in
  matches w = 1 /\ left w Male = 2 /\ left w Female = 1 /\ left w Matchmaker = 1 /\ count w Male = 1.
Proof.
  split; [apply run_ends; vm_compute; reflexivity|]. split; [vm_compute; reflexivity|]. split.
  - intros t Ht. repeat (apply elem_of_cons in Ht as [->|Ht]; [vm_compute; reflexivity|]). by apply elem_of_nil in Ht.
  - split_and!; vm_compute; reflexivity.
Qed.
