(* ===== verification/SharedPipe.v ===== *)
(** A pipe between threads that run at the same time (Pipe::Read, Pipe::Write,
    setInOpen and setOutOpen of userprog/exception.cc): the routines of Tables.v, with
    their lock and their waits, as an object in the sense of Objects.v.

    Shown are that no order of readers and writers loses, doubles or reorders a
    character, and a run in which a reader is never told that the writer has gone. *)
From Stdlib Require Import ZArith Lia Bool.
From stdpp Require Import base numbers list gmap fin_maps fin_sets functions.
From S2P Require Import Prelude Lists Machine Tables Threads Synch System Steps Conditions Monitor Objects.

(** [written] and [taken] are ghosts: the characters in the order they went in and came
    out. *)
Record SharedPipe := mkShared { pipe : Pipe.Pipe; written : list Z; taken : list Z }.

Inductive pp_call := ReadChar | WriteChar (ch : Z).
Inductive pp_touch := InOpen (value : Z) | OutOpen (value : Z).

(** The loops of Read and Write; behind the Broadcast. *)
Inductive pp_place := Reading | Writing (ch : Z) | Answering (v : Z).

Definition SharedPipe_step (x : pp_place) (s : SharedPipe) : res (SharedPipe * act unit pp_place Z) :=
  match x with
  | Reading =>
      r <- Pipe.Read (pipe s) ;;
      Ok match r with
         | None => (s, WaitFor tt Reading)
         | Some (p, v) =>
             if Pipe.size (pipe s) =? 0 then (s, Leave v)
             else (mkShared p (written s) (taken s ++ [v]), BroadcastTo tt (Answering v))
         end
  | Writing ch =>
      r <- Pipe.Write (pipe s) ch ;;
      Ok match r with
         | None => (s, WaitFor tt (Writing ch))
         | Some (p, v) =>
             if Pipe.size (pipe s) =? Pipe.capacity (pipe s) then (s, Leave v)
             else (mkShared p (written s ++ [s8 ch]) (taken s), BroadcastTo tt (Answering v))
         end
  | Answering v => Ok (s, Leave v)
  end.

#[export] Instance SharedPipe_object : object SharedPipe pp_call pp_touch unit pp_place Z := {
  enter m := match m with ReadChar => Reading | WriteChar ch => Writing ch end;
  step_in := SharedPipe_step;
  touch y s :=
    mkShared (match y with InOpen v => Pipe.setInOpen (pipe s) v | OutOpen v => Pipe.setOutOpen (pipe s) v end) (written s) (taken s)
}.

(** ** Nothing is lost *)

(** What has gone in is what has come out, followed by what the pipe holds. *)
Definition flows (s : SharedPipe) : Prop :=
  exists q, Pipe.rep (pipe s) q /\ written s = taken s ++ q.

Lemma Read_cases p q :
  Pipe.rep p q ->
  Pipe.Read p = Ok None /\ q = [] \/ Pipe.Read p = Ok (Some (p, 1000000)) /\ q = [] \/
  exists c q' p', q = c :: q' /\ Pipe.Read p = Ok (Some (p', c)) /\ Pipe.rep p' q'.
Proof.
  intros Hr. destruct q as [|c q].
  - unfold Pipe.Read. rewrite (Pipe.rep_size _ _ Hr). cbn. destruct (Pipe.getOutOpen p =? 0); auto.
  - destruct (Pipe.Read_nonempty p c q Hr) as (p' & E & Hr' & _). eauto 10.
Qed.

Lemma Write_cases p q ch :
  Pipe.rep p q ->
  zlen q = Pipe.capacity p /\ (Pipe.Write p ch = Ok None \/ Pipe.Write p ch = Ok (Some (p, 0))) \/
  zlen q < Pipe.capacity p /\ exists p', Pipe.Write p ch = Ok (Some (p', 1)) /\ Pipe.rep p' (q ++ [s8 ch]).
Proof.
  intros Hr. pose proof (Pipe.rep_full _ _ Hr). destruct (Z.eq_dec (zlen q) (Pipe.capacity p)) as [E|E]; [left|right].
  - split; [done|]. unfold Pipe.Write. rewrite (Pipe.rep_size _ _ Hr), E, Z.eqb_refl. destruct (Pipe.getInOpen p =? 0); auto.
  - destruct (Pipe.Write_room p ch q Hr) as (p' & Ew & Hr' & _); [lia|]. split; [lia|eauto].
Qed.

Lemma SharedPipe_ok : object_ok flows (fun _ : pp_place => flows).
Proof.
  split.
  - done.
  - intros [|ch|v] s Hs; [| |by do 2 eexists]; pose proof Hs as (q & Hr & Hw); cbn; pose proof (Pipe.rep_size _ _ Hr) as Hz.
    + destruct (Read_cases _ _ Hr) as [[-> ->]|[[-> ->]|(c & q' & p' & -> & -> & Hr')]]; cbn [bindr].
      * do 2 eexists. by split.
      * rewrite Hz. do 2 eexists. by split.
      * rewrite (proj2 (Z.eqb_neq _ _)) by (rewrite Hz; cbn; lia). do 2 eexists. split; [done|]. exists q'. cbn.
        by rewrite Hw, <- app_assoc.
    + destruct (Write_cases _ _ ch Hr) as [[Ec [-> | ->]]|[Hlt (p' & -> & Hr')]]; cbn [bindr].
      * do 2 eexists. by split.
      * rewrite Hz, Ec, Z.eqb_refl. do 2 eexists. by split.
      * rewrite (proj2 (Z.eqb_neq _ _)) by lia. do 2 eexists. split; [done|]. exists (q ++ [s8 ch]). cbn.
        by rewrite Hw, <- app_assoc.
  - done.
  - assert (forall y s, flows s -> flows (touch y s)) as Ht; [|intros y s; split; [|intros _]; apply Ht].
    intros y s (q & Hr & Hw). exists q. split; [|done]. destruct y; cbn; apply Pipe.rep_open; auto.
Qed.

Section Runs.
Context {Q : Type -> Type} `{!Queue Q, !QueueLaws Q} {V E : Type} `{!Visitor pp_call pp_touch Z V E}.
Local Instance pipes_client : Client _ _ := Objects_client (S := SharedPipe) (X := pp_place) (fun b (_ : unit) => b).

(** C15: a pipe between any number of threads that read it, write it and close its ends at
    any time, with any code around the calls.  In every run what has been read is
    what has been written, in the same order and each character once, but for what the
    pipe still holds, which is never more than its capacity. *)
Theorem SharedPipe_flows (boxes : gset positive) (ocode : V -> Prop) (oheld : V -> gset positive) (init : positive -> Z)
    (s0 s : Sys Q (ob_pc (X := pp_place) (R := Z) (P := V)) (ob_data (S := SharedPipe) (E := E))) (chs : list choice) (b : positive) :
  visitor_ok boxes ocode oheld -> b ∈ boxes -> ob_starts ocode oheld flows init b s0 -> runs s0 chs s -> small init (log s) ->
  let x := fields (data s) b in
  exists q, Pipe.rep (pipe x) q /\ zlen q <= Pipe.capacity (pipe x) /\ written x = taken x ++ q.
Proof.
  intros Hv Hb Hs Hr Hsm x.
  destruct (objects_rule (fun b (_ : unit) => b) boxes ocode oheld flows (fun _ => flows) Hv SharedPipe_ok init b Hb flows s0 s chs)
    as [(q & Hq & Hw) _]; try done. exists q. split; [done|]. split; [apply (Pipe.rep_full _ _ Hq)|done].
Qed.
End Runs.

(** ** A reader that is not told *)

(** Thread 2 writes a character and closes its end; thread 1 reads two. *)
#[export] Instance demo_pipes_client : Client _ _ :=
  Objects_client (S := SharedPipe) (X := pp_place) (P := list Z * list (ob_op pp_call pp_touch)) (E := unit) (fun b (_ : unit) => b).
Definition demo_shared : Sys NList.List _ _ :=
  ob_boot (M := pp_call) (T := pp_touch) (S := SharedPipe) (R := Z) (X := pp_place) [1%positive]
    (mkShared (Pipe.setInOpen (Pipe.setOutOpen (Pipe.Pipe_new (fun _ => 0) 128) 1) 1) [] [])
    [DoPrim (Fork 2); DoCall 1 ReadChar; DoCall 1 ReadChar]
    [(2%positive, [DoCall 1 (WriteChar 65); DoPrim Yield; DoTouch 1 (OutOpen 0)])].
Definition demo_shared_end := match run (replicate 60 System.quiet) demo_shared with Ok s => s | Err _ => demo_shared end.

Lemma demo_shared_runs : runs demo_shared (replicate 60 System.quiet) demo_shared_end.
Proof. apply run_ends. vm_compute. reflexivity. Qed.

Lemma demo_shared_small : small (first_value []) (log demo_shared_end).
Proof.
  assert (zlen (log demo_shared_end) < 200) as Hlog by (vm_compute; done).
  apply small_first_value; [by apply Forall_nil|lia].
Qed.

Lemma SharedPipe_flows_witness :
  taken (fields (data demo_shared_end) 1%positive) = [65] /\
  exists q, Pipe.rep (pipe (fields (data demo_shared_end) 1%positive)) q /\ 
    written (fields (data demo_shared_end) 1%positive) = taken (fields (data demo_shared_end) 1%positive) ++ q.
Proof.
  assert (1%positive ∈ ({[1%positive]} : gset positive)) as Hin by (by apply elem_of_singleton).
  split; [vm_compute; reflexivity|].
  refine (match SharedPipe_flows {[1%positive]} _ _ (first_value []) demo_shared demo_shared_end (replicate 60 System.quiet) 1
    (scripts_ok (R := Z) {[1%positive]}) Hin (ob_boot_starts (fun b _ => b) {[1%positive]} flows _ _ _ _ _ _ _ _) demo_shared_runs demo_shared_small
    with ex_intro _ q (conj H1 (conj _ H2)) => ex_intro _ q (conj H1 H2) end).
  - repeat constructor; cbn; exact Hin.
  - repeat constructor; cbn; exact Hin.
  - exists []. split; [|reflexivity]. apply Pipe.rep_open; [|by left]. apply Pipe.rep_open; [|by right]. by apply Pipe.rep_new_pipe.
Defined.

(** Closing an end wakes nobody.  A reader waits on the empty pipe; then the writer
    goes, which only sets outOpen (as SysCallExit does).  When nothing is left to run,
    the reader still waits, although Read would now return at once with the mark for
    the end of the characters. *)
Theorem SharedPipe_orphan :
  runs demo_shared (replicate 60 System.quiet) demo_shared_end /\ stuck demo_shared_end /\
  (exists old k, ctls demo_shared_end !! 1%positive = Some (Woken old (Dozing 1 Reading k))) /\
  ctls demo_shared_end !! 2%positive = Some Dead /\
  let x := fields (data demo_shared_end) 1%positive in
  SharedPipe_step Reading x = Ok (x, Leave 1000000).
Proof.
  split; [apply run_ends; vm_compute; reflexivity|]. split; [vm_compute; reflexivity|].
  split; [do 2 eexists; vm_compute; reflexivity|]. split; vm_compute; reflexivity.
Qed.
