(* ===== verification/Join.v ===== *)
(** Waiting for a thread to end (threads/thread.cc, Thread::Join and Thread::Finish).

    The parent of a joinable thread and the thread itself meet at the lock and the
    condition variable of its Thread object, whose number is [own u] for thread [u].
    What the threads do besides is any [Worker], which leaves these locks alone. *)
From Stdlib Require Import ZArith Lia Bool.
From stdpp Require Import base numbers list gmap fin_maps fin_sets functions.
From S2P Require Import Prelude Lists Machine Threads Synch System Steps Conditions Monitor.

(** What a thread does next: another call of the kernel, the Join of a thread, or it
    returns from its procedure. *)
Inductive deed (P : Type) :=
| Does (c : prim) (p : P)
| Joins (u : positive) (p : P)
| Ends.
Arguments Does {P} c p.
Arguments Joins {P} u p.
Arguments Ends {P}.

Class Worker (P E : Type) := {
  work : positive -> P -> E -> res (E * deed P);
  work_irq : positive -> E -> option E
}.

(** The fields of a thread that Join and Finish use, beside its lock and condition. *)
Record joinable := mkJoinable { join : Z; readyToJoin : Z; isForked : Z }.

Definition set_readyToJoin (x : joinable) : joinable := mkJoinable (join x) 1 (isForked x).
Definition set_isForked (x : joinable) : joinable := mkJoinable (join x) (readyToJoin x) 1.

(** How far a thread is: in its procedure; in Finish before it waits; waiting to be
    joined; waiting to be let go; on its last lines. *)
Inductive stage := Working | Ending | Looping | Closing | Gone.

Section Join.
Context {Q : Type -> Type} `{!Queue Q, !QueueLaws Q} {P E : Type} `{!Worker P E}.

(** Where a thread is.  In Finish: behind SetLevel; at the test of the loop; behind the
    first, the second (its Sleep, its Acquire), the third statement of the loop; behind
    the Signal that follows; in the Wait behind it; at its end; at the call of Sleep.  In
    Join: behind Acquire; behind the first Signal; in Wait; at its end; behind the
    second Signal. *)
Inductive jn_pc :=
| Free (p : P)
| Finishing (this : positive)
| FinTest (this : positive)
| FinLoop (this : positive)
| FinWoken (this : positive)
| FinChecked (this : positive)
| FinSignal (this : positive)
| FinClose (this : positive)
| FinLast (this : positive)
| FinLastChecked (this : positive)
| FinRelease (this : positive)
| FinDone (this : positive)
| JoinReady (u : positive) (p : P)
| JoinWait (u : positive) (p : P)
| JoinWoken (u : positive) (p : P)
| JoinChecked (u : positive) (p : P)
| JoinSignal (u : positive) (p : P)
| JoinRelease (u : positive) (p : P).

(** [stages] and [joined], the threads whose Join has got past its Wait, are ghosts. *)
Record jn_data := mkJn {
  jenv : E;
  fields : gmap positive joinable;
  stages : positive -> stage;
  joined : gset positive
}.

Definition set_jenv (e : E) (d : jn_data) : jn_data := mkJn e (fields d) (stages d) (joined d).
Definition put_fields (u : positive) (x : joinable) (d : jn_data) : jn_data :=
  mkJn (jenv d) (<[u := x]> (fields d)) (stages d) (joined d).
Definition set_stage (t : positive) (g : stage) (d : jn_data) : jn_data :=
  mkJn (jenv d) (fields d) (<[t := g]> (stages d)) (joined d).
Definition add_joined (u : positive) (d : jn_data) : jn_data :=
  mkJn (jenv d) (fields d) (stages d) ({[u]} ∪ joined d).

(** Thread::Fork sets isForked before it calls ReadyToRun. *)
Definition mark_forked (c : prim) (d : jn_data) : res jn_data :=
  match c with
  | Fork u => x <- deref (fields d) u ;; Ok (put_fields u (set_isForked x) d)
  | _ => Ok d
  end.

(** The ASSERTs of Join, called by [t]. *)
Definition Join_check (t u : positive) (d : jn_data) : res unit :=
  x <- deref (fields d) u ;;
  _ <- ASSERT (join x =? 1) ;;
  _ <- ASSERT (readyToJoin x =? 0) ;;
  _ <- ASSERT (negb (bool_decide (t = u))) ;;
  ASSERT (isForked x =? 1).

(** The code of Thread::Finish, from the program counters inside it. *)
Definition Finish_view (t : positive) (q : jn_pc) (d : jn_data) : res (jn_data * option (prim * jn_pc)) :=
  match q with
  | Finishing this =>
      _ <- ASSERT (bool_decide (this = t)) ;; Ok (d, Some (Acquire (own this), FinTest this))
  | FinTest this =>
      x <- deref (fields d) this ;;
      if (readyToJoin x =? 0) && negb (join x =? 0) then Ok (d, Some (Signal (own this) (own this), FinLoop this))
      else Ok (d, Some (Signal (own this) (own this), FinClose this))
  | FinLoop this => Ok (set_stage this Looping d, Some (Wait (own this) (own this), FinWoken this))
  | FinWoken this => Ok (d, Some (Acquire (own this), FinChecked this))
  | FinChecked this => Ok (d, Some (AssertHeld (own this), FinSignal this))
  | FinSignal this => Ok (d, Some (Signal (own this) (own this), FinTest this))
  | FinClose this =>
      x <- deref (fields d) this ;;
      if negb (join x =? 0) then Ok (set_stage this Closing d, Some (Wait (own this) (own this), FinLast this))
      else Ok (set_stage this Gone d, Some (Release (own this), FinDone this))
  | FinLast this => Ok (d, Some (Acquire (own this), FinLastChecked this))
  | FinLastChecked this => Ok (d, Some (AssertHeld (own this), FinRelease this))
  | FinRelease this => Ok (set_stage this Gone d, Some (Release (own this), FinDone this))
  | _ => Ok (d, None)
  end.

(** The code of Thread::Join of [u]; [p] is what the caller goes on with. *)
Definition Join_view (q : jn_pc) (d : jn_data) : res (jn_data * option (prim * jn_pc)) :=
  match q with
  | JoinReady u p =>
      x <- deref (fields d) u ;; Ok (put_fields u (set_readyToJoin x) d, Some (Signal (own u) (own u), JoinWait u p))
  | JoinWait u p => Ok (d, Some (Wait (own u) (own u), JoinWoken u p))
  | JoinWoken u p => Ok (d, Some (Acquire (own u), JoinChecked u p))
  | JoinChecked u p => Ok (d, Some (AssertHeld (own u), JoinSignal u p))
  | JoinSignal u p => Ok (add_joined u d, Some (Signal (own u) (own u), JoinRelease u p))
  | JoinRelease u p => Ok (d, Some (Release (own u), Free p))
  | _ => Ok (d, None)
  end.

Definition Thread_view (t : positive) (q : jn_pc) (d : jn_data) : res (jn_data * option (prim * jn_pc)) :=
  match q with
  | Free p =>
      '(e, a) <- work t p (jenv d) ;;
      let d := set_jenv e d in
      match a with
      | Does c p => d <- mark_forked c d ;; Ok (d, Some (c, Free p))
      | Joins u p => _ <- Join_check t u d ;; Ok (d, Some (Acquire (own u), JoinReady u p))
      | Ends => Ok (set_stage t Ending d, Some (SetLevel IntOff, Finishing t))
      end
  | JoinReady _ _ | JoinWait _ _ | JoinWoken _ _ | JoinChecked _ _ | JoinSignal _ _ | JoinRelease _ _ => Join_view q d
  | _ => Finish_view t q d
  end.

#[export] Instance Join_client : Client jn_pc jn_data := {
  view := Thread_view;
  on_irq n d := match work_irq n (jenv d) with Some e => Some (set_jenv e d) | None => None end
}.
(** ** What is asked of the workers *)

(** Who joins whom. *)
Context (parent : positive -> option positive).

Definition apart (c : prim) : Prop :=
  match c with
  | Acquire l | Release l | AssertHeld l => forall v, l <> own v
  | Wait c l | Signal c l | Broadcast c l => (forall v, l <> own v) /\ forall v, c <> own v
  | Die => False
  | _ => True
  end.

Record worker_ok (ocode : P -> Prop) (oheld : P -> gset positive) : Prop := {
  wk_does : forall t p e e' c p', ocode p -> work t p e = Ok (e', Does c p') ->
    ocode p' /\ apart c /\ locks_after c (oheld p) = Some (oheld p');
  wk_joins : forall t p e e' u p', ocode p -> work t p e = Ok (e', Joins u p') ->
    parent u = Some t /\ oheld p = ∅ /\ ocode p' /\ oheld p' = ∅;
  wk_ends : forall t p e e', ocode p -> work t p e = Ok (e', Ends) -> oheld p = ∅;
  wk_private : forall p v, ocode p -> own v ∉ oheld p
}.

Context (ocode : P -> Prop) (oheld : P -> gset positive).
Hypothesis Hworker : worker_ok ocode oheld.

Definition jn_code (q : jn_pc) : Prop :=
  match q with
  | Free p => ocode p
  | JoinReady _ p | JoinWait _ p | JoinWoken _ p | JoinChecked _ p | JoinSignal _ p | JoinRelease _ p => ocode p /\ oheld p = ∅
  | _ => True
  end.

Definition jn_held (q : jn_pc) : gset positive :=
  match q with
  | Free p => oheld p
  | FinTest u | FinLoop u | FinChecked u | FinSignal u | FinClose u | FinLastChecked u | FinRelease u
  | JoinReady u _ | JoinWait u _ | JoinChecked u _ | JoinSignal u _ | JoinRelease u _ => {[own u]}
  | _ => ∅
  end.

(** What each program counter leads to. *)
Inductive jn_step (t : positive) : jn_pc -> prim -> jn_pc -> Prop :=
| js_does p e e' c p' : work t p e = Ok (e', Does c p') -> jn_step t (Free p) c (Free p')
| js_joins p e e' u p' : work t p e = Ok (e', Joins u p') -> jn_step t (Free p) (Acquire (own u)) (JoinReady u p')
| js_ends p e e' : work t p e = Ok (e', Ends) -> jn_step t (Free p) (SetLevel IntOff) (Finishing t)
| js_finishing u : jn_step t (Finishing u) (Acquire (own u)) (FinTest u)
| js_again u : jn_step t (FinTest u) (Signal (own u) (own u)) (FinLoop u)
| js_exit u : jn_step t (FinTest u) (Signal (own u) (own u)) (FinClose u)
| js_loop u : jn_step t (FinLoop u) (Wait (own u) (own u)) (FinWoken u)
| js_woken u : jn_step t (FinWoken u) (Acquire (own u)) (FinChecked u)
| js_checked u : jn_step t (FinChecked u) (AssertHeld (own u)) (FinSignal u)
| js_signal u : jn_step t (FinSignal u) (Signal (own u) (own u)) (FinTest u)
| js_close u : jn_step t (FinClose u) (Wait (own u) (own u)) (FinLast u)
| js_detached u : jn_step t (FinClose u) (Release (own u)) (FinDone u)
| js_last u : jn_step t (FinLast u) (Acquire (own u)) (FinLastChecked u)
| js_lastchecked u : jn_step t (FinLastChecked u) (AssertHeld (own u)) (FinRelease u)
| js_release u : jn_step t (FinRelease u) (Release (own u)) (FinDone u)
| js_ready u p : jn_step t (JoinReady u p) (Signal (own u) (own u)) (JoinWait u p)
| js_wait u p : jn_step t (JoinWait u p) (Wait (own u) (own u)) (JoinWoken u p)
| js_joinwoken u p : jn_step t (JoinWoken u p) (Acquire (own u)) (JoinChecked u p)
| js_joinchecked u p : jn_step t (JoinChecked u p) (AssertHeld (own u)) (JoinSignal u p)
| js_joinsignal u p : jn_step t (JoinSignal u p) (Signal (own u) (own u)) (JoinRelease u p)
| js_joinrelease u p : jn_step t (JoinRelease u p) (Release (own u)) (Free p).

Lemma Thread_view_step t q d d' c q' : Thread_view t q d = Ok (d', Some (c, q')) -> jn_step t q c q'.
Proof.
  destruct q as [p|u|u|u|u|u|u|u|u|u|u|u|u p|u p|u p|u p|u p|u p]; cbn; intros H;
    try (injection H as _ <- <-; constructor); try done.
  - inv_bind H. destruct v as [e [c0 p0|u p0|]]; try inv_bind H; injection H as _ <- <-; by econstructor.
  - inv_bind H. injection H as _ <- <-. constructor.
  - inv_bind H. destruct (_ && _); injection H as _ <- <-; constructor.
  - inv_bind H. destruct (negb _); injection H as _ <- <-; constructor.
  - inv_bind H. injection H as _ <- <-. constructor.
Qed.

Lemma own_inj u v : own u = own v -> u = v.
Proof. unfold own. lia. Qed.

Lemma Join_typed : typed jn_code jn_held.
Proof.
  split.
  - intros t q d d' c q' Hc H. apply Thread_view_step in H.
    destruct H as [p e e' c p' H|p e e' u p' H|p e e' H| | | | | | | | | | | | | | | | | |u p]; cbn in Hc |- *;
      try (split; [done|]; first [apply acquire_first|apply release_last|by rewrite decide_True by set_solver]).
    + destruct (wk_does _ _ Hworker _ _ _ _ _ _ Hc H) as (? & _ & ?). done.
    + destruct (wk_joins _ _ Hworker _ _ _ _ _ _ Hc H) as (_ & -> & ? & ?). split; [done|]. apply acquire_first.
    + by rewrite (wk_ends _ _ Hworker _ _ _ _ Hc H).
    + destruct Hc as [? ->]. split; [done|]. apply release_last.
  - intros t q d d' Hc H. destruct q; cbn in Hc, H |- *; try done; try inv_bind H; try done.
    + destruct v as [e [c0 p0|u p0|]]; [by inv_bind H..|done].
    + by destruct (_ && _).
    + by destruct (negb _).
Qed.

(** ** Where the threads are *)

Definition jn_first (q : jn_pc) : Prop := exists p, q = Free p /\ ocode p.

Definition unready (u : positive) (d : jn_data) : Prop := exists x, fields d !! u = Some x /\ readyToJoin x = 0.

(** Only a thread itself is in its Finish, and only the parent in its Join. *)
Definition jn_here (t : positive) (q : option jn_pc) (d : jn_data) : Prop :=
  match q with
  | None => stages d t = Gone
  | Some (FinDone u) => u = t /\ stages d t = Gone
  | Some (Free _) => stages d t = Working
  | Some (Finishing u) => u = t /\ stages d t = Ending
  | Some (FinTest u | FinLoop u | FinClose u) => u = t /\ (stages d t = Ending \/ stages d t = Looping)
  | Some (FinWoken u | FinChecked u | FinSignal u) => u = t /\ stages d t = Looping
  | Some (FinLast u | FinLastChecked u | FinRelease u) => u = t /\ stages d t = Closing
  | Some (JoinReady u _) => t <> u /\ parent u = Some t /\ stages d t = Working /\ unready u d
  | Some (JoinWait u _ | JoinWoken u _ | JoinChecked u _ | JoinSignal u _ | JoinRelease u _) =>
      t <> u /\ parent u = Some t /\ stages d t = Working
  end.

(** What a thread does to the data of others. *)
Record mild (t : positive) (d d' : jn_data) : Prop := {
  ml_stages : forall v, v <> t -> stages d' v = stages d v;
  ml_fields : forall v x, fields d !! v = Some x -> exists x', fields d' !! v = Some x' /\ join x' = join x /\
    (readyToJoin x' = readyToJoin x \/ parent v = Some t);
  ml_joined : forall v, v ∈ joined d' <-> v ∈ joined d \/ v ∈ joined d' /\ parent v = Some t
}.

Lemma mild_same t d d' : (forall v, v <> t -> stages d' v = stages d v) -> fields d' = fields d -> joined d' = joined d -> mild t d d'.
Proof. intros H E1 E2. split; [done| |]; rewrite ?E1, ?E2; [intros v x Hx; exists x; by auto|set_solver]. Qed.

Lemma mild_put t d v x x' :
  fields d !! v = Some x -> join x' = join x -> readyToJoin x' = readyToJoin x \/ parent v = Some t -> mild t d (put_fields v x' d).
Proof.
  intros Hx Hj Hr. split; cbn; [done| |set_solver]. intros u y Hy. destruct (decide (u = v)) as [->|Hne].
  - rewrite lookup_insert_eq. assert (y = x) as -> by congruence. by eauto.
  - rewrite lookup_insert_ne by done. eauto.
Qed.

Lemma mark_forked_mild t c d d' : mark_forked c d = Ok d' -> mild t d d' /\ stages d' = stages d /\ joined d' = joined d.
Proof.
  destruct c as [| | | | | | | |u| | | |]; cbn; intros H; try (injection H as <-; split; [by apply mild_same|done]).
  apply deref_bind in H as (x & Hx & H). injection H as <-. split; [|done]. eapply mild_put; [done|done|by left].
Qed.

Lemma mild_trans t d1 d2 d3 : mild t d1 d2 -> mild t d2 d3 -> mild t d1 d3.
Proof.
  intros [A1 B1 C1] [A2 B2 C2]. split.
  - intros v Hv. by rewrite A2, A1.
  - intros v x Hx. destruct (B1 v x Hx) as (y & Hy & Ej & Hr). destruct (B2 v y Hy) as (z & Hz & Ej' & Hr').
    exists z. split; [done|]. split; [congruence|]. destruct Hr as [Hr|], Hr' as [Hr'|]; auto. left. congruence.
  - intros v. rewrite C2. rewrite (C1 v). naive_solver.
Qed.

Lemma view_mild t q d d' r :
  jn_code q -> jn_here t (Some q) d -> Thread_view t q d = Ok (d', r) -> mild t d d'.
Proof.
  intros Hc Hh H. destruct q as [p|u|u|u|u|u|u|u|u|u|u|u|u p|u p|u p|u p|u p|u p]; cbn in Hh, H;
    try (injection H as <- _; apply mild_same; [|done|done]; intros v Hv; cbn; try (by destruct Hh as [-> _]; rewrite fn_lookup_insert_ne); done).
  all: try (inv_bind H; injection H as <- _; by apply mild_same).
  - inv_bind H. destruct v as [e a]. assert (mild t d (set_jenv e d)) as Hm by by apply mild_same.
    destruct a as [c p'|u p'|].
    + inv_bind H. injection H as <- _. apply mark_forked_mild with (t := t) in H1 as [H1 _]. by eapply mild_trans.
    + inv_bind H. by injection H as <- _.
    + injection H as <- _. eapply mild_trans; [exact Hm|]. apply mild_same; [|done|done]. intros v Hv. cbn. by rewrite fn_lookup_insert_ne.
  - inv_bind H. destruct (_ && _); injection H as <- _; by apply mild_same.
  - inv_bind H. destruct (negb _); injection H as <- _; (apply mild_same; [|done|done]); intros v' Hv; cbn;
      destruct Hh as [-> _]; by rewrite fn_lookup_insert_ne.
  - apply deref_bind in H as (x & Hx & H). injection H as <- _. eapply mild_put; [done|done|right; apply Hh].
  - injection H as <- _. split; cbn; [done|eauto|]. destruct Hh as (_ & Hp & _). set_solver.
Qed.

Lemma Join_check_ok t u d v : Join_check t u d = Ok v ->
  exists x, fields d !! u = Some x /\ join x = 1 /\ readyToJoin x = 0 /\ t <> u /\ isForked x = 1.
Proof.
  unfold Join_check. intros H. apply deref_bind in H as (x & Hx & H). apply ASSERT_bind in H as [H1 H].
  apply ASSERT_bind in H as [H2 H]. apply ASSERT_bind in H as [H3 H]. apply ASSERT_Ok in H.
  exists x. apply negb_true_iff, bool_decide_eq_false in H3. split_and!; [done|lia|lia|done|lia].
Qed.

Lemma Join_tracks : tracks jn_code jn_here.
Proof.
  split.
  - intros t q d d' c q' Hc Hh H. destruct q as [p|u|u|u|u|u|u|u|u|u|u|u|u p|u p|u p|u p|u p|u p]; cbn in Hh, H; try done.
    + inv_bind H. destruct v as [e [c0 p0|u p0|]].
      * inv_bind H. injection H as <- _ <-. apply (mark_forked_mild t) in H1 as (_ & E1 & _). cbn. by rewrite E1.
      * inv_bind H. injection H as <- _ <-. apply Join_check_ok in H1 as (x & Hx & _ & Hr & Hne & _).
        destruct (wk_joins _ _ Hworker _ _ _ _ _ _ Hc H0) as (Hp & _). cbn. split_and!; [done..|by exists x].
      * injection H as <- _ <-. cbn. by rewrite fn_lookup_insert.
    + inv_bind H. injection H as <- _ <-. cbn. naive_solver.
    + inv_bind H. destruct (_ && _); by injection H as <- _ <-.
    + injection H as <- _ <-. destruct Hh as [-> _]. cbn. by rewrite fn_lookup_insert.
    + by injection H as <- _ <-.
    + by injection H as <- _ <-.
    + injection H as <- _ <-. cbn. naive_solver.
    + inv_bind H. destruct Hh as [-> _]. destruct (negb _); injection H as <- _ <-; cbn; by rewrite fn_lookup_insert.
    + by injection H as <- _ <-.
    + by injection H as <- _ <-.
    + injection H as <- _ <-. destruct Hh as [-> _]. cbn. by rewrite fn_lookup_insert.
    + inv_bind H. injection H as <- _ <-. cbn. naive_solver.
    + by injection H as <- _ <-.
    + by injection H as <- _ <-.
    + by injection H as <- _ <-.
    + by injection H as <- _ <-.
    + injection H as <- _ <-. cbn. naive_solver.
  - intros t q d d' Hc Hh H. destruct q as [p|u|u|u|u|u|u|u|u|u|u|u|u p|u p|u p|u p|u p|u p]; cbn in Hh, H; try done; try (inv_bind H; done).
    + inv_bind H. destruct v as [e [c0 p0|u p0|]]; [by inv_bind H..|done].
    + inv_bind H. by destruct (_ && _).
    + inv_bind H. by destruct (negb _).
    + injection H as <-. apply Hh.
  - intros t q d d' r u q' Hc Hh H Hne Hq. pose proof (view_mild t q d d' r Hc Hh H) as [Hs Hf _].
    assert (stages d' u = stages d u) as Es by by apply Hs.
    destruct q' as [[p|v|v|v|v|v|v|v|v|v|v|v|v p|v p|v p|v p|v p|v p]|]; cbn in Hq |- *; rewrite ?Es; try done.
    destruct Hq as (H1 & H2 & H3 & x & Hx & Hr). split_and!; [done..|]. destruct (Hf v x Hx) as (x' & Hx' & _ & [E1|E1]); [|congruence].
    exists x'. split; [done|congruence].
  - intros n d d' t q Hi Hh. cbn in Hi. destruct (work_irq n (jenv d)); [|done]. injection Hi as <-. by destruct q as [[]|].
Qed.

(** ** The meeting of a thread and its parent *)

Section Meeting.
Context (init : positive -> Z) (u w : positive).
Hypotheses (Hparent : parent u = Some w) (Hne : w <> u).
Implicit Types (d : jn_data) (log : list event).
Local Abbreviation b := (own u).

Definition away (g : stage) : stage := match g with Ending => Working | _ => g end.

(** The stage of the thread, whether it is ready to be joined, whether it has been, and
    who waits at its condition variable: how many, who may be among them, and who is
    there or has been woken and not got the lock back. *)
Record snap (g : stage) (r : Z) (j : bool) (n : nat) (S K : gset positive) d log : Prop := {
  sn_stage : away (stages d u) = g;
  sn_fields : exists x, fields d !! u = Some x /\ join x = 1 /\ readyToJoin x = r;
  sn_joined : u ∈ joined d <-> j = true;
  sn_waiters : waiters b log = n;
  sn_sleepers : sleepers b log = S;
  sn_parked : parked b log = K
}.

(** The ways it can be while nobody holds the lock. *)
Definition meeting d log : Prop :=
  snap Working 0 false 0 ∅ ∅ d log \/
  snap Looping 0 false 1 {[u]} {[u]} d log \/
  snap Working 1 false 1 {[w]} {[w]} d log \/
  snap Looping 1 false 1 {[w]} {[u; w]} d log \/
  snap Closing 1 false 1 {[u]} {[u; w]} d log \/
  snap Closing 1 true 0 ∅ {[u]} d log \/
  snap Gone 1 true 0 ∅ ∅ d log.

Definition jn_assertions : assertions := {|
  free := meeting;
  at_pc q d log :=
    match q with
    | FinTest _ => snap Working 0 false 0 ∅ ∅ d log \/ snap Working 1 false 1 {[w]} {[w]} d log \/
        snap Looping 1 false 0 ∅ {[w]} d log
    | FinLoop _ => snap Working 0 false 0 ∅ ∅ d log
    | FinChecked _ | FinSignal _ => snap Looping 1 false 1 {[w]} {[w]} d log
    | FinClose _ => snap Working 1 false 0 ∅ {[w]} d log \/ snap Looping 1 false 0 ∅ {[w]} d log
    | FinLastChecked _ | FinRelease _ => snap Closing 1 true 0 ∅ ∅ d log
    | JoinReady _ _ => snap Working 0 false 0 ∅ ∅ d log \/ snap Looping 0 false 1 {[u]} {[u]} d log
    | JoinWait _ _ => snap Working 1 false 0 ∅ ∅ d log \/ snap Looping 1 false 0 ∅ {[u]} d log
    | JoinChecked _ _ | JoinSignal _ _ => snap Closing 1 false 1 {[u]} {[u]} d log
    | JoinRelease _ _ => snap Closing 1 true 0 ∅ {[u]} d log
    | _ => True
    end;
  in_call c q d log :=
    match q with
    | FinTest _ => c = Signal b b /\ snap Looping 1 false 1 {[w]} {[w]} d log
    | FinLoop _ => c = Signal b b /\ snap Working 0 false 0 ∅ ∅ d log
    | FinWoken _ => c = Wait b b /\ snap Looping 0 false 0 ∅ ∅ d log
    | FinSignal _ => c = AssertHeld b /\ snap Looping 1 false 1 {[w]} {[w]} d log
    | FinClose _ => c = Signal b b /\ (snap Working 1 false 1 {[w]} {[w]} d log \/ snap Looping 1 false 0 ∅ {[w]} d log)
    | FinLast _ => c = Wait b b /\ snap Closing 1 false 0 ∅ {[w]} d log
    | FinRelease _ => c = AssertHeld b /\ snap Closing 1 true 0 ∅ ∅ d log
    | FinDone v => c = Release b /\ v = u /\ snap Gone 1 true 0 ∅ ∅ d log
    | JoinWait _ _ => c = Signal b b /\ (snap Working 1 false 0 ∅ ∅ d log \/ snap Looping 1 false 1 {[u]} {[u]} d log)
    | JoinWoken _ _ => c = Wait b b /\ (snap Working 1 false 0 ∅ ∅ d log \/ snap Looping 1 false 0 ∅ {[u]} d log)
    | JoinSignal _ _ => c = AssertHeld b /\ snap Closing 1 false 1 {[u]} {[u]} d log
    | JoinRelease _ _ => c = Signal b b /\ snap Closing 1 true 1 {[u]} {[u]} d log
    | Free _ => c = Release b /\ snap Closing 1 true 0 ∅ {[u]} d log
    | _ => False
    end
|}.

(** One more call. *)
Lemma snap_call g r j n S K n' S' K' d log t c :
  snap g r j n S K d log ->
  wait_event b n (Some t, c) = n' -> (sleep_event b (n, S) (Some t, c)).2 = S' -> parked_event b K (Some t, c) = K' ->
  snap g r j n' S' K' d (log ++ [(Some t, c)]).
Proof.
  intros [? ? ? <- <- <-] <- <- <-. by split; rewrite ?waiters_snoc, ?sleepers_snoc, ?parked_snoc.
Qed.

(** A change that keeps the data of the thread. *)
Lemma snap_data g r j n S K d d' log :
  snap g r j n S K d log ->
  away (stages d' u) = away (stages d u) ->
  (forall x, fields d !! u = Some x -> exists x', fields d' !! u = Some x' /\ join x' = join x /\ readyToJoin x' = readyToJoin x) ->
  (u ∈ joined d' <-> u ∈ joined d) -> snap g r j n S K d' log.
Proof.
  intros [H1 (x & Hx & H2 & H3) H4 ? ? ?] E1 E2 E3. split; try done; [congruence| |by rewrite E3].
  destruct (E2 x Hx) as (x' & ? & ? & ?). exists x'. split_and!; [done|congruence|congruence].
Qed.

Lemma snap_log g r j n S K d log log' :
  snap g r j n S K d log -> waiters b log' = waiters b log -> sleepers b log' = sleepers b log -> parked b log' = parked b log ->
  snap g r j n S K d log'.
Proof. intros [? ? ? ? ? ?] E1 E2 E3. by split; rewrite ?E1, ?E2, ?E3. Qed.

Lemma jn_stable d d' log log' :
  (forall g r j n S K, snap g r j n S K d log -> snap g r j n S K d' log') ->
  stable jn_held b jn_assertions d log d' log'.
Proof.
  intros H. split; [|split]; cbn.
  - unfold meeting. naive_solver.
  - intros [] _; naive_solver.
  - intros c []; naive_solver.
Qed.

(** A thread anywhere but behind the Sleep of a Wait here is not parked. *)
Lemma jn_not_parked t q log :
  behind jn_code jn_first t q log ->
  match q with FinWoken v | FinLast v | JoinWoken v _ => v <> u | _ => True end -> t ∉ parked b log.
Proof.
  intros Hbeh Hq [lk Hl]%elem_of_parked. destruct (behind_call _ _ _ _ _ _ Hbeh Hl) as (q0 & d & d' & Hc & Hv).
  apply Thread_view_step in Hv. inversion Hv; subst; cbn in Hc, Hq;
    try (match goal with H : own _ = b |- _ => by apply own_inj in H end).
  match goal with H : work _ _ _ = _ |- _ => destruct (wk_does _ _ Hworker _ _ _ _ _ _ Hc H) as (_ & Hf & _) end.
  cbn in Hf. by apply (proj2 Hf u).
Qed.

(** The calls of others, at other locks. *)
Lemma others_log t c log :
  t ∉ parked b log -> match c with Wait c' _ | Signal c' _ | Broadcast c' _ => c' <> b | _ => True end ->
  waiters b (log ++ [(Some t, c)]) = waiters b log /\ sleepers b (log ++ [(Some t, c)]) = sleepers b log /\
  parked b (log ++ [(Some t, c)]) = parked b log.
Proof.
  intros Ht Hc. rewrite waiters_snoc, sleepers_snoc, parked_snoc. pose proof (sleepers_parked b log) as Hsub.
  assert (sleepers b log ∖ {[t]} = sleepers b log) as E1 by set_solver.
  assert (parked b log ∖ {[t]} = parked b log) as E2 by set_solver.
  destruct c; cbn; rewrite ?decide_False by naive_solver; done.
Qed.

Lemma snap_stage g r j n S K d log g' : snap g r j n S K d log -> snap (away g') r j n S K (set_stage u g' d) log.
Proof. intros [? ? ? ? ? ?]. split; try done. cbn. by rewrite fn_lookup_insert. Qed.

Lemma snap_ready g r j n S K d log x : snap g r j n S K d log -> fields d !! u = Some x ->
  snap g 1 j n S K (put_fields u (set_readyToJoin x) d) log.
Proof.
  intros [? (y & Hy & Hj & _) ? ? ? ?] Hx. split; try done. cbn. eexists. rewrite lookup_insert_eq. split; [done|]. cbn.
  split; [congruence|done].
Qed.

Lemma snap_join g r n S K d log : snap g r false n S K d log -> snap g r true n S K (add_joined u d) log.
Proof. intros [? ? ? ? ? ?]. split; try done. cbn. set_solver. Qed.

Lemma holder_steps t q d log :
  jn_code q -> b ∈ jn_held q -> at_pc jn_assertions q d log ->
  exists d' c q', view (Client := Join_client) t q d = Ok (d', Some (c, q')) /\ in_call jn_assertions c q' d' log.
Proof.
  intros Hc Hin Hp.
  destruct q as [p|v|v|v|v|v|v|v|v|v|v|v|v p|v p|v p|v p|v p|v p]; cbn in Hc, Hin, Hp; try set_solver;
    try (apply elem_of_singleton, own_inj in Hin as <-); [by destruct (wk_private _ _ Hworker p u)|..];
    try (eexists _, _, _; split; [done|]; cbn; split; [done|]; exact Hp).
  - destruct Hp as [Hp|[Hp|Hp]]; pose proof (sn_fields _ _ _ _ _ _ _ _ Hp) as (x & Hx & Hj & Hr); cbn; unfold deref; rewrite Hx; cbn;
      rewrite Hj, Hr; cbn; (eexists _, _, _; split; [done|]; cbn); auto.
  - eexists _, _, _. split; [done|]. cbn. split; [done|]. by apply (snap_stage _ _ _ _ _ _ _ _ Looping) in Hp.
  - assert (exists x, fields d !! u = Some x /\ join x = 1) as (x & Hx & Hj)
      by (destruct Hp as [Hp|Hp]; destruct (sn_fields _ _ _ _ _ _ _ _ Hp) as (x & ? & ? & _); eauto).
    cbn. unfold deref. rewrite Hx. cbn. rewrite Hj. cbn. eexists _, _, _. split; [done|]. cbn. split; [done|].
    destruct Hp as [Hp|Hp]; by apply (snap_stage _ _ _ _ _ _ _ _ Closing) in Hp.
  - eexists _, _, _. split; [done|]. cbn. split; [done|]. split; [done|]. by apply (snap_stage _ _ _ _ _ _ _ _ Gone) in Hp.
  - assert (exists x, fields d !! u = Some x) as [x Hx]
      by (destruct Hp as [Hp|Hp]; destruct (sn_fields _ _ _ _ _ _ _ _ Hp) as (x & ? & _); eauto).
    cbn. unfold deref. rewrite Hx. cbn. eexists _, _, _. split; [done|]. cbn. split; [done|].
    destruct Hp as [Hp|Hp]; [left|right]; by eapply snap_ready.
  - eexists _, _, _. split; [done|]. cbn. split; [done|]. by apply snap_join.
Qed.

Ltac set_equal := cbn; repeat case_decide; first [done|set_solver|lia|naive_solver].
Ltac call_on Hp := eapply snap_call; [exact Hp|set_equal..].

Lemma meeting_call t c q p d0 d1 h d log :
  jn_code q -> jn_here t (Some p) d -> behind jn_code jn_first t q log ->
  view (Client := Join_client) t q d0 = Ok (d1, Some (c, p)) ->
  b ∈ h -> locks_after c h = Some (jn_held p) -> in_call jn_assertions c p d log ->
  if decide (b ∈ jn_held p) then at_pc jn_assertions p d (log ++ [(Some t, c)]) else meeting d (log ++ [(Some t, c)]).
Proof.
  intros Hc Hh Hbeh Hv Hin Hl Hp. apply Thread_view_step in Hv. unfold meeting.
  destruct p as [p|v|v|v|v|v|v|v|v|v|v|v|v p|v p|v p|v p|v p|v p]; cbn in Hh, Hp; try done; destruct Hp as [-> Hp].
  1: { rewrite decide_False.
    - assert (t ∉ parked b log) as Hnp by (apply (jn_not_parked t q log Hbeh); by inversion Hv; subst).
      assert (t <> u). { intros ->. apply Hnp. rewrite (sn_parked _ _ _ _ _ _ _ _ Hp). by apply elem_of_singleton. }
      do 5 right. left. call_on Hp.
    - cbn in Hl |- *. rewrite decide_True in Hl by done. injection Hl as <-. set_solver. }
  all: assert (v = u) as -> by (inversion Hv; subst; apply own_inj; congruence).
  all: first [rewrite decide_True by (cbn; by apply elem_of_singleton)|rewrite decide_False by (cbn; set_solver)]; cbn.
  1-8: assert (t = u) as -> by (by destruct Hh).
  9-12: assert (t = w) as -> by (destruct Hh as (_ & ? & _); congruence).
  - do 2 right. call_on Hp.
  - call_on Hp.
  - right. left. call_on Hp.
  - call_on Hp.
  - destruct Hp as [Hp|Hp]; [left|right]; call_on Hp.
  - do 4 right. left. call_on Hp.
  - call_on Hp.
  - do 6 right. destruct Hp as [_ Hp]. call_on Hp.
  - destruct Hp as [Hp|Hp]; [left|right]; call_on Hp.
  - destruct Hp as [Hp|Hp]; [do 2 right; left|do 3 right; left]; call_on Hp.
  - call_on Hp.
  - call_on Hp.
Qed.

(** Whoever acquires the lock again does not sleep. *)
Lemma not_asleep t g r j K d log :
  counted (log ++ [(Some t, Acquire b)]) -> snap g r j 1 {[t]} K d log -> False.
Proof.
  intros Hcnt H. assert (snap g r j 1 ({[t]} ∖ {[t]}) (K ∖ {[t]}) d (log ++ [(Some t, Acquire b)])) as [_ _ _ Hw Hs _]
    by (by eapply snap_call; [exact H|..]).
  pose proof (Hcnt _ ltac:(reflexivity) b) as Hle. rewrite Hw, Hs, difference_diag_L, size_empty in Hle. lia.
Qed.

Lemma last_parked t log lk : last_call t log = Some (Wait b lk) -> t ∈ parked b log.
Proof. intros H. apply elem_of_parked. eauto. Qed.

Lemma meeting_acquire t p p' d d' d'' log :
  jn_code p -> jn_here t (Some p') d'' -> behind jn_code jn_first t p log ->
  view (Client := Join_client) t p d = Ok (d', Some (Acquire b, p')) -> counted (log ++ [(Some t, Acquire b)]) ->
  meeting d'' log -> at_pc jn_assertions p' d'' (log ++ [(Some t, Acquire b)]).
Proof.
  intros Hc Hh Hbeh Hv Hcnt Hm. apply Thread_view_step in Hv.
  assert (forall q, p = q -> match q with FinWoken v | FinLast v | JoinWoken v _ => v <> u | _ => True end -> t ∉ parked b log) as Hnp
    by (intros q ->; by apply (jn_not_parked t q log Hbeh)).
  assert (match p with FinWoken v | FinLast v | JoinWoken v _ => v = u | _ => False end -> t ∈ parked b log) as Hpk.
  { intros Hq. destruct (last_call t log) as [c|] eqn:El.
    - destruct (behind_call _ _ _ _ _ _ Hbeh El) as (q0 & d0 & d1 & Hc0 & Hv0). apply Thread_view_step in Hv0.
      apply (last_parked t log b). inversion Hv0; subst; cbn in Hq; try done; by subst.
    - destruct (behind_first _ _ _ _ _ Hbeh El) as (p0 & -> & _). done. }
  assert (forall g r j n S K, snap g r j n S K d'' log -> t ∈ K <-> t ∈ parked b log) as HK
    by (intros ? ? ? ? ? ? [_ _ _ _ _ ->]; done).
  assert (forall g r j n S K, snap g r j n S K d'' log -> away (stages d'' u) = g) as Hg by (by intros ? ? ? ? ? ? []).
  assert (forall g r j n S K, snap g r j n S K d'' log -> exists x, fields d'' !! u = Some x /\ readyToJoin x = r) as Hr
    by (intros ? ? ? ? ? ? [_ (x & ? & _ & ?) _ _ _ _]; eauto).
  inversion Hv; subst.
  - exfalso. match goal with H : work _ _ _ = _ |- _ => destruct (wk_does _ _ Hworker _ _ _ _ _ _ Hc H) as (_ & Hf & _) end.
    by apply (Hf u).
  - match goal with H : own _ = b |- _ => apply own_inj in H as -> end. destruct Hh as (_ & Ht & _ & x & Hx & H0).
    assert (t = w) as -> by congruence. assert (w ∉ parked b log) as Hn by by apply (Hnp _ eq_refl).
    assert (forall g r j n S K, snap g r j n S K d'' log -> r = 0) as Hr0
      by (intros ? ? ? ? ? ? H; destruct (Hr _ _ _ _ _ _ H) as (y & ? & ?); congruence).
    cbn. destruct Hm as [Hm|[Hm|[Hm|[Hm|[Hm|[Hm|Hm]]]]]]; try (by apply Hr0 in Hm); [left|right]; call_on Hm.
  - match goal with H : own _ = b |- _ => apply own_inj in H as -> end. destruct Hh as [<- Hs].
    assert (u ∉ parked b log) as Hn by by apply (Hnp _ eq_refl).
    cbn. destruct Hm as [Hm|[Hm|[Hm|[Hm|[Hm|[Hm|Hm]]]]]]; pose proof (Hg _ _ _ _ _ _ Hm) as Hgm; pose proof (HK _ _ _ _ _ _ Hm) as HKm;
      try (by destruct Hn; apply HKm; first [apply elem_of_singleton|apply elem_of_union_l, elem_of_singleton]);
      try (exfalso; destruct Hs as [Hs|Hs]; by rewrite Hs in Hgm); [left|right; left]; call_on Hm.
  - match goal with H : own _ = b |- _ => apply own_inj in H as -> end. destruct Hh as [<- Hs].
    cbn. destruct Hm as [Hm|[Hm|[Hm|[Hm|[Hm|[Hm|Hm]]]]]]; pose proof (Hg _ _ _ _ _ _ Hm) as Hgm; rewrite Hs in Hgm; try done;
      try (by destruct (not_asleep _ _ _ _ _ _ _ Hcnt Hm)). call_on Hm.
  - match goal with H : own _ = b |- _ => apply own_inj in H as -> end. destruct Hh as [<- Hs].
    cbn. destruct Hm as [Hm|[Hm|[Hm|[Hm|[Hm|[Hm|Hm]]]]]]; pose proof (Hg _ _ _ _ _ _ Hm) as Hgm; rewrite Hs in Hgm; try done;
      try (by destruct (not_asleep _ _ _ _ _ _ _ Hcnt Hm)). call_on Hm.
  - match goal with H : own _ = b |- _ => apply own_inj in H as -> end. destruct Hh as (_ & Ht & _).
    assert (t = w) as -> by congruence. assert (w ∈ parked b log) as Hin by by apply Hpk.
    cbn. destruct Hm as [Hm|[Hm|[Hm|[Hm|[Hm|[Hm|Hm]]]]]]; apply (HK _ _ _ _ _ _ Hm) in Hin as Hin';
      try (by apply not_elem_of_empty in Hin'); try (by apply elem_of_singleton in Hin');
      try (by destruct (not_asleep _ _ _ _ _ _ _ Hcnt Hm)). call_on Hm.
Qed.

Lemma not_mine v : b ∉ ({[own v]} : gset positive) -> v <> u.
Proof. intros Hb ->. apply Hb. by apply elem_of_singleton. Qed.

Lemma meeting_view t q d d' r log :
  jn_here t (Some q) d -> b ∉ jn_held q -> view (Client := Join_client) t q d = Ok (d', r) ->
  stable jn_held b jn_assertions d log d' log.
Proof.
  intros Hh Hn H. apply jn_stable. intros g r0 j n S K Hs. revert Hs. cbn in H.
  assert (forall d2, fields d2 = fields d -> joined d2 = joined d -> away (stages d2 u) = away (stages d u) ->
    snap g r0 j n S K d log -> snap g r0 j n S K d2 log) as Hsame.
  { intros d2 E1 E2 E3 Hs. eapply snap_data; [exact Hs|done| |by rewrite E2]. rewrite E1. eauto. }
  assert (forall d2 v x x', fields d2 !! v = Some x -> join x' = join x -> readyToJoin x' = readyToJoin x \/ v <> u ->
    snap g r0 j n S K d2 log -> snap g r0 j n S K (put_fields v x' d2) log) as Hput.
  { intros d2 v x x' Hx E1 E2 Hs. eapply snap_data; [exact Hs|done| |done]. intros y Hy. cbn.
    destruct (decide (v = u)) as [->|Hvu].
    - rewrite lookup_insert_eq. assert (y = x) as -> by congruence. eexists. split; [done|]. by destruct E2.
    - rewrite lookup_insert_ne by done. eauto. }
  destruct q as [p|v|v|v|v|v|v|v|v|v|v|v|v p|v p|v p|v p|v p|v p]; cbn in Hh, Hn, H;
    try (apply not_mine in Hn); try (injection H as <- _; by apply Hsame);
    try (injection H as <- _; apply Hsame; [done|done|]; cbn; by rewrite fn_lookup_insert_ne).
  - inv_bind H. destruct v as [e [c p'|v p'|]].
    + inv_bind H. injection H as <- _. destruct c; cbn in H1; try (injection H1 as <-; by apply Hsame).
      apply deref_bind in H1 as (x & Hx & H1). injection H1 as <-. intros Hs. eapply Hput; [exact Hx|done|by left|by apply Hsame].
    + inv_bind H. injection H as <- _. by apply Hsame.
    + injection H as <- _. apply Hsame; [done|done|]. cbn. destruct (decide (u = t)) as [->|];
        [by rewrite fn_lookup_insert, Hh|by rewrite fn_lookup_insert_ne].
  - inv_bind H. injection H as <- _. by apply Hsame.
  - inv_bind H. destruct (_ && _); injection H as <- _; by apply Hsame.
  - inv_bind H. destruct (negb _); injection H as <- _; (apply Hsame; [done|done|]); cbn; by rewrite fn_lookup_insert_ne.
  - apply deref_bind in H as (x & Hx & H). injection H as <- _. eapply Hput; [done|done|by right].
  - injection H as <- _. intros Hs. eapply snap_data; [exact Hs|done|eauto|]. cbn. set_solver.
Qed.

Lemma meeting_others t c q p d log :
  jn_code q -> behind jn_code jn_first t q log -> jn_step t q c p -> b ∉ jn_held q -> b ∉ jn_held p ->
  stable jn_held b jn_assertions d log d (log ++ [(Some t, c)]).
Proof.
  intros Hc Hbeh Hs Hq Hp. apply jn_stable. intros g r j n S K Hsn.
  destruct (others_log t c log) as (E1 & E2 & E3); [| |by eapply snap_log].
  - apply (jn_not_parked t q log Hbeh). destruct Hs; try done; cbn in Hp; by apply not_mine.
  - destruct Hs; cbn in Hc, Hq, Hp; try done; try (intros Eo%own_inj; by apply not_mine in Hq).
    destruct (wk_does _ _ Hworker _ _ _ _ _ _ Hc H) as (_ & Hf & _). destruct c; try done; cbn in Hf; apply Hf.
Qed.

Lemma Join_monitor : monitor init jn_code jn_first jn_held b jn_here jn_assertions.
Proof.
  split.
  - intros t q d log Hc _. by apply holder_steps.
  - intros t c q p d0 d1 h d log Hc Hh Hbeh Hv Hin Hl Hp _ _. by eapply meeting_call.
  - intros t p p' d d' d'' log Hc Hh Hbeh Hv Hcnt Hf. by eapply meeting_acquire.
  - intros t q d d' r log _. by apply meeting_view.
  - intros t c q p d0 d1 d log Hc _ Hbeh Hv. apply Thread_view_step in Hv. by apply (meeting_others t c q).
  - intros t q d0 d1 d log Hc Hbeh Hv. apply jn_stable. intros g r j n S K Hsn.
    destruct (others_log t Die log) as (E1 & E2 & E3); [|done|by eapply snap_log].
    apply (jn_not_parked t q log Hbeh). by destruct q.
  - intros n d d' log Hi. apply jn_stable. intros g r j m S K Hsn. cbn in Hi. destruct (work_irq n (jenv d)); [|done].
    injection Hi as <-. apply (snap_data _ _ _ _ _ _ d); [|done|eauto|done].
    eapply snap_log; [exact Hsn|by rewrite waiters_snoc|by rewrite sleepers_snoc|by rewrite parked_snoc].
Qed.
End Meeting.

(** ** Runs *)

Section Results.
Context (init : positive -> Z).
Implicit Types s : Sys Q jn_pc jn_data.

(** The threads start in their procedures. *)
Record jn_starts s : Prop := {
  jb_booted : booted init s;
  jb_sites : forall t x, ctls s !! t = Some x -> exists p, ocode p /\ oheld p = ∅ /\
    (x = At (Free p) \/ exists old, x = Woken old (Free p));
  jb_stages : forall t, stages (data s) t = Working;
  jb_joined : joined (data s) = ∅
}.

(** Thread [u] is joinable, by thread [w]. *)
Record child s (u w : positive) : Prop := {
  ch_parent : parent u = Some w;
  ch_other : w <> u;
  ch_there : is_Some (ctls s !! u);
  ch_fields : exists x, fields (data s) !! u = Some x /\ join x = 1 /\ readyToJoin x = 0
}.

Lemma first_jn_code q : jn_first q -> jn_code q.
Proof. by intros (p & -> & ?). Qed.

Lemma jn_starts_first s : jn_starts s -> starts jn_first s.
Proof.
  intros Hs t x Hx. destruct (jb_sites _ Hs t x Hx) as (p & Hp & _ & Hx'). exists (Free p). split; [by exists p|]. exact Hx'.
Qed.

Lemma jn_runs s0 s chs u w :
  jn_starts s0 -> runs s0 chs s -> small init (log s) -> child s0 u w ->
  tracked jn_here (abs s) /\ exists held_by : positive -> gset positive,
    (forall t x, ctls s !! t = Some x -> site_typed jn_code jn_held x (held_by t)) /\
    (forall t k, k ∈ held_by t <-> lock_trace k None (log s) = Some (Some t)) /\
    ((forall t, own u ∉ held_by t) /\ meeting u w (data s) (log s) \/
     exists t x, own u ∈ held_by t /\ (forall v, own u ∈ held_by v -> v = t) /\
       ctls s !! t = Some x /\ site_holds (jn_assertions u w) x (data s) (log s)).
Proof.
  intros [Hb H0 Hg Hj] Hr Hsm [Hp Hne _ Hf].
  apply (monitor_rule_own init jn_code jn_first jn_held (own u) first_jn_code jn_here (jn_assertions u w) s0 s chs); try done.
  - apply Join_typed.
  - intros t x Hx. destruct (H0 t x Hx) as (p & Hc & Hh & [->|[old ->]]); (split; [done|]); by rewrite <- Hh.
  - by apply Join_monitor.
  - apply Join_tracks.
  - intros t x Hx. destruct (H0 t x Hx) as (p & Hc & Hh & [->|[old ->]]); apply Hg.
  - left. split; [by rewrite Hg|done|by rewrite Hj|done..].
  - by apply jn_starts_first.
Qed.

(** How things stand, whoever has the lock. *)
Lemma jn_snap s u w held_by :
  (forall t x, ctls s !! t = Some x -> site_typed jn_code jn_held x (held_by t)) ->
  ((forall t, own u ∉ held_by t) /\ meeting u w (data s) (log s) \/
   exists t x, own u ∈ held_by t /\ (forall v, own u ∈ held_by v -> v = t) /\
     ctls s !! t = Some x /\ site_holds (jn_assertions u w) x (data s) (log s)) ->
  exists g r j n S K, snap u g r j n S K (data s) (log s) /\
    (j = true -> g = Closing \/ g = Gone) /\ (g = Gone -> j = true /\ r = 1 /\ n = 0%nat /\ K = ∅).
Proof.
  intros Hty [[_ Hm]|(t & x & Hin & _ & Hx & Hh)].
  - destruct Hm as [Hm|[Hm|[Hm|[Hm|[Hm|[Hm|Hm]]]]]]; (do 6 eexists; split; [exact Hm|]); naive_solver.
  - specialize (Hty t x Hx). destruct x as [q|c old q|old q|]; cbn in Hty, Hh; [|clear Hty| |done].
    1, 3: destruct Hty as [Hc E1]; rewrite E1 in Hin.
    all: destruct q as [p|v|v|v|v|v|v|v|v|v|v|v|v p|v p|v p|v p|v p|v p]; cbn in Hh, Hin; try done;
      try (exfalso; set_solver); try (by destruct (wk_private _ _ Hworker p u));
      repeat match type of Hh with _ /\ _ => destruct Hh as [_ Hh] | _ \/ _ => destruct Hh as [Hh|Hh] end;
      try (do 6 eexists; split; [exact Hh|naive_solver]).
Qed.

(** At a program counter of the Finish or the Join of a thread. *)
Definition meets (q : jn_pc) : option positive :=
  match q with
  | Free _ => None
  | Finishing v | FinTest v | FinLoop v | FinWoken v | FinChecked v | FinSignal v | FinClose v | FinLast v
  | FinLastChecked v | FinRelease v | FinDone v => Some v
  | JoinReady v _ | JoinWait v _ | JoinWoken v _ | JoinChecked v _ | JoinSignal v _ | JoinRelease v _ => Some v
  end.
Definition joins (q : jn_pc) : option positive :=
  match q with
  | JoinReady v _ | JoinWait v _ | JoinWoken v _ | JoinChecked v _ | JoinSignal v _ | JoinRelease v _ => Some v
  | _ => None
  end.

(** Nobody is on its way to get the lock of a thread that is gone. *)
Lemma gone_alone s u w g n S t c old q :
  tracked jn_here (abs s) -> origins jn_code jn_first (abs s) -> parent u = Some w ->
  ctls s !! u = Some Dead -> snap u g 1 true n S ∅ (data s) (log s) ->
  ctls s !! t = Some (Retry c old q) -> c <> Acquire (own u).
Proof.
  intros Ht [Ho _] Hp Hu Hs Hx ->. pose proof (Ht _ _ Hx) as Hh. cbn in Hh.
  destruct (Ho _ _ Hx) as (q0 & d & d' & [r|] & Hc & Hb & Hv & Hr); [subst r|done]. apply Thread_view_step in Hv.
  assert (t <> u) as Htu by (intros ->; cbn in Hx, Hu; congruence).
  inversion Hv; subst; cbn in Hh; repeat match goal with H : own _ = own _ |- _ => apply own_inj in H; subst end;
    try (by destruct Hh as [Hh _]).
  - match goal with H : work _ _ _ = _ |- _ => destruct (wk_does _ _ Hworker _ _ _ _ _ _ Hc H) as (_ & Hf & _) end.
    by apply (Hf u).
  - destruct Hh as (_ & _ & _ & x & Hx1 & H0). destruct (sn_fields _ _ _ _ _ _ _ _ _ Hs) as (x' & Hx' & _ & Hr1). congruence.
  - assert (t ∈ parked (own u) (log s)) as Hin.
    { destruct (last_call t (log s)) as [c|] eqn:El.
      - destruct (behind_call _ _ _ _ _ _ Hb El) as (q1 & d1 & d2 & _ & Hv1). apply Thread_view_step in Hv1.
        apply elem_of_parked. inversion Hv1; subst. eauto.
      - by destruct (behind_first _ _ _ _ _ Hb El) as (p0 & ? & _). }
    rewrite (sn_parked _ _ _ _ _ _ _ _ _ Hs) in Hin. by apply not_elem_of_empty in Hin.
Qed.

(** ... or has it, ... *)
Lemma gone_free s u w g n S (own_by : positive -> gset positive) :
  tracked jn_here (abs s) -> ctls s !! u = Some Dead -> snap u Gone 1 true n S g (data s) (log s) ->
  (forall t x, ctls s !! t = Some x -> site_typed jn_code jn_held x (own_by t)) ->
  ((forall t, own u ∉ own_by t) /\ meeting u w (data s) (log s) \/
   exists t x, own u ∈ own_by t /\ (forall v, own u ∈ own_by v -> v = t) /\
     ctls s !! t = Some x /\ site_holds (jn_assertions u w) x (data s) (log s)) ->
  forall t, own u ∉ own_by t.
Proof.
  intros Ht Hd Hsn Hty [[Hf _]|(t & x & Hin & _ & Hx & Hh)]; [done|]. exfalso.
  assert (forall g r j n S K, snap u g r j n S K (data s) (log s) -> g <> Gone -> False) as Hno.
  { intros ? ? ? ? ? ? [E1 _ _ _ _ _] Hg. destruct Hsn as [E2 _ _ _ _ _]. congruence. }
  specialize (Hty t x Hx). specialize (Ht t x Hx). destruct x as [q|c old q|old q|]; cbn in Hty, Hh, Ht; [|clear Hty| |done].
  1, 3: destruct Hty as [Hc E1]; rewrite E1 in Hin.
  all: destruct q as [p|v|v|v|v|v|v|v|v|v|v|v|v p|v p|v p|v p|v p|v p]; cbn in Hh, Hin; try done;
    try (exfalso; set_solver); try (by destruct (wk_private _ _ Hworker p u));
    try (destruct Hh as (-> & -> & _); rewrite decide_False in Ht by done; destruct Ht as [<- _]; cbn in Hx, Hd; congruence);
    repeat match type of Hh with _ /\ _ => destruct Hh as [_ Hh] | _ \/ _ => destruct Hh as [Hh|Hh] end;
    by eapply Hno.
Qed.

(** ... or is inside Join. *)
Lemma gone_joined s u w g n S (own_by : positive -> gset positive) t x q :
  tracked jn_here (abs s) -> origins jn_code jn_first (abs s) -> parent u = Some w ->
  ctls s !! u = Some Dead -> snap u g 1 true n S ∅ (data s) (log s) ->
  (forall t x, ctls s !! t = Some x -> site_typed jn_code jn_held x (own_by t)) -> (forall t, own u ∉ own_by t) ->
  ctls s !! t = Some x -> going x = Some q -> joins q <> Some u.
Proof.
  intros Ht Ho Hp Hd Hs Hty Hno Hx Hg Hj. pose proof (proj1 Ho t x Hx) as Hox. pose proof (Hty t x Hx) as Htx.
  assert (forall c, own u ∈ jn_held q -> locks_after c (own_by t) = Some (jn_held q) -> c = Acquire (own u)) as Hacq
    by (intros c Hin Hl; by apply (acquires (own u) c (own_by t) (jn_held q))).
  assert (forall p, q = JoinWoken u p -> behind jn_code jn_first t q (log s) -> False) as Hpark.
  { intros p -> Hb. destruct (last_call t (log s)) as [c|] eqn:El.
    - destruct (behind_call _ _ _ _ _ _ Hb El) as (q1 & d1 & d2 & _ & Hv1). apply Thread_view_step in Hv1.
      assert (t ∈ parked (own u) (log s)) as Hin by (apply elem_of_parked; inversion Hv1; subst; eauto).
      rewrite (sn_parked _ _ _ _ _ _ _ _ _ Hs) in Hin. by apply not_elem_of_empty in Hin.
    - by destruct (behind_first _ _ _ _ _ Hb El) as (p0 & ? & _). }
  destruct x as [p|c old p|old p|]; cbn in Hox, Htx, Hg; [| | |done].
  1, 3: injection Hg as ->; destruct Htx as [_ E1]; destruct q; cbn in Hj; try done; injection Hj as ->;
    try (apply (Hno t); rewrite E1; cbn; by apply elem_of_singleton); by apply (Hpark _ eq_refl), Hox.
  case_decide as Hdie; [done|]. injection Hg as ->. destruct Htx as [[_ Hl]|[? _]]; [|done].
  destruct Hox as (q0 & d & d' & [r|] & Hc & Hb & Hv & Hr); [subst r|done]. apply Thread_view_step in Hv.
  destruct (decide (own u ∈ jn_held q)) as [Hin|Hout].
  - rewrite (Hacq c Hin Hl) in Hx. exact (gone_alone s u w g n S t _ old q Ht Ho Hp Hd Hs Hx eq_refl).
  - destruct q; cbn in Hj, Hout; try done; injection Hj as ->; try (by destruct Hout; apply elem_of_singleton).
    inversion Hv; subst. cbn in Hl. rewrite decide_False in Hl by apply Hno. discriminate Hl.
Qed.

(** C17: Join waits for the thread to end.  In every run, a parent has got past the Wait
    of Join only if the thread has returned from its procedure and is behind the loop
    of Finish; and a joinable thread that is gone has been joined, nobody is inside
    its Join any more, and its lock is free and it and its condition have no waiters,
    so the ASSERTs of their destructors hold. *)
Theorem Join_waits s0 s chs u w :
  jn_starts s0 -> runs s0 chs s -> small init (log s) -> child s0 u w ->
  (u ∈ joined (data s) -> stages (data s) u = Closing \/ stages (data s) u = Gone) /\
  (ctls s !! u = Some Dead ->
     u ∈ joined (data s) /\
     (forall t x q, ctls s !! t = Some x -> going x = Some q -> joins q <> Some u) /\
     (forall l, locks (kern s) !! own u = Some l -> locked l = 0 /\ q_is_empty (lock_queue l) = true) /\
     (forall c, conditions (kern s) !! own u = Some c -> q_is_empty (waitQ c) = true)).
Proof.
  intros Hs Hr Hsm Hch. destruct (jn_runs s0 s chs u w Hs Hr Hsm Hch) as (Ht & own_by & Hty & Htr & Hor).
  destruct (jn_snap s u w own_by Hty Hor) as (g & r & j & n & S & K & Hsn & Hj & Hg). split.
  - intros Hin%(sn_joined _ _ _ _ _ _ _ _ _ Hsn). pose proof (sn_stage _ _ _ _ _ _ _ _ _ Hsn) as Hst.
    destruct (Hj Hin) as [-> | ->]; destruct (stages (data s) u); cbn in Hst; by auto.
  - intros Hd. pose proof (Ht _ _ Hd) as Hgone. cbn in Hgone.
    assert (g = Gone) as -> by (rewrite <- (sn_stage _ _ _ _ _ _ _ _ _ Hsn), Hgone; done).
    destruct (Hg eq_refl) as (-> & -> & -> & ->).
    assert (starts jn_first s0) as Hfst by by apply jn_starts_first.
    pose proof (runs_origins init jn_code jn_first first_jn_code
      (fun t p d d' c p' Hc Hv => proj1 (ty_call _ _ Join_typed t p d d' c p' Hc Hv)) s0 chs s Hfst (jb_booted _ Hs) Hr Hsm) as Ho.
    pose proof (gone_free s u w ∅ 0 S own_by Ht Hd Hsn Hty Hor) as Hno. pose proof (ch_parent _ _ _ Hch) as Hpar.
    destruct (runs_sinv init s0 chs s (jb_booted _ Hs) Hr Hsm) as [cts Hinv].
    destruct (runs_tie init (fun _ => False) s0 chs s (jb_booted _ Hs) ltac:(done) Hr Hsm) as (Hck & _).
    split; [by apply (sn_joined _ _ _ _ _ _ _ _ _ Hsn)|]. split; [|split].
    + intros t x q Hx Hg' Hj'. by eapply gone_joined; [exact Ht|..].
    + intros l Hl. destruct (s_lockok _ _ _ Hinv (own u)) as (h & Hh & Hlk). destruct (Hlk l Hl) as [_ E1].
      destruct h as [t|]; [by destruct (Hno t); apply Htr|]. split; [done|].
      assert (q_rep (lock_queue l) (cts (LockQ (own u)))) as Hq
        by (apply (k_rep _ _ _ _ (s_kinv _ _ _ Hinv)); cbn; by rewrite Hl).
      rewrite (q_is_empty_rep _ _ _ Hq). apply bool_decide_eq_true.
      destruct (cts (LockQ (own u))) as [|[key t] tl] eqn:El; [done|].
      pose proof (w_waits _ _ _ _ (s_winv _ _ _ Hinv) (LockQ (own u)) t ltac:(rewrite El; by left)) as Hpend. cbn in Hpend.
      unfold pending in Hpend. destruct (ctls s !! t) as [[|c old q| |]|] eqn:Ex; try done. injection Hpend as ->.
      by destruct (gone_alone s u w Gone 0 ∅ t _ old q Ht Ho (ch_parent _ _ _ Hch) Hd Hsn Ex).
    + intros c Hc. destruct (condok_elim _ _ _ _ Hck Hc) as (l & Hl & _ & Hn & _).
      rewrite (sn_waiters _ _ _ _ _ _ _ _ _ Hsn) in Hn. rewrite (q_is_empty_rep _ _ _ Hl). by destruct l.
Qed.

(** When nothing is left to run and the lock of [v] is free, a thread in the Finish or
    the Join of [v] sleeps in a Wait. *)
Lemma settled_meets s cts t x q v :
  settled jn_code jn_first s cts -> lock_trace (own v) None (log s) = Some None ->
  ctls s !! t = Some x -> going x = Some q -> meets q = Some v ->
  match q with FinWoken _ | FinLast _ | JoinWoken _ _ => t ∈ sleepers (own v) (log s) | _ => False end.
Proof.
  intros Hset Hfree Hx Hg Hm. pose proof (se_sites _ _ _ _ Hset t x Hx) as Hsite.
  destruct x as [p|c old p|old p|]; cbn in Hg; [| | |done].
  1, 3: injection Hg as ->; destruct Hsite as [[_ (p0 & -> & _)]|(c & lk & _ & (q0 & d & d' & _ & Hv) & Hin)]; [done|];
    apply (se_asleep _ _ _ _ Hset) in Hin; apply Thread_view_step in Hv; inversion Hv; subst; cbn in Hm; try done; by injection Hm as <-.
  case_decide; [done|]. injection Hg as ->. destruct Hsite as [(q0 & d & d' & _ & _ & Hv) Hc]. apply Thread_view_step in Hv.
  destruct Hc as [(n & y & -> & _)|(l & h & -> & Hh)]; inversion Hv; subst; cbn in Hm; try done; injection Hm as ->; congruence.
Qed.

(** Its holder is not settled. *)
Lemma settled_holder s cts t x v (own_by : positive -> gset positive) :
  settled jn_code jn_first s cts -> ctls s !! t = Some x -> site_typed jn_code jn_held x (own_by t) ->
  lock_trace (own v) None (log s) = Some (Some t) -> own v ∈ own_by t -> False.
Proof.
  intros Hset Hx Hty Htr Hin. pose proof (se_sites _ _ _ _ Hset t x Hx) as Hsite.
  pose proof (holder_called _ _ _ Htr) as Hcalled.
  destruct x as [q|c old q|old q|]; cbn in Hty; [| | |rewrite Hty in Hin; set_solver].
  1, 3: destruct Hty as [Hc E1]; rewrite E1 in Hin; destruct Hsite as [[? _]|(c & lk & _ & (q0 & d & d' & _ & Hv) & _)]; [done|];
    apply Thread_view_step in Hv; inversion Hv; subst; cbn in Hc, Hin; try set_solver; by destruct (wk_private _ _ Hworker p' v).
  destruct Hsite as [(q0 & d & d' & Hq0 & _ & Hv) Hc]. apply Thread_view_step in Hv.
  destruct Hty as [[Hq Hl]|[_ E1]]; [|rewrite E1 in Hin; set_solver].
  assert (own v ∈ jn_held q) as Hq'.
  { destruct Hc as [(n & y & -> & _)|(l & h & -> & _)]; cbn in Hl; [by injection Hl as <-|].
    case_decide; [done|]. injection Hl as <-. set_solver. }
  destruct Hc as [(n & y & -> & _)|(l & h & -> & Hh)]; inversion Hv; subst; cbn in Hq, Hq', Hl;
    try (by destruct (wk_private _ _ Hworker p' v)); apply elem_of_singleton in Hq'; rewrite decide_True in Hl by congruence; done.
Qed.

(** A thread that has been woken is not settled either. *)
Lemma settled_woken s cts t v :
  settled jn_code jn_first s cts -> lock_trace (own v) None (log s) = Some None ->
  t ∈ parked (own v) (log s) -> t ∈ sleepers (own v) (log s).
Proof.
  intros Hset Hfree [lk Hl]%elem_of_parked. destruct (se_called _ _ _ _ Hset _ _ Hl) as [x Hx].
  pose proof (se_sites _ _ _ _ Hset t x Hx) as Hsite.
  destruct x as [q|c old q|old q|]; [| | |congruence].
  1, 3: destruct Hsite as [[? _]|(c & lk' & Hl' & _ & Hin)]; [congruence|]; rewrite Hl' in Hl; injection Hl as -> ->;
    by apply (se_asleep _ _ _ _ Hset) in Hin.
  destruct Hsite as [(q0 & d & d' & Hq0 & Hb & Hv) Hc]. exfalso.
  destruct (behind_call _ _ _ _ _ _ Hb Hl) as (q1 & d1 & d2 & Hq1 & Hv1).
  apply Thread_view_step in Hv, Hv1. inversion Hv1; subst; try (match goal with H : own _ = own _ |- _ => apply own_inj in H; subst end).
  1: { match goal with H : work _ _ _ = _ |- _ => destruct (wk_does _ _ Hworker _ _ _ _ _ _ Hq1 H) as (_ & Hf & _) end.
    by apply (proj2 Hf v). }
  all: inversion Hv; subst; destruct Hc as [(n & y & ? & _)|(l & h & [= <-] & Hh)]; congruence.
Qed.

(** Of the ways a thread and its parent can meet, three are settled. *)
Lemma settled_meeting s cts u w :
  settled jn_code jn_first s cts -> lock_trace (own u) None (log s) = Some None -> w <> u -> meeting u w (data s) (log s) ->
  away (stages (data s) u) = Working \/ snap u Looping 0 false 1 {[u]} {[u]} (data s) (log s) \/
  snap u Gone 1 true 0 ∅ ∅ (data s) (log s).
Proof.
  intros Hset Hfree Hne Hm. pose proof (fun t => settled_woken s cts t u Hset Hfree) as Hwoken.
  assert (forall g r j n S K v, snap u g r j n S K (data s) (log s) -> v ∈ K -> v ∈ S) as HKS.
  { intros ? ? ? ? ? ? v [_ _ _ _ <- <-]. apply Hwoken. }
  destruct Hm as [Hm|[Hm|[Hm|[Hm|[Hm|[Hm|Hm]]]]]]; [left; apply Hm|auto|left; apply Hm|exfalso..|auto].
  - assert (u ∈ ({[w]} : gset positive)) as E1%elem_of_singleton by (eapply HKS; [exact Hm|set_solver]). congruence.
  - assert (w ∈ ({[u]} : gset positive)) as E1%elem_of_singleton by (eapply HKS; [exact Hm|set_solver]). congruence.
  - by assert (u ∈ (∅ : gset positive)) as E1%not_elem_of_empty by (eapply HKS; [exact Hm|set_solver]).
Qed.

(** A thread inside Join is asleep there, and is not the thread it joins. *)
Lemma settled_inside s cts t x q u :
  tracked jn_here (abs s) -> settled jn_code jn_first s cts -> lock_trace (own u) None (log s) = Some None ->
  ctls s !! t = Some x -> going x = Some q -> joins q = Some u -> t ∈ sleepers (own u) (log s) /\ t <> u.
Proof.
  intros Ht Hset Hfree Hx Hg Hj. assert (meets q = Some u) as Hmq by (by destruct q).
  pose proof (settled_meets s cts t x q u Hset Hfree Hx Hg Hmq) as Hq. pose proof (Ht t x Hx) as Hh. cbn in Hh. rewrite Hg in Hh.
  destruct q; cbn in Hj; try done; injection Hj as ->. split; [done|by destruct Hh].
Qed.

(** A thread in Finish is in one of its Waits. *)
Lemma settled_returned s cts u x q :
  tracked jn_here (abs s) -> settled jn_code jn_first s cts -> lock_trace (own u) None (log s) = Some None ->
  ctls s !! u = Some x -> going x = Some q -> stages (data s) u <> Ending /\ stages (data s) u <> Gone.
Proof.
  intros Ht Hset Hfree Hx Hg. pose proof (Ht u x Hx) as Hh. cbn in Hh. rewrite Hg in Hh.
  pose proof (settled_meets s cts u x q u Hset Hfree Hx Hg) as Hmq.
  destruct q; cbn in Hh, Hmq; try (split; congruence); try (destruct Hh as (_ & _ & ? & _); split; congruence);
    try (destruct Hh as (_ & _ & ?); split; congruence); destruct Hh as [-> Hh]; try (by destruct Hmq); split; congruence.
Qed.

(** A thread that is on its last lines is gone. *)
Lemma settled_gone s cts u x :
  settled jn_code jn_first s cts -> ctls s !! u = Some x -> going x = None -> x = Dead.
Proof.
  intros Hset Hx Hg. destruct x as [p|c old p|old p|]; cbn in Hg; try done. case_decide as Hdie; [|done]. subst c.
  by destruct (se_sites _ _ _ _ Hset u _ Hx) as [_ [(n & y & ? & _)|(l & h & ? & _)]].
Qed.

(** C18: a thread and its parent do not wait for each other for ever.  When nothing is
    left to run, a parent that is inside Join waits for a thread that has not returned
    from its procedure; and a joinable thread that has returned is gone and joined,
    or waits for a Join nobody has called. *)
Theorem Join_live s0 s chs u w :
  jn_starts s0 -> present s0 -> runs s0 chs s -> small init (log s) -> child s0 u w -> stuck s ->
  (forall t x q, ctls s !! t = Some x -> going x = Some q -> joins q = Some u -> stages (data s) u = Working) /\
  (stages (data s) u = Working \/ ctls s !! u = Some Dead /\ u ∈ joined (data s) \/
   unready u (data s) /\ u ∉ joined (data s)).
Proof.
  intros Hs Hpr Hr Hsm Hch Hst. destruct (jn_runs s0 s chs u w Hs Hr Hsm Hch) as (Ht & own_by & Hty & Htr & Hor).
  destruct (stuck_places init jn_code jn_first first_jn_code
    (fun t p d d' c p' Hc Hv => proj1 (ty_call _ _ Join_typed t p d d' c p' Hc Hv)) s0 chs s)
    as (cts & Hinv & Hset); [by apply jn_starts_first|apply Hs|done..|].
  destruct Hor as [[Hno Hm]|(t & x & Hin & _ & Hx & _)].
  2: { destruct (settled_holder s cts t x u own_by Hset Hx (Hty _ _ Hx)); [by apply Htr|done]. }
  assert (lock_trace (own u) None (log s) = Some None) as Hfree.
  { destruct (s_lockok _ _ _ Hinv (own u)) as (h & Hh & _). rewrite Hh. destruct h as [t|]; [|done]. destruct (Hno t). by apply Htr. }
  destruct (runs_sites init s0 chs s u (jb_booted _ Hs) Hr Hsm (ch_there _ _ _ Hch)) as [xu Hxu].
  pose proof (Ht u xu Hxu) as Hhere. cbn in Hhere.
  pose proof (fun q => settled_returned s cts u xu q Ht Hset Hfree Hxu) as Hret.
  pose proof (fun t x q => settled_inside s cts t x q u Ht Hset Hfree) as Hins.
  destruct (settled_meeting s cts u w Hset Hfree (ch_other _ _ _ Hch) Hm) as [Ha|[Hsn|Hsn]].
  - assert (stages (data s) u = Working); [|by auto]. destruct (stages (data s) u) eqn:Eg; try done.
    destruct (going xu) as [q|] eqn:Eq; [|cbn in Hhere; congruence]. by destruct (Hret q eq_refl).
  - split.
    + intros t x q Hx Hg Hj. destruct (Hins t x q Hx Hg Hj) as [Hin Hne].
      rewrite (sn_sleepers _ _ _ _ _ _ _ _ _ Hsn) in Hin. by apply elem_of_singleton in Hin.
    + do 2 right. destruct Hsn as [_ (y & Hy & _ & Hy0) Hj _ _ _]. split; [by exists y|]. by intros ?%Hj.
  - split.
    + intros t x q Hx Hg Hj. destruct (Hins t x q Hx Hg Hj) as [Hin _].
      rewrite (sn_sleepers _ _ _ _ _ _ _ _ _ Hsn) in Hin. by apply not_elem_of_empty in Hin.
    + right. left. split; [|by apply (sn_joined _ _ _ _ _ _ _ _ _ Hsn)].
      assert (stages (data s) u = Gone) as Eg by (pose proof (sn_stage _ _ _ _ _ _ _ _ _ Hsn); by destruct (stages (data s) u)).
      destruct (going xu) as [q|] eqn:Eq; [by destruct (Hret q eq_refl)|]. by rewrite Hxu, (settled_gone s cts u xu).
Qed.
End Results.
End Join.

(** ** Threads that fork and join one another *)

Inductive jn_op := Call (c : prim) | JoinOf (u : positive).

(** What a thread, whose name goes with it, still has to do. *)
#[export] Instance jn_script : Worker (positive * list jn_op) unit := {
  work t p e :=
    _ <- ASSERT (bool_decide (t = p.1)) ;;
    match p.2 with
    | [] => Ok (e, Ends)
    | Call c :: ops => Ok (e, Does c (p.1, ops))
    | JoinOf u :: ops => Ok (e, Joins u (p.1, ops))
    end;
  work_irq n e := None
}.

Definition jn_op_ok (parent : positive -> option positive) (me : positive) (o : jn_op) : Prop :=
  match o with Call (Fork _) | Call Yield => True | Call _ => False | JoinOf u => parent u = Some me end.

Lemma jn_script_ok parent :
  worker_ok parent (fun p : positive * list jn_op => Forall (jn_op_ok parent p.1) p.2) (fun _ => ∅).
Proof.
  split.
  - intros t [me [|[c'|u] ops]] e e' c p' Hc H; apply ASSERT_bind in H as [_ H]; try done. injection H as _ <- <-.
    cbn in Hc |- *. inversion Hc as [|? ? Hc1 Hc2]; subst. by destruct c'.
  - intros t [me [|[c'|v] ops]] e e' u p' Hc H; apply ASSERT_bind in H as [Ht H]; try done. injection H as _ <- <-.
    apply bool_decide_eq_true in Ht as ->. cbn in Hc |- *. by inversion Hc; subst.
  - done.
  - set_solver.
Qed.

Definition demo_family (main : list jn_op) (others : list (positive * list jn_op)) :
  Sys NList.List (jn_pc (P := positive * list jn_op)) (jn_data (E := unit)) :=
  boot 1%positive (Free (1%positive, main)) ((fun x => (x.1, 0, Free x)) <$> others) [] [] []
    (mkJn tt (list_to_map ((fun x => (x.1, mkJoinable 1 0 0)) <$> (1%positive, main) :: others)) (fun _ => Working) ∅).

(** Thread 1 forks thread 2 and joins it. *)
Definition demo_parent (u : positive) : option positive := if decide (u = 2%positive) then Some 1%positive else None.
Definition demo_join := demo_family [Call (Fork 2); JoinOf 2] [(2%positive, [Call Yield])].
Definition demo_join_end := match run (replicate 30 System.quiet) demo_join with Ok s => s | Err _ => demo_join end.

Lemma demo_join_runs : runs demo_join (replicate 30 System.quiet) demo_join_end.
Proof. apply run_reaches. vm_compute. reflexivity. Qed.

Lemma demo_join_starts :
  jn_starts (fun p : positive * list jn_op => Forall (jn_op_ok demo_parent p.1) p.2) (fun _ => ∅) (first_value []) demo_join.
Proof.
  split; [|..|done|done].
  - apply boot_booted; [by apply Forall_nil|apply NoDup_nil_2].
  - intros t x [->|(y & Hy & ->)]%boot_sites.
    + eexists. split; [|split; [done|by left]]. by repeat constructor.
    + apply list_elem_of_fmap in Hy as (z & -> & Hz%list_elem_of_singleton). subst z.
      eexists. split; [|split; [done|right; by eexists]]. by repeat constructor.
Qed.

Lemma demo_join_child : child demo_parent demo_join 2 1.
Proof. split; [done|done|by eexists|]. eexists. split; [reflexivity|done]. Qed.

Lemma demo_join_small : small (first_value []) (log demo_join_end).
Proof.
  assert (zlen (log demo_join_end) < 100) as Hlog by (vm_compute; done).
  apply small_first_value; [by apply Forall_nil|lia].
Qed.

Lemma Join_waits_witness :
  ctls demo_join_end !! 2%positive = Some Dead /\ 2%positive ∈ joined (data demo_join_end).
Proof.
  assert (ctls demo_join_end !! 2%positive = Some Dead) as Hd by (vm_compute; reflexivity). split; [exact Hd|].
  exact (proj1 (proj2 (Join_waits demo_parent _ _ (jn_script_ok demo_parent) _ demo_join demo_join_end _ 2 1
    demo_join_starts demo_join_runs demo_join_small demo_join_child) Hd)).
Defined.

Lemma Join_live_witness :
  stuck demo_join_end /\
  (stages (data demo_join_end) 2%positive = Working \/
   ctls demo_join_end !! 2%positive = Some Dead /\ 2%positive ∈ joined (data demo_join_end) \/
   unready 2 (data demo_join_end) /\ 2%positive ∉ joined (data demo_join_end)).
Proof.
  assert (stuck demo_join_end) as Hst by (vm_compute; reflexivity). split; [exact Hst|].
  refine (proj2 (Join_live demo_parent _ _ (jn_script_ok demo_parent) _ demo_join demo_join_end _ 2 1
    demo_join_starts _ demo_join_runs demo_join_small demo_join_child Hst)).
  apply boot_present.
Defined.

(** Threads 1 and 3 join thread 2, which is not done; thread 3 gets its turn just behind
    the Acquire of thread 1. *)
Definition demo_race := demo_family [Call (Fork 3); Call (Fork 2); JoinOf 2; Call Yield]
  [(2%positive, replicate 9 (Call Yield)); (3%positive, [JoinOf 2])].
Definition demo_race_choices : list choice := replicate 2 System.quiet ++ mkChoice [] true :: replicate 19 System.quiet.
Definition demo_race_end := match run demo_race_choices demo_race with Ok s => s | Err _ => demo_race end.

(** Join does not hold the lock while it checks that it has not been called before.
    Two threads pass the ASSERTs, each wakes the other, and the Join of one returns
    while the thread it has joined is still in its procedure. *)
Theorem Join_twice :
  runs demo_race demo_race_choices demo_race_end /\
  ctls demo_race_end !! 1%positive = Some (At (Free (1%positive, [Call Yield]))) /\
  2%positive ∈ joined (data demo_race_end) /\ stages (data demo_race_end) 2%positive = Working.
Proof.
  split; [apply run_reaches; vm_compute; reflexivity|]. split; [vm_compute; reflexivity|].
  split; [|vm_compute; reflexivity]. apply (bool_decide_unpack _). vm_compute. exact I.
Qed.
