(* ===== verification/Requests.v ===== *)
(** Devices that serve one request at a time, shared by threads.

    The synchronous disk, the console behind Write and the post office's network
    are used in the same way: a lock is taken, a request is made, which the device
    asserts it is idle for, and a semaphore waited for, which the device's
    interrupt gives; then the next request, or the lock is given back.  [Device]
    is what a device does, [DeviceLaws] what it promises; [requests_atomic] is
    what its users may then rely on. *)
From Stdlib Require Import ZArith Lia Bool.
From stdpp Require Import base numbers list gmap fin_maps fin_sets.
From S2P Require Import Prelude Lists Machine Threads Synch System Steps Conditions Monitor.

(** A request [J] is started, with an answer [O]; the device is busy until the
    interrupt. *)
Class Device (V J O : Type) := {
  dev_start : V -> J -> res (V * O);
  dev_busy : V -> bool;
  dev_finish : V -> V
}.

(** An idle device that stands for [s] takes any request that is in order, and
    then stands for the state [dev_step] says. *)
Class DeviceLaws (V J O S : Type) `{!Device V J O} := {
  dev_rep : V -> S -> Prop;
  job_ok : J -> Prop;
  dev_step : S -> J -> S * O;
  dev_start_ok : forall v s j, dev_rep v s -> dev_busy v = false -> job_ok j ->
    exists v', dev_start v j = Ok (v', (dev_step s j).2) /\ dev_rep v' (dev_step s j).1 /\ dev_busy v' = true;
  dev_finish_ok : forall v s, dev_rep v s -> dev_rep (dev_finish v) s /\ dev_busy (dev_finish v) = false
}.

Section Requests.
Context {V J O S : Type} `{!Device V J O, !DeviceLaws V J O S} (semaphore lock : positive).

(** A thread works through its tasks: some requests under one hold of the lock, or
    to start another thread. *)
Inductive task := Do (js : list J) | Spawn (u : positive).

Inductive rq_pc :=
| Between (tasks : list task)
| Holding (started todo : list J) (tasks : list task).

(** [trace] and [ops] are ghosts: the requests made, with their threads and their
    answers, and the requests of the operations that are over. *)
Record rq_data := mkRq {
  dev : V;
  trace : list (positive * J * O);
  ops : list (list J)
}.

Definition start_job (t : positive) (j : J) (d : rq_data) : res rq_data :=
  '(v, o) <- dev_start (dev d) j ;; Ok (mkRq v (trace d ++ [(t, j, o)]) (ops d)).

#[export] Instance requests : Client rq_pc rq_data := {
  view t p d :=
    match p with
    | Between [] => Ok (d, None)
    | Between (Do js :: ts) => Ok (d, Some (Acquire lock, Holding [] js ts))
    | Between (Spawn u :: ts) => Ok (d, Some (Fork u, Between ts))
    | Holding started (j :: todo) ts =>
        d <- start_job t j d ;; Ok (d, Some (P semaphore, Holding (started ++ [j]) todo ts))
    | Holding started [] ts =>
        Ok (mkRq (dev d) (trace d) (ops d ++ [started]), Some (Release lock, Between ts))
    end;
  on_irq n d :=
    if bool_decide (n = semaphore) && dev_busy (dev d)
    then Some (mkRq (dev_finish (dev d)) (trace d) (ops d)) else None
}.

Definition rq_held (p : rq_pc) : gset positive :=
  match p with Between _ => ∅ | Holding _ _ _ => {[lock]} end.

Definition task_ok (x : task) : Prop := match x with Do js => Forall job_ok js | Spawn _ => True end.

Definition rq_code (p : rq_pc) : Prop :=
  match p with
  | Between ts => Forall task_ok ts
  | Holding _ js ts => Forall job_ok js /\ Forall task_ok ts
  end.

Lemma requests_typed : typed rq_code rq_held.
Proof.
  split.
  - intros t [[|[js|u] ts]|started [|j todo] ts] d d' c p' Hc Hv; cbn in Hc, Hv |- *; try done.
    + injection Hv as _ <- <-. inversion Hc; subst. split; [by split|]. cbn.
      rewrite decide_False by set_solver. f_equal. set_solver.
    + injection Hv as _ <- <-. by inversion Hc; subst.
    + injection Hv as _ <- <-. split; [apply Hc|]. cbn. rewrite decide_True by set_solver. f_equal. set_solver.
    + inv_bind Hv. injection Hv as _ <- <-. destruct Hc as [Hj Ht]. by inversion Hj; subst.
  - intros t [[|[js|u] ts]|started [|j todo] ts] d d' Hc Hv; cbn in Hv |- *; try done. by inv_bind Hv.
Qed.

(** The requests, one after the other, lead from one state to the other with the
    answers they got. *)
Fixpoint replays (s : S) (es : list (positive * J * O)) (s' : S) : Prop :=
  match es with
  | [] => s' = s
  | (_, j, o) :: es => o = (dev_step s j).2 /\ replays (dev_step s j).1 es s'
  end.

Lemma replays_snoc s es s' t j :
  replays s es s' -> replays s (es ++ [(t, j, (dev_step s' j).2)]) (dev_step s' j).1.
Proof.
  revert s. induction es as [|[[t' j'] o'] es IH]; intros s; cbn; [by intros <-|].
  intros [Ho H]. split; [done|]. by apply IH.
Qed.

Definition jobs (es : list (positive * J * O)) : list J := (fun e => e.1.2) <$> es.

Section Runs.
Context {Q : Type -> Type} `{!Queue Q, !QueueLaws Q} (init : positive -> Z) (initial : S).
Hypothesis Hinit : init semaphore = 0.

(** The device stands for what the requests have left; those of the operation that
    is going on are [cur]. *)
Definition consistent (cur : list J) (d : rq_data) : Prop :=
  exists s, dev_rep (dev d) s /\ replays initial (trace d) s /\ jobs (trace d) = concat (ops d) ++ cur.

Definition at_rest (cur : list J) (d : rq_data) (log : list event) : Prop :=
  consistent cur d /\ dev_busy (dev d) = false /\ tally semaphore log = 0.

(** The request is at the device, or has been finished by the interrupt, which has
    given the semaphore its unit. *)
Definition under_way (cur : list J) (d : rq_data) (log : list event) : Prop :=
  consistent cur d /\
  (dev_busy (dev d) = true /\ tally semaphore log = 0 \/
   dev_busy (dev d) = false /\ tally semaphore log = 1).

Definition rq_assertions : assertions := {|
  free := at_rest [];
  at_pc p d log := match p with Between _ => True | Holding started _ _ => at_rest started d log end;
  in_call c p d log :=
    match p with
    | Between _ => c = Release lock /\ at_rest [] d log
    | Holding started _ _ => c = Acquire lock /\ started = [] \/ c = P semaphore /\ under_way started d log
    end
|}.

Lemma start_job_ok t j cur d log :
  at_rest cur d log -> job_ok j -> exists d', start_job t j d = Ok d' /\ under_way (cur ++ [j]) d' log.
Proof.
  intros ((s & Hd & Hrep & Hj) & Hb & Htl) Hok. unfold start_job.
  destruct (dev_start_ok (dev d) s j Hd Hb Hok) as (v' & -> & Hd' & Hb'). cbn [bindr].
  eexists. split; [done|]. split; [|by left]. exists (dev_step s j).1. cbn [dev trace ops].
  split; [done|]. split; [by apply replays_snoc|]. unfold jobs in *. rewrite fmap_app, Hj. cbn.
  by rewrite app_assoc.
Qed.

Lemma at_rest_log cur d log log' :
  tally semaphore log' = tally semaphore log -> at_rest cur d log -> at_rest cur d log'.
Proof. intros E (H1 & H2 & H3). split; [done|]. split; [done|]. by rewrite E. Qed.

Lemma stable_log d log log' :
  tally semaphore log' = tally semaphore log -> stable rq_held lock rq_assertions d log d log'.
Proof.
  intros E. split; [|split]; cbn.
  - by apply at_rest_log.
  - intros [|started todo ts] _; [done|]. by apply at_rest_log.
  - intros c [ts|started todo ts].
    + intros [-> H]. split; [done|]. by apply (at_rest_log [] d log).
    + intros [H|[-> [H1 H2]]]; [by left|right]. split; [done|]. split; [done|]. by rewrite E.
Qed.

Lemma requests_monitor : monitor init rq_code rq_code rq_held lock nowhere rq_assertions.
Proof.
  split.
  - intros t [ts|started [|j todo] ts] d log Hc _ Hin Hp; cbn in Hin, Hp; [set_solver|..].
    + eexists _, (Release lock), (Between ts). split; [done|]. cbn. split; [done|].
      destruct Hp as ((s & H1 & H2 & H3) & H4 & H5). split; [|done]. exists s. split; [done|]. split; [done|].
      cbn. rewrite concat_app. cbn. by rewrite !app_nil_r.
    + destruct Hc as [Hj _]. apply Forall_cons in Hj as [Hj _].
      destruct (start_job_ok t j started d log Hp Hj) as (d' & E & Hu).
      exists d', (P semaphore), (Holding (started ++ [j]) todo ts). cbn. rewrite E. split; [done|]. by right.
  - intros t c q0 [ts|started todo ts] d0 d1 h d log _ _ _ _ Hin Hl Hp He _; cbn in Hp.
    + destruct Hp as [-> Hp]. rewrite decide_False by (cbn; set_solver). cbn.
      eapply at_rest_log; [|exact Hp]. rewrite tally_app. cbn. lia.
    + destruct Hp as [[-> _]|[-> [Hcs Hp]]]; [cbn in Hl; by rewrite decide_True in Hl|].
      rewrite decide_True by (cbn; set_solver). cbn in He |- *.
      rewrite Hinit in He. split; [done|]. destruct Hp as [[_ Hp]|[Ha Hp]]; [lia|]. split; [done|].
      rewrite tally_app. cbn. rewrite decide_True by done. lia.
  - intros t p p' d d' d'' log Hc _ _ Hv _ Hf. destruct p as [[|[js|u] ts]|started [|j todo] ts]; cbn in Hv; try done.
    + injection Hv as _ <-. cbn. eapply at_rest_log; [|exact Hf]. rewrite tally_app. cbn. lia.
    + by inv_bind Hv.
  - intros t [[|[js|u] ts]|started todo ts] d d' r log Hc _ Hn Hv; cbn in Hn, Hv; try set_solver.
    all: injection Hv as <- _; apply stable_refl.
  - intros t c [[|[js|v] ts]|started todo ts] p d0 d1 d log Hc _ _ Hv Hq Hp; cbn in Hv, Hq; try set_solver.
    injection Hv as _ <- <-. apply stable_log. rewrite tally_app. cbn. lia.
  - intros t q d0 d1 d log _ _ _. apply stable_log. rewrite tally_app. cbn. lia.
  - intros n d d' log Hi. cbn in Hi. destruct (bool_decide (n = semaphore)) eqn:En; [|done].
    apply bool_decide_eq_true in En as ->. cbn in Hi. destruct (dev_busy (dev d)) eqn:Ea; [|done].
    injection Hi as <-.
    assert (forall cur log', at_rest cur d log -> at_rest cur (mkRq (dev_finish (dev d)) (trace d) (ops d)) log') as Hr
      by (intros cur log' (_ & H & _); congruence).
    split; [|split]; cbn.
    + apply Hr.
    + intros [|started todo ts] _; [done|]. apply Hr.
    + intros c [ts|started todo ts]; [intros [-> H]; split; [done|]; by apply Hr|].
      intros [H|[-> H]]; [by left|right]. split; [done|].
      destruct H as [(s & H1 & H2 & H3) [[_ H4]|[H4 _]]]; [|congruence].
      destruct (dev_finish_ok (dev d) s H1) as (K1 & K2).
      split; [exists s; by split_and!|]. right. split; [done|]. rewrite tally_app. cbn.
      rewrite decide_True by done. lia.
Qed.

(** What a run of threads that share the device comes to: it stands for what the
    requests made so far leave, each got the answer it should, the requests of
    one operation are not mixed with those of another, no ASSERT of the device
    fails, and a thread goes on only when its request is over. *)
Lemma requests_atomic (s0 s : Sys Q rq_pc rq_data) (chs : list choice) :
  booted init s0 -> runs s0 chs s -> small init (log s) ->
  (forall t x, ctls s0 !! t = Some x -> site_typed rq_code rq_held x ∅) ->
  trace (data s0) = [] -> ops (data s0) = [] -> dev_rep (dev (data s0)) initial ->
  dev_busy (dev (data s0)) = false ->
  exists cur, consistent cur (data s) /\
    (forall t p, ctls s !! t = Some (At p) -> lock ∈ rq_held p -> dev_busy (dev (data s)) = false) /\
    (forall t started j todo ts, ctls s !! t = Some (At (Holding started (j :: todo) ts)) ->
       is_ok (dev_start (dev (data s)) j)).
Proof.
  intros Hb Hr Hsm Hst Htr0 Hop0 Hd Ha.
  destruct (monitor_rule init rq_code rq_held lock rq_assertions s0 s chs requests_typed Hst requests_monitor)
    as (own & Hown & _ & Hor); try done.
  { split; [|split; [done|done]]. exists initial. by rewrite Htr0, Hop0. }
  assert (forall t p, ctls s !! t = Some (At p) -> lock ∈ rq_held p ->
    rq_code p /\ at_pc rq_assertions p (data s) (log s)) as Hat.
  { intros t p Hp Hin. destruct (Hown _ _ Hp) as [Hc Ho].
    destruct Hor as [[Hn _]|(u & x & Hu & Huniq & Hx & Hh)]; [destruct (Hn t); by rewrite Ho|].
    rewrite <- (Huniq t) in Hx by by rewrite Ho. rewrite Hp in Hx. by injection Hx as <-. }
  assert (exists cur, consistent cur (data s)) as [cur Hcur].
  { destruct Hor as [[_ [Hcs _]]|(t & x & Hin & _ & Hx & Hh)]; [by exists []|]. pose proof (Hown _ _ Hx) as Hty.
    destruct x as [p|c old p|old p|]; cbn in Hty, Hh; [|destruct Hty as [[_ Hl]|[-> Hl]]| |done].
    1, 4: destruct Hty as [_ Ho]; rewrite Ho in Hin; destruct p; cbn in Hin; [set_solver|by eexists; apply Hh].
    - destruct p; [by eexists; apply Hh|]. destruct Hh as [[-> _]|[_ [Hh _]]]; [|by eexists].
      cbn in Hl. by rewrite decide_True in Hl.
    - rewrite Hl in Hin. set_solver. }
  exists cur. split; [done|]. split.
  - intros t p Hp Hin. destruct (Hat t p Hp Hin) as [_ Hr']. destruct p; [set_solver|]. apply Hr'.
  - intros t started j todo ts Hp. destruct (Hat t _ Hp) as [[Hj _] ((s1 & H1 & _) & Hb' & _)]; [cbn; set_solver|].
    apply Forall_cons in Hj as [Hj _]. destruct (dev_start_ok _ s1 j H1 Hb' Hj) as (v' & E & _). by eexists.
Qed.
End Runs.
End Requests.
Arguments task : clear implicits.
Arguments rq_pc : clear implicits.
Arguments rq_data : clear implicits.
