(* ===== verification/Interrupt.v ===== *)
(** The simulated clock and interrupt controller (machine/interrupt.h,
    machine/interrupt.cc, machine/stats.h, machine/timer.cc, the timer's handler of
    threads/system.cc).

    The controller is generic in the devices: the class [Devices] gives the routine
    an interrupt calls.  A routine works on the state [W] of its devices and talks
    back to the controller only through [request]s, which the controller carries out
    in order; this is all that the handlers of disk.cc, console.cc, network.cc and
    timer.cc do to it.  [fired] is a ghost: the interrupts whose handler has been
    called, the latest last. *)
From Stdlib Require Import ZArith Lia Bool Sorting.Sorted.
From stdpp Require Import base numbers list.
From S2P Require Import Prelude Lists Machine Threads.

Inductive IntType :=
| TimerInt | DiskInt | ConsoleWriteInt | ConsoleReadInt | NetworkSendInt | NetworkRecvInt.

#[export] Instance IntType_eq_dec : EqDecision IntType.
Proof. solve_decision. Defined.

(** The times of machine/stats.h, in ticks. *)
Definition UserTick : Z := 1.
Definition SystemTick : Z := 10.
Definition RotationTime : Z := 500.
Definition SeekTime : Z := 500.
Definition ConsoleTime : Z := 100.
Definition NetworkTime : Z := 100.
Definition TimerTicks : Z := 100.

(** The event counters of [Statistics]; the clocks are apart. *)
Inductive counter :=
| numDiskReads | numDiskWrites | numConsoleCharsRead | numConsoleCharsWritten
| numPageFaults | numPacketsSent | numPacketsRecvd | numPageOuts | numPageIns.

#[export] Instance counter_eq_dec : EqDecision counter.
Proof. solve_decision. Defined.

Record Statistics := mkStatistics {
  totalTicks : Z;
  idleTicks : Z;
  systemTicks : Z;
  userTicks : Z;
  count : counter -> Z
}.

Definition Statistics_new : Statistics := mkStatistics 0 0 0 0 (fun _ => 0).

Definition bump (c : counter) (s : Statistics) : Statistics :=
  mkStatistics (totalTicks s) (idleTicks s) (systemTicks s) (userTicks s)
    (fun d => if bool_decide (d = c) then s32 (count s d + 1) else count s d).

(** The cost of the code between two ticks. *)
Definition charge (st : MachineStatus) (s : Statistics) : Statistics :=
  if bool_decide (st = SystemMode) then
    mkStatistics (s32 (totalTicks s + SystemTick)) (idleTicks s)
      (s32 (systemTicks s + SystemTick)) (userTicks s) (count s)
  else
    mkStatistics (s32 (totalTicks s + UserTick)) (idleTicks s) (systemTicks s)
      (s32 (userTicks s + UserTick)) (count s).

(** The clock moved on to the time [when] of the next interrupt. *)
Definition advance (when : Z) (s : Statistics) : Statistics :=
  mkStatistics when (s32 (idleTicks s + s32 (when - totalTicks s))) (systemTicks s)
    (userTicks s) (count s).

(** What a device asks of the controller: an interrupt [fromNow] ticks ahead, a
    context switch when the handler returns, one more event counted. *)
Inductive request (F : Type) :=
| Schedules (f : F) (arg fromNow : Z) (ty : IntType)
| Yields
| Counts (c : counter).
Arguments Schedules {F} f arg fromNow ty.
Arguments Yields {F}.
Arguments Counts {F} c.

Class Devices (F W : Type) := {
  call_handler : F -> Z -> MachineStatus -> Statistics -> W -> res (W * list (request F));
  flush_load : W -> res W
}.

(** A handler asks for at most one interrupt, which lies in the future; it
    returns. *)
Definition delays {F} (rs : list (request F)) : list Z :=
  omap (fun r => match r with Schedules _ _ n _ => Some n | _ => None end) rs.

(** The handler asks for a context switch. *)
Definition asks_yield {F} (rs : list (request F)) : bool :=
  existsb (fun r => match r with Yields => true | _ => false end) rs.

Class DevicesLaws (F W : Type) `{!Devices F W} := {
  horizon : Z;
  world_ok : W -> Prop;
  call_ok : forall f a st ss w, world_ok w ->
    exists w' rs, call_handler f a st ss w = Ok (w', rs) /\ world_ok w' /\
      Forall (fun n => 0 < n <= horizon) (delays rs) /\ (length (delays rs) <= 1)%nat;
  flush_ok : forall w, world_ok w -> exists w', flush_load w = Ok w' /\ world_ok w'
}.

Section Controller.
Context {Q : Type -> Type} `{!Queue Q} {F W : Type} `{!Devices F W}.

Record PendingInterrupt := mkPending {
  handler : F;
  arg : Z;
  when : Z;
  type : IntType
}.

Record Interrupt := mkInterrupt {
  ilevel : IntStatus;
  pending : Q PendingInterrupt;
  inHandler : bool;
  yieldOnReturn : bool;
  istatus : MachineStatus
}.

Definition Interrupt_new : Interrupt := mkInterrupt IntOff q_new false false SystemMode.

(** The controller, the clock and the devices. *)
Record Hw := mkHw {
  intr : Interrupt;
  stats : Statistics;
  world : W;
  fired : list PendingInterrupt
}.

Definition set_intr (i : Interrupt) (h : Hw) : Hw := mkHw i (stats h) (world h) (fired h).
Definition set_stats (s : Statistics) (h : Hw) : Hw := mkHw (intr h) s (world h) (fired h).
Definition set_world (w : W) (h : Hw) : Hw := mkHw (intr h) (stats h) w (fired h).
Definition set_fired (l : list PendingInterrupt) (h : Hw) : Hw := mkHw (intr h) (stats h) (world h) l.

Definition with_level (l : IntStatus) (i : Interrupt) : Interrupt :=
  mkInterrupt l (pending i) (inHandler i) (yieldOnReturn i) (istatus i).
Definition with_pending (q : Q PendingInterrupt) (i : Interrupt) : Interrupt :=
  mkInterrupt (ilevel i) q (inHandler i) (yieldOnReturn i) (istatus i).
Definition with_inHandler (b : bool) (i : Interrupt) : Interrupt :=
  mkInterrupt (ilevel i) (pending i) b (yieldOnReturn i) (istatus i).
Definition with_yield (b : bool) (i : Interrupt) : Interrupt :=
  mkInterrupt (ilevel i) (pending i) (inHandler i) b (istatus i).
Definition with_status (st : MachineStatus) (i : Interrupt) : Interrupt :=
  mkInterrupt (ilevel i) (pending i) (inHandler i) (yieldOnReturn i) st.

Definition ChangeLevel (now : IntStatus) (h : Hw) : Hw :=
  set_intr (with_level now (intr h)) h.

Definition Schedule (f : F) (a fromNow : Z) (ty : IntType) (h : Hw) : res Hw :=
  let when := s32 (totalTicks (stats h) + fromNow) in
  let toOccur := mkPending f a when ty in
  _ <- ASSERT (fromNow >? 0) ;;
  q <- q_sorted_insert (pending (intr h)) toOccur when ;;
  Ok (set_intr (with_pending q (intr h)) h).

Definition YieldOnReturn (h : Hw) : res Hw :=
  _ <- ASSERT (inHandler (intr h)) ;;
  Ok (set_intr (with_yield true (intr h)) h).

Definition serve (r : request F) (h : Hw) : res Hw :=
  match r with
  | Schedules f a n ty => Schedule f a n ty h
  | Yields => YieldOnReturn h
  | Counts c => Ok (set_stats (bump c (stats h)) h)
  end.

Fixpoint serve_all (rs : list (request F)) (h : Hw) : res Hw :=
  match rs with
  | [] => Ok h
  | r :: rs => h <- serve r h ;; serve_all rs h
  end.

(** The end of CheckIfDue: the handler is called. *)
Definition invoke (toOccur : PendingInterrupt) (h : Hw) : res Hw :=
  let old := istatus (intr h) in
  w <- flush_load (world h) ;;
  let h := set_intr (with_status SystemMode (with_inHandler true (intr h))) (set_world w h) in
  '(w, rs) <- call_handler (handler toOccur) (arg toOccur) (istatus (intr h)) (stats h) (world h) ;;
  h <- serve_all rs (set_fired (fired h ++ [toOccur]) (set_world w h)) ;;
  Ok (set_intr (with_inHandler false (with_status old (intr h))) h).

Definition CheckIfDue (advanceClock : bool) (h : Hw) : res (Hw * bool) :=
  _ <- ASSERT (bool_decide (ilevel (intr h) = IntOff)) ;;
  '(q, r) <- q_sorted_remove (pending (intr h)) ;;
  let h := set_intr (with_pending q (intr h)) h in
  let put_back (when : Z) (toOccur : PendingInterrupt) (h : Hw) :=
    q <- q_sorted_insert (pending (intr h)) toOccur when ;;
    Ok (set_intr (with_pending q (intr h)) h, false) in
  match r with
  | None => Ok (h, false)
  | Some (when, toOccur) =>
      if negb advanceClock && (when >? totalTicks (stats h)) then put_back when toOccur h
      else
        let h := if when >? totalTicks (stats h) then set_stats (advance when (stats h)) h else h in
        if bool_decide (istatus (intr h) = IdleMode) && bool_decide (type toOccur = TimerInt) &&
           q_is_empty (pending (intr h))
        then put_back when toOccur h
        else h <- invoke toOccur h ;; Ok (h, true)
  end.

(** [while (CheckIfDue(FALSE)) ;] *)
Fixpoint check_loop (fuel : nat) (h : Hw) : res Hw :=
  match fuel with
  | O => Err OutOfFuel
  | S fuel => '(h, b) <- CheckIfDue false h ;; if b : bool then check_loop fuel h else Ok h
  end.

(** OneTick, up to the context switch the timer's handler may have asked for;
    [Yield] is what that switch does. *)
Definition OneTick (Yield : Hw -> res Hw) (fuel : nat) (h : Hw) : res Hw :=
  let old := istatus (intr h) in
  let h := set_stats (charge old (stats h)) h in
  h <- check_loop fuel (ChangeLevel IntOff h) ;;
  let h := ChangeLevel IntOn h in
  if yieldOnReturn (intr h) then
    let h := set_intr (with_status SystemMode (with_yield false (intr h))) h in
    h <- Yield h ;;
    Ok (set_intr (with_status old (intr h)) h)
  else Ok h.

Definition SetLevel (Yield : Hw -> res Hw) (fuel : nat) (now : IntStatus) (h : Hw) : res (Hw * IntStatus) :=
  let old := ilevel (intr h) in
  _ <- ASSERT (bool_decide (now = IntOff) || negb (inHandler (intr h))) ;;
  let h := ChangeLevel now h in
  h <- (if bool_decide (now = IntOn) && bool_decide (old = IntOff) then OneTick Yield fuel h else Ok h) ;;
  Ok (h, old).

Definition Enable (Yield : Hw -> res Hw) (fuel : nat) (h : Hw) : res Hw :=
  '(h, _) <- SetLevel Yield fuel IntOn h ;; Ok h.

(** Idle; the answer is [false] when it halts the machine. *)
Definition Idle (fuel : nat) (h : Hw) : res (Hw * bool) :=
  let h := set_intr (with_status IdleMode (intr h)) h in
  '(h, b) <- CheckIfDue true h ;;
  if b : bool then
    h <- check_loop fuel h ;;
    Ok (set_intr (with_status SystemMode (with_yield false (intr h))) h, true)
  else Ok (h, false).

(** The loop of Thread::Sleep: the machine idles until a thread is [ready]. *)
Fixpoint sleep_loop (ready : W -> bool) (rounds fuel : nat) (h : Hw) : res (Hw * bool) :=
  match rounds with
  | O => Err OutOfFuel
  | S rounds =>
      if ready (world h) then Ok (h, true)
      else '(h, b) <- Idle fuel h ;; if b : bool then sleep_loop ready rounds fuel h else Ok (h, false)
  end.
End Controller.
Arguments PendingInterrupt : clear implicits.
Arguments Interrupt : clear implicits.
Arguments Hw : clear implicits.

(** ** What the controller does *)

Section Correctness.
Context {Q : Type -> Type} `{!Queue Q, !QueueLaws Q} {F W : Type} `{!Devices F W, !DevicesLaws F W}.
Implicit Types (h : Hw Q F W) (p : PendingInterrupt F).

(** The pending interrupts are [xs], in the order they fall due. *)
Record controller h (xs : list (Z * PendingInterrupt F)) : Prop := {
  ctl_rep : q_rep (pending (intr h)) xs;
  ctl_sorted : Sorted key_le xs;
  ctl_when : Forall (fun x => when x.2 = x.1) xs;
  ctl_world : world_ok (world h);
  ctl_level : ilevel (intr h) = IntOff
}.

(** What a handler leaves alone; the clock is at [t]. *)
Record frame (t : Z) h h' : Prop := {
  same_clock : totalTicks (stats h') = t;
  same_level : ilevel (intr h') = ilevel (intr h);
  same_status : istatus (intr h') = istatus (intr h)
}.

Lemma frame_refl h : frame (totalTicks (stats h)) h h.
Proof. by split. Qed.
Lemma frame_trans t1 t2 h1 h2 h3 : frame t1 h1 h2 -> frame t2 h2 h3 -> frame t2 h1 h3.
Proof. intros [] []. split; congruence. Qed.

(** The clock has room for one more delay. *)
Definition in_time (t : Z) : Prop := - 2 ^ 31 <= t /\ t + horizon < 2 ^ 31.

(** The interrupts that come due after [t]. *)
Definition later (t : Z) (new : list (Z * PendingInterrupt F)) : Prop :=
  Forall (fun x => t < x.1) new.

(** The interrupts that are due at [t]. *)
Definition due (t : Z) (xs : list (Z * PendingInterrupt F)) : list (Z * PendingInterrupt F) :=
  filter (fun x => x.1 <= t) xs.

Lemma due_insert t k p xs : t < k -> due t (insert_sorted k p xs) = due t xs.
Proof.
  intros Hk. induction xs as [|[k' y] xs IH]; cbn [insert_sorted]; unfold due in *.
  - rewrite filter_cons_False by (cbn; lia). done.
  - destruct (k <? k'); rewrite !filter_cons; cbn [fst]; [|by rewrite IH].
    rewrite (decide_False (P := k <= t)) by lia. done.
Qed.

Lemma insert_when xs k p :
  Forall (fun x => when x.2 = x.1) xs -> when p = k ->
  Forall (fun x => when x.2 = x.1) (insert_sorted k p xs).
Proof. intros H Hp. rewrite insert_sorted_perm. by constructor. Qed.

(** What the requests [rs] of a handler add at the time [t]. *)
Definition scheduled (t : Z) (rs : list (request F)) : list (Z * PendingInterrupt F) :=
  omap (fun r => match r with Schedules f a n ty => Some (t + n, mkPending f a (t + n) ty) | _ => None end) rs.

Lemma scheduled_length t rs : length (scheduled t rs) = length (delays rs).
Proof. unfold scheduled, delays. induction rs as [|[] rs IH]; cbn; auto. Qed.

Lemma scheduled_later t rs : Forall (fun n => 0 < n <= horizon) (delays rs) -> later t (scheduled t rs).
Proof.
  unfold later, scheduled, delays. induction rs as [|[f a n ty| |c] rs IH]; cbn; [constructor| |done..].
  intros [Hn H]%Forall_cons. constructor; [cbn; lia|]. by apply IH.
Qed.

Lemma Schedule_spec h xs f a n ty :
  controller h xs -> in_time (totalTicks (stats h)) -> 0 < n <= horizon ->
  exists h', Schedule f a n ty h = Ok h' /\
    controller h' (insert_sorted (totalTicks (stats h) + n)
                     (mkPending f a (totalTicks (stats h) + n) ty) xs) /\
    frame (totalTicks (stats h)) h h' /\ world h' = world h /\ fired h' = fired h /\
    inHandler (intr h') = inHandler (intr h) /\ yieldOnReturn (intr h') = yieldOnReturn (intr h).
Proof.
  intros [Hr Hs Hw Ho Hl] [? ?] Hn. unfold Schedule. rewrite s32_small by (unfold is_s32; lia).
  destruct (Z.gtb_spec n 0); [|lia]. cbn [ASSERT bindr].
  destruct (q_sorted_insert_rep _ _ _ (mkPending f a (totalTicks (stats h) + n) ty)
    (totalTicks (stats h) + n) Hr) as (q & -> & Hq). cbn [bindr].
  eexists. split; [done|]. split; [|done]. split; try done; cbn.
  - by apply insert_sorted_sorted.
  - by apply insert_when.
Qed.

Lemma serve_all_spec rs h xs :
  controller h xs -> in_time (totalTicks (stats h)) -> inHandler (intr h) = true ->
  Forall (fun n => 0 < n <= horizon) (delays rs) ->
  exists h' xs', serve_all rs h = Ok h' /\ controller h' xs' /\ frame (totalTicks (stats h)) h h' /\
    world h' = world h /\ fired h' = fired h /\ yieldOnReturn (intr h') = yieldOnReturn (intr h) || asks_yield rs /\
    xs' ≡ₚ scheduled (totalTicks (stats h)) rs ++ xs /\ due (totalTicks (stats h)) xs' = due (totalTicks (stats h)) xs.
Proof.
  revert h xs. induction rs as [|r rs IH]; intros h xs Hc Ht Hi Hd; cbn [serve_all].
  { exists h, xs. rewrite orb_false_r. split_and!; try done; apply frame_refl. }
  destruct r as [f a n ty| |c]; cbn [serve].
  - apply Forall_cons in Hd as [Hn Hd].
    destruct (Schedule_spec h xs f a n ty Hc Ht Hn) as (h1 & -> & Hc1 & Hf1 & Hw1 & Hg1 & Hi1 & Hy1).
    cbn [bindr]. destruct (IH h1 _ Hc1) as (h2 & xs2 & -> & Hc2 & Hf2 & Hw2 & Hg2 & Hy2 & Hp & Hdue);
      [by rewrite (same_clock _ _ _ Hf1)|congruence|done|].
    rewrite (same_clock _ _ _ Hf1) in Hf2, Hp, Hdue. exists h2, xs2.
    split_and!; [done|done|by eapply frame_trans|congruence|congruence|by rewrite Hy2, Hy1| |].
    + rewrite Hp, insert_sorted_perm. symmetry. apply Permutation_middle.
    + rewrite Hdue. apply due_insert. lia.
  - unfold YieldOnReturn. rewrite Hi. cbn [ASSERT bindr].
    destruct (IH (set_intr (with_yield true (intr h)) h) xs) as (h2 & xs2 & -> & Hc2 & Hf2 & Hw2 & Hg2 & Hy2 & H2);
      [by destruct Hc; split|done..|].
    exists h2, xs2. split_and!; try done; try apply H2; [by destruct Hf2; split|]. cbn in Hy2.
    by rewrite Hy2, orb_true_r.
  - cbn [bindr]. destruct (IH (set_stats (bump c (stats h)) h) xs) as (h2 & xs2 & -> & Hc2 & Hf2 & H2);
      [by destruct Hc; split|done..|].
    exists h2, xs2. split_and!; try done; try apply H2. by destruct Hf2; split.
Qed.

(** An interrupt's handler runs: it is recorded, and what it schedules is later
    than now. *)
Lemma invoke_spec p h xs :
  controller h xs -> in_time (totalTicks (stats h)) ->
  exists h' xs' w ss rs, invoke p h = Ok h' /\ controller h' xs' /\ frame (totalTicks (stats h)) h h' /\
    flush_load (world h) = Ok w /\ call_handler (handler p) (arg p) SystemMode ss w = Ok (world h', rs) /\
    fired h' = fired h ++ [p] /\ yieldOnReturn (intr h') = yieldOnReturn (intr h) || asks_yield rs /\
    xs' ≡ₚ scheduled (totalTicks (stats h)) rs ++ xs /\ due (totalTicks (stats h)) xs' = due (totalTicks (stats h)) xs /\
    later (totalTicks (stats h)) (scheduled (totalTicks (stats h)) rs) /\ (length (scheduled (totalTicks (stats h)) rs) <= 1)%nat.
Proof.
  intros Hc Ht. unfold invoke.
  destruct (flush_ok _ (ctl_world _ _ Hc)) as (w & Hfl & Hw). rewrite Hfl. cbn [bindr].
  cbn [intr with_status with_inHandler set_intr set_world istatus stats world].
  destruct (call_ok (handler p) (arg p) SystemMode (stats h) w Hw) as (w' & rs & Hcall & Hw' & Hd & Hlen).
  rewrite Hcall. cbn [bindr].
  destruct (serve_all_spec rs (set_fired (fired h ++ [p]) (set_world w'
    (set_intr (with_status SystemMode (with_inHandler true (intr h))) (set_world w h)))) xs)
    as (h1 & xs1 & Hs & [] & Hf & Hwd & Hg & Hy & Hp & Hdue); [by destruct Hc; split|done..|].
  cbn [fired set_intr set_world] in Hs |- *. rewrite Hs. cbn [bindr].
  eexists _, xs1, w, (stats h), rs. split; [done|].
  destruct Hf. split; [by split|]. split; [by split|].
  split; [done|]. cbn. rewrite Hwd, Hg. split_and!; try done; [by apply scheduled_later|by rewrite scheduled_length].
Qed.

(** A lone timer interrupt does not keep an idle machine going. *)
Definition only_timer h (xs : list (Z * PendingInterrupt F)) : Prop :=
  istatus (intr h) = IdleMode /\ exists k p, xs = [(k, p)] /\ type p = TimerInt.

(** The clock after a check: an idle machine moves on to the next interrupt. *)
Definition checked_at (adv : bool) (t : Z) (xs : list (Z * PendingInterrupt F)) : Z :=
  match xs with (k, _) :: _ => if adv then Z.max t k else t | [] => t end.

Lemma put_back_spec h xs k p t :
  controller h xs -> when p = k -> totalTicks (stats h) = t ->
  exists h' xs', (q <- q_sorted_insert (pending (intr h)) p k ;;
      Ok (set_intr (with_pending q (intr h)) h, false)) = Ok (h', false) /\
    controller h' xs' /\ frame t h h' /\ world h' = world h /\ fired h' = fired h /\
    yieldOnReturn (intr h') = yieldOnReturn (intr h) /\ xs' ≡ₚ (k, p) :: xs.
Proof.
  intros [Hr Hs Hw Ho Hl] Hp Hf. destruct (q_sorted_insert_rep _ _ _ p k Hr) as (q & -> & Hq).
  cbn [bindr]. eexists _, _. split; [done|]. split_and!; [|by split|done|done|done|apply insert_sorted_perm].
  split; try done; cbn; [by apply insert_sorted_sorted|by apply insert_when].
Qed.

(** One round of the loop: nothing is due any more, or only the timer of an idle
    machine; or the first interrupt is taken off and its handler called. *)
Lemma CheckIfDue_spec adv h xs (t := checked_at adv (totalTicks (stats h)) xs) :
  controller h xs -> in_time t ->
  (exists h' xs', CheckIfDue adv h = Ok (h', false) /\ controller h' xs' /\ frame t h h' /\
     fired h' = fired h /\ world h' = world h /\ yieldOnReturn (intr h') = yieldOnReturn (intr h) /\
     xs' ≡ₚ xs /\ (due t xs = [] \/ only_timer h xs)) \/
  (exists k p tl h' xs' w ss rs, xs = (k, p) :: tl /\ k <= t /\ ~ only_timer h xs /\
     CheckIfDue adv h = Ok (h', true) /\
     controller h' xs' /\ frame t h h' /\
     flush_load (world h) = Ok w /\ call_handler (handler p) (arg p) SystemMode ss w = Ok (world h', rs) /\
     fired h' = fired h ++ [p] /\ yieldOnReturn (intr h') = yieldOnReturn (intr h) || asks_yield rs /\
     xs' ≡ₚ scheduled t rs ++ tl /\ due t xs' = due t tl /\
     later t (scheduled t rs) /\ (length (scheduled t rs) <= 1)%nat).
Proof.
  intros Hc Ht. unfold CheckIfDue. rewrite (bool_decide_true _ (ctl_level _ _ Hc)). cbn [ASSERT bindr].
  destruct (q_sorted_remove_rep _ _ _ (ctl_rep _ _ Hc)) as (q & -> & Hq). cbn [bindr].
  destruct xs as [|[k p] tl]; cbn [head tail] in *.
  { left. eexists _, []. split; [done|]. destruct Hc. split_and!; try done. left. reflexivity. }
  set (h0 := set_intr (with_pending q (intr h)) h).
  assert (Sorted key_le tl /\ (forall x, x ∈ tl -> k <= x.1)) as [Hst Hle].
  { pose proof (ctl_sorted _ _ Hc) as Hs. split; [by inversion Hs|]. intros x Hx.
    apply Sorted_StronglySorted in Hs; [|unfold key_le; intros ???; lia].
    inversion Hs as [|? ? _ Hall]; subst. rewrite Forall_forall in Hall. by apply Hall. }
  pose proof (ctl_when _ _ Hc) as Hwh. apply Forall_cons in Hwh as [Hp Hwh]. cbn in Hp.
  assert (forall s, controller (set_stats s h0) tl) as Hc0 by (intros s; destruct Hc; by split).
  set (s1 := if k >? totalTicks (stats h) then advance k (stats h) else stats h).
  set (h1 := if k >? totalTicks (stats h0) then _ else h0).
  assert (h1 = set_stats s1 h0) as ->.
  { unfold h1, s1. change (stats h0) with (stats h). by destruct (k >? totalTicks (stats h)). }
  destruct (negb adv && (k >? totalTicks (stats h0))) eqn:Enot.
  { apply andb_true_iff in Enot as [Ea Ek%Z.gtb_gt]. cbn in Ek. destruct adv; [done|].
    left. destruct (put_back_spec (set_stats (stats h) h0) tl k p t (Hc0 _) Hp eq_refl)
      as (h' & xs' & H1 & H2 & H3 & H4 & H5 & H6 & H7). exists h', xs'. split; [exact H1|].
    split_and!; try done; [by destruct H3; split|]. left. unfold due.
    rewrite filter_cons_False by (subst t; cbn; lia). apply filter_drop, Forall_forall.
    intros x Hx. apply Hle in Hx. subst t. cbn. lia. }
  assert (totalTicks s1 = t /\ k <= t) as [Hs1 Hkt].
  { unfold s1, t. cbn. cbn in Enot. destruct adv; cbn in Enot; destruct (Z.gtb_spec k (totalTicks (stats h)));
      cbn; (discriminate || lia). }
  assert (bool_decide (istatus (intr (set_stats s1 h0)) = IdleMode) && bool_decide (type p = TimerInt) &&
    q_is_empty (pending (intr (set_stats s1 h0))) = true <-> only_timer h ((k, p) :: tl)) as Hot.
  { rewrite (q_is_empty_rep _ _ _ (ctl_rep _ _ (Hc0 s1))), !andb_true_iff, !bool_decide_eq_true.
    unfold only_timer. cbn. naive_solver. }
  destruct (_ && q_is_empty _) eqn:Eot.
  - left. destruct (put_back_spec (set_stats s1 h0) tl k p t (Hc0 _) Hp Hs1)
      as (h' & xs' & H1 & H2 & H3 & H4 & H5 & H6 & H7). exists h', xs'. split; [exact H1|].
    split_and!; try done; [by destruct H3; split|]. right. by apply Hot.
  - right. destruct (invoke_spec p (set_stats s1 h0) tl (Hc0 s1)) as
      (h' & xs' & w & ss & rs & E & H1 & H2 & H3 & H4 & H5 & H6 & H7 & H8 & H9 & H10);
      [by cbn; rewrite Hs1|]. cbn [stats set_stats] in *. rewrite Hs1 in *.
    exists k, p, tl, h', xs', w, ss, rs. split; [done|]. split; [done|].
    split; [by intros Hx%Hot|]. rewrite E. cbn [bindr]. split_and!; try done. by destruct H2; split.
Qed.

Lemma due_split t (xs : list (Z * PendingInterrupt F)) :
  due t xs ++ filter (fun x => t < x.1) xs ≡ₚ xs.
Proof.
  unfold due. induction xs as [|x xs IH]; [done|]. rewrite !filter_cons.
  destruct (decide (x.1 <= t)); [rewrite decide_False by lia|rewrite decide_True by lia].
  - cbn. by rewrite IH.
  - by rewrite <- Permutation_middle, IH.
Qed.

Lemma filter_later t (new tl xs : list (Z * PendingInterrupt F)) :
  xs ≡ₚ new ++ tl -> later t new ->
  filter (fun x => t < x.1) xs ≡ₚ new ++ filter (fun x => t < x.1) tl.
Proof. intros Hp Hl. by rewrite Hp, filter_app, (filter_keep _ new). Qed.

(** What has been done once nothing more is due: [done] have been served, in
    order; [left] is empty unless the machine idles with its timer; [new] were
    scheduled in the meantime. *)
Record served (t : Z) h xs h' xs' (served_now left new : list (Z * PendingInterrupt F)) : Prop := {
  sv_controller : controller h' xs';
  sv_frame : frame t h h';
  sv_due : due t xs = served_now ++ left;
  sv_fired : fired h' = fired h ++ served_now.*2;
  sv_pending : xs' ≡ₚ left ++ new ++ filter (fun x => t < x.1) xs;
  sv_new : later t new;
  sv_width : (length new <= length served_now)%nat;
  sv_left : left = [] \/ only_timer h' xs' /\ xs' = left
}.

(** On a machine that is not idle nothing due is left. *)
Lemma served_awake t h xs h' xs' dl left new :
  served t h xs h' xs' dl left new -> istatus (intr h) <> IdleMode ->
  left = [] /\ later t xs' /\ (length xs' <= length xs)%nat.
Proof.
  intros [Hc Hf Hd _ Hp Hn Hw Hl] Hi. assert (left = []) as ->.
  { destruct Hl as [|[[Hx _] _]]; [done|]. by rewrite (same_status _ _ _ Hf) in Hx. }
  split; [done|]. split.
  - unfold later. rewrite Hp. cbn. apply Forall_app. split; [done|].
    apply Forall_forall. intros x Hx. by apply list_elem_of_filter in Hx as [? _].
  - rewrite <- (due_split t xs), Hp, Hd, app_nil_r, !length_app. cbn. lia.
Qed.

(** A property that every handler maintains: of the time, what has been served, the
    devices, whether a handler has asked for a context switch, and what is
    pending. *)
Section Loop.
Context (J : Z -> list (PendingInterrupt F) -> W -> bool -> list (Z * PendingInterrupt F) -> Prop).
Hypothesis J_pending : forall t fs w y xs xs', xs ≡ₚ xs' -> J t fs w y xs -> J t fs w y xs'.
Hypothesis J_later : forall t t' fs w y xs, t <= t' -> J t fs w y xs -> J t' fs w y xs.
Hypothesis J_step : forall t fs y k p xs w w1 ss w2 rs,
  k <= t -> world_ok w -> J t fs w y ((k, p) :: xs) -> flush_load w = Ok w1 ->
  call_handler (handler p) (arg p) SystemMode ss w1 = Ok (w2, rs) ->
  J t (fs ++ [p]) w2 (y || asks_yield rs) (scheduled t rs ++ xs).

Lemma check_loop_spec n h xs fs (t := totalTicks (stats h)) :
  controller h xs -> in_time t -> J t fs (world h) (yieldOnReturn (intr h)) xs -> (length (due t xs) < n)%nat ->
  exists h' xs' dl left new, check_loop n h = Ok h' /\
    served t h xs h' xs' dl left new /\
    J t (fs ++ dl.*2) (world h') (yieldOnReturn (intr h')) xs'.
Proof.
  subst t. revert h xs fs. induction n as [|n IH]; intros h xs fs Hc Ht HJ Hn; [lia|]. cbn [check_loop].
  assert (checked_at false (totalTicks (stats h)) xs = totalTicks (stats h)) as Eat by by destruct xs as [|[]].
  pose proof (CheckIfDue_spec false h xs Hc) as Hck. rewrite Eat in Hck. set (t := totalTicks (stats h)) in *.
  destruct (Hck Ht) as [(h' & xs' & -> & Hc' & Hf & Hg & Hw & Hy & Hp & Hd)|
    (k & p & tl & h1 & xs1 & w & ss & rs & -> & Hk & _ & -> & Hc1 & Hf1 & Hfl & Hcall & Hg1 & Hy1 & Hp1 & Hd1 & Hl1 & Hlen1)];
    cbn [bindr].
  - assert (due t xs = [] \/ exists k p, xs = [(k, p)] /\ only_timer h xs /\ due t xs = [(k, p)]) as Hd'.
    { destruct Hd as [Hd|Hd]; [by left|]. pose proof Hd as (_ & k & p & -> & _). unfold due.
      rewrite filter_cons. case_decide; [right; by eauto|by left]. }
    assert (J t (fs ++ []) (world h') (yieldOnReturn (intr h')) xs') as HJ'.
    { rewrite app_nil_r, Hw, Hy. by eapply J_pending; [symmetry|]. }
    exists h', xs'. destruct Hd' as [E|(k & p & -> & Hot & E)].
    + exists [], [], []. split; [done|]. split; [|done]. split; try done.
      * by rewrite app_nil_r.
      * cbn. rewrite Hp. pose proof (due_split t xs) as Hs. rewrite E in Hs. cbn in Hs. by rewrite Hs.
      * constructor.
      * by left.
    + apply Permutation_singleton_r in Hp. exists [], [(k, p)], []. split; [done|].
      split; [|done]. pose proof (due_split t [(k, p)]) as Hs. rewrite E in Hs.
      split; try done.
      * by rewrite app_nil_r.
      * rewrite Hp. cbn. cbn in Hs. by rewrite Hs.
      * constructor.
      * right. split; [|done]. rewrite Hp. destruct Hot as [Hi Ho]. split; [|done].
        by rewrite (same_status _ _ _ Hf).
  - assert (due t ((k, p) :: tl) = (k, p) :: due t xs1) as E.
    { rewrite Hd1. unfold due. by rewrite filter_cons_True. }
    rewrite E in Hn. cbn [length] in Hn.
    pose proof (IH h1 xs1 (fs ++ [p]) Hc1) as IH1. rewrite (same_clock _ _ _ Hf1) in IH1.
    destruct IH1 as (h' & xs' & dl & left & new' & E' & [] & HJ'); [done| |lia|].
    { rewrite Hy1. eapply J_pending; [by symmetry|]. by eapply J_step; [| apply (ctl_world _ _ Hc)|..]. }
    exists h', xs', ((k, p) :: dl), left, (new' ++ scheduled t rs). split; [done|].
    split; [|by rewrite <- app_assoc in HJ']. split; try done.
    + by eapply frame_trans.
    + rewrite E, sv_due0. done.
    + by rewrite sv_fired0, Hg1, <- app_assoc.
    + rewrite sv_pending0, (filter_later t (scheduled t rs) tl xs1 Hp1 Hl1).
      rewrite (filter_cons_False _ (k, p)) by (cbn; lia). by rewrite <- app_assoc.
    + by apply Forall_app.
    + rewrite length_app. cbn. lia.
Qed.
(** One call of Idle with something to wait for: the clock is at the first
    interrupt, or where it was if that was overdue, and that interrupt has been
    served. *)
Lemma Idle_spec n h k0 p0 tl fs (xs := (k0, p0) :: tl) (t := Z.max (totalTicks (stats h)) k0) :
  controller h xs -> in_time t -> J (totalTicks (stats h)) fs (world h) (yieldOnReturn (intr h)) xs ->
  (length xs < n)%nat ->
  ~ (tl = [] /\ type p0 = TimerInt) ->
  exists h' xs' fs', Idle n h = Ok (h', true) /\ controller h' xs' /\ totalTicks (stats h') = t /\
    fired h' = fired h ++ fs' /\ (exists y, J t (fs ++ fs') (world h') y xs') /\ (length xs' <= length xs)%nat /\
    (forall k p, (k, p) ∈ xs -> (k, p) ∈ xs' \/ p ∈ fs') /\
    (Forall (fun x => t < x.1) xs' \/ exists k p, xs' = [(k, p)] /\ type p = TimerInt).
Proof.
  intros Hc Ht HJ Hn Hnot. unfold Idle. set (hi := set_intr (with_status IdleMode (intr h)) h).
  assert (controller hi xs) as Hci by by destruct Hc; split.
  destruct (CheckIfDue_spec true hi xs Hci Ht) as [(h1 & xs1 & _ & _ & _ & _ & _ & _ & _ & Hd)|
    (k & p & tl' & h1 & xs1 & w & ss & rs & [= <- <- <-] & Hk & _ & -> & Hc1 & Hf1 & Hfl & Hcall & Hg1 & Hy1 & Hp1 & Hd1 & Hl1 & Hlen1)];
    cbn [bindr].
  { exfalso. destruct Hd as [Hd|(_ & k & p & [= -> -> ->] & Hp)]; [|naive_solver].
    revert Hd. unfold due, xs. rewrite filter_cons_True; [done|]. cbn. lia. }
  change (checked_at true _ _) with t in *.
  assert (length xs1 <= length xs)%nat as Hlen by (rewrite Hp1, length_app; subst xs; cbn; lia).
  pose proof (check_loop_spec n h1 xs1 (fs ++ [p0]) Hc1) as Hloop.
  rewrite (same_clock _ _ _ Hf1) in Hloop.
  destruct Hloop as (h' & xs' & dl & left & new' & -> & [] & HJ'); [done| |unfold due|].
  { rewrite Hy1. eapply J_pending; [by symmetry|]. eapply J_step; [done|apply (ctl_world _ _ Hci)| |done..].
    eapply J_later; [|done]. subst t. lia. }
  { pose proof (length_filter (fun x : Z * PendingInterrupt F => x.1 <= t) xs1). lia. }
  cbn [bindr]. eexists _, xs', (p0 :: dl.*2). split; [done|].
  assert (fired h' = fired h ++ p0 :: dl.*2) as Hfired by by rewrite sv_fired0, Hg1, <- app_assoc.
  assert (left ++ new' ++ filter (fun x => t < x.1) xs1 ≡ₚ xs') as Hpend by done.
  split; [by destruct sv_controller0; split|]. split; [by destruct sv_frame0|].
  split; [done|]. split; [by rewrite <- app_assoc in HJ'; eexists|].
  split_and!.
  - rewrite <- Hpend. rewrite <- (due_split t xs1), sv_due0, !length_app in Hlen. rewrite !length_app. lia.
  - intros k p [[= -> ->]|Hin]%elem_of_cons; [right; left|]. 
    assert ((k, p) ∈ xs1) as Hin1 by (rewrite Hp1; apply elem_of_app; by right).
    rewrite <- (due_split t xs1), sv_due0, !elem_of_app in Hin1. rewrite <- Hpend, !elem_of_app.
    destruct Hin1 as [[Hin1|]|]; [|by left; left|by left; right; right].
    right. right. apply list_elem_of_fmap. by exists (k, p).
  - destruct sv_left0 as [->|[(_ & k & p & -> & Hp) _]]; [left|right; by eauto].
    rewrite <- Hpend. cbn. apply Forall_app. split; [done|].
    apply Forall_forall. intros x Hx. by apply list_elem_of_filter in Hx as [? _].
Qed.
End Loop.

(** C22: the loop that fires the pending interrupts terminates: with as many rounds
    as there are interrupts due, plus one, it runs to its end, calling the handlers
    of exactly the interrupts that are due, each once and in the order they fall
    due, even though the handlers schedule further interrupts; afterwards every
    pending interrupt, old or new, lies in the future, and nothing pending is
    lost. *)
Theorem due_interrupts_served (n : nat) h (xs : list (Z * PendingInterrupt F)) (t := totalTicks (stats h)) :
  controller h xs -> in_time t -> istatus (intr h) <> IdleMode -> (length (due t xs) < n)%nat ->
  exists h' xs' new, check_loop n h = Ok h' /\ controller h' xs' /\ frame t h h' /\
    fired h' = fired h ++ (due t xs).*2 /\
    xs' ≡ₚ new ++ filter (fun x => t < x.1) xs /\ Forall (fun x => t < x.1) xs' /\
    (length xs' <= length xs)%nat.
Proof.
  intros Hc Ht Hi Hn.
  destruct (check_loop_spec (fun _ _ _ _ _ => True) ltac:(done) ltac:(done) n h xs [] Hc Ht I Hn)
    as (h' & xs' & dl & left & new & E & Hs & _).
  destruct (served_awake _ _ _ _ _ _ _ _ Hs Hi) as (-> & Hl & Hlen). destruct Hs. 
  rewrite app_nil_r in sv_due0. subst t. rewrite sv_due0. exists h', xs', new. by split_and!.
Qed.

(** ** Waiting for a device *)

Section Waiting.
Context (ready : W -> bool).
(** A thread that is ready stays so whatever handler runs. *)
Hypothesis ready_flush : forall w w', flush_load w = Ok w' -> ready w = true -> ready w' = true.
Hypothesis ready_stays : forall f a st ss w w' rs,
  call_handler f a st ss w = Ok (w', rs) -> ready w = true -> ready w' = true.

(** The handler of [p] makes a thread ready. *)
Definition wakes p : Prop :=
  forall st ss w w' rs, call_handler (handler p) (arg p) st ss w = Ok (w', rs) -> ready w' = true.

Definition woken p (fs : list (PendingInterrupt F)) (w : W) : Prop := p ∈ fs -> ready w = true.

Lemma woken_step q fs p w w1 st ss w2 rs :
  wakes q -> world_ok w -> woken q fs w -> flush_load w = Ok w1 ->
  call_handler (handler p) (arg p) st ss w1 = Ok (w2, rs) -> woken q (fs ++ [p]) w2.
Proof.
  intros Hq _ Hw Hf Hcall [Hin|Hin]%elem_of_app; [|apply list_elem_of_singleton in Hin as <-; by eapply Hq].
  eapply ready_stays; [done|]. eapply ready_flush; [done|]. by apply Hw.
Qed.

Lemma sleep_loop_ready rounds n h : ready (world h) = true -> sleep_loop ready (S rounds) n h = Ok (h, true).
Proof. intros E. cbn. by rewrite E. Qed.

(** One round for a sleeper whose interrupt is pending. *)
Lemma sleep_round n h xs k p (t := totalTicks (stats h)) :
  controller h xs -> - 2 ^ 31 <= t -> Z.max t k + horizon < 2 ^ 31 -> (length xs < n)%nat ->
  (k, p) ∈ xs -> type p <> TimerInt -> wakes p ->
  exists h' xs', Idle n h = Ok (h', true) /\ controller h' xs' /\ t <= totalTicks (stats h') <= Z.max t k /\
    (length xs' <= length xs)%nat /\
    (Forall (fun x => t < x.1) xs -> t < totalTicks (stats h')) /\
    (ready (world h') = true \/ (k, p) ∈ xs' /\ Forall (fun x => totalTicks (stats h') < x.1) xs').
Proof.
  intros Hc Hlo Hhi Hn Hin Hp Hwk. destruct xs as [|[k0 p0] tl]; [by apply elem_of_nil in Hin|].
  assert (k0 <= k) as Hk0.
  { apply elem_of_cons in Hin as [[= -> ->]|Hin]; [lia|].
    pose proof (ctl_sorted _ _ Hc) as Hs. apply Sorted_StronglySorted in Hs; [|unfold key_le; intros ???; lia].
    inversion Hs as [|? ? _ Hall]; subst. rewrite Forall_forall in Hall. by apply (Hall (k, p)). }
  destruct (Idle_spec (fun _ fs w _ _ => woken p fs w) ltac:(done) ltac:(done)
    (fun t fs y k p' xs w w1 ss w2 rs _ => woken_step p fs p' w w1 SystemMode ss w2 rs Hwk) n h k0 p0 tl []) as (h' & xs' & fs' & E & Hc' & Ht' & _ & [y HJ] & Hlen & Hkeep & Hlater); try done.
  - split; subst t; lia.
  - intros Hx. by apply elem_of_nil in Hx.
  - intros [-> Hty]. apply list_elem_of_singleton in Hin as [= -> ->]. done.
  - exists h', xs'. split; [done|]. split; [done|]. fold t in Ht'. split; [lia|]. split; [done|].
    split; [intros Hall; apply Forall_cons in Hall as [? _]; cbn in *; lia|].
    destruct (Hkeep k p Hin) as [Hin'|Hf]; [right|left; by apply HJ]. split; [done|].
    destruct Hlater as [Hl|(k' & p' & -> & Hty)]; [by rewrite Ht'|].
    apply list_elem_of_singleton in Hin' as [= -> ->]. done.
Qed.

Lemma sleep_loop_wakes rounds n h xs k p (t := totalTicks (stats h)) :
  controller h xs -> - 2 ^ 31 <= t -> Z.max t k + horizon < 2 ^ 31 -> (length xs < n)%nat ->
  (k, p) ∈ xs -> type p <> TimerInt -> wakes p ->
  Forall (fun x => t < x.1) xs -> k - t < Z.of_nat rounds ->
  exists h', sleep_loop ready rounds n h = Ok (h', true) /\ ready (world h') = true /\
    t <= totalTicks (stats h') <= Z.max t k.
Proof.
  subst t. revert h xs. induction rounds as [|rounds IH]; intros h xs Hc Hlo Hhi Hn Hin Hp Hwk Hall Hr.
  { rewrite Forall_forall in Hall. apply Hall in Hin. cbn in Hin. lia. }
  cbn [sleep_loop]. destruct (ready (world h)) eqn:Er; [by exists h; split_and!; try done; lia|].
  destruct (sleep_round n h xs k p Hc Hlo Hhi Hn Hin Hp Hwk)
    as (h1 & xs1 & -> & Hc1 & Ht1 & Hlen1 & Hlt & Hor). cbn [bindr]. specialize (Hlt Hall).
  destruct Hor as [Hready|[Hin1 Hall1]].
  - destruct rounds as [|rounds].
    { rewrite Forall_forall in Hall. apply Hall in Hin. cbn in Hin. lia. }
    rewrite (sleep_loop_ready rounds n h1 Hready). by exists h1.
  - destruct (IH h1 xs1 Hc1) as (h' & E & Hr' & Ht'); try done; try lia. 
    exists h'. split_and!; try done; lia.
Qed.

(** C23: a thread that sleeps until a device's interrupt is not forgotten: if the
    interrupt is pending at time [k] and its handler makes a thread ready, the
    loop of Thread::Sleep ends with a ready thread, never by halting the machine,
    no later than time [k], and after at most one idle round for each tick up to
    [k] and two more, whatever other interrupts, the timer's included, come first
    and schedule new ones. *)
Theorem sleeper_wakes (rounds n : nat) h (xs : list (Z * PendingInterrupt F)) (k : Z) p (t := totalTicks (stats h)) :
  controller h xs -> - 2 ^ 31 <= t -> Z.max t k + horizon < 2 ^ 31 -> (length xs < n)%nat ->
  (k, p) ∈ xs -> type p <> TimerInt -> wakes p ->
  Z.max 0 (k - t) + 1 < Z.of_nat rounds ->
  exists h', sleep_loop ready rounds n h = Ok (h', true) /\ ready (world h') = true /\
    t <= totalTicks (stats h') <= Z.max t k.
Proof.
  intros Hc Hlo Hhi Hn Hin Hp Hwk Hr. destruct rounds as [|rounds]; [lia|]. cbn [sleep_loop].
  destruct (ready (world h)) eqn:Er; [by exists h; subst t; split_and!; try done; lia|].
  destruct (sleep_round n h xs k p Hc Hlo Hhi Hn Hin Hp Hwk)
    as (h1 & xs1 & -> & Hc1 & Ht1 & Hlen1 & _ & Hor). cbn [bindr]. fold t in Ht1.
  destruct Hor as [Hready|[Hin1 Hall1]].
  - destruct rounds as [|rounds]; [lia|]. rewrite (sleep_loop_ready rounds n h1 Hready). by exists h1.
  - destruct (sleep_loop_wakes rounds n h1 xs1 k p Hc1) as (h' & E & Hr' & Ht'); try done; try lia.
    exists h'. split_and!; try done; lia.
Qed.
End Waiting.
End Correctness.

(** ** A controller with two devices

    The timer of timer.cc with a fixed period, and a device whose interrupt makes
    a thread ready; used by the witnesses. *)
Inductive demo_routine := DemoTimer | DemoDone.

#[export] Instance demo_devices : Devices demo_routine bool := {
  call_handler f a st ss w :=
    match f with
    | DemoTimer => Ok (w, [Schedules DemoTimer a TimerTicks TimerInt; Yields])
    | DemoDone => Ok (true, [Counts numDiskReads])
    end;
  flush_load w := Ok w
}.

#[export] Instance demo_devices_laws : DevicesLaws demo_routine bool.
Proof.
  refine (Build_DevicesLaws _ _ _ TimerTicks (fun _ => True) _ _).
  - intros [] a st ss w _; eexists _, _; (split; [done|]); vm_compute; repeat constructor; discriminate.
  - eauto.
Defined.

(** The timer is due at 100 and 200, the device at 250; the clock is at 205. *)
Definition demo_first : PendingInterrupt demo_routine := mkPending DemoTimer 0 100 TimerInt.
Definition demo_second : PendingInterrupt demo_routine := mkPending DemoTimer 1 200 TimerInt.
Definition demo_third : PendingInterrupt demo_routine := mkPending DemoDone 7 250 DiskInt.
Definition demo_pending : list (Z * PendingInterrupt demo_routine) :=
  [(100, demo_first); (200, demo_second); (250, demo_third)].

Definition demo_fill : res (NList.List (PendingInterrupt demo_routine)) :=
  q <- q_sorted_insert q_new demo_third 250 ;;
  q <- q_sorted_insert q demo_second 200 ;;
  q_sorted_insert q demo_first 100.

Definition demo_hw : Hw NList.List demo_routine bool :=
  mkHw (mkInterrupt IntOff (match demo_fill with Ok q => q | Err _ => q_new end) false false SystemMode)
    (mkStatistics 205 0 205 0 (fun _ => 0)) false [].

Lemma demo_controller : controller demo_hw demo_pending.
Proof.
  split; try done; [|repeat constructor; unfold key_le; cbn; lia|repeat constructor].
  cbn [demo_hw intr pending]. unfold demo_fill.
  destruct (q_sorted_insert_rep _ _ _ demo_third 250 (q_new_rep _)) as (q1 & -> & H1). cbn [bindr].
  destruct (q_sorted_insert_rep _ _ _ demo_second 200 H1) as (q2 & -> & H2). cbn [bindr].
  by destruct (q_sorted_insert_rep _ _ _ demo_first 100 H2) as (q3 & -> & H3).
Qed.

Lemma due_interrupts_served_witness :
  exists h' xs' new, check_loop 3 demo_hw = Ok h' /\ controller h' xs' /\ frame 205 demo_hw h' /\
    fired h' = [] ++ (due 205 demo_pending).*2 /\
    xs' ≡ₚ new ++ filter (fun x => 205 < x.1) demo_pending /\ Forall (fun x => 205 < x.1) xs' /\
    (length xs' <= 3)%nat.
Proof.
  apply (due_interrupts_served 3 demo_hw demo_pending).
  - exact demo_controller.
  - split; vm_compute; [discriminate|reflexivity].
  - discriminate.
  - vm_compute. repeat constructor.
Defined.

Lemma sleeper_wakes_witness :
  exists h', sleep_loop id 50 4 demo_hw = Ok (h', true) /\ id (world h') = true /\
    205 <= totalTicks (stats h') <= Z.max 205 250.
Proof.
  apply (sleeper_wakes id) with (xs := demo_pending) (k := 250) (p := demo_third).
  - intros w w' [= ->]. done.
  - intros [] a st ss w w' rs [= <- _]; done.
  - exact demo_controller.
  - vm_compute. discriminate.
  - vm_compute. reflexivity.
  - cbn. lia.
  - unfold demo_pending. repeat (left || right).
  - discriminate.
  - intros st ss w w' rs [= <- _]. done.
  - cbn. lia.
Defined.
