(* ===== verification/Timer.v ===== *)
(** The timer (machine/timer.h, machine/timer.cc), its interrupt handler and where it
    is started (threads/system.cc), and Random (machine/sysdep.cc).

    The timer is one more device of the interrupt controller, next to any others:
    [timer_devices] makes the devices of the machine with the timer from those of the
    machine without it.  The C library's rand is a parameter, the class [Rand]. *)
From Stdlib Require Import ZArith Lia Bool.
From stdpp Require Import base numbers list.
From S2P Require Import Prelude Lists Machine Threads Interrupt.

(** What rand(3) gives the [n]-th time the timer asks: a number from 0 to RAND_MAX. *)
Class Rand := rand : nat -> Z.
Class RandLaws `{!Rand} := rand_nonneg : forall n, 0 <= rand n.

Inductive routine (F : Type) :=
| TimerHandler
| DeviceHandler (f : F).
Arguments TimerHandler {F}.
Arguments DeviceHandler {F} f.

Definition for_device {F} (r : request F) : request (routine F) :=
  match r with
  | Schedules f a n ty => Schedules (DeviceHandler f) a n ty
  | Yields => Yields
  | Counts c => Counts c
  end.

Section Device.
Context `{!Rand} {F W : Type} `{!Devices F W}.

(** What a VoidFunctionPtr does to the controller, in a given status. *)
Definition VoidFunction : Type := Z -> MachineStatus -> list (request (routine F)).

Record Timer := mkTimer {
  randomize : bool;
  timer_handler : VoidFunction;
  timer_arg : Z
}.

(** The timer, how often it has drawn a random number, and the other devices. *)
Record Timed := mkTimed {
  the_timer : Timer;
  drawn : nat;
  others : W
}.

Definition with_others (v : W) (w : Timed) : Timed := mkTimed (the_timer w) (drawn w) v.

Definition Random (w : Timed) : Z * Timed := (rand (drawn w), mkTimed (the_timer w) (S (drawn w)) (others w)).

Definition TimeOfNextInterrupt (w : Timed) : Z * Timed :=
  if randomize (the_timer w) then
    let '(r, w) := Random w in (s32 (1 + Z.rem r (TimerTicks * 2)), w)
  else (TimerTicks, w).

Definition TimerExpired (this : Z) (st : MachineStatus) (w : Timed) : Timed * list (request (routine F)) :=
  let '(n, w) := TimeOfNextInterrupt w in
  (w, Schedules TimerHandler this n TimerInt :: timer_handler (the_timer w) (timer_arg (the_timer w)) st).

Definition TimerInterruptHandler : VoidFunction := fun dummy st =>
  if bool_decide (st <> IdleMode) then [Yields] else [].

#[export] Instance timer_devices : Devices (routine F) Timed := {
  call_handler f a st ss w :=
    match f with
    | TimerHandler => Ok (TimerExpired a st w)
    | DeviceHandler f =>
        '(v, rs) <- call_handler f a st ss (others w) ;; Ok (with_others v w, map for_device rs)
    end;
  flush_load w := v <- flush_load (others w) ;; Ok (with_others v w)
}.

(** The constructor, for a timer at the address [this]. *)
Definition Timer_new {Q : Type -> Type} `{!Queue Q} (timerHandler : VoidFunction) (callArg : Z) (doRandom : bool)
    (this : Z) (h : Hw Q (routine F) Timed) : res (Hw Q (routine F) Timed) :=
  let w := mkTimed (mkTimer doRandom timerHandler callArg) (drawn (world h)) (others (world h)) in
  let '(n, w) := TimeOfNextInterrupt w in
  Schedule TimerHandler this n TimerInt (set_world w h).

(** Initialize: with "-rs" on the command line there is a timer. *)
Definition start_timer {Q : Type -> Type} `{!Queue Q} (randomYield : bool) (this : Z)
    (h : Hw Q (routine F) Timed) : res (Hw Q (routine F) Timed) :=
  if randomYield then Timer_new TimerInterruptHandler 0 randomYield this h else Ok h.

(** [m] ticks of the clock. *)
Fixpoint ticks {Q : Type -> Type} `{!Queue Q} (Yield : Hw Q (routine F) Timed -> res (Hw Q (routine F) Timed))
    (fuel m : nat) (h : Hw Q (routine F) Timed) : res (Hw Q (routine F) Timed) :=
  match m with
  | O => Ok h
  | S m => h <- OneTick Yield fuel h ;; ticks Yield fuel m h
  end.
End Device.
Arguments VoidFunction : clear implicits.
Arguments Timer : clear implicits.
Arguments Timed : clear implicits.

(** ** Time slices *)

Section Slices.
Context `{!Rand, !RandLaws} {F W : Type} `{!Devices F W, !DevicesLaws F W}.

Lemma TimeOfNextInterrupt_bounds (w : Timed F W) :
  exists n m, TimeOfNextInterrupt w = (n, mkTimed (the_timer w) m (others w)) /\ 0 < n <= 2 * TimerTicks.
Proof.
  unfold TimeOfNextInterrupt, TimerTicks. destruct (randomize _).
  - pose proof (Z.rem_bound_pos (rand (drawn w)) (100 * 2) (rand_nonneg _) ltac:(lia)).
    eexists _, _. cbn [Random]. split; [done|]. rewrite s32_small by (unfold is_s32; lia). lia.
  - exists 100, (drawn w). split; [by destruct w|lia].
Qed.

Lemma delays_for_device (rs : list (request F)) : delays (map for_device rs) = delays rs.
Proof. unfold delays. induction rs as [|[] rs IH]; cbn; congruence. Qed.
Lemma yields_for_device (rs : list (request F)) : asks_yield (map for_device rs) = asks_yield rs.
Proof. unfold asks_yield. induction rs as [|[] rs IH]; cbn; congruence. Qed.

#[export] Instance timer_devices_laws : DevicesLaws (routine F) (Timed F W).
Proof.
  refine (Build_DevicesLaws _ _ _ (Z.max horizon (2 * TimerTicks))
    (fun w => timer_handler (the_timer w) = TimerInterruptHandler /\ world_ok (others w)) _ _).
  - intros [|f] a st ss w [Ht Hw]; cbn [call_handler timer_devices].
    + unfold TimerExpired. destruct (TimeOfNextInterrupt_bounds w) as (n & m & -> & Hn).
      eexists _, _. split; [done|]. split; [done|]. cbn [the_timer]. rewrite Ht. unfold TimerInterruptHandler.
      case_bool_decide; cbn; (split; [constructor; [lia|constructor]|lia]).
    + destruct (call_ok f a st ss (others w) Hw) as (v & rs & -> & Hv & Hd & Hl). cbn [bindr].
      eexists _, _. split; [done|]. split; [done|]. rewrite delays_for_device. split; [|done].
      eapply Forall_impl; [exact Hd|]. cbn. lia.
  - intros w [Ht Hw]. cbn. destruct (flush_ok _ Hw) as (v & -> & Hv). by eexists.
Defined.

(** How far ahead the devices look, the timer among them. *)
#[local] Notation horizon := (@Interrupt.horizon (routine F) (Timed F W) _ _).

Lemma horizon_min : 2 * TimerTicks <= horizon.
Proof. change (2 * TimerTicks <= Z.max (@Interrupt.horizon F W _ _) (2 * TimerTicks)). lia. Qed.

Context {Q : Type -> Type} `{!Queue Q, !QueueLaws Q}.
Implicit Types (h : Hw Q (routine F) (Timed F W)) (xs : list (Z * PendingInterrupt (routine F))).

(** No other device asks for a context switch. *)
Hypothesis only_the_timer : forall f a st ss (w w' : W) rs,
  call_handler f a st ss w = Ok (w', rs) -> asks_yield rs = false.

(** One interrupt of the timer is pending, for the time [k], which is at most two
    time slices after [t]. *)
Definition sole (k t : Z) xs : Prop :=
  k <= t + 2 * TimerTicks /\
  exists a rest, xs ≡ₚ (k, mkPending TimerHandler a k TimerInt) :: rest /\
    Forall (fun x => handler x.2 <> TimerHandler) rest.

Lemma sole_in k t xs : sole k t xs -> exists a, (k, mkPending TimerHandler a k TimerInt) ∈ xs.
Proof. intros (_ & a & rest & Hx & _). exists a. rewrite Hx. left. Qed.

Lemma scheduled_for_device t (rs : list (request F)) :
  Forall (fun x => handler x.2 <> TimerHandler) (scheduled t (map for_device rs)).
Proof. unfold scheduled. induction rs as [|[] rs IH]; cbn; auto. Qed.

(** While the handlers of the interrupts due at [t] are called: the timer's is for
    [k] until it has been called, and then a context switch is asked for. *)
Definition sliced (k t : Z) (fs : list (PendingInterrupt (routine F))) (w : Timed F W) (y : bool) xs : Prop :=
  exists k', sole k' t xs /\ (if y then k <= t else k' = k).

Lemma sliced_pending k t fs w y xs xs' : xs ≡ₚ xs' -> sliced k t fs w y xs -> sliced k t fs w y xs'.
Proof.
  intros Hp (k' & (Hk & a & rest & Hx & Hr) & Hy). exists k'. split; [|done]. split; [done|].
  exists a, rest. by rewrite <- Hp.
Qed.

Lemma sliced_step k t fs y k1 p xs w w1 ss w2 rs :
  k1 <= t -> world_ok w -> sliced k t fs w y ((k1, p) :: xs) -> flush_load w = Ok w1 ->
  call_handler (handler p) (arg p) SystemMode ss w1 = Ok (w2, rs) ->
  sliced k t (fs ++ [p]) w2 (y || asks_yield rs) (scheduled t rs ++ xs).
Proof.
  intros Hk1 [Hw _] (k' & (Hk' & a & rest & Hx & Hr) & Hy) Hfl Hcall.
  destruct p as [[|f] a1 t1 ty]; cbn [handler arg] in Hcall.
  - (* the timer's own interrupt *)
    assert ((k1, mkPending TimerHandler a1 t1 ty) ∈ (k', mkPending TimerHandler a k' TimerInt) :: rest) as Hin
      by (rewrite <- Hx; left).
    apply elem_of_cons in Hin as [[= -> -> -> ->]|Hin]; [|rewrite Forall_forall in Hr; by apply Hr in Hin].
    apply (inj (cons _)) in Hx. cbn in Hfl. inv_bind Hfl. injection Hfl as <-.
    cbn in Hcall. unfold TimerExpired in Hcall.
    destruct (TimeOfNextInterrupt_bounds (with_others v w)) as (n & m & E & Hn). rewrite E in Hcall.
    cbn [the_timer with_others] in Hcall. rewrite Hw in Hcall. unfold TimerInterruptHandler in Hcall.
    rewrite bool_decide_true in Hcall by done. injection Hcall as <- <-.
    exists (t + n). split; [|by destruct y; cbn in *; lia]. split; [lia|]. exists a, rest. split; [by rewrite <- Hx|done].
  - (* another device's *)
    cbn in Hcall. inv_bind Hcall. destruct v as [v' rs']. injection Hcall as <- <-.
    rewrite yields_for_device, (only_the_timer _ _ _ _ _ _ _ Hcall0), orb_false_r.
    assert ((k', mkPending TimerHandler a k' TimerInt) ∈ (k1, mkPending (DeviceHandler f) a1 t1 ty) :: xs) as Hin
      by (rewrite Hx; left).
    apply elem_of_cons in Hin as [|Hin]; [done|]. apply elem_of_Permutation in Hin as (xs' & Hxs).
    rewrite Hxs, Permutation_swap in Hx. apply (inj (cons _)) in Hx.
    exists k'. split; [|done]. split; [done|]. exists a, (scheduled t (map for_device rs') ++ xs').
    split; [by rewrite Hxs, <- Permutation_middle|]. apply Forall_app. split; [apply scheduled_for_device|].
    rewrite <- Hx in Hr. by apply Forall_cons in Hr as [_ ?].
Qed.

(** Interrupts are on, those in [xs] are pending, and the next of the timer's is for
    the time [k]. *)
Record timed h xs (k : Z) : Prop := {
  tm_controller : controller (ChangeLevel IntOff h) xs;
  tm_on : ilevel (intr h) = IntOn;
  tm_sole : sole k (totalTicks (stats h)) xs;
  tm_quiet : yieldOnReturn (intr h) = false
}.

(** What a tick costs. *)
Definition cost (st : MachineStatus) : Z := if bool_decide (st = SystemMode) then SystemTick else UserTick.

Lemma cost_pos st : 0 < cost st <= SystemTick.
Proof. unfold cost, SystemTick, UserTick. case_bool_decide; lia. Qed.

Lemma charge_ticks st s : - 2 ^ 31 <= totalTicks s + cost st < 2 ^ 31 -> totalTicks (charge st s) = totalTicks s + cost st.
Proof. unfold charge, cost. case_bool_decide; cbn; intros ?; by rewrite s32_small. Qed.

(** After the switch the code that has been interrupted goes on in its own mode. *)
Definition resume (st : MachineStatus) h : Hw Q (routine F) (Timed F W) := set_intr (with_status st (intr h)) h.

Lemma one_tick n h xs k (st := istatus (intr h)) (t := totalTicks (stats h) + cost st) :
  timed h xs k -> st <> IdleMode -> - 2 ^ 31 <= totalTicks (stats h) -> t + horizon < 2 ^ 31 -> (length xs < n)%nat ->
  exists h1 xs1 k1, totalTicks (stats h1) = t /\ timed h1 xs1 k1 /\ t < k1 /\ (length xs1 <= length xs)%nat /\
    (t < k /\ k1 = k /\ istatus (intr h1) = st /\ (forall Yield, OneTick Yield n h = Ok h1) \/
     k <= t /\ istatus (intr h1) = SystemMode /\
     forall Yield, OneTick Yield n h = (h2 <- Yield h1 ;; Ok (resume st h2))).
Proof.
  intros [Hc Hon Hs Hy] Hst Hlo Hhi Hn. pose proof (cost_pos st) as Hcost.
  pose proof horizon_min as Hz. unfold TimerTicks in Hz.
  set (h0 := ChangeLevel IntOff (set_stats (charge st (stats h)) h)).
  assert (totalTicks (stats h0) = t) as Ht by (apply charge_ticks; subst t; lia).
  assert (controller h0 xs) as Hc0 by by destruct Hc; split.
  pose proof (check_loop_spec (sliced k) (sliced_pending k) (sliced_step k) n h0 xs [] Hc0) as Hl.
  rewrite Ht in Hl. destruct Hl as (h1 & xs1 & dl & left & new & E & Hserved & HJ).
  { split; subst t; lia. }
  { exists k. cbn. rewrite Hy. split; [|done]. destruct Hs as [? Hs]. split; [subst t; lia|done]. }
  { unfold due. pose proof (length_filter (fun x : Z * PendingInterrupt (routine F) => x.1 <= t) xs). lia. }
  destruct (served_awake _ _ _ _ _ _ _ _ Hserved Hst) as (-> & Hlater & Hlen).
  destruct Hserved as [Hc1 [Hclk _ Hst1] _ _ _ _ _ _].
  destruct HJ as (k1 & Hs1 & Hk1). 
  assert (t < k1) as Hlt.
  { destruct (sole_in _ _ _ Hs1) as (a & Hin). unfold later in Hlater. rewrite Forall_forall in Hlater.
    by apply Hlater in Hin. }
  assert (forall Yield, OneTick Yield n h = (let h := ChangeLevel IntOn h1 in
    if yieldOnReturn (intr h) then
      h <- Yield (set_intr (with_status SystemMode (with_yield false (intr h))) h) ;; Ok (resume st h)
    else Ok h)) as Eq.
  { intros Y. unfold OneTick. fold st. fold h0. by rewrite E. }
  cbn [ChangeLevel intr set_intr with_level yieldOnReturn] in Eq.
  destruct (yieldOnReturn (intr h1)) eqn:Ey.
  - eexists _, xs1, k1. split; [|split; [|split_and!; [done|done|right; split_and!; [done| |exact Eq]]]]; [done| |done].
    split; try done; [by destruct Hc1; split|]. cbn. by rewrite Hclk.
  - exists (ChangeLevel IntOn h1), xs1, k1. split; [done|]. split.
    { split; try done; [by destruct Hc1; split|]. cbn. by rewrite Hclk. }
    split; [done|]. split; [done|]. left. split_and!; [lia|done|done|exact Eq].
Qed.

(** C24: with the timer started no thread keeps the processor for long.  Whatever the
    other devices do and however the random numbers fall, code that runs on for tick
    after tick is left alone until the clock has reached the time [k] of the timer's
    interrupt; at the first tick from then on, at most two periods of the timer and
    one tick later, it is made to yield, with the machine in system mode, and has its
    own mode back afterwards.  By then the timer's next interrupt is pending, in the
    future and at most two periods ahead, and is the only one it has, so the
    same holds of whoever runs next. *)
Theorem time_slice (n : nat) h xs k (st := istatus (intr h)) (t := totalTicks (stats h)) :
  timed h xs k -> st <> IdleMode -> - 2 ^ 31 <= t -> Z.max t k + SystemTick + horizon < 2 ^ 31 ->
  (length xs < n)%nat ->
  exists m h1 h2 xs2 k2 (t2 := totalTicks (stats h2)),
    (forall Yield, ticks Yield n m h = Ok h1) /\
    (forall Yield, OneTick Yield n h1 = (h3 <- Yield h2 ;; Ok (resume st h3))) /\
    t2 = t + Z.of_nat (S m) * cost st /\ k <= t2 < Z.max (t + 1) k + cost st /\
    t2 < t + 2 * TimerTicks + SystemTick /\
    istatus (intr h2) = SystemMode /\ timed h2 xs2 k2 /\ t2 < k2 <= t2 + 2 * TimerTicks /\
    (length xs2 <= length xs)%nat.
Proof.
  subst st t. remember (Z.to_nat (k - totalTicks (stats h))) as N eqn:EN.
  revert h xs EN. induction (lt_wf N) as [N _ IH]. intros h xs EN Hm Hst Hlo Hhi Hn.
  pose proof (proj1 (tm_sole _ _ _ Hm)) as Hk. pose proof (cost_pos (istatus (intr h))) as Hcost.
  destruct (one_tick n h xs k Hm Hst Hlo ltac:(lia) Hn)
    as (h1 & xs1 & k1 & Ht1 & Hm1 & Hlt1 & Hlen1 & [(Htk & -> & Hst1 & E1)|(Htk & Hst1 & E1)]).
  - destruct (IH (Z.to_nat (k - totalTicks (stats h1))) ltac:(lia) h1 xs1 eq_refl Hm1 ltac:(congruence) ltac:(lia) ltac:(lia) ltac:(lia))
      as (m & h2 & h3 & xs3 & k3 & E2 & E3 & Ht3 & Hb3 & Hb3' & Hst3 & Hm3 & Hk3 & Hlen3).
    rewrite Hst1 in *. exists (S m), h2, h3, xs3, k3. cbv zeta. split_and!; try done; try lia.
    intros Y. cbn [ticks]. rewrite E1. apply E2.
  - exists O, h, h1, xs1, k1. cbv zeta. pose proof (proj1 (tm_sole _ _ _ Hm1)). split_and!; try done; try lia.
Qed.

(** Starting the timer, on a machine on which nothing is pending yet, starts the time
    slices, once interrupts are on. *)
Lemma start_timer_timed h this (t := totalTicks (stats h)) :
  q_rep (pending (intr h)) [] -> ilevel (intr h) = IntOff -> yieldOnReturn (intr h) = false ->
  world_ok (others (world h)) -> - 2 ^ 31 <= t -> t + horizon < 2 ^ 31 ->
  exists h' xs k, start_timer true this h = Ok h' /\ timed (ChangeLevel IntOn h') xs k /\ length xs = 1%nat /\
    t < k <= t + 2 * TimerTicks /\ stats h' = stats h /\ istatus (intr h') = istatus (intr h).
Proof.
  intros Hq Hl Hy Hw Hlo Hhi. unfold start_timer, Timer_new.
  set (w := mkTimed (mkTimer true TimerInterruptHandler 0) (drawn (world h)) (others (world h))).
  destruct (TimeOfNextInterrupt_bounds w) as (n & m & -> & Hn). pose proof horizon_min.
  destruct (Schedule_spec (set_world (mkTimed (the_timer w) m (others w)) h) [] TimerHandler this n TimerInt)
    as (h' & E & Hc' & [Ht' _ Hst'] & _ & _ & _ & Hy'); [|by split|lia|].
  { split; try done; constructor. }
  assert (stats h' = stats h) as Hs.
  { unfold Schedule in E. destruct (ASSERT _); [|done]. cbn [bindr] in E. inv_bind E. by injection E as <-. }
  exists h', [(t + n, mkPending TimerHandler this (t + n) TimerInt)], (t + n). split; [exact E|]. split; [|split_and!; try done; lia].
  split; try done; [by destruct Hc'; split|..]; cbn; [|by rewrite Hy'].
  rewrite Hs. split; [fold t; lia|]. by eexists this, [].
Qed.

End Slices.

(** ** A user program under a timer

    The timer's first interrupt is at 191; a console is polled every hundred ticks. *)
#[export] Instance demo_rand : Rand := fun n => (1103515245 * (Z.of_nat n + 1) + 12345) mod 2 ^ 31.
#[export] Instance demo_rand_laws : RandLaws.
Proof. intros n. unfold rand, demo_rand. apply Z.mod_pos_bound. lia. Qed.

Inductive demo_poll := Poll.

#[export] Instance demo_console : Devices demo_poll nat := {
  call_handler f a st ss w := Ok (S w, [Schedules Poll a ConsoleTime ConsoleReadInt]);
  flush_load w := Ok w
}.

#[export] Instance demo_console_laws : DevicesLaws demo_poll nat.
Proof.
  refine (Build_DevicesLaws _ _ _ ConsoleTime (fun _ => True) _ _); [|by eauto].
  intros f a st ss w _. eexists _, _. split; [done|]. vm_compute. repeat constructor; discriminate.
Defined.

Definition demo_poll_int : PendingInterrupt (routine demo_poll) := mkPending (DeviceHandler Poll) 0 100 ConsoleReadInt.
Definition demo_timer_int : PendingInterrupt (routine demo_poll) := mkPending TimerHandler 4096 191 TimerInt.

Definition demo_start : Hw NList.List (routine demo_poll) (Timed demo_poll nat) :=
  mkHw (mkInterrupt IntOff (match q_sorted_insert q_new demo_poll_int 100 with Ok q => q | Err _ => q_new end)
          false false UserMode)
    Statistics_new (mkTimed (mkTimer false TimerInterruptHandler 0) 0 0%nat) [].

Definition demo_user : Hw NList.List (routine demo_poll) (Timed demo_poll nat) :=
  match start_timer true 4096 demo_start with Ok h => ChangeLevel IntOn h | Err _ => demo_start end.

Lemma demo_user_timed : timed demo_user [(100, demo_poll_int); (191, demo_timer_int)] 191.
Proof.
  destruct (q_sorted_insert_rep _ _ _ demo_poll_int 100 (q_new_rep (Q := NList.List) _)) as (q1 & E1 & H1).
  destruct (q_sorted_insert_rep _ _ _ demo_timer_int 191 H1) as (q2 & E2 & H2).
  assert (pending (intr demo_user) = q2) as E.
  { vm_compute in E1. injection E1 as <-. vm_compute in E2. injection E2 as <-. vm_compute. reflexivity. }
  split; [|done| |done].
  - split; try done; [|repeat constructor; unfold key_le; cbn; lia|repeat constructor].
    cbn [ChangeLevel set_intr with_level intr pending]. rewrite E. exact H2.
  - split; [vm_compute; discriminate|]. exists 4096, [(100, demo_poll_int)]. split; [|by repeat constructor].
    apply Permutation_swap.
Qed.

Lemma time_slice_witness : exists m h1 h2 xs2 k2 (t2 := totalTicks (stats h2)),
  (forall Yield, ticks Yield 3 m demo_user = Ok h1) /\
  (forall Yield, OneTick Yield 3 h1 = (h3 <- Yield h2 ;; Ok (resume UserMode h3))) /\
  t2 = 0 + Z.of_nat (S m) * cost UserMode /\ 191 <= t2 < Z.max (0 + 1) 191 + cost UserMode /\
  t2 < 0 + 2 * TimerTicks + SystemTick /\
  istatus (intr h2) = SystemMode /\ timed h2 xs2 k2 /\ t2 < k2 <= t2 + 2 * TimerTicks /\
  (length xs2 <= 2)%nat.
Proof.
  apply (time_slice) with (n := 3%nat) (xs := [(100, demo_poll_int); (191, demo_timer_int)]).
  - intros f a st ss w w' rs [= <- <-]. reflexivity.
  - exact demo_user_timed.
  - discriminate.
  - vm_compute. discriminate.
  - vm_compute. reflexivity.
  - vm_compute. repeat constructor.
Defined.
