(* ===== verification/Console.v ===== *)
(** The simulated console (machine/console.h, machine/console.cc) and its
    synchronous face (userprog/SynchConsole.h, userprog/SynchConsole.cc) as Read
    and Write use it (Read2 and Write2 of userprog/exception.cc): a lock around
    the whole of a Read or a Write, a semaphore for each character. *)
From Stdlib Require Import ZArith Lia Bool.
From stdpp Require Import base numbers list gmap fin_maps fin_sets.
From S2P Require Import Prelude Lists Machine Threads Synch System Steps Conditions Monitor Requests Interrupt.

Inductive console_routine := ConsoleReadPoll | ConsoleWriteDone.

Definition EOF : Z := -1.

(** [keyboard] is what has still to be read of the input, [screen] what has been
    written. *)
Record Console := mkConsole {
  keyboard : list Z;
  screen : list Z;
  putBusy : bool;
  incoming : Z
}.

Definition Console_new (input : list Z) : Console * list (request console_routine) :=
  (mkConsole input [] false EOF, [Schedules ConsoleReadPoll 0 ConsoleTime ConsoleReadInt]).

(** [ready] is what PollFile answers; the last component of the result, whether the
    handler of the client is called. *)
Definition CheckCharAvail (ready : bool) (c : Console) : Console * list (request console_routine) * bool :=
  let again := Schedules ConsoleReadPoll 0 ConsoleTime ConsoleReadInt in
  if negb (incoming c =? EOF) || negb ready then (c, [again], false)
  else
    match keyboard c with
    | [] => (c, [again], false)
    | b :: ks => (mkConsole ks (screen c) (putBusy c) (s8 b), [again; Counts numConsoleCharsRead], true)
    end.

Definition WriteDone (c : Console) : Console * list (request console_routine) :=
  (mkConsole (keyboard c) (screen c) false (incoming c), [Counts numConsoleCharsWritten]).

Definition GetChar (c : Console) : Console * Z :=
  (mkConsole (keyboard c) (screen c) (putBusy c) EOF, incoming c).

Definition PutChar (c : Console) (ch : Z) : res (Console * list (request console_routine)) :=
  _ <- ASSERT (negb (putBusy c)) ;;
  Ok (mkConsole (keyboard c) (screen c ++ [ch]) true (incoming c),
      [Schedules ConsoleWriteDone 0 ConsoleTime ConsoleWriteInt]).

(** ** Writing

    An operation is the loop of Write2: Acquire of the write lock, PutChar and P
    for each character, Release. *)
#[export] Instance console_output : Device Console Z unit := {|
  dev_start c ch := '(c, _) <- PutChar c ch ;; Ok (c, tt);
  dev_busy := putBusy;
  dev_finish c := (WriteDone c).1
|}.

#[export] Instance console_output_laws : DeviceLaws Console Z unit (list Z).
Proof.
  refine {| dev_rep := fun c s => screen c = s; job_ok := fun _ => True; dev_step := fun s ch => (s ++ [ch], tt) |}.
  - intros c s ch <- Hb _. cbn in *. unfold PutChar. rewrite Hb. cbn. by eexists.
  - intros c s <-. done.
Defined.

Lemma replays_screen (s : list Z) (es : list (positive * Z * unit)) s' : replays s es s' -> s' = s ++ jobs es.
Proof.
  revert s. induction es as [|[[t ch] []] es IH]; intros s; cbn; [intros ->; by rewrite app_nil_r|].
  intros [_ H]. apply IH in H. by rewrite H, <- app_assoc.
Qed.

Section Writing.
Context {Q : Type -> Type} `{!Queue Q, !QueueLaws Q} (init : positive -> Z) (w WriteLock : positive).
#[local] Instance writers : Client (rq_pc Z) (rq_data Console Z unit) := requests w WriteLock.

(** What is written to the console at the same time by several threads is not
    mixed.  In every run the screen shows whole Writes one after the other, and
    of the Write that is going on what it has written so far; and the ASSERT that
    the console is asked for one character at a time never fails. *)
Theorem Write_atomic (s0 s : Sys Q (rq_pc Z) (rq_data Console Z unit)) (chs : list choice) :
  init w = 0 -> booted init s0 -> runs s0 chs s -> small init (log s) ->
  (forall t x, ctls s0 !! t = Some x -> site_typed rq_code (rq_held WriteLock) x ∅) ->
  trace (data s0) = [] -> ops (data s0) = [] -> screen (dev (data s0)) = [] -> putBusy (dev (data s0)) = false ->
  exists current : list Z,
    screen (dev (data s)) = concat (ops (data s)) ++ current /\
    (forall t started ch todo ts, ctls s !! t = Some (At (Holding started (ch :: todo) ts)) ->
       putBusy (dev (data s)) = false).
Proof.
  intros Hi Hb Hr Hsm Hst Htr Hop Hs Ha.
  destruct (requests_atomic w WriteLock init [] Hi s0 s chs Hb Hr Hsm Hst Htr Hop Hs Ha)
    as (cur & (shown & Hsh & Hrep & Hj) & Hat & _).
  exists cur. split; [|intros t started ch todo ts Hp; apply (Hat t _ Hp); set_solver].
  apply replays_screen in Hrep. cbn in Hsh, Hrep. by rewrite Hsh, Hrep, Hj.
Qed.
End Writing.

(** ** Reading

    An operation is the loop of Read2: Acquire of the read lock, P and GetChar for
    each character, Release. *)
Inductive read_task := DoRead (n : nat) | SpawnReader (u : positive).

(** A thread is between two Reads; in the loop, before P, with what it has got and
    how many characters are still to come; or behind P. *)
Inductive read_pc :=
| ReadIdle (tasks : list read_task)
| ReadLoop (got : list Z) (n : nat) (tasks : list read_task)
| ReadGot (got : list Z) (n : nat) (tasks : list read_task).

(** [given] and [results] are ghosts: what GetChar has returned, and the buffers of
    the Reads that are over. *)
Record read_data := mkRead { con : Console; given : list Z; results : list (list Z) }.

Section Reading.
Context (r ReadLock : positive).

Definition read_next (got : list Z) (n : nat) (ts : list read_task) (d : read_data) : read_data * (prim * read_pc) :=
  match n with
  | O => (mkRead (con d) (given d) (results d ++ [got]), (Release ReadLock, ReadIdle ts))
  | S n => (d, (P r, ReadGot got n ts))
  end.

#[export] Instance readers : Client read_pc read_data := {
  view t p d :=
    match p with
    | ReadIdle [] => Ok (d, None)
    | ReadIdle (DoRead n :: ts) => Ok (d, Some (Acquire ReadLock, ReadLoop [] n ts))
    | ReadIdle (SpawnReader u :: ts) => Ok (d, Some (Fork u, ReadIdle ts))
    | ReadLoop got n ts => let '(d, c) := read_next got n ts d in Ok (d, Some c)
    | ReadGot got n ts =>
        let '(c, ch) := GetChar (con d) in
        let '(d, c) := read_next (got ++ [ch]) n ts (mkRead c (given d ++ [ch]) (results d)) in
        Ok (d, Some c)
    end;
  on_irq n d :=
    if bool_decide (n = r) then
      match CheckCharAvail true (con d) with
      | (c, _, true) => Some (mkRead c (given d) (results d))
      | _ => None
      end
    else None
}.

Definition read_held (p : read_pc) : gset positive :=
  match p with ReadIdle _ => ∅ | _ => {[ReadLock]} end.

Lemma readers_typed : typed (fun _ => True) read_held.
Proof.
  split; [intros t p d d' c p' _ Hv; split; [done|]|intros t p d d' _ Hv];
    destruct p as [[|[n|u] ts]|got [|n] ts|got [|n] ts]; cbn in Hv |- *; try done; injection Hv as _ <- <-; cbn.
  - rewrite decide_False by set_solver. f_equal. set_solver.
  - done.
  - rewrite decide_True by set_solver. f_equal. set_solver.
  - done.
  - rewrite decide_True by set_solver. f_equal. set_solver.
  - done.
Qed.

Section Runs.
Context {Q : Type -> Type} `{!Queue Q, !QueueLaws Q} (init : positive -> Z) (input : list Z).
Implicit Types (d : read_data) (log : list event).
Hypothesis Hinit : init r = 0.
(** No byte of the input reads as EOF in a [char]. *)
Hypothesis Hinput : Forall (fun b => s8 b <> EOF) input.

(** Of the input, [consumed] has been read, and all of it given out, or all but the
    character in the buffer. *)
Definition buffer (d : read_data) (filled : bool) : Prop :=
  exists consumed, input = consumed ++ keyboard (con d) /\
    if filled then incoming (con d) <> EOF /\ s8 <$> consumed = given d ++ [incoming (con d)]
    else incoming (con d) = EOF /\ s8 <$> consumed = given d.

(** Between two characters of a Read that has [got] some. *)
Definition pausing (got : list Z) (d : read_data) (log : list event) : Prop :=
  given d = concat (results d) ++ got /\
  (buffer d false /\ tally r log = 0 \/ buffer d true /\ tally r log = 1).

Definition fetching (got : list Z) (d : read_data) (log : list event) : Prop :=
  given d = concat (results d) ++ got /\ buffer d true /\ tally r log = 0.

Definition read_assertions : assertions := {|
  free := pausing [];
  at_pc p d log :=
    match p with
    | ReadIdle _ => True
    | ReadLoop got _ _ => pausing got d log
    | ReadGot got _ _ => fetching got d log
    end;
  in_call c p d log :=
    match p with
    | ReadIdle _ => c = Release ReadLock /\ pausing [] d log
    | ReadLoop got _ _ => c = Acquire ReadLock /\ got = []
    | ReadGot got _ _ => c = P r /\ pausing got d log
    end
|}.

Lemma pausing_log got d log log' : tally r log' = tally r log -> pausing got d log -> pausing got d log'.
Proof. intros E [H1 H2]. split; [done|]. by rewrite E. Qed.

Lemma read_stable d log log' : tally r log' = tally r log -> stable read_held ReadLock read_assertions d log d log'.
Proof.
  intros E. split; [|split]; cbn.
  - by apply pausing_log.
  - intros [ts|got n ts|got n ts] _; [done|by apply pausing_log|]. intros (H1 & H2 & H3). split_and!; [done..|lia].
  - intros c [ts|got n ts|got n ts]; [|done|]; intros [-> H]; (split; [done|]); by apply (pausing_log _ d log).
Qed.

Lemma read_next_ok got n ts d log :
  pausing got d log ->
  exists d' c p', read_next got n ts d = (d', (c, p')) /\ in_call read_assertions c p' d' log.
Proof.
  intros [Hg Hb]. destruct n as [|n]; cbn; [|by eexists _, _, _].
  eexists _, _, _. split; [done|]. cbn. split; [done|]. split; cbn; [|done].
  rewrite concat_app. cbn. by rewrite !app_nil_r.
Qed.

Lemma read_irq n d d' log :
  on_irq n d = Some d' ->
  n = r /\ given d' = given d /\ results d' = results d /\ incoming (con d) = EOF /\ (buffer d false -> buffer d' true).
Proof.
  cbn. case_bool_decide as En; [|done]. unfold CheckCharAvail. cbn [negb]. rewrite orb_false_r.
  destruct (Z.eqb_spec (incoming (con d)) EOF) as [Ei|]; [|done]. cbn [negb].
  destruct (keyboard (con d)) as [|b ks] eqn:Ek; [done|]. intros [= <-]. split_and!; try done.
  intros (consumed & Ein & _ & Hc). exists (consumed ++ [b]). cbn. rewrite Ek in Ein.
  split; [by rewrite <- app_assoc|]. split.
  - rewrite Forall_forall in Hinput. apply Hinput. rewrite Ein. apply elem_of_app. right. by left.
  - by rewrite fmap_app, Hc.
Qed.

Lemma readers_monitor : monitor init (fun _ => True) (fun _ => True) read_held ReadLock nowhere read_assertions.
Proof.
  split.
  - intros t [ts|got n ts|got n ts] d log _ _ Hin Hp; cbn in Hin, Hp; [set_solver|..].
    + destruct (read_next_ok got n ts d log Hp) as (d' & c & p' & E & H). exists d', c, p'. cbn. by rewrite E.
    + destruct Hp as (Hg & (consumed & Ein & Hne & Hc) & Ht).
      destruct (read_next_ok (got ++ [incoming (con d)]) n ts
        (mkRead (GetChar (con d)).1 (given d ++ [incoming (con d)]) (results d)) log) as (d' & c & p' & E & H).
      { split; cbn; [by rewrite Hg, <- app_assoc|]. left. split; [|done]. by exists consumed. }
      exists d', c, p'. cbn in E |- *. by rewrite E.
  - intros t c q0 [ts|got n ts|got n ts] d0 d1 h d log _ _ _ _ Hin Hl Hp He _; cbn in Hp.
    + destruct Hp as [-> Hp]. rewrite decide_False by (cbn; set_solver). cbn.
      eapply pausing_log; [|exact Hp]. rewrite tally_app. cbn. lia.
    + destruct Hp as [-> _]. cbn in Hl. by rewrite decide_True in Hl.
    + destruct Hp as [-> [Hg Hb]]. rewrite decide_True by (cbn; set_solver). cbn in He |- *.
      rewrite Hinit in He. split; [done|]. destruct Hb as [[_ Hb]|[Hb Ht]]; [lia|]. split; [done|].
      rewrite tally_app. cbn. rewrite decide_True by done. lia.
  - intros t p p' d d' d'' log _ _ _ Hv _ Hf.
    assert (exists n ts, p' = ReadLoop [] n ts) as (n & ts & ->).
    { destruct p as [[|[n|u] ts]|got [|n] ts|got [|n] ts]; cbn in Hv; try done. injection Hv as _ <-. eauto. }
    cbn. eapply pausing_log; [|exact Hf]. rewrite tally_app. cbn. lia.
  - intros t [[|[n|u] ts]|got n ts|got n ts] d d' res log _ _ Hn Hv; cbn in Hn, Hv; try set_solver.
    all: injection Hv as <- _; apply stable_refl.
  - intros t c [[|[n|v] ts]|got n ts|got n ts] p d0 d1 d log _ _ _ Hv Hq Hp; cbn in Hv, Hq; try set_solver.
    injection Hv as _ <- <-. apply read_stable. rewrite tally_app. cbn. lia.
  - intros t q d0 d1 d log _ _ _. apply read_stable. rewrite tally_app. cbn. lia.
  - intros n d d' log Hi. destruct (read_irq n d d' log Hi) as (-> & Eg & Er & Ei & Hb).
    assert (tally r (log ++ [(None, V r)]) = tally r log + 1) as Et.
    { rewrite tally_app. cbn. by rewrite decide_True. }
    assert (buffer d true -> False) as Hno by (intros (? & _ & Hne & _); congruence).
    assert (forall got, pausing got d log -> pausing got d' (log ++ [(None, V r)])) as Hpause.
    { intros got [H1 H2]. split; [by rewrite Eg, Er|]. rewrite Et. right.
      destruct H2 as [[H2 H3]|[H2 _]]; [|by destruct Hno]. split; [by apply Hb|lia]. }
    split; [|split]; cbn.
    + apply Hpause.
    + intros [ts|got m ts|got m ts] _; [done|apply Hpause|]. intros (_ & H & _). by destruct Hno.
    + intros c [ts|got m ts|got m ts]; [|done|]; intros [-> H]; (split; [done|]); by apply Hpause.
Qed.

(** C38: reading from the console by several threads at once, when no byte of the
    input reads as EOF in a [char] ([Hinput]: no byte 255, with which the console
    loses the order, see [eof_byte]).  In every run, the characters that GetChar has returned are the first of the input, each once
    and in order, at most one more has been taken from it, and they are what the
    Reads that are over have in their buffers, Read after Read, and then what the
    one that is going on has; GetChar is never called with the buffer empty. *)
Theorem Read_in_order (s0 s : Sys Q read_pc read_data) (chs : list choice) :
  booted init s0 -> runs s0 chs s -> small init (log s) ->
  (forall t x, ctls s0 !! t = Some x -> site_typed (fun _ => True) read_held x ∅) ->
  given (data s0) = [] -> results (data s0) = [] -> keyboard (con (data s0)) = input -> incoming (con (data s0)) = EOF ->
  (exists current consumed, given (data s) = concat (results (data s)) ++ current /\
     input = consumed ++ keyboard (con (data s)) /\
     (s8 <$> consumed = given (data s) \/ s8 <$> consumed = given (data s) ++ [incoming (con (data s))])) /\
  (forall t got n ts, ctls s !! t = Some (At (ReadGot got n ts)) -> incoming (con (data s)) <> EOF).
Proof.
  intros Hb Hr Hsm Hst Hg0 Hr0 Hk0 Hi0.
  destruct (monitor_rule init (fun _ => True) read_held ReadLock read_assertions s0 s chs readers_typed Hst readers_monitor)
    as (own & Hown & _ & Hor); try done.
  { split; [by rewrite Hg0, Hr0|]. left. split; [|done]. exists []. cbn. rewrite Hk0, Hi0, Hg0. by split_and!. }
  assert (forall got log, pausing got (data s) log \/ fetching got (data s) log ->
    exists current consumed, given (data s) = concat (results (data s)) ++ current /\
     input = consumed ++ keyboard (con (data s)) /\
     (s8 <$> consumed = given (data s) \/ s8 <$> consumed = given (data s) ++ [incoming (con (data s))])) as Hfin.
  { intros got lg [[H1 [[(consumed & E & _ & Hc) _]|[(consumed & E & _ & Hc) _]]]|(H1 & (consumed & E & _ & Hc) & _)];
      exists got, consumed; auto. }
  split.
  - destruct Hor as [[_ Hf]|(t & x & Hin & _ & Hx & Hh)]; [exact (Hfin [] _ (or_introl Hf))|]. pose proof (Hown _ _ Hx) as Hty.
    destruct x as [p|c old p|old p|]; cbn in Hty, Hh; [|destruct Hty as [[_ Hl]|[-> Hl]]| |done].
    1, 4: destruct Hty as [_ Ho]; rewrite Ho in Hin; destruct p; cbn in Hin; [set_solver|eapply Hfin; left; exact Hh|eapply Hfin; right; exact Hh].
    + destruct p; [eapply Hfin; left; apply Hh| |eapply Hfin; left; apply Hh].
      destruct Hh as [-> _]. cbn in Hl. by rewrite decide_True in Hl.
    + rewrite Hl in Hin. set_solver.
  - intros t got n ts Hp. destruct (Hown _ _ Hp) as [_ Ho].
    destruct Hor as [[Hn _]|(u & x & Hu & Huniq & Hx & Hh)]; [destruct (Hn t); rewrite Ho; cbn; set_solver|].
    rewrite <- (Huniq t) in Hx by (rewrite Ho; cbn; set_solver). rewrite Hp in Hx. injection Hx as <-.
    by destruct Hh as (_ & (_ & _ & Hne & _) & _).
Qed.
End Runs.
End Reading.

(** Thread 1 writes "Hi", thread 2 writes "!", both at once. *)
Definition demo_console : Console := (Console_new []).1.
Definition demo_write : Sys NList.List (rq_pc Z) (rq_data Console Z unit) :=
  boot 1%positive (Between [Spawn 2; Do [72; 105]]) [(2%positive, 5, Between [Do [33]])]
    [(1%positive, 0)] [1%positive] [] (mkRq demo_console [] []).
#[local] Instance demo_writers : Client (rq_pc Z) (rq_data Console Z unit) := writers 1 1.
Definition demo_rounds : list choice :=
  concat (replicate 12 [mkChoice [] true; mkChoice [1%positive] false]).
Definition demo_written : Sys NList.List (rq_pc Z) (rq_data Console Z unit) :=
  match run demo_rounds demo_write with Ok s => s | Err _ => demo_write end.

Lemma Write_atomic_witness :
  screen (dev (data demo_written)) = [33; 72; 105] /\
  exists current, screen (dev (data demo_written)) = concat (ops (data demo_written)) ++ current.
Proof.
  split; [vm_compute; reflexivity|].
  destruct (Write_atomic (first_value [(1%positive, 0)]) 1 1 demo_write demo_written demo_rounds) as (cur & H & _).
  - reflexivity.
  - apply boot_booted; [by repeat constructor|apply NoDup_singleton].
  - apply run_reaches. vm_compute. reflexivity.
  - assert (zlen (log demo_written) < 100) as Hlog by (vm_compute; done).
    apply small_first_value; [repeat constructor; cbn; lia|lia].
  - intros t x Hx. apply boot_sites in Hx as [->|(y & Hy & ->)]; [by repeat constructor|].
    apply list_elem_of_singleton in Hy as ->. by repeat constructor.
  - reflexivity.
  - reflexivity.
  - reflexivity.
  - reflexivity.
  - exists cur. exact H.
Defined.

(** Threads 1 and 2 read two characters and one, of "abcd". *)
Definition demo_read : Sys NList.List read_pc read_data :=
  boot 1%positive (ReadIdle [SpawnReader 2; DoRead 2]) [(2%positive, 0, ReadIdle [DoRead 1])]
    [(1%positive, 0)] [1%positive] [] (mkRead (Console_new [97; 98; 99; 100]).1 [] []).
#[local] Instance demo_readers : Client read_pc read_data := readers 1 1.
Definition demo_keys : list choice := replicate 20 (mkChoice [1%positive] false).
Definition demo_read_end : Sys NList.List read_pc read_data :=
  match run demo_keys demo_read with Ok s => s | Err _ => demo_read end.

Lemma Read_in_order_witness :
  results (data demo_read_end) = [[97; 98]; [99]] /\
  exists current consumed, given (data demo_read_end) = concat (results (data demo_read_end)) ++ current /\
    [97; 98; 99; 100] = consumed ++ keyboard (con (data demo_read_end)).
Proof.
  split; [vm_compute; reflexivity|].
  destruct (Read_in_order 1 1 (first_value [(1%positive, 0)]) [97; 98; 99; 100] eq_refl
    ltac:(repeat constructor; vm_compute; discriminate) demo_read demo_read_end demo_keys)
    as ((cur & consumed & H1 & H2 & _) & _).
  - apply boot_booted; [by repeat constructor|apply NoDup_singleton].
  - apply run_reaches. vm_compute. reflexivity.
  - assert (zlen (log demo_read_end) < 100) as Hlog by (vm_compute; done).
    apply small_first_value; [repeat constructor; cbn; lia|lia].
  - intros t x Hx. apply boot_sites in Hx as [->|(y & Hy & ->)]; [by repeat constructor|].
    apply list_elem_of_singleton in Hy as ->. by repeat constructor.
  - reflexivity.
  - reflexivity.
  - reflexivity.
  - reflexivity.
  - exists cur, consumed. by split.
Defined.

(** A byte 255 breaks the console: read into a [char] it is EOF, so the
    buffer still counts as empty although the client has been told of a
    character.  If the next byte [b] comes before the client's GetChar, it is
    accepted on top, and the two GetChars the client was promised return [b] and
    EOF: the order of the input is lost. *)
Theorem eof_byte (c : Console) (b : Z) (ks : list Z) :
  incoming c = EOF -> keyboard c = 255 :: b :: ks ->
  let '(c1, _, called1) := CheckCharAvail true c in
  let '(c2, _, called2) := CheckCharAvail true c1 in
  let '(c3, first) := GetChar c2 in
  let '(c4, second) := GetChar c3 in
  called1 = true /\ called2 = true /\ first = s8 b /\ second = EOF /\ incoming c1 = EOF.
Proof.
  intros Hi Hk. unfold CheckCharAvail at 1. rewrite Hi, Hk. by cbn.
Qed.

Lemma eof_byte_witness :
  let '(c1, _, called1) := CheckCharAvail true (Console_new [255; 65]).1 in
  let '(c2, _, called2) := CheckCharAvail true c1 in
  let '(c3, first) := GetChar c2 in
  let '(c4, second) := GetChar c3 in
  called1 = true /\ called2 = true /\ first = s8 65 /\ second = EOF /\ incoming c1 = EOF.
Proof. exact (eof_byte (Console_new [255; 65]).1 65 [] eq_refl eq_refl). Defined.
