(* ===== verification/Sectors.v ===== *)
(** The disk as the file system sees it: numbered sectors of 128 bytes that are
    read and written whole (SynchDisk::ReadSector and SynchDisk::WriteSector of
    filesys/synchdisk.h).  The class is what the file system relies on; Disk.v
    shows that the synchronous disk over the simulated device provides it, and
    the plain array of sectors here, for evaluation, does too. *)
From Stdlib Require Import ZArith Lia Bool.
From stdpp Require Import base numbers list.
From S2P Require Import Prelude Machine.

Definition SectorsPerTrack : Z := 32.
Definition NumTracks : Z := 32.
Definition NumSectors : Z := SectorsPerTrack * NumTracks.

(** A buffer of one sector. *)
Definition is_sector (bs : list Z) : Prop := zlen bs = SectorSize /\ Forall is_byte bs.

Class SectorStore (D : Type) := {
  ReadSector : Z -> D -> res (D * list Z);
  WriteSector : Z -> list Z -> D -> res D
}.

Class SectorStoreLaws (D : Type) `{!SectorStore D} := {
  disk_wf : D -> Prop;
  sector : D -> Z -> list Z;
  sector_is d i : disk_wf d -> 0 <= i < NumSectors -> is_sector (sector d i);
  ReadSector_ok d i :
    disk_wf d -> 0 <= i < NumSectors ->
    exists d', ReadSector i d = Ok (d', sector d i) /\ disk_wf d' /\
      forall j, 0 <= j < NumSectors -> sector d' j = sector d j;
  WriteSector_ok d i bs :
    disk_wf d -> 0 <= i < NumSectors -> is_sector bs ->
    exists d', WriteSector i bs d = Ok d' /\ disk_wf d' /\
      forall j, 0 <= j < NumSectors -> sector d' j = if j =? i then bs else sector d j
}.

(** ** Slices of byte arrays *)

Lemma lookup_patch mem a bs i :
  0 <= a -> a + zlen bs <= zlen mem ->
  patch mem a bs !! i =
  if (Z.to_nat a <=? i)%nat && (i <? Z.to_nat a + length bs)%nat then bs !! (i - Z.to_nat a)%nat else mem !! i.
Proof.
  intros Ha Hl. unfold patch.
  destruct (Nat.leb_spec (Z.to_nat a) i); cbn [andb].
  - rewrite lookup_app_r, length_take, Nat.min_l by (rewrite ?length_take; lia).
    destruct (Nat.ltb_spec i (Z.to_nat a + length bs)).
    + by rewrite lookup_app_l by lia.
    + rewrite lookup_app_r, lookup_drop by lia. f_equal. lia.
  - rewrite lookup_app_l by (rewrite length_take; lia). by rewrite lookup_take_lt by lia.
Qed.

(** The same with an index in [Z]. *)
Lemma lookup_patch_in mem a bs i :
  0 <= a -> a + zlen bs <= zlen mem -> a <= i < a + zlen bs ->
  patch mem a bs !! Z.to_nat i = bs !! Z.to_nat (i - a).
Proof.
  intros. rewrite lookup_patch by lia.
  rewrite (proj2 (Nat.leb_le _ _)), (proj2 (Nat.ltb_lt _ _)) by lia. cbn [andb]. f_equal. lia.
Qed.
Lemma lookup_patch_out mem a bs i :
  0 <= a -> a + zlen bs <= zlen mem -> 0 <= i -> i < a \/ a + zlen bs <= i ->
  patch mem a bs !! Z.to_nat i = mem !! Z.to_nat i.
Proof.
  intros ??? Ho. rewrite lookup_patch by lia.
  destruct (Nat.leb_spec (Z.to_nat a) (Z.to_nat i)); [|done].
  rewrite (proj2 (Nat.ltb_ge _ _)) by lia. done.
Qed.

Lemma lookup_bytes_of mem pa size i :
  bytes_of mem pa size !! i = if (i <? Z.to_nat size)%nat then mem !! (Z.to_nat pa + i)%nat else None.
Proof.
  unfold bytes_of. destruct (Nat.ltb_spec i (Z.to_nat size)).
  - by rewrite lookup_take_lt, lookup_drop by done.
  - by rewrite lookup_take_ge by lia.
Qed.

Lemma lookup_bytes_of_in mem p n i :
  0 <= p -> 0 <= i < n -> bytes_of mem p n !! Z.to_nat i = mem !! Z.to_nat (p + i).
Proof.
  intros. rewrite lookup_bytes_of. rewrite (proj2 (Nat.ltb_lt _ _)) by lia. f_equal. lia.
Qed.

Lemma bytes_of_length mem pa size :
  0 <= pa -> 0 <= size -> pa + size <= zlen mem -> zlen (bytes_of mem pa size) = size.
Proof. intros. unfold bytes_of. rewrite length_take, length_drop. lia. Qed.

Lemma bytes_of_bytes mem pa size : Forall is_byte mem -> Forall is_byte (bytes_of mem pa size).
Proof. intros. by apply Forall_take, Forall_drop. Qed.

Lemma load_bytes_of mem a n :
  0 <= a -> 0 <= n -> a + n <= zlen mem -> load_bytes mem a (Z.to_nat n) = Ok (bytes_of mem a n).
Proof. intros. rewrite load_bytes_in by lia. done. Qed.

Lemma bytes_of_bytes_of mem p n q m :
  0 <= p -> 0 <= q -> 0 <= m -> q + m <= n -> bytes_of (bytes_of mem p n) q m = bytes_of mem (p + q) m.
Proof.
  intros. apply list_eq. intros i. rewrite !lookup_bytes_of.
  destruct (Nat.ltb_spec i (Z.to_nat m)); [|done].
  rewrite (proj2 (Nat.ltb_lt (Z.to_nat q + i) (Z.to_nat n))) by lia. f_equal. lia.
Qed.

Lemma bytes_of_split mem p n m :
  0 <= p -> 0 <= n -> 0 <= m -> bytes_of mem p (n + m) = bytes_of mem p n ++ bytes_of mem (p + n) m.
Proof.
  intros. unfold bytes_of. rewrite !Z2Nat.inj_add by lia. rewrite <- drop_drop.
  symmetry. apply take_take_drop.
Qed.

(** Writing right behind a prefix. *)
Lemma bytes_of_patch_grow mem a bs :
  0 <= a -> a + zlen bs <= zlen mem -> bytes_of (patch mem a bs) 0 (a + zlen bs) = bytes_of mem 0 a ++ bs.
Proof.
  intros. rewrite bytes_of_split by lia. rewrite Z.add_0_l. f_equal.
  - by apply bytes_of_patch_other; try lia; left.
  - by apply bytes_of_patch.
Qed.

Lemma patch_patch mem a bs bs' :
  0 <= a -> a + zlen bs + zlen bs' <= zlen mem ->
  patch (patch mem a bs) (a + zlen bs) bs' = patch mem a (bs ++ bs').
Proof.
  intros. apply list_eq. intros i.
  rewrite !lookup_patch by (rewrite ?length_patch, ?length_app; lia). rewrite length_app.
  repeat match goal with |- context [(?x <=? ?y)%nat] => destruct (Nat.leb_spec x y) end;
  repeat match goal with |- context [(?x <? ?y)%nat] => destruct (Nat.ltb_spec x y) end; cbn [andb]; try lia.
  all: rewrite ?lookup_app_l, ?lookup_app_r by lia; f_equal; lia.
Qed.

Lemma patch_nil mem a : patch mem a [] = mem.
Proof. unfold patch. change (length (@nil Z)) with 0%nat. by rewrite app_nil_l, Nat.add_0_r, take_drop. Qed.

Lemma bytes_of_all mem : bytes_of mem 0 (zlen mem) = mem.
Proof. unfold bytes_of. rewrite Nat2Z.id, drop_0. by apply take_ge. Qed.

Lemma elem_of_concat {A} (ls : list (list A)) x : x ∈ concat ls <-> exists l, l ∈ ls /\ x ∈ l.
Proof.
  induction ls as [|l ls IH]; cbn [concat].
  - split; [intros H; by apply elem_of_nil in H|intros (l & H & _); by apply elem_of_nil in H].
  - rewrite elem_of_app, IH. split.
    + intros [H|(l' & H & Hx)]; [exists l; by split; [left|]|exists l'; by split; [right|]].
    + intros (l' & [->|H]%elem_of_cons & Hx); [by left|right; by exists l'].
Qed.

(** Consecutive blocks of one size. *)
Lemma concat_length {A} (ls : list (list A)) n :
  Forall (fun l => length l = n) ls -> length (concat ls) = (n * length ls)%nat.
Proof. induction 1; cbn; [lia|]. rewrite length_app. lia. Qed.

Lemma concat_slice {A} (ls : list (list A)) n i l :
  Forall (fun l => length l = n) ls -> ls !! i = Some l -> take n (drop (n * i) (concat ls)) = l.
Proof.
  intros Hls. revert i. induction Hls as [|x ls Hx _ IH]; intros [|i]; cbn [lookup list_lookup]; try done.
  - intros [= ->]. rewrite Nat.mul_0_r, drop_0. cbn [concat]. by rewrite take_app_length'.
  - intros Hi. cbn [concat]. replace (n * S i)%nat with (length x + n * i)%nat by lia.
    rewrite drop_app_add. by apply IH.
Qed.

Lemma concat_update (ls : list (list Z)) n i x :
  Forall (fun l => length l = n) ls -> (i < length ls)%nat -> length x = n ->
  concat (<[i := x]> ls) = patch (concat ls) (Z.of_nat (n * i)) x.
Proof.
  intros Hls Hi Hx. unfold patch. rewrite Nat2Z.id, Hx. revert i Hi.
  induction Hls as [|y ls Hy Hls IH]; intros [|i] Hi; cbn [length] in Hi; try lia.
  - rewrite Nat.mul_0_r, Nat.add_0_l, take_0. cbn. by rewrite drop_app_length'.
  - change (<[S i := x]> (y :: ls)) with (y :: <[i := x]> ls). cbn [concat].
    replace (n * S i)%nat with (length y + n * i)%nat by lia. rewrite IH by lia.
    rewrite take_app_add, <- Nat.add_assoc, drop_app_add. by rewrite <- app_assoc.
Qed.

(** The bytes [operator new] leaves in a buffer of [n] bytes. *)
Definition new_bytes (fresh : nat -> Z) (n : Z) : list Z :=
  (fun i => u8 (fresh i)) <$> seq 0 (Z.to_nat n).

Lemma length_new_bytes fresh n : 0 <= n -> zlen (new_bytes fresh n) = n.
Proof. intros. unfold new_bytes. rewrite length_fmap, length_seq. lia. Qed.

Lemma new_bytes_bytes fresh n : Forall is_byte (new_bytes fresh n).
Proof. apply Forall_fmap, Forall_true. intros. apply u8_range. Qed.

(** ** Objects of type [int] among bytes *)

Section Ints.
Context {host : Host}.

Definition int_bytes (z : Z) : list Z := host_bytes 4 z.
Definition int_at (bs : list Z) (o : Z) : Z := s32 (host_value (bytes_of bs o 4)).

Lemma length_int_bytes z : length (int_bytes z) = 4%nat.
Proof. apply length_host_bytes. Qed.

Lemma int_bytes_bytes z : Forall is_byte (int_bytes z).
Proof.
  unfold int_bytes, host_bytes. destruct HOST_IS_BIG_ENDIAN; [apply Forall_reverse|]; apply le_bytes_range.
Qed.

Lemma int_at_bytes z : is_s32 z -> s32 (host_value (int_bytes z)) = z.
Proof.
  intros Hz. unfold int_bytes. rewrite host_value_bytes. change (256 ^ Z.of_nat 4) with (2 ^ 32).
  change (z mod 2 ^ 32) with (u32 z). rewrite s32_u32. by apply s32_small.
Qed.

Lemma int_at_app bs z bs' o :
  is_s32 z -> zlen bs = o -> int_at (bs ++ int_bytes z ++ bs') o = z.
Proof.
  intros Hz <-. unfold int_at, bytes_of. rewrite Nat2Z.id, drop_app_length.
  rewrite take_app_length' by (by rewrite length_int_bytes). by apply int_at_bytes.
Qed.
End Ints.

(** ** An array of sectors *)

Module Array.
Abbreviation Disk := (list (list Z)).

#[global] Instance store : SectorStore Disk := {|
  ReadSector i d := bs <- aget d i ;; Ok (d, bs);
  WriteSector i bs d := aset d i bs
|}.

Definition blank : Disk := replicate (Z.to_nat NumSectors) (replicate (Z.to_nat SectorSize) 0).

Definition wf (d : Disk) : Prop := zlen d = NumSectors /\ Forall is_sector d.
Definition content (d : Disk) (i : Z) : list Z := default [] (d !! Z.to_nat i).

#[global] Instance laws : SectorStoreLaws Disk.
Proof.
  refine {| disk_wf := wf; sector := content |}.
  - intros d i [Hl Hd] Hi. destruct (lookup_lt_is_Some_2 d (Z.to_nat i)) as [bs Hbs]; [lia|].
    unfold content. rewrite Hbs. by eapply Forall_lookup_1.
  - intros d i [Hl Hd] Hi. destruct (aget_in d i) as (bs & Hg & Hbs); [lia|].
    exists d. cbn. unfold content. rewrite Hg, Hbs. done.
  - intros d i bs [Hl Hd] Hi Hbs. cbn. rewrite aset_in by lia. eexists. split; [done|]. split.
    + split; [by rewrite length_insert|by apply Forall_insert].
    + intros j Hj. unfold content. destruct (Z.eqb_spec j i) as [->|Hne].
      * by rewrite list_lookup_insert_eq by lia.
      * by rewrite list_lookup_insert_ne by lia.
Defined.

Lemma blank_wf : disk_wf blank.
Proof.
  change (wf blank).
  split; [done|]. apply Forall_replicate. split; [done|]. apply Forall_replicate. unfold is_byte. lia.
Qed.
End Array.
