(* ===== verification/Network.v ===== *)
(** The simulated network (machine/network.h, machine/network.cc) and the post
    office on top of it (network/post.h, network/post.cc): messages with a mail
    header, carried in packets with a packet header, one packet at a time. *)
From Stdlib Require Import ZArith Lia Bool.
From stdpp Require Import base numbers list gmap fin_maps fin_sets.
From S2P Require Import Prelude Lists Machine Threads Synch System Steps Conditions Monitor Requests Interrupt Sectors.

Inductive network_routine := NetworkReadPoll | NetworkSendDone.

(** [PacketHeader] and [MailHeader], which have the same members. *)
Record Header := mkHeader { to : Z; from : Z; length_ : Z }.

(** A packet header and what Send_prepare has put together. *)
Abbreviation packet_job := (Header * list Z)%type.

Definition HeaderSize : Z := 12.
Definition MaxWireSize : Z := 64.
Definition MaxPacketSize : Z := MaxWireSize - HeaderSize.
Definition MaxMailSize : Z := MaxPacketSize - HeaderSize.

Section Network.
Context {host : Host}.

(** The headers in memory. *)
Definition header_bytes (h : Header) : list Z :=
  int_bytes (to h) ++ int_bytes (from h) ++ host_bytes 4 (length_ h).
Definition header_at (bs : list Z) : Header :=
  mkHeader (int_at bs 0) (int_at bs 4) (u32 (host_value (bytes_of bs 8 4))).

Definition header_ok (h : Header) : Prop := is_s32 (to h) /\ is_s32 (from h) /\ is_u32 (length_ h).

Lemma length_header_bytes h : zlen (header_bytes h) = HeaderSize.
Proof. unfold header_bytes. by rewrite !length_app, !length_int_bytes, length_host_bytes. Qed.

Lemma header_at_bytes h rest : header_ok h -> header_at (header_bytes h ++ rest) = h.
Proof.
  intros (Ht & Hf & Hl). unfold header_at, header_bytes. rewrite <- !app_assoc.
  pose proof (int_at_app [] (to h) (int_bytes (from h) ++ host_bytes 4 (length_ h) ++ rest) 0 Ht eq_refl) as E.
  cbn [app] in E. rewrite E.
  rewrite (int_at_app (int_bytes (to h)) (from h) _ 4 Hf) by by rewrite length_int_bytes.
  assert (bytes_of (int_bytes (to h) ++ int_bytes (from h) ++ host_bytes 4 (length_ h) ++ rest) 8 4 =
    host_bytes 4 (length_ h)) as ->.
  { unfold bytes_of. rewrite app_assoc. rewrite drop_app_length' by by rewrite length_app, !length_int_bytes.
    by rewrite take_app_length' by by rewrite length_host_bytes. }
  rewrite host_value_bytes. change (256 ^ Z.of_nat 4) with (2 ^ 32).
  destruct h as [t f l]. cbn in *. f_equal. word_lia.
Qed.

(** [sent] is what has been handed to the socket, with the addresses. *)
Record Network := mkNetwork {
  ident : Z;
  sendBusy : bool;
  inHdr : Header;
  inbox : list Z;
  tries : nat;
  sent : list (Z * list Z)
}.

Definition Network_new (addr : Z) (junk : list Z) : Network * list (request network_routine) :=
  (mkNetwork addr false (mkHeader 0 0 0) junk 0 [],
   [Schedules NetworkReadPoll 0 NetworkTime NetworkRecvInt]).

(** Whether the random number drawn for the [n]-th packet says that it gets lost. *)
Context (lost : nat -> bool).

(** [new char[MaxWireSize]] gives [junk]. *)
Definition Send (n : Network) (hdr : Header) (data junk : list Z) : res (Network * list (request network_routine)) :=
  _ <- ASSERT (negb (sendBusy n) && (length_ hdr >? 0) && (length_ hdr <=? MaxPacketSize) && (from hdr =? ident n)) ;;
  let rs := [Schedules NetworkSendDone 0 NetworkTime NetworkSendInt] in
  if lost (tries n) then Ok (mkNetwork (ident n) (sendBusy n) (inHdr n) (inbox n) (S (tries n)) (sent n), rs)
  else
    buffer <- store_bytes junk 0 (header_bytes hdr) ;;
    bs <- load_bytes data 0 (Z.to_nat (length_ hdr)) ;;
    buffer <- store_bytes buffer HeaderSize bs ;;
    Ok (mkNetwork (ident n) (sendBusy n) (inHdr n) (inbox n) (S (tries n)) (sent n ++ [(to hdr, buffer)]), rs).

Definition SendDone (n : Network) : Network * list (request network_routine) :=
  (mkNetwork (ident n) false (inHdr n) (inbox n) (tries n) (sent n), [Counts numPacketsSent]).

(** [arrived] is the packet PollSocket finds, if any; the last component of the
    result, whether the handler of the client is called. *)
Definition CheckPktAvail (n : Network) (arrived : option (list Z))
  : res (Network * list (request network_routine) * bool) :=
  let again := Schedules NetworkReadPoll 0 NetworkTime NetworkRecvInt in
  if negb (length_ (inHdr n) =? 0) then Ok (n, [again], false)
  else
    match arrived with
    | None => Ok (n, [again], false)
    | Some buffer =>
        _ <- ASSERT (zlen buffer =? MaxWireSize) ;;
        let hdr := header_at buffer in
        _ <- ASSERT ((to hdr =? ident n) && (length_ hdr <=? MaxPacketSize)) ;;
        bs <- load_bytes buffer HeaderSize (Z.to_nat (length_ hdr)) ;;
        inbox <- store_bytes (inbox n) 0 bs ;;
        Ok (mkNetwork (ident n) (sendBusy n) hdr inbox (tries n) (sent n), [again; Counts numPacketsRecvd], true)
    end.

Definition Receive (n : Network) (data : list Z) : res (Network * Header * list Z) :=
  let hdr := inHdr n in
  let n := mkNetwork (ident n) (sendBusy n) (mkHeader (to hdr) (from hdr) 0) (inbox n) (tries n) (sent n) in
  data <- (if negb (length_ hdr =? 0) then
             bs <- load_bytes (inbox n) 0 (Z.to_nat (length_ hdr)) ;; store_bytes data 0 bs
           else Ok data) ;;
  Ok (n, hdr, data).

(** ** The post office *)

(** [letter] is the part of a Mail's data that counts. *)
Record Mail := mkMail { pktHdr : Header; mailHdr : Header; letter : list Z }.

Definition Mail_new (pktH mailH : Header) (msgData : list Z) : res Mail :=
  _ <- ASSERT (length_ mailH <=? MaxMailSize) ;;
  bs <- load_bytes msgData 0 (Z.to_nat (length_ mailH)) ;;
  Ok (mkMail pktH mailH bs).

(** [PostOffice::Send] up to the lock: the packet's header and data. *)
Definition Send_prepare (netAddr numBoxes : Z) (pkt mail : Header) (data junk : list Z) : res (Header * list Z) :=
  _ <- ASSERT (length_ mail <=? MaxMailSize) ;;
  _ <- ASSERT ((0 <=? to mail) && (to mail <? numBoxes)) ;;
  let pkt := mkHeader (to pkt) netAddr (u32 (length_ mail + HeaderSize)) in
  buffer <- store_bytes junk 0 (header_bytes mail) ;;
  bs <- load_bytes data 0 (Z.to_nat (length_ mail)) ;;
  buffer <- store_bytes buffer HeaderSize bs ;;
  Ok (pkt, buffer).

(** What [PostOffice::PostalDelivery] does with a packet: the mailbox and what it gets. *)
Definition sort_mail (numBoxes : Z) (pkt : Header) (buffer : list Z) : res (Z * Mail) :=
  let mail := header_at buffer in
  _ <- ASSERT ((0 <=? to mail) && (to mail <? numBoxes)) ;;
  _ <- ASSERT (length_ mail <=? MaxMailSize) ;;
  m <- Mail_new pkt mail (drop (Z.to_nat HeaderSize) buffer) ;;
  Ok (to mail, m).

(** One round of its loop, behind P, up to the mailbox's Put. *)
Definition PostalDelivery (numBoxes : Z) (n : Network) (buffer : list Z) : res (Network * Z * Mail) :=
  '(n, pkt, buffer) <- Receive n buffer ;;
  '(b, m) <- sort_mail numBoxes pkt buffer ;;
  Ok (n, b, m).

(** ** From one post office to the other *)

Lemma store_prefix junk bs rest n :
  zlen junk = n -> zlen bs + zlen rest <= n ->
  let tail := drop (length bs + length rest) junk in
  (b <- store_bytes junk 0 bs ;; store_bytes b (zlen bs) rest) = Ok (bs ++ rest ++ tail) /\
    zlen (bs ++ rest ++ tail) = n.
Proof.
  intros Hj Hl tail. rewrite store_bytes_in by lia. cbn [bindr].
  assert (zlen (patch junk 0 bs) = n) as Hp by (rewrite length_patch; lia).
  rewrite store_bytes_in by lia.
  replace (zlen bs) with (0 + zlen bs) by lia. rewrite patch_patch by lia. unfold patch.
  change (Z.to_nat 0) with 0%nat. rewrite take_0, length_app, Nat.add_0_l. cbn [app].
  rewrite <- app_assoc. split; [done|]. unfold tail. rewrite !length_app, length_drop. lia.
Qed.

Lemma load_app (a b : list Z) n : zlen a = n -> load_bytes (a ++ b) 0 (Z.to_nat n) = Ok a.
Proof.
  intros <-. rewrite load_bytes_in by (rewrite ?length_app; lia). change (Z.to_nat 0) with 0%nat.
  by rewrite Nat2Z.id, drop_0, take_app_length.
Qed.

Lemma load_app_r (a b c : list Z) n m :
  zlen a = n -> zlen b = m -> load_bytes (a ++ b ++ c) n (Z.to_nat m) = Ok b.
Proof.
  intros <- <-. rewrite load_bytes_in by (rewrite ?length_app; lia).
  by rewrite !Nat2Z.id, drop_app_length, take_app_length.
Qed.

Lemma load_prefix data n : 0 <= n <= zlen data -> load_bytes data 0 (Z.to_nat n) = Ok (bytes_of data 0 n).
Proof. intros. by rewrite load_bytes_in by lia. Qed.

(** What [Send_prepare] makes of a message. *)
Lemma Send_prepare_ok netAddr numBoxes pkt mail data junk :
  0 <= length_ mail <= MaxMailSize -> length_ mail <= zlen data -> 0 <= to mail < numBoxes -> zlen junk = MaxPacketSize ->
  exists tail,
    Send_prepare netAddr numBoxes pkt mail data junk =
      Ok (mkHeader (to pkt) netAddr (length_ mail + HeaderSize),
          header_bytes mail ++ bytes_of data 0 (length_ mail) ++ tail) /\
    zlen (header_bytes mail ++ bytes_of data 0 (length_ mail) ++ tail) = MaxPacketSize.
Proof.
  intros Hm Hd Hto Hj. unfold Send_prepare.
  rewrite (proj2 (Z.leb_le (length_ mail) MaxMailSize)) by lia.
  rewrite (proj2 (Z.leb_le 0 (to mail))), (proj2 (Z.ltb_lt (to mail) numBoxes)) by lia. cbn [ASSERT bindr andb].
  assert (u32 (length_ mail + HeaderSize) = length_ mail + HeaderSize) as ->.
  { apply u32_small. unfold is_u32. change (2 ^ 32) with 4294967296.
    unfold MaxMailSize, MaxPacketSize, MaxWireSize, HeaderSize in *. lia. }
  pose proof (length_header_bytes mail) as Hh.
  assert (zlen (bytes_of data 0 (length_ mail)) = length_ mail) as Hb by (apply bytes_of_length; lia).
  destruct (store_prefix junk (header_bytes mail) (bytes_of data 0 (length_ mail)) MaxPacketSize Hj)
    as (E & Hlen).
  { rewrite Hh, Hb. unfold MaxMailSize in Hm. lia. }
  eexists. split; [|exact Hlen]. rewrite Hh in E. rewrite load_prefix by lia.
  destruct (store_bytes junk 0 (header_bytes mail)) as [b|]; [|done]. cbn [bindr] in E |- *. by rewrite E.
Qed.

(** What the other end makes of the packet that [Send] puts on the wire. *)
Definition packet (junk : list Z) (hdr : Header) (data : list Z) : list Z :=
  header_bytes hdr ++ bytes_of data 0 (length_ hdr) ++ drop (Z.to_nat (HeaderSize + length_ hdr)) junk.

Definition sendable (addr : Z) (hdr : Header) (data : list Z) : Prop :=
  from hdr = addr /\ 0 < length_ hdr <= MaxPacketSize /\ length_ hdr <= zlen data.

Lemma Send_ok n hdr data junk :
  sendBusy n = false -> sendable (ident n) hdr data -> zlen junk = MaxWireSize ->
  Send n hdr data junk =
    Ok (mkNetwork (ident n) (sendBusy n) (inHdr n) (inbox n) (S (tries n))
          (sent n ++ if lost (tries n) then [] else [(to hdr, packet junk hdr data)]),
        [Schedules NetworkSendDone 0 NetworkTime NetworkSendInt]) /\
  zlen (packet junk hdr data) = MaxWireSize.
Proof.
  intros Hs (Hf & Hl & Hd) Hj. unfold Send. rewrite Hs, Hf, Z.eqb_refl.
  rewrite (proj2 (Z.gtb_lt (length_ hdr) 0)), (proj2 (Z.leb_le (length_ hdr) MaxPacketSize)) by lia.
  cbn [ASSERT bindr andb negb].
  pose proof (length_header_bytes hdr) as Hh.
  assert (zlen (bytes_of data 0 (length_ hdr)) = length_ hdr) as Hb by (apply bytes_of_length; lia).
  destruct (store_prefix junk (header_bytes hdr) (bytes_of data 0 (length_ hdr)) MaxWireSize Hj) as (E & Hlen).
  { rewrite Hh, Hb. unfold MaxPacketSize in Hl. lia. }
  assert (Z.to_nat (HeaderSize + length_ hdr) =
    (length (header_bytes hdr) + length (bytes_of data 0 (length_ hdr)))%nat) as Et by lia.
  unfold packet. rewrite Et. split; [|exact Hlen]. destruct (lost (tries n)); [by rewrite app_nil_r|].
  rewrite Hh in E. rewrite load_prefix by lia.
  destruct (store_bytes junk 0 (header_bytes hdr)) as [b|]; [|done]. cbn [bindr] in E |- *. by rewrite E.
Qed.

Lemma CheckPktAvail_ok m hdr body tail :
  header_ok hdr -> zlen body = length_ hdr -> to hdr = ident m -> length_ hdr <= MaxPacketSize ->
  zlen (header_bytes hdr ++ body ++ tail) = MaxWireSize ->
  length_ (inHdr m) = 0 -> zlen (inbox m) = MaxPacketSize ->
  exists m' rest,
    CheckPktAvail m (Some (header_bytes hdr ++ body ++ tail)) =
      Ok (m', [Schedules NetworkReadPoll 0 NetworkTime NetworkRecvInt; Counts numPacketsRecvd], true) /\
    inHdr m' = hdr /\ inbox m' = body ++ rest.
Proof.
  intros Hh Hb Hto Hl Hlen H0 Hi. unfold CheckPktAvail. rewrite H0. cbn [Z.eqb negb].
  rewrite Hlen, Z.eqb_refl. cbn [ASSERT bindr]. rewrite header_at_bytes, Hto, Z.eqb_refl by done.
  rewrite (proj2 (Z.leb_le (length_ hdr) MaxPacketSize)) by lia. cbn [ASSERT bindr andb].
  rewrite (load_app_r _ _ _ HeaderSize (length_ hdr)) by (done || apply length_header_bytes). cbn [bindr].
  rewrite store_bytes_in by lia. cbn [bindr]. eexists _, _. split; [done|]. split; [done|].
  cbn [inbox]. unfold patch. change (Z.to_nat 0) with 0%nat. by rewrite take_0.
Qed.

(** What the routines of the network leave alone. *)
Lemma store_bytes_length mem a bs mem' : store_bytes mem a bs = Ok mem' -> zlen mem' = zlen mem.
Proof.
  unfold store_bytes. destruct (_ && _) eqn:E; [|done]. apply andb_true_iff in E as [H1%Z.leb_le H2%Z.leb_le].
  intros [= <-]. f_equal. apply length_patch; lia.
Qed.

Lemma CheckPktAvail_keeps n arrived n' rs got : CheckPktAvail n arrived = Ok (n', rs, got) ->
  ident n' = ident n /\ zlen (inbox n') = zlen (inbox n) /\ (got = false -> n' = n).
Proof.
  unfold CheckPktAvail. intros H. destruct (negb _); [by injection H as <- _ <-|].
  destruct arrived as [bs|]; [|by injection H as <- _ <-]. inv_bind H. inv_bind H. inv_bind H. inv_bind H.
  injection H as <- _ <-. cbn. split; [done|]. split; [by eapply store_bytes_length|done].
Qed.

Lemma Send_keeps n hdr bs junk n' rs : Send n hdr bs junk = Ok (n', rs) ->
  ident n' = ident n /\ inHdr n' = inHdr n /\ inbox n' = inbox n.
Proof.
  unfold Send. intros H. inv_bind H. destruct (lost (tries n)); [by injection H as <- _|].
  inv_bind H. inv_bind H. inv_bind H. by injection H as <- _.
Qed.

Lemma delivery_ok numBoxes n mail body rest buffer :
  header_ok mail -> length_ mail <= MaxMailSize -> zlen body = length_ mail -> 0 <= to mail < numBoxes ->
  inbox n = (header_bytes mail ++ body) ++ rest -> length_ (inHdr n) = length_ mail + HeaderSize ->
  zlen buffer = MaxPacketSize ->
  exists n' buffer', Receive n buffer = Ok (n', inHdr n, buffer') /\
    sort_mail numBoxes (inHdr n) buffer' = Ok (to mail, mkMail (inHdr n) mail body) /\
    length_ (inHdr n') = 0 /\ ident n' = ident n /\ inbox n' = inbox n /\ zlen buffer' = MaxPacketSize.
Proof.
  intros Hm Hl Hb Hto Hi Hh Hbuf. unfold Receive, sort_mail.
  pose proof (length_header_bytes mail) as Hhb.
  rewrite (proj2 (Z.eqb_neq (length_ (inHdr n)) 0)) by (rewrite Hh; unfold HeaderSize; lia). cbn [negb inbox].
  rewrite Hi, Hh, load_app by (rewrite length_app; lia). cbn [bindr].
  rewrite store_bytes_in by (rewrite ?length_app; unfold MaxMailSize in Hl; lia). cbn [bindr].
  eexists _, _. split; [done|]. split; [|split_and!; try done; rewrite length_patch; rewrite ?length_app; unfold MaxMailSize in Hl; lia].
  unfold patch. change (Z.to_nat 0) with 0%nat. rewrite take_0. cbn [app]. rewrite <- app_assoc.
  rewrite header_at_bytes by done.
  rewrite (proj2 (Z.leb_le 0 (to mail))), (proj2 (Z.ltb_lt (to mail) numBoxes)) by lia. cbn [ASSERT bindr andb].
  rewrite (proj2 (Z.leb_le (length_ mail) MaxMailSize)) by lia. cbn [ASSERT bindr]. unfold Mail_new.
  rewrite (proj2 (Z.leb_le (length_ mail) MaxMailSize)) by lia. cbn [ASSERT bindr].
  rewrite drop_app_length' by (rewrite <- Hhb; lia). by rewrite load_app.
Qed.

Lemma PostalDelivery_ok numBoxes n mail body rest buffer :
  header_ok mail -> length_ mail <= MaxMailSize -> zlen body = length_ mail -> 0 <= to mail < numBoxes ->
  inbox n = (header_bytes mail ++ body) ++ rest -> length_ (inHdr n) = length_ mail + HeaderSize ->
  zlen buffer = MaxPacketSize ->
  exists n', PostalDelivery numBoxes n buffer = Ok (n', to mail, mkMail (inHdr n) mail body) /\
    length_ (inHdr n') = 0.
Proof.
  intros Hm Hl Hb Hto Hi Hh Hbuf.
  destruct (delivery_ok numBoxes n mail body rest buffer) as (n' & buffer' & E1 & E2 & E3 & _); try done.
  exists n'. unfold PostalDelivery. by rewrite E1; cbn [bindr]; rewrite E2.
Qed.

(** C39: a message survives the trip.  Send on one machine, a packet the network does
    not lose, the poll of the other machine and the postal worker there: the
    mailbox the mail header names gets exactly the bytes sent, with the mail header
    as it was given and a packet header that names the sender, and the buffer of
    the network is free again; until then no other packet takes its place. *)
Theorem mail_roundtrip netAddr boxes boxes' pkt mail data junk wire n m buffer :
  header_ok mail -> length_ mail <= MaxMailSize -> length_ mail <= zlen data ->
  0 <= to mail < boxes -> to mail < boxes' -> is_s32 netAddr -> is_s32 (to pkt) ->
  zlen junk = MaxPacketSize -> zlen wire = MaxWireSize -> zlen buffer = MaxPacketSize ->
  ident n = netAddr -> sendBusy n = false -> lost (tries n) = false ->
  ident m = to pkt -> length_ (inHdr m) = 0 -> zlen (inbox m) = MaxPacketSize ->
  let p := mkHeader (to pkt) netAddr (length_ mail + HeaderSize) in
  exists body n' rs packet m1 rs' m2,
    Send_prepare netAddr boxes pkt mail data junk = Ok (p, body) /\
    Send n p body wire = Ok (n', rs) /\ sent n' = sent n ++ [(to pkt, packet)] /\
    CheckPktAvail m (Some packet) = Ok (m1, rs', true) /\
    (forall arrived, exists rs'', CheckPktAvail m1 arrived = Ok (m1, rs'', false)) /\
    PostalDelivery boxes' m1 buffer = Ok (m2, to mail, mkMail p mail (bytes_of data 0 (length_ mail))) /\
    length_ (inHdr m2) = 0.
Proof.
  intros Hm Hl Hd Hto Hto' Hna Hpt Hj Hw Hbuf Hn Hs Hlost Hmi Hm0 Hin p.
  assert (0 <= length_ mail) as Hl0 by apply Hm.
  destruct (Send_prepare_ok netAddr boxes pkt mail data junk) as (t1 & E1 & Hz1); try done.
  assert (0 < length_ p <= MaxPacketSize) as Hp.
  { unfold p, MaxMailSize, HeaderSize in *. cbn. lia. }
  set (bs := bytes_of data 0 (length_ mail)) in *.
  assert (zlen bs = length_ mail) as Hbs by (apply bytes_of_length; lia).
  set (body := header_bytes mail ++ bs ++ t1) in *.
  destruct (Send_ok n p body wire Hs) as (E2 & Hz2); [split; [done|split; [exact Hp|lia]]|done|].
  rewrite Hlost in E2. unfold packet in E2, Hz2. set (t2 := drop _ wire) in *.
  assert (bytes_of body 0 (length_ p) = header_bytes mail ++ bs) as Hbody.
  { unfold body, bytes_of. change (Z.to_nat 0) with 0%nat. rewrite drop_0, app_assoc, take_app_length'; [done|].
    pose proof (length_header_bytes mail). rewrite length_app. cbn [length_ p]. lia. }
  rewrite Hbody in E2, Hz2.
  destruct (CheckPktAvail_ok m p (header_bytes mail ++ bs) t2) as (m1 & rest & E3 & Hh1 & Hi1); try done; try lia.
  { unfold header_ok, is_u32, p. cbn. change (2 ^ 32) with 4294967296. unfold p, MaxPacketSize, MaxWireSize, HeaderSize in *.
    cbn in Hp. split_and!; try done; lia. }
  { rewrite length_app, Nat2Z.inj_add, length_header_bytes, Hbs. unfold p. cbn. lia. }
  destruct (PostalDelivery_ok boxes' m1 mail bs rest buffer) as (m2 & E4 & H4); try done; try lia.
  { by rewrite Hh1. }
  rewrite Hh1 in E4.
  eexists body, _, _, (header_bytes p ++ (header_bytes mail ++ bs) ++ t2), m1, _, m2.
  split; [done|]. split; [exact E2|]. split; [reflexivity|]. split; [exact E3|]. split; [|by split].
  intros arrived. unfold CheckPktAvail. rewrite Hh1, (proj2 (Z.eqb_neq (length_ p) 0)) by lia. by eexists.
Qed.

(** ** Many senders

    PostOffice::Send from its lock on: Acquire, the network's Send, P, Release.
    The device keeps, next to the network, whether the interrupt of the last
    packet is still to come, which the code, whose sendBusy stays FALSE, does not. *)
Record Wire := mkWire { net : Network; in_flight : bool }.

(** What is left in the buffer that Send pads its packets with. *)
Context (wire : list Z).

#[export] Instance network_device : Device Wire packet_job unit := {|
  dev_start v j := '(n, _) <- Send (net v) j.1 j.2 wire ;; Ok (mkWire n true, tt);
  dev_busy := in_flight;
  dev_finish v := mkWire (SendDone (net v)).1 false
|}.

(** What has gone out when the packets [js] have been handed to the network. *)
Definition carried (js : list packet_job) : list (Z * list Z) :=
  concat (imap (fun k j => if lost k then [] else [(to j.1, packet wire j.1 j.2)]) js).

Lemma carried_snoc js j :
  carried (js ++ [j]) = carried js ++ if lost (length js) then [] else [(to j.1, packet wire j.1 j.2)].
Proof. unfold carried. rewrite imap_app, concat_app. cbn. by rewrite app_nil_r, Nat.add_0_r. Qed.

#[export] Instance network_laws (addr : Z) (Hw : zlen wire = MaxWireSize) : DeviceLaws Wire packet_job unit (list packet_job).
Proof.
  refine {| dev_rep := fun v js => ident (net v) = addr /\ sendBusy (net v) = false /\
      tries (net v) = length js /\ sent (net v) = carried js;
    job_ok := fun j => sendable addr j.1 j.2;
    dev_step := fun js j => (js ++ [j], tt) |}.
  - intros v js [h b] (Hid & Hb & Ht & Hs) _ Hj. cbn -[carried] in Hj |- *.
    destruct (Send_ok (net v) h b wire Hb) as [-> _]; [by rewrite Hid|done|]. cbn [bindr].
    eexists. split; [done|]. split; [|done]. cbn -[carried]. rewrite carried_snoc, Hs, Ht, length_app. cbn -[carried].
    split_and!; try done. lia.
  - intros v js (Hid & Hb & Ht & Hs). by split_and!.
Defined.

Lemma replays_carried addr Hw js (es : list (positive * packet_job * unit)) js' :
  replays (DeviceLaws0 := network_laws addr Hw) js es js' -> js' = js ++ jobs es.
Proof.
  revert js. induction es as [|[[t j] o] es IH]; intros js; cbn; [intros ->; by rewrite app_nil_r|].
  intros [_ H]. rewrite (IH _ H). by rewrite <- app_assoc.
Qed.

Section Runs.
Context {Q : Type -> Type} `{!Queue Q, !QueueLaws Q} (init : positive -> Z) (messageSent sendLock : positive).
Context (addr : Z) (Hw : zlen wire = MaxWireSize).
#[local] Instance senders : Client (rq_pc packet_job) (rq_data Wire packet_job unit) := requests messageSent sendLock.

(** Threads may send at the same time.  However they are interleaved, a packet
    is handed to the network only when the interrupt of the one before it has
    come, no ASSERT of the network fails, and what has gone out on the wire are
    the packets of the operations that are over, one after the other, then that of
    the one that is going on, less those the network has lost. *)
Theorem Send_one_at_a_time (s0 s : Sys Q (rq_pc packet_job) (rq_data Wire packet_job unit)) (chs : list choice) :
  init messageSent = 0 -> booted init s0 -> runs s0 chs s -> small init (log s) ->
  (forall t x, ctls s0 !! t = Some x ->
     site_typed (rq_code (DeviceLaws0 := network_laws addr Hw)) (rq_held sendLock) x ∅) ->
  dev (data s0) = mkWire (Network_new addr []).1 false -> trace (data s0) = [] -> ops (data s0) = [] ->
  (exists current, jobs (trace (data s)) = concat (ops (data s)) ++ current /\
     sent (net (dev (data s))) = carried (concat (ops (data s)) ++ current)) /\
  (forall t started j todo ts, ctls s !! t = Some (At (Holding started (j :: todo) ts)) ->
     in_flight (dev (data s)) = false /\ is_ok (dev_start (dev (data s)) j)).
Proof.
  intros Hi Hb Hr Hsm Hst Hd0 Htr Hop.
  destruct (requests_atomic (DeviceLaws0 := network_laws addr Hw) messageSent sendLock init [] Hi s0 s chs Hb Hr Hsm Hst Htr Hop)
    as (cur & (js & (_ & _ & _ & Hs) & Hrep & Hj) & Hat & Hok); [by rewrite Hd0|by rewrite Hd0|].
  apply replays_carried in Hrep. cbn in Hrep. split.
  - exists cur. split; [done|]. by rewrite Hs, Hrep, Hj.
  - intros t started j todo ts Hp. split; [apply (Hat t _ Hp); set_solver|]. by eapply Hok.
Qed.
End Runs.
End Network.

(** Machine 7 sends three bytes to box 2 of machine 9. *)
#[local] Existing Instance i386.

Definition reliable (n : nat) : bool := false.
Definition demo_letter : Header := mkHeader 2 0 3.
Definition demo_address : Header := mkHeader 9 0 0.
Definition demo_sender : Network := (Network_new 7 []).1.
Definition demo_receiver : Network := (Network_new 9 (replicate 52 0)).1.

Lemma mail_roundtrip_witness :
  exists p body n' rs packet m1 rs' m2,
    Send_prepare 7 10 demo_address demo_letter [104; 105; 33; 0] (replicate 52 1) = Ok (p, body) /\
    Send reliable demo_sender p body (replicate 64 1) = Ok (n', rs) /\
    sent n' = [(9, packet)] /\
    CheckPktAvail demo_receiver (Some packet) = Ok (m1, rs', true) /\
    PostalDelivery 10 m1 (replicate 52 5) = Ok (m2, 2, mkMail p demo_letter [104; 105; 33]).
Proof.
  destruct (mail_roundtrip reliable 7 10 10 demo_address demo_letter [104; 105; 33; 0] (replicate 52 1)
    (replicate 64 1) demo_sender demo_receiver (replicate 52 5))
    as (body & n' & rs & packet & m1 & rs' & m2 & H1 & H2 & H3 & H4 & _ & H6 & _).
  1-8: unfold header_ok, is_s32, is_u32, MaxMailSize, MaxPacketSize, MaxWireSize, HeaderSize; cbn; lia.
  all: try exact eq_refl.
  eexists _, body, n', rs, packet, m1, rs', m2. by split_and!.
Defined.

(** Threads 1 and 2 send a packet each, at once. *)
Definition demo_packet (b : Z) : packet_job := (mkHeader 9 7 1, [b]).
Definition demo_post : Sys NList.List (rq_pc packet_job) (rq_data Wire packet_job unit) :=
  boot 1%positive (Between [Spawn 2; Do [demo_packet 1]]) [(2%positive, 5, Between [Do [demo_packet 2]])]
    [(1%positive, 0)] [1%positive] [] (mkRq (mkWire (Network_new 7 []).1 false) [] []).
#[local] Instance demo_senders : Client (rq_pc packet_job) (rq_data Wire packet_job unit) :=
  senders reliable (replicate 64 0) 1 1.
Definition demo_ticks : list choice := concat (replicate 12 [mkChoice [] true; mkChoice [1%positive] false]).
Definition demo_posted : Sys NList.List (rq_pc packet_job) (rq_data Wire packet_job unit) :=
  match run demo_ticks demo_post with Ok s => s | Err _ => demo_post end.

Lemma Send_one_at_a_time_witness :
  (fun p => (p.1, nth 12 p.2 0)) <$> sent (net (dev (data demo_posted))) = [(9, 2); (9, 1)] /\
  exists current, sent (net (dev (data demo_posted))) =
    carried reliable (replicate 64 0) (concat (ops (data demo_posted)) ++ current).
Proof.
  split; [vm_compute; reflexivity|].
  destruct (Send_one_at_a_time reliable (replicate 64 0) (first_value [(1%positive, 0)]) 1 1 7 eq_refl
    demo_post demo_posted demo_ticks) as ((cur & _ & H) & _).
  - reflexivity.
  - apply boot_booted; [by repeat constructor|apply NoDup_singleton].
  - apply run_reaches. vm_compute. reflexivity.
  - assert (zlen (log demo_posted) < 100) as Hlog by (vm_compute; done).
    apply small_first_value; [repeat constructor; cbn; lia|lia].
  - intros t x Hx. apply boot_sites in Hx as [->|(y & Hy & ->)];
      [|apply list_elem_of_singleton in Hy as ->]; cbn; unfold sendable, task_ok;
      repeat constructor; vm_compute; congruence.
  - reflexivity.
  - reflexivity.
  - reflexivity.
  - exists cur. exact H.
Defined.
