(* ===== verification/PostOffice.v ===== *)
(** The post office (network/post.h, network/post.cc) in a running system: the postal
    worker, which takes packets from the network and puts them into the mailboxes;
    PostOffice::Send and PostOffice::Receive, called by any threads; and the two handlers
    of the network's interrupts.  A mailbox is a synchronized list (SynchList.v), and
    the post office a caller of it.

    Shown is that every message that arrives gets into its mailbox, in the order of
    arrival, and that none is left lying when nothing is left to run. *)
From Stdlib Require Import ZArith Lia Bool.
From stdpp Require Import base numbers list gmap fin_maps fin_sets functions.
From S2P Require Import Prelude Lists Machine Threads Synch System Steps Conditions Monitor SynchList Interrupt Sectors Network.

(** What a user of the post office does next: another call of the kernel, Send, Receive,
    whose message it goes on with, or it is done. *)
Inductive errand (P : Type) :=
| Besides (c : prim) (p : P)
| PostSend (pkt mail : Header) (data : list Z) (p : P)
| PostReceive (box : Z) (k : Mail -> P)
| NoMore.
Arguments Besides {P} c p.
Arguments PostSend {P} pkt mail data p.
Arguments PostReceive {P} box k.
Arguments NoMore {P}.

Class Patron (P E : Type) := {
  errands : positive -> P -> E -> res (E * errand P);
  errands_irq : positive -> E -> option E
}.

Section PostOffice.
Context {host : Host} {P E : Type} `{!Patron P E}.
(** The network address and the number of boxes; the semaphores and the lock; which
    packets get lost; what the buffers hold that are allocated. *)
Context (netAddr numBoxes : Z) (messageAvailable messageSent sendLock : positive).
Context (lost : nat -> bool) (blank_packet blank_wire : list Z).

(** [boxes[i]], its lock and its condition. *)
Definition mailbox (i : Z) : positive := Pos.of_succ_nat (Z.to_nat i).

(** [coming] are the packets the socket will hold, in order; [on_wire], whether the
    interrupt for the packet sent last is still to come. *)
Record Post := mkPost {
  users : E;
  network : Network;
  buffer : list Z;
  on_wire : bool;
  coming : list (list Z)
}.

Definition PostOffice_new (users : E) (blank_inbox : list Z) (coming : list (list Z)) : Post :=
  mkPost users (Network_new netAddr blank_inbox).1 blank_packet false coming.

(** The loop of PostalDelivery, and behind its P; in PostOffice::Send behind Acquire, and
    behind P; in Receive behind the mailbox's Get. *)
Inductive po_place :=
| Sorting
| Arrived
| User (p : P)
| Sending (pkt : Header) (body : list Z) (p : P)
| Sent (p : P)
| Opening (m : Mail) (k : Mail -> P).

(** MailBox::Put, behind the making of the Mail; MailBox::Get, which hands out its parts. *)
Definition MailBox_Put (i : Z) (m : Mail) (p : po_place) : action Mail po_place := AppendTo (mailbox i) m p.
Definition MailBox_Get (i : Z) (k : Mail -> po_place) : action Mail po_place := RemoveFrom (mailbox i) k.

(** The start of the calls. *)
Definition po_errand (t : positive) (p : P) (e : Post) : res (Post * action Mail po_place) :=
  '(u, a) <- errands t p (users e) ;;
  let e := mkPost u (network e) (buffer e) (on_wire e) (coming e) in
  match a with
  | Besides c p => Ok (e, Other c (User p))
  | PostSend pkt mail data p =>
      '(pkt, body) <- Send_prepare netAddr numBoxes pkt mail data blank_packet ;;
      Ok (e, Other (Acquire sendLock) (Sending pkt body p))
  | PostReceive box k =>
      _ <- ASSERT ((box >=? 0) && (box <? numBoxes)) ;;
      Ok (e, MailBox_Get box (fun m => Opening m k))
  | NoMore => Ok (e, Return)
  end.

Definition po_next (t : positive) (p : po_place) (e : Post) : res (Post * action Mail po_place) :=
  match p with
  | Sorting => Ok (e, Other (System.P messageAvailable) Arrived)
  | Arrived =>
      '(n, pkt, buffer) <- Receive (network e) (buffer e) ;;
      '(box, m) <- sort_mail numBoxes pkt buffer ;;
      Ok (mkPost (users e) n buffer (on_wire e) (coming e), MailBox_Put box m Sorting)
  | User p => po_errand t p e
  | Sending pkt body p =>
      '(n, _) <- Send lost (network e) pkt body blank_wire ;;
      Ok (mkPost (users e) n (buffer e) true (coming e), Other (System.P messageSent) (Sent p))
  | Sent p => Ok (e, Other (Release sendLock) (User p))
  | Opening m k =>
      _ <- ASSERT (length_ (mailHdr m) <=? MaxMailSize) ;;
      po_errand t (k m) e
  end.

(** IncomingPacket is called when the poll of the network has found a packet and has room
    for it.  (A poll that fails an ASSERT ends the system; [PostOffice_delivers] says that
    none does.) *)
Definition IncomingPacket (e : Post) : res (option Post) :=
  '(n, _, got) <- CheckPktAvail (network e) (head (coming e)) ;;
  Ok (if got : bool then Some (mkPost (users e) n (buffer e) (on_wire e) (tail (coming e))) else None).

Definition PacketSent (e : Post) : option Post :=
  if on_wire e then Some (mkPost (users e) (SendDone (network e)).1 (buffer e) false (coming e)) else None.

#[local] Instance PostOffice_caller : Caller Mail po_place Post := {
  next := po_next;
  next_irq n e :=
    if decide (n = messageAvailable) then match IncomingPacket e with Ok r => r | Err _ => None end
    else if decide (n = messageSent) then PacketSent e
    else match errands_irq n (users e) with
         | Some u => Some (mkPost u (network e) (buffer e) (on_wire e) (coming e))
         | None => None
         end
}.

(** ** What is asked of the users *)

Definition mailboxes : gset positive := list_to_set (mailbox <$> seqZ 0 numBoxes).

Lemma elem_of_mailboxes i : 0 <= i < numBoxes -> mailbox i ∈ mailboxes.
Proof. intros. apply elem_of_list_to_set, list_elem_of_fmap. exists i. split; [done|]. apply elem_of_seqZ. lia. Qed.

(** They leave the locks and the semaphores of the post office alone. *)
Definition leaves_mail (c : prim) : Prop :=
  foreign ({[sendLock]} ∪ mailboxes) c /\
  match c with System.P n | V n => n <> messageAvailable /\ n <> messageSent | _ => True end.

Record patron_ok (ucode : P -> Prop) (uheld : P -> gset positive) : Prop := {
  pt_besides : forall t p e e' c p', ucode p -> errands t p e = Ok (e', Besides c p') ->
    ucode p' /\ leaves_mail c /\ locks_after c (uheld p) = Some (uheld p');
  pt_send : forall t p e e' pkt mail data p', ucode p -> errands t p e = Ok (e', PostSend pkt mail data p') ->
    uheld p = ∅ /\ ucode p' /\ uheld p' = ∅;
  pt_receive : forall t p e e' box k, ucode p -> errands t p e = Ok (e', PostReceive box k) ->
    uheld p = ∅ /\ forall m, ucode (k m) /\ uheld (k m) = ∅;
  pt_done : forall t p e e', ucode p -> errands t p e = Ok (e', NoMore) -> uheld p = ∅;
  pt_apart : forall p l, ucode p -> l ∈ {[sendLock]} ∪ mailboxes -> l ∉ uheld p
}.

Context (ucode : P -> Prop) (uheld : P -> gset positive).
Hypotheses (Hpatron : patron_ok ucode uheld) (Hlock : sendLock ∉ mailboxes).

(** The users' part of the code, and all of it. *)
Definition guest (p : po_place) : Prop :=
  match p with
  | Sorting | Arrived => False
  | User p => ucode p
  | Sending _ _ p | Sent p => ucode p /\ uheld p = ∅
  | Opening _ k => forall m, ucode (k m) /\ uheld (k m) = ∅
  end.
Definition po_code (p : po_place) : Prop := match p with Sorting | Arrived => True | _ => guest p end.
Definition po_held (p : po_place) : gset positive :=
  match p with User p => uheld p | Sending _ _ _ | Sent _ => {[sendLock]} | _ => ∅ end.

(** What a user's call leads to. *)
Lemma errand_step t p e e' a :
  ucode p -> po_errand t p e = Ok (e', a) ->
  (network e' = network e /\ buffer e' = buffer e /\ coming e' = coming e) /\
  match a with
  | Other c q => guest q /\ (leaves_mail c \/ c = Acquire sendLock) /\ locks_after c (uheld p) = Some (po_held q)
  | AppendTo _ _ _ => False
  | RemoveFrom b k => b ∈ mailboxes /\ uheld p = ∅ /\ forall m, guest (k m) /\ po_held (k m) = ∅
  | Return => uheld p = ∅
  end.
Proof.
  intros Hp H. unfold po_errand in H. inv_bind H. destruct v as [u [c q|pkt mail data q|box k|]].
  - injection H as <- <-. split; [done|]. destruct (pt_besides _ _ Hpatron _ _ _ _ _ _ Hp H0) as (? & ? & ?). eauto.
  - inv_bind H. destruct v as [pkt' body]. injection H as <- <-. split; [done|].
    destruct (pt_send _ _ Hpatron _ _ _ _ _ _ _ _ Hp H0) as (-> & ? & ?). split; [done|]. split; [by right|]. apply acquire_first.
  - apply ASSERT_bind in H as [Ha H]. injection H as <- <-. split; [done|].
    apply andb_true_iff in Ha as [H1%Z.geb_le H2%Z.ltb_lt].
    destruct (pt_receive _ _ Hpatron _ _ _ _ _ _ Hp H0) as (? & ?). split; [apply elem_of_mailboxes; lia|]. split; [done|]. by intros m.
  - injection H as <- <-. split; [done|]. by eapply (pt_done _ _ Hpatron).
Qed.

(** So the post office may be a caller of the mailboxes. *)
Lemma PostOffice_caller_ok : caller_ok mailboxes po_code po_held.
Proof.
  assert (forall c, leaves_mail c \/ c = Acquire sendLock -> foreign mailboxes c) as Hf.
  { intros c [[H _]| ->]; [|done]. destruct c; cbn in H |- *; set_solver. }
  split.
  - intros t [| |p|pkt body p|p|m k] e e' c q Hp H; cbn in Hp, H.
    + by injection H as _ <- <-.
    + inv_bind H. destruct v as [[n pkt] bs]. inv_bind H. by destruct v.
    + destruct (errand_step _ _ _ _ _ Hp H) as (_ & Hq & Hc & Hl). split; [by destruct q|]. auto.
    + inv_bind H. destruct v as [n rs]. injection H as _ <- <-. by split_and!.
    + injection H as _ <- <-. destruct Hp as [Hp E0]. split; [done|]. split; [done|]. cbn [po_held]. rewrite E0. apply release_last.
    + inv_bind H. destruct (Hp m) as [Hk Eh]. destruct (errand_step _ _ _ _ _ Hk H) as (_ & Hq & Hc & Hl).
      rewrite Eh in Hl. split; [by destruct q|]. auto.
  - intros t [| |p|pkt body p|p|m k] e e' b x q Hp H; cbn in Hp, H; try done.
    + inv_bind H. destruct v as [[n pkt] bs]. inv_bind H. destruct v as [box m]. injection H as _ <- _ <-.
      unfold sort_mail in H1. apply ASSERT_bind in H1 as [Ha H1]. inv_bind H1. inv_bind H1. injection H1 as <- _.
      apply andb_true_iff in Ha as [?%Z.leb_le ?%Z.ltb_lt]. split; [by apply elem_of_mailboxes|done].
    + by destruct (errand_step _ _ _ _ _ Hp H) as (_ & ?).
    + inv_bind H. by destruct v.
    + inv_bind H. by destruct (errand_step _ _ _ _ _ (proj1 (Hp m)) H) as (_ & ?).
  - assert (forall t p e e' b k, ucode p -> po_errand t p e = Ok (e', RemoveFrom b k) ->
      b ∈ mailboxes /\ uheld p = ∅ /\ forall m, po_code (k m) /\ po_held (k m) = ∅) as He.
    { intros t p e e' b k Hp H. destruct (errand_step _ _ _ _ _ Hp H) as (_ & ? & ? & Hk). split_and!; [done..|].
      intros m. destruct (Hk m). split; [by destruct (k m)|done]. }
    intros t [| |p|pkt body p|p|m k] e e' b k' Hp H; cbn in Hp, H; try done.
    + inv_bind H. destruct v as [[n pkt] bs]. inv_bind H. by destruct v.
    + by apply (He _ _ _ _ _ _ Hp H).
    + inv_bind H. by destruct v.
    + inv_bind H. destruct (He _ _ _ _ _ _ (proj1 (Hp m)) H) as (? & _ & ?). by split_and!.
  - intros t [| |p|pkt body p|p|m k] e e' Hp H; cbn in Hp, H |- *; try done.
    + by destruct (errand_step _ _ _ _ _ Hp H) as (_ & ?).
    + inv_bind H. by destruct v.
  - intros [| |p|pkt body p|p|m k] b Hp Hb; cbn in Hp |- *; try set_solver.
    apply (pt_apart _ _ Hpatron); set_solver.
Qed.

(** ** Every message gets into its mailbox *)

(** A message for this machine, and the packet that PostOffice::Send and Network::Send
    make of it. *)
Record mail_ok (m : Mail) : Prop := {
  ma_headers : header_ok (pktHdr m) /\ header_ok (mailHdr m);
  ma_here : to (pktHdr m) = netAddr;
  ma_length : length_ (pktHdr m) = length_ (mailHdr m) + HeaderSize /\ zlen (letter m) = length_ (mailHdr m);
  ma_fits : length_ (mailHdr m) <= MaxMailSize;
  ma_box : 0 <= to (mailHdr m) < numBoxes
}.

Definition carries (p : list Z) (m : Mail) : Prop :=
  mail_ok m /\ zlen p = MaxWireSize /\
  exists rest, p = header_bytes (pktHdr m) ++ (header_bytes (mailHdr m) ++ letter m) ++ rest.

(** Such are the packets of the post office of another machine [addr]. *)
Lemma sent_carries addr boxes pkt mail data junk wire p body :
  header_ok mail -> length_ mail <= MaxMailSize -> length_ mail <= zlen data -> 0 <= to mail < boxes -> to mail < numBoxes ->
  to pkt = netAddr -> is_s32 addr -> is_s32 netAddr -> zlen junk = MaxPacketSize -> zlen wire = MaxWireSize ->
  Send_prepare addr boxes pkt mail data junk = Ok (p, body) ->
  carries (packet wire p body) (mkMail p mail (bytes_of data 0 (length_ mail))).
Proof.
  intros Hm Hl Hd Hto Hto' Hpt Ha Hn Hj Hw Es. assert (0 <= length_ mail) as Hl0 by apply Hm.
  destruct (Send_prepare_ok addr boxes pkt mail data junk) as (t1 & E1 & Hz1); try done.
  rewrite Es in E1. injection E1 as -> ->. set (p := mkHeader _ _ _).
  assert (0 < length_ p <= MaxPacketSize) as Hp by (unfold p, MaxMailSize, HeaderSize in *; cbn; lia).
  set (bs := bytes_of data 0 (length_ mail)) in *. assert (zlen bs = length_ mail) as Hbs by (apply bytes_of_length; lia).
  pose proof (length_header_bytes mail) as Hh. pose proof (length_header_bytes p) as Hhp.
  assert (bytes_of (header_bytes mail ++ bs ++ t1) 0 (length_ p) = header_bytes mail ++ bs) as Hbody.
  { unfold bytes_of. change (Z.to_nat 0) with 0%nat. rewrite drop_0, app_assoc, take_app_length'; [done|].
    rewrite length_app. cbn [p length_]. lia. }
  unfold packet. rewrite Hbody. split; [|split].
  - split; cbn; try done; [|lia]. split; [|done]. unfold header_ok, is_u32. cbn. rewrite Hpt.
    unfold MaxMailSize, MaxPacketSize, MaxWireSize, HeaderSize in Hl |- *. change (2 ^ 32) with 4294967296. split_and!; try done; lia.
  - rewrite !length_app, length_drop. unfold MaxPacketSize in Hp. cbn [p length_] in Hp |- *. lia.
  - by eexists.
Qed.

(** The messages among [ms] for box [i]. *)
Definition for_box (i : Z) (ms : list Mail) : list Mail := filter (fun m => to (mailHdr m) = i) ms.

Section Delivery.
Context {Q : Type -> Type} `{!Queue Q, !QueueLaws Q} (init : positive -> Z) (worker : positive).
Hypotheses (Hinit : init messageAvailable = 0) (Hapart : messageAvailable <> messageSent).
Abbreviation pc := (sl_pc (I := Mail) (P := po_place)).
Abbreviation dt := (sl_data (Q := Q) (I := Mail) (E := Post)).
Implicit Types (d : dt) (e : Post) (log : list event).

(** Where the postal worker is, the message it has in hand, and whether it has been told
    of the one the network holds. *)
Inductive working : ctl pc -> list Mail -> bool -> Prop :=
| wk_loop x : (x = At (Outside Sorting) \/ exists old, x = Woken old (Outside Sorting)) -> working x [] false
| wk_wait old : working (Retry (System.P messageAvailable) old (Outside Arrived)) [] false
| wk_told x : (x = At (Outside Arrived) \/ exists old, x = Woken old (Outside Arrived)) -> working x [] true
| wk_lock old m : mail_ok m ->
    working (Retry (Acquire (mailbox (to (mailHdr m)))) old (Appending (mailbox (to (mailHdr m))) m Sorting)) [m] false
| wk_put x m : mail_ok m ->
    (x = At (Appending (mailbox (to (mailHdr m))) m Sorting) \/ exists old, x = Woken old (Appending (mailbox (to (mailHdr m))) m Sorting)) ->
    working x [m] false
| wk_signal old b : working (Retry (Signal b b) old (Appended b Sorting)) [] false
| wk_unlock x b : (x = At (Appended b Sorting) \/ exists old, x = Woken old (Appended b Sorting)) -> working x [] false
| wk_release old b : working (Retry (Release b) old (Outside Sorting)) [] false.

(** What the network holds. *)
Definition loaded (n : Network) (m : Mail) : Prop :=
  mail_ok m /\ inHdr n = pktHdr m /\ exists rest, inbox n = (header_bytes (mailHdr m) ++ letter m) ++ rest.
Definition in_network (told : bool) e log (ms : list Mail) : Prop :=
  match ms with
  | [] => told = false /\ length_ (inHdr (network e)) = 0 /\ tally messageAvailable log = 0
  | [m] => loaded (network e) m /\ tally messageAvailable log = if told then 0 else 1
  | _ => False
  end.

Definition post_ok e : Prop :=
  ident (network e) = netAddr /\ zlen (inbox (network e)) = MaxPacketSize /\ zlen (buffer e) = MaxPacketSize.

(** The messages [ms] are in their boxes, in the hands of the worker, in the network, or
    still to come. *)
Definition delivering (ms : list Mail) (x : ctl pc) d log : Prop :=
  exists sorted hand net later told,
    ms = sorted ++ hand ++ net ++ later /\ working x hand told /\ post_ok (env d) /\
    in_network told (env d) log net /\ Forall2 carries (coming (env d)) later /\
    forall i, 0 <= i < numBoxes -> appended d (mailbox i) = for_box i sorted.

Definition same_post e e' : Prop :=
  ident (network e') = ident (network e) /\ inHdr (network e') = inHdr (network e) /\
  inbox (network e') = inbox (network e) /\ buffer e' = buffer e /\ coming e' = coming e.

Lemma delivering_same ms x d d' log log' :
  same_post (env d) (env d') -> appended d' = appended d -> tally messageAvailable log' = tally messageAvailable log ->
  delivering ms x d log -> delivering ms x d' log'.
Proof.
  intros (E1 & E2 & E3 & E4 & E5) E6 E7 (sorted & hand & net & later & told & Hms & Hw & Hp & Hn & Hc & Ha).
  exists sorted, hand, net, later, told. unfold post_ok in *. rewrite E1, E3, E4, E5, E6.
  split; [done|]. split; [done|]. split; [done|]. split; [|by split].
  destruct net as [|m [|]]; cbn in Hn |- *; unfold loaded in *; by rewrite ?E2, ?E3, ?E7.
Qed.

(** The users do not put anything into the boxes. *)
Definition guest_pc (p : pc) : Prop :=
  match p with
  | Outside q => guest q
  | Testing _ k | Waited _ k | Checked _ k => forall m, guest (k m)
  | Appending _ _ _ | Appended _ _ => False
  end.
Definition harmless (c : prim) : Prop :=
  match c with System.P n | V n => n <> messageAvailable | _ => True end.
Definition guest_at (x : ctl pc) : Prop :=
  match x with
  | At p | Woken _ p => guest_pc p
  | Retry c _ p => c = Die \/ guest_pc p /\ harmless c
  | Dead => True
  end.

Lemma guest_next t p e e' a : guest p -> po_next t p e = Ok (e', a) ->
  same_post e e' /\ match a with
                    | Other c q => guest q /\ harmless c
                    | AppendTo _ _ _ => False
                    | RemoveFrom _ k => forall m, guest (k m)
                    | Return => True
                    end.
Proof.
  assert (forall p, ucode p -> po_errand t p e = Ok (e', a) ->
    same_post e e' /\ match a with Other c q => guest q /\ harmless c | AppendTo _ _ _ => False
                                 | RemoveFrom _ k => forall m, guest (k m) | Return => True end) as He.
  { intros q Hq H. destruct (errand_step _ _ _ _ _ Hq H) as ((E1 & E2 & E3) & Ha).
    split; [unfold same_post; by rewrite E1, E2, E3|]. destruct a as [c r|b m r|b k|]; try done.
    - destruct Ha as (Hr & Hc & _). split; [done|]. destruct Hc as [[_ Hc]| ->]; [|done]. destruct c; cbn in Hc |- *; tauto.
    - destruct Ha as (_ & _ & Hk). intros m. apply Hk. }
  destruct p as [| |p|pkt body p|p|m k]; intros Hp H; cbn in Hp, H; try done.
  - by apply (He p).
  - inv_bind H. destruct v as [n rs]. injection H as <- <-. apply Send_keeps in H0 as (E1 & E2 & E3).
    split; [done|]. split; [by apply Hp|]. cbn. congruence.
  - injection H as <- <-. split; [done|]. split; [by apply Hp|done].
  - inv_bind H. apply (He (k m)); [apply Hp|done].
Qed.

Lemma guest_view t p d d' r : guest_pc p -> view (Client := SynchList_client) t p d = Ok (d', r) ->
  same_post (env d) (env d') /\ appended d' = appended d /\
  match r with Some (c, q) => guest_pc q /\ harmless c | None => True end.
Proof.
  destruct p as [p|b m p|b p|b k|b k|b k]; cbn; intros Hp H; try done.
  - inv_bind H. destruct v as [e a]. injection H as <- <-. destruct (guest_next _ _ _ _ _ Hp H0) as [Hs Ha].
    split; [done|]. split; [done|]. destruct a; cbn; try done.
  - destruct (q_is_empty _); [injection H as <- <-; by repeat split|]. inv_bind H. destruct v as [d1 m]. injection H as <- <-.
    unfold SynchList_Remove in H0. inv_bind H0. destruct v as [q [[key y]|]]; [|done]. injection H0 as <- <-. cbn.
    split; [done|]. split; [done|]. split; [apply Hp|done].
  - injection H as <- <-. by repeat split.
  - injection H as <- <-. by repeat split.
Qed.

(** The worker takes a message out of the network. *)
Lemma take_mail t e log m : post_ok e -> in_network true e log [m] ->
  exists e', po_next t Arrived e = Ok (e', AppendTo (mailbox (to (mailHdr m))) m Sorting) /\
    post_ok e' /\ in_network false e' log [] /\ coming e' = coming e.
Proof.
  intros (Hid & Hin & Hb) (([Hh Hhere Hl Hfit Hbox] & Ehdr & rest & Hi) & Ht). cbn.
  destruct (delivery_ok numBoxes (network e) (mailHdr m) (letter m) rest (buffer e))
    as (n' & buf & E1 & E2 & E3 & E4 & E5 & E6); try apply Hh; try done; try apply Hl; [by rewrite Ehdr; apply Hl|].
  rewrite E1. cbn [bindr]. rewrite E2. cbn [bindr]. eexists. split; [rewrite Ehdr; by destruct m|].
  unfold post_ok. cbn. by rewrite E4, E5.
Qed.

Lemma working_move (x x' : ctl pc) p old hand told :
  x = At p \/ x = Woken old p -> x' = At p \/ x' = Woken old p -> working x hand told -> working x' hand told.
Proof.
  assert (forall q, (x = At q \/ exists old, x = Woken old q) -> (x = At p \/ x = Woken old p) ->
    (x' = At p \/ x' = Woken old p) -> x' = At q \/ exists old, x' = Woken old q) as Hm.
  { intros q H1 H2 H3. assert (p = q) as -> by naive_solver. naive_solver. }
  intros Hx Hx' Hw. destruct Hw; try (by destruct Hx); [apply wk_loop|apply wk_told|apply wk_put|eapply wk_unlock]; eauto.
Qed.

Lemma worker_move ms (x x' : ctl pc) p old d log :
  x = At p \/ x = Woken old p -> x' = At p \/ x' = Woken old p -> delivering ms x d log -> delivering ms x' d log.
Proof.
  intros Hx Hx' (sorted & hand & net & later & told & Hms & Hw & H). exists sorted, hand, net, later, told.
  split; [done|]. split; [by apply (working_move x x' p old)|done].
Qed.

Lemma mailbox_inj i j : 0 <= i -> 0 <= j -> mailbox i = mailbox j -> i = j.
Proof. unfold mailbox. lia. Qed.

Lemma worker_view ms t p d d' r log :
  delivering ms (At p) d log -> view (Client := SynchList_client) t p d = Ok (d', r) ->
  exists c q, r = Some (c, q) /\ forall old, delivering ms (Retry c old q) d' log.
Proof.
  intros (sorted & hand & net & later & told & Hms & Hw & Hp & Hn & Hc & Ha) H.
  inversion Hw as [x Hx| |x Hx| |x m Hm Hx| |x b Hx|]; subst; destruct Hx as [[= ->]|[? ?]]; try done; cbn in H.
  - injection H as <- <-. do 2 eexists. split; [done|]. intros old. exists sorted, [], net, later, false. split; [done|]. by split; [apply wk_wait|].
  - destruct net as [|m [|]]; [by destruct Hn| |done]. destruct (take_mail t (env d) log m Hp Hn) as (e' & Et & Hp' & Hn' & Hc').
    cbn in Et. rewrite Et in H. cbn in H. injection H as <- <-. do 2 eexists. split; [done|]. intros old.
    exists sorted, [m], [], later, false. split; [done|]. split; [apply wk_lock; apply Hn|]. split; [done|]. split; [done|].
    cbn. by rewrite Hc'.
  - unfold SynchList_Append in H. inv_bind H. inv_bind H0. injection H as <- <-. injection H0 as <-.
    do 2 eexists. split; [done|]. intros old. exists (sorted ++ [m]), [], net, later, false.
    split; [by rewrite <- app_assoc|]. split; [apply wk_signal|]. do 3 (split; [done|]). cbn. intros i Hi.
    unfold for_box. rewrite list.filter_app, list.filter_cons. cbn. destruct (decide (to (mailHdr m) = i)) as [<-|Hne].
    + rewrite fn_lookup_insert. by rewrite Ha.
    + rewrite fn_lookup_insert_ne, app_nil_r; [by apply Ha|]. intros Eb. apply mailbox_inj in Eb; [done| |lia]. apply (ma_box _ Hm).
  - injection H as <- <-. do 2 eexists. split; [done|]. intros old. exists sorted, [], net, later, false. split; [done|]. by split; [apply wk_release|].
Qed.

Lemma worker_done ms t c old p x d log :
  delivering ms (Retry c old p) d log -> x = At p \/ x = Woken old p -> enabled init t c log ->
  delivering ms x d (log ++ [(Some t, c)]).
Proof.
  intros (sorted & hand & net & later & told & Hms & Hw & Hp & Hn & Hc & Ha) Hx He.
  assert (forall q hand' told', p = q -> (forall y, y = At q \/ (exists o, y = Woken o q) -> working y hand' told') ->
    working x hand' told') as Hwork by (intros q h t' <- Hy; apply Hy; naive_solver).
  assert (tally messageAvailable (log ++ [(Some t, c)]) = tally messageAvailable log -> told = false ->
    working x hand false -> delivering ms x d (log ++ [(Some t, c)])) as Hquiet.
  { intros Et -> Hw'. exists sorted, hand, net, later, false. do 3 (split; [done|]). split; [|by split].
    destruct net as [|m [|]]; cbn [in_network] in Hn |- *; by rewrite ?Et. }
  inversion Hw as [y Hy|o|y Hy|o m Hm|y m Hm Hy|o b|y b Hy|o b]; subst; try (by destruct Hy as [?|[? ?]]).
  - cbn in He. rewrite Hinit in He. destruct net as [|m [|]]; cbn [in_network] in Hn; [lia| |done].
    exists sorted, [], [m], later, true. split; [done|]. split; [by eapply Hwork; [|apply wk_told]|]. split; [done|].
    split; [|done]. split; [apply Hn|]. rewrite tally_app. cbn. rewrite decide_True by done. destruct Hn as [_ ->]. lia.
  - apply Hquiet; [rewrite tally_app; cbn; lia|done|]. eapply Hwork; [done|]. intros y. by apply wk_put.
  - apply Hquiet; [rewrite tally_app; cbn; lia|done|]. eapply Hwork; [done|]. intros y. by eapply wk_unlock.
  - apply Hquiet; [rewrite tally_app; cbn; lia|done|]. eapply Hwork; [done|]. intros y. by apply wk_loop.
Qed.

(** A packet arrives when the network has room for it. *)
Lemma packet_comes told e log p m later net :
  post_ok e -> in_network told e log net -> carries p m -> coming e = p :: later ->
  (exists e', net = [] /\ IncomingPacket e = Ok (Some e') /\ post_ok e' /\ loaded (network e') m /\ coming e' = later) \/
  (exists m', net = [m'] /\ IncomingPacket e = Ok None).
Proof.
  intros Hp Hn [Hm (Hl & rest & ->)] Hc. unfold IncomingPacket. rewrite Hc. cbn [head tail].
  destruct net as [|m' [|]]; [left|right|done].
  - destruct Hn as (_ & H0 & _). destruct Hp as (Hi & Hb & Hbuf).
    pose proof (ma_length _ Hm) as [Hl1 Hl2]. pose proof (ma_fits _ Hm) as Hfit. unfold MaxMailSize in Hfit.
    destruct (CheckPktAvail_ok (network e) (pktHdr m) (header_bytes (mailHdr m) ++ letter m) rest) as (n' & r & E1 & E2 & E3);
      try done; [apply Hm|rewrite length_app, Nat2Z.inj_add, length_header_bytes; lia|by rewrite Hi; apply Hm|lia|].
    pose proof (CheckPktAvail_keeps _ _ _ _ _ E1) as (K1 & K2 & _). rewrite E1. cbn [bindr].
    eexists. split; [done|]. split; [done|]. unfold post_ok, loaded. cbn. rewrite K1, K2. eauto 10.
  - exists m'. split; [done|]. destruct Hn as [(Hm' & Eh & _) _]. unfold CheckPktAvail. rewrite Eh.
    pose proof (ma_length _ Hm') as [-> _]. destruct (ma_headers _ Hm') as [_ (_ & _ & Hu)].
    rewrite (proj2 (Z.eqb_neq _ _)); [done|]. unfold HeaderSize. unfold is_u32 in Hu. lia.
Qed.

Lemma nothing_comes e : coming e = [] -> IncomingPacket e = Ok None.
Proof. intros E0. unfold IncomingPacket. rewrite E0. cbn. unfold CheckPktAvail. by destruct (negb _). Qed.

Lemma worker_irq ms x n d d' log :
  delivering ms x d log -> on_irq (Client := SynchList_client) n d = Some d' -> delivering ms x d' (log ++ [(None, V n)]).
Proof.
  intros Hd H. cbn in H. case_decide as En; [subst n|].
  - destruct Hd as (sorted & hand & net & later & told & Hms & Hw & Hp & Hn & Hc & Ha).
    inversion Hc as [E1 E2|p m ps ms' Hpm Hc' E1 E2]; [rewrite nothing_comes in H by done; done|].
    destruct (packet_comes told (env d) log p m ps net Hp Hn Hpm) as [(e' & -> & Ei & Hp' & Hl' & Ec)|(m' & -> & Ei)];
      [done| |by rewrite Ei in H].
    rewrite Ei in H. injection H as <-. destruct Hn as (-> & _ & Ht). exists sorted, hand, [m], ms', false. subst later.
    do 3 (split; [done|]). split; [|split; [cbn; by rewrite Ec|done]]. split; [done|].
    rewrite tally_app. cbn. rewrite decide_True by done. lia.
  - assert (same_post (env d) (env d') /\ appended d' = appended d) as [Hs Ha].
    { case_decide; [|destruct (errands_irq _ _); [|done]; by injection H as <-].
      destruct (PacketSent (env d)) as [e|] eqn:E0; [|done]. injection H as <-. unfold PacketSent in E0.
      destruct (on_wire _); [|done]. by injection E0 as <-. }
    eapply delivering_same; [done..| |done]. rewrite tally_app. cbn. rewrite decide_False by done. lia.
Qed.

Definition at_work (ms : list Mail) (a : view_state pc dt) : Prop :=
  (exists x, sites a !! worker = Some x /\ delivering ms x (vdata a) (vlog a)) /\
  forall t x, t <> worker -> sites a !! t = Some x -> guest_at x.

Lemma at_work_worker ms (a : view_state pc dt) x d log :
  at_work ms a -> delivering ms x d log -> at_work ms (mkView (<[worker := x]> (sites a)) d log).
Proof.
  intros [_ Hg] Hd. split; [exists x; split; [apply lookup_insert_eq|done]|]. cbn. intros t y Ht.
  rewrite lookup_insert_ne by done. by apply Hg.
Qed.

Lemma at_work_guest ms (a : view_state pc dt) t x d log :
  at_work ms a -> t <> worker -> guest_at x -> same_post (env (vdata a)) (env d) -> appended d = appended (vdata a) ->
  tally messageAvailable log = tally messageAvailable (vlog a) -> at_work ms (mkView (<[t := x]> (sites a)) d log).
Proof.
  intros [(y & Hy & Hd) Hg] Ht Hx E1 E2 E3. split.
  - exists y. cbn. rewrite lookup_insert_ne by done. split; [done|]. by eapply delivering_same.
  - intros u z Hu. cbn. destruct (decide (u = t)) as [->|]; [rewrite lookup_insert_eq; by intros [= <-]|].
    rewrite lookup_insert_ne by done. by apply Hg.
Qed.

Lemma tally_harmless o c log : harmless c -> tally messageAvailable (log ++ [(o, c)]) = tally messageAvailable log.
Proof. intros H. rewrite tally_app. destruct c; cbn in H |- *; try lia; rewrite decide_False by congruence; lia. Qed.

Lemma astep_at_work ms (a a' : view_state pc dt) : at_work ms a -> astep init a a' -> at_work ms a'.
Proof.
  intros Hw Hst. pose proof Hw as [(y & Hy & Hd) Hg].
  destruct Hst as [t p d c p' old Hp Hv|t p d old Hp Hv|t c old p x Hp Hx Hc He|t old p Hp|n d Hi|t old p x Hp Hx];
    try (destruct (decide (t = worker)) as [->|Ht]; [rewrite Hy in Hp|]).
  - injection Hp as ->. destruct (worker_view _ _ _ _ _ _ _ Hd Hv) as (c' & q & [= <- <-] & Hd'). by apply at_work_worker.
  - destruct (guest_view _ _ _ _ _ (Hg _ _ Ht Hp) Hv) as (E1 & E2 & ? & ?). apply at_work_guest; try done. by right.
  - injection Hp as ->. by destruct (worker_view _ _ _ _ _ _ _ Hd Hv) as (c' & q & ? & Hd').
  - destruct (guest_view _ _ _ _ _ (Hg _ _ Ht Hp) Hv) as (E1 & E2 & _). apply at_work_guest; try done. by left.
  - injection Hp as ->. apply at_work_worker; [done|]. by eapply worker_done.
  - destruct (Hg _ _ Ht Hp) as [?|[Hq Hh]]; [done|]. apply at_work_guest; [done|done|by destruct Hx; subst x|done|done|by apply tally_harmless].
  - injection Hp as ->. destruct Hd as (? & ? & ? & ? & ? & _ & Hw' & _). inversion Hw'; by naive_solver.
  - apply at_work_guest; try done. by apply tally_harmless.
  - split; [exists y; split; [done|]; by eapply worker_irq|done].
  - apply at_work_worker; [done|]. apply (worker_move ms y x p old); [|done|done]. destruct Hp as [[= ->]|[= ->]]; eauto.
  - apply at_work_guest; try done. assert (guest_pc p) as Hq by (destruct Hp as [Hp|Hp]; apply (Hg _ _ Ht Hp)).
    by destruct Hx as [-> | ->].
Qed.

(** The users start outside, the worker at its loop, with nothing but the packets of [ms]
    to come. *)
Record post_starts (ms : list Mail) (s : Sys Q pc dt) : Prop := {
  ps_lists : sl_starts mailboxes po_code po_held init s;
  ps_worker : exists x, ctls s !! worker = Some x /\ working x [] false;
  ps_users : forall t x, t <> worker -> ctls s !! t = Some x -> guest_at x;
  ps_network : post_ok (env (data s)) /\ length_ (inHdr (network (env (data s)))) = 0;
  ps_coming : Forall2 carries (coming (env (data s))) ms;
  ps_boxes : forall i, 0 <= i < numBoxes -> appended (data s) (mailbox i) = []
}.

Lemma runs_at_work ms s0 s chs :
  post_starts ms s0 -> runs s0 chs s -> small init (log s) -> at_work ms (abs s).
Proof.
  intros [Hl (x & Hx & Hw) Hu [Hp Hn] Hc Hb] Hr Hsm. apply (runs_invariant init (at_work ms) s0 chs s); try done.
  - intros b b' Ha _ Hst. by eapply astep_at_work.
  - apply Hl.
  - split; [|done]. exists x. split; [done|]. exists [], [], [], ms, false. split; [done|]. split; [done|]. split; [done|].
    split; [|by split]. split; [done|]. split; [done|]. cbn. by rewrite (b_log _ _ (sb_booted _ _ _ _ _ Hl)).
Qed.

(** C13: every message gets into its mailbox.  With any number of threads that send, receive
    and do anything else, and packets that arrive at any time: in every run, the
    messages for a box that have been sorted are those Receive has given out, in the
    order of arrival and each once, followed by what is in the box; all others are
    in the hands of the postal worker, in the network's buffer, at most one each, or
    still to come.  And no ASSERT fails when a packet arrives or is sorted. *)
Theorem PostOffice_delivers ms s0 s (chs : list choice) :
  post_starts ms s0 -> runs s0 chs s -> small init (log s) ->
  exists sorted hand net later,
    ms = sorted ++ hand ++ net ++ later /\ (length hand <= 1)%nat /\ (length net <= 1)%nat /\
    Forall2 carries (coming (env (data s))) later /\
    (forall i, 0 <= i < numBoxes -> exists xs, q_rep (lists (data s) (mailbox i)) xs /\
       for_box i sorted = removed (data s) (mailbox i) ++ xs.*2) /\
    is_ok (IncomingPacket (env (data s))) /\
    (ctls s !! worker = Some (At (Outside Arrived)) -> is_ok (po_next worker Arrived (env (data s)))).
Proof.
  intros Hs Hr Hsm. destruct (runs_at_work ms s0 s chs Hs Hr Hsm) as [(x & Hx & Hd) _]. cbn in Hx, Hd.
  destruct Hd as (sorted & hand & net & later & told & Hms & Hw & Hp & Hn & Hc & Ha). exists sorted, hand, net, later.
  split; [done|]. split; [destruct Hw; cbn; lia|]. split; [destruct net as [|? [|]]; cbn; [lia..|done]|]. split; [done|].
  split; [|split].
  - intros i Hi. destruct (sl_runs mailboxes po_code po_held PostOffice_caller_ok init s0 s chs (mailbox i) (ps_lists _ _ Hs) Hr Hsm)
      as (own & Hty & _ & Hor); [by apply elem_of_mailboxes|]. rewrite <- (Ha i Hi).
    assert (exists n, holds (mailbox i) n (data s) (log s)) as (n & xs & H1 & H2 & _); [|by exists xs].
    destruct Hor as [[_ Hf]|(t & z & Ht & _ & Hz & Hh)]; [by exists 0%nat|].
    eapply (site_fifo mailboxes po_code po_held PostOffice_caller_ok (mailbox i)); [by apply elem_of_mailboxes|by apply Hty|done|done].
  - inversion Hc as [E1 E2|p m ps ms' Hpm Hc' E1 E2]; [rewrite nothing_comes by done; by eexists|].
    destruct (packet_comes told _ _ p m ps net Hp Hn Hpm (eq_sym E1)) as [(e' & _ & -> & _)|(m' & _ & ->)]; by eexists.
  - rewrite Hx. intros [= ->]. assert (told = true) as ->.
    { inversion Hw as [? Hy| |? Hy| |? ? ? Hy| |? ? Hy|]; subst; [|done| |]; by destruct Hy as [?|[? ?]]. }
    destruct net as [|m [|]]; [by destruct Hn| |done]. destruct (take_mail worker _ _ m Hp Hn) as (e' & -> & _). by eexists.
Qed.

Lemma next_place t p e e' c q : po_code p -> po_next t p e = Ok (e', Other c q) ->
  guest q \/ q = Arrived /\ c = System.P messageAvailable.
Proof.
  destruct p as [| |p|pkt body p|p|m k]; intros Hp H.
  - cbn in H. injection H as _ <- <-. by right.
  - cbn in H. inv_bind H. destruct v as [[n pkt] bs]. inv_bind H. by destruct v.
  - left. apply (guest_next t (User p) _ _ _ Hp) in H. apply H.
  - left. apply (guest_next t (Sending pkt body p) _ _ _ Hp) in H. apply H.
  - left. apply (guest_next t (Sent p) _ _ _ Hp) in H. apply H.
  - left. apply (guest_next t (Opening m k) _ _ _ Hp) in H. apply H.
Qed.

(** When nothing is left to run, a postal worker that has been started waits for the next
    packet, with nothing in its hands and nothing in the network. *)
Abbreviation all_code := (sl_code mailboxes po_code po_held).

Lemma worker_not_waiting t c lk p q hand told :
  comes_from all_code t (Wait c lk) p -> q = At p \/ (exists old, q = Woken old p) -> working q hand told -> False.
Proof.
  intros (q0 & d & d' & Hc & Hv) Hq Hw. apply view_step in Hv.
  assert (forall p', (q = At p' \/ exists old, q = Woken old p') -> p' = p) as Hp by naive_solver.
  inversion Hw as [y Hy| |y Hy| |y m Hm Hy| |y b Hy|]; subst; try (by destruct Hq as [?|[? ?]]); apply Hp in Hy; subst p;
    inversion Hv; subst.
  all: match goal with H : next _ _ _ = _ |- _ => apply next_place in H as [Hg|[? ?]]; done end.
Qed.

Lemma idle_worker s cts told hand net x :
  sinv init s cts -> settled all_code all_code s cts ->
  (forall b, b ∈ mailboxes -> lock_trace b None (log s) = Some None) -> last_call worker (log s) <> None ->
  ctls s !! worker = Some x -> working x hand told -> in_network told (env (data s)) (log s) net -> hand = [] /\ net = [].
Proof.
  intros Hinv Hset Hfree Hcalled Hx Hw Hn. pose proof (se_sites _ _ _ _ Hset worker x Hx) as Hsite.
  destruct x as [p|c old p|old p|]; [| | |inversion Hw as [y Hy| |y Hy| |y m Hm Hy| |y b Hy|]; by destruct Hy as [?|[? ?]]].
  - destruct Hsite as [[? _]|(c & lk & _ & Hf & _)]; [done|]. destruct (worker_not_waiting _ _ _ _ _ _ _ Hf (or_introl eq_refl) Hw).
  - destruct Hsite as [_ [(n & y & -> & Hy & Hv)|(l & u & -> & Hu)]].
    + inversion Hw as [z Hz| |z Hz| |z m Hm Hz| |z b Hz|]; subst; try (by destruct Hz as [?|[? ?]]).
      destruct (s_semok _ _ _ Hinv _ _ Hy) as [E1 _]. rewrite Hv, Hinit in E1. split; [done|].
      destruct net as [|m [|]]; cbn in Hn, E1; [done|lia|done].
    + inversion Hw as [z Hz| |z Hz| |z m Hm Hz| |z b Hz|]; subst; try (by destruct Hz as [?|[? ?]]).
      rewrite Hfree in Hu; [done|]. apply elem_of_mailboxes. match goal with H : mail_ok _ |- _ => apply H end.
  - destruct Hsite as [[? _]|(c & lk & _ & Hf & _)]; [done|]. destruct (worker_not_waiting _ _ _ _ _ _ _ Hf (or_intror (ex_intro _ old eq_refl)) Hw).
Qed.

(** C14: no message is forgotten.  When nothing is left to run and the postal worker has
    been started, every message that has arrived is in its box or has been given out,
    and who waits in Receive waits for an empty box. *)
Theorem PostOffice_live ms s0 s (chs : list choice) :
  0 < numBoxes -> post_starts ms s0 -> present s0 -> runs s0 chs s -> small init (log s) -> stuck s -> last_call worker (log s) <> None ->
  exists sorted later,
    ms = sorted ++ later /\ Forall2 carries (coming (env (data s))) later /\
    forall i, 0 <= i < numBoxes -> exists xs,
      q_rep (lists (data s) (mailbox i)) xs /\ for_box i sorted = removed (data s) (mailbox i) ++ xs.*2 /\
      forall y, conditions (kern s) !! mailbox i = Some y -> q_is_empty (waitQ y) = false -> xs = [].
Proof.
  intros Hpos Hs Hpr Hr Hsm Hst. intros Hcalled. destruct (runs_at_work ms s0 s chs Hs Hr Hsm) as [(x & Hx & Hd) _]. cbn in Hx, Hd.
  destruct Hd as (sorted & hand & net & later & told & Hms & Hw & Hp & Hn & Hc & Ha).
  pose proof (fun b => sl_settled mailboxes po_code po_held PostOffice_caller_ok init s0 s chs b (ps_lists _ _ Hs) Hpr Hr Hsm Hst) as Hset.
  assert (hand = [] /\ net = []) as [-> ->].
  { destruct (Hset (mailbox 0)) as (cts & Hinv & Hse & _); [by apply elem_of_mailboxes|].
    eapply idle_worker; try done. intros b Hb. by destruct (Hset b Hb) as (? & _ & _ & ? & _). }
  exists sorted, later. split; [done|]. split; [done|]. intros i Hi.
  destruct (Hset (mailbox i)) as (cts & Hinv & Hse & Hfree & Hh); [by apply elem_of_mailboxes|].
  pose proof Hh as (xs & H1 & H2 & _). exists xs. split; [done|]. split; [by rewrite <- (Ha i Hi)|]. intros y Hy He.
  destruct (settled_waits mailboxes po_code po_held PostOffice_caller_ok s cts (mailbox i) y Hse) as [Hq _];
    [by apply elem_of_mailboxes|done..|]. rewrite (q_is_empty_rep _ _ _ H1) in Hq. by apply bool_decide_eq_true in Hq.
Qed.

End Delivery.
End PostOffice.

(** ** A post office with two boxes *)
#[local] Existing Instance i386.

Inductive po_op := Get (box : Z) | Mailto (pkt mail : Header) (data : list Z) | Launch (u : positive).

(** What a user has received, and what it still has to do. *)
#[export] Instance po_script : Patron (list Mail * list po_op) unit := {
  errands t p e :=
    match p with
    | (_, []) => Ok (e, NoMore)
    | (got, Get box :: ops) => Ok (e, PostReceive box (fun m => (got ++ [m], ops)))
    | (got, Mailto pkt mail data :: ops) => Ok (e, PostSend pkt mail data (got, ops))
    | (got, Launch u :: ops) => Ok (e, Besides (Fork u) (got, ops))
    end;
  errands_irq n e := None
}.

Lemma po_script_ok numBoxes messageAvailable messageSent sendLock :
  patron_ok numBoxes messageAvailable messageSent sendLock (fun _ : list Mail * list po_op => True) (fun _ => ∅).
Proof.
  split; try done.
  - intros t [got [|[box|pkt mail bs|u] ops]] e e' c p' _ H; cbn in H; try done. by injection H as _ <- <-.
Qed.

(** Machine 9 gets three messages, two of them for box 1. *)
Definition demo_message (box : Z) (c : Z) : Mail := mkMail (mkHeader 9 7 13) (mkHeader box 0 1) [c].
Definition demo_wired (m : Mail) : list Z := header_bytes (pktHdr m) ++ (header_bytes (mailHdr m) ++ letter m) ++ replicate 39 0.
Definition demo_messages : list Mail := [demo_message 1 65; demo_message 0 66; demo_message 1 67].

#[local] Instance demo_caller : Caller Mail (po_place (P := list Mail * list po_op)) (Post (E := unit)) :=
  PostOffice_caller 9 2 1 2 7 reliable (replicate 52 0) (replicate 64 0).
Definition demo_office : Sys NList.List (sl_pc (I := Mail) (P := po_place (P := list Mail * list po_op)))
    (sl_data (Q := NList.List) (I := Mail) (E := Post (E := unit))) :=
  boot 1%positive (Outside (User ([], [Launch 2; Launch 3; Get 1; Get 1])))
    [(2%positive, 0, Outside Sorting);
     (3%positive, 0, Outside (User ([], [Mailto (mkHeader 7 0 0) (mkHeader 1 0 1) [80]; Get 0; Get 1])))]
    [(1%positive, 0); (2%positive, 0)] [1%positive; 2%positive; 7%positive] [1%positive; 2%positive]
    (mkSl (PostOffice_new 9 (replicate 52 0) tt (replicate 52 0) (demo_wired <$> demo_messages)) (fun _ => q_new) (fun _ => []) (fun _ => [])).
Definition demo_polls : list choice := concat (replicate 40 [mkChoice [] false; mkChoice [1%positive; 2%positive] false]).
Definition demo_office_end := match run demo_polls demo_office with Ok s => s | Err _ => demo_office end.

Lemma demo_office_runs : runs demo_office demo_polls demo_office_end.
Proof. apply run_ends. vm_compute. reflexivity. Qed.

Lemma demo_office_small : small (first_value [(1%positive, 0); (2%positive, 0)]) (log demo_office_end).
Proof.
  assert (zlen (log demo_office_end) < 200) as Hlog by (vm_compute; done).
  apply small_first_value; [by repeat constructor|lia].
Qed.

Lemma demo_wired_ok m : m ∈ demo_messages -> carries 9 2 (demo_wired m) m.
Proof.
  intros Hm. split; [|split; [|by exists (replicate 39 0)]].
  - repeat (apply elem_of_cons in Hm as [->|Hm]); [..|by apply elem_of_nil in Hm].
    all: split; unfold header_ok, is_s32, is_u32, MaxMailSize, MaxPacketSize, MaxWireSize, HeaderSize; cbn; lia.
  - repeat (apply elem_of_cons in Hm as [->|Hm]); [vm_compute; reflexivity..|by apply elem_of_nil in Hm].
Qed.

Lemma demo_office_starts :
  post_starts 9 2 1 7 (fun _ : list Mail * list po_op => True) (fun _ => ∅)
    (first_value [(1%positive, 0); (2%positive, 0)]) 2%positive demo_messages demo_office.
Proof.
  split.
  - split.
    + apply boot_booted; [by repeat constructor|]. cbn. apply list.NoDup_cons. split; [set_solver|]. apply NoDup_singleton.
    + intros t x Hx. apply boot_sites in Hx as [->|(y & Hy & ->)]; [by eexists; split; [|split; [|by left]]|].
      apply elem_of_cons in Hy as [->|Hy%list_elem_of_singleton]; [|subst y];
        (eexists; split; [|split; [|by right; eexists]]; done).
    + intros b _. split; [apply q_new_rep|done].
  - eexists. split; [vm_compute; reflexivity|]. apply wk_loop. right. by eexists.
  - intros t x Ht Hx. cbn in Hx. apply lookup_insert_Some in Hx as [[_ <-]|[_ Hx]]; [done|].
    apply lookup_insert_Some in Hx as [[<- _]|[_ Hx]]; [done|]. apply lookup_insert_Some in Hx as [[_ <-]|[_ Hx]]; [done|].
    by rewrite lookup_empty in Hx.
  - by vm_compute.
  - cbn [demo_office data env coming PostOffice_new boot]. rewrite Forall2_fmap_l. apply Forall_Forall2_diag, list.Forall_forall.
    apply demo_wired_ok.
  - done.
Qed.

Lemma PostOffice_delivers_witness :
  removed (data demo_office_end) (mailbox 1) = [demo_message 1 65; demo_message 1 67] /\
  exists sorted rest, demo_messages = sorted ++ rest /\
    exists xs : list (Z * Mail), for_box 1 sorted = removed (data demo_office_end) (mailbox 1) ++ xs.*2.
Proof.
  split; [vm_compute; reflexivity|].
  destruct (PostOffice_delivers 9 2 1 2 7 reliable (replicate 52 0) (replicate 64 0) _ _ (po_script_ok 2 1 2 7)
    ltac:(vm_compute; set_solver) (first_value [(1%positive, 0); (2%positive, 0)]) 2%positive eq_refl
    ltac:(done) demo_messages demo_office demo_office_end demo_polls demo_office_starts demo_office_runs demo_office_small)
    as (sorted & hand & net & later & H1 & _ & _ & _ & H2 & _).
  exists sorted, (hand ++ net ++ later). split; [exact H1|]. destruct (H2 1 ltac:(lia)) as (xs & _ & H). by exists xs.
Defined.

(** The third user has one message too few. *)
Lemma PostOffice_live_witness :
  stuck demo_office_end /\
  exists sorted later, demo_messages = sorted ++ later /\
    exists y (xs : list (Z * Mail)), conditions (kern demo_office_end) !! mailbox 1 = Some y /\ q_is_empty (waitQ y) = false /\
      for_box 1 sorted = removed (data demo_office_end) (mailbox 1) ++ xs.*2 /\ xs = [].
Proof.
  assert (stuck demo_office_end) as Hst by (vm_compute; reflexivity). split; [exact Hst|].
  destruct (PostOffice_live 9 2 1 2 7 reliable (replicate 52 0) (replicate 64 0) _ _ (po_script_ok 2 1 2 7)
    ltac:(vm_compute; set_solver) (first_value [(1%positive, 0); (2%positive, 0)]) 2%positive eq_refl
    ltac:(done) demo_messages demo_office demo_office_end demo_polls)
    as (sorted & later & H1 & _ & H2).
  - lia.
  - exact demo_office_starts.
  - apply boot_present.
  - exact demo_office_runs.
  - exact demo_office_small.
  - exact Hst.
  - vm_compute. discriminate.
  - exists sorted, later. split; [exact H1|]. destruct (H2 1 ltac:(lia)) as (xs & _ & H & Hx). eexists _, xs.
    split; [vm_compute; reflexivity|]. split; [vm_compute; reflexivity|]. split; [exact H|].
    apply (Hx _ ltac:(vm_compute; reflexivity)). vm_compute. reflexivity.
Defined.
