(* ===== verification/Disk.v ===== *)
(** The simulated disk (machine/disk.h, machine/disk.cc): a UNIX file of a magic
    number and 1024 sectors, one request at a time, each of which takes the time
    a real disk would take to seek, to rotate and to transfer, and ends with an
    interrupt.  The routines take the time [now] of the clock they read, and ask
    for their interrupt with a [request] (Interrupt.v). *)
From Stdlib Require Import ZArith Lia Bool.
From stdpp Require Import base numbers list.
From S2P Require Import Prelude Machine Sectors Interrupt.

(** ** Files of the host (machine/sysdep.cc) *)

Record HostFile := mkHostFile { fbytes : list Z; foffset : Z }.

Definition Lseek (f : HostFile) (offset : Z) : res HostFile :=
  _ <- ASSERT (offset >=? 0) ;; Ok (mkHostFile (fbytes f) offset).

(** [read] gives what is there. *)
Definition HostRead (f : HostFile) (nBytes : Z) : res (HostFile * list Z) :=
  let bs := bytes_of (fbytes f) (foffset f) nBytes in
  _ <- ASSERT (zlen bs =? nBytes) ;;
  Ok (mkHostFile (fbytes f) (foffset f + zlen bs), bs).

(** [write] overwrites, and makes the file longer when it has to. *)
Definition WriteFile (f : HostFile) (bs : list Z) : res HostFile :=
  let gap := replicate (Z.to_nat (foffset f + zlen bs - zlen (fbytes f))) 0 in
  Ok (mkHostFile (patch (fbytes f ++ gap) (foffset f) bs) (foffset f + zlen bs)).

Section Disk.
Context {host : Host} {F : Type} (DiskDone : F).

Definition MagicNumber : Z := 0x456789ab.
Definition MagicSize : Z := 4.
Definition DiskSize : Z := MagicSize + NumSectors * SectorSize.

Record Disk := mkDisk {
  fileno : HostFile;
  active : bool;
  lastSector : Z;
  bufferInit : Z
}.

(** [Disk::Disk], for a file that exists, and for one that does not. *)
Definition Disk_new (existing : option (list Z)) : res Disk :=
  f <- match existing with
       | Some bs =>
           '(f, magic) <- HostRead (mkHostFile bs 0) MagicSize ;;
           _ <- ASSERT (s32 (host_value magic) =? MagicNumber) ;;
           Ok f
       | None =>
           f <- WriteFile (mkHostFile [] 0) (int_bytes MagicNumber) ;;
           f <- Lseek f (DiskSize - 4) ;;
           WriteFile f (int_bytes 0)
       end ;;
  Ok (mkDisk f false 0 0).

(** How long the seek takes, and the wait for the next sector boundary. *)
Definition TimeToSeek (d : Disk) (now newSector : Z) : Z * Z :=
  let newTrack := Z.quot newSector SectorsPerTrack in
  let oldTrack := Z.quot (lastSector d) SectorsPerTrack in
  let seek := s32 (Z.abs (newTrack - oldTrack) * SeekTime) in
  let over := Z.rem (s32 (now + seek)) RotationTime in
  let rotation := if over >? 0 then RotationTime - over else 0 in
  (seek, rotation).

Definition ModuloDiff (to from : Z) : Z :=
  let toOffset := Z.rem to SectorsPerTrack in
  let fromOffset := Z.rem from SectorsPerTrack in
  Z.rem ((toOffset - fromOffset) + SectorsPerTrack) SectorsPerTrack.

Definition ComputeLatency (d : Disk) (now newSector : Z) (writing : bool) : Z :=
  let '(seek, rotation) := TimeToSeek d now newSector in
  let timeAfter := s32 (now + seek + rotation) in
  if negb writing && (seek =? 0) &&
     (Z.quot (s32 (timeAfter - bufferInit d)) RotationTime >?
      ModuloDiff newSector (Z.quot (bufferInit d) RotationTime))
  then RotationTime
  else
    let rotation :=
      s32 (rotation + ModuloDiff newSector (Z.quot timeAfter RotationTime) * RotationTime) in
    s32 (seek + rotation + RotationTime).

Definition UpdateLast (d : Disk) (now newSector : Z) : Disk :=
  let '(seek, rotate) := TimeToSeek d now newSector in
  mkDisk (fileno d) (active d) newSector
    (if seek =? 0 then bufferInit d else s32 (now + seek + rotate)).

Definition in_disk (sectorNumber : Z) : bool := (sectorNumber >=? 0) && (sectorNumber <? NumSectors).

Definition with_file (f : HostFile) (b : bool) (d : Disk) : Disk :=
  mkDisk f b (lastSector d) (bufferInit d).

Definition ReadRequest (d : Disk) (now sectorNumber : Z) : res (Disk * list Z * list (request F)) :=
  let ticks := ComputeLatency d now sectorNumber false in
  _ <- ASSERT (negb (active d)) ;;
  _ <- ASSERT (in_disk sectorNumber) ;;
  f <- Lseek (fileno d) (SectorSize * sectorNumber + MagicSize) ;;
  '(f, bs) <- HostRead f SectorSize ;;
  let d := UpdateLast (with_file f true d) now sectorNumber in
  Ok (d, bs, [Counts numDiskReads; Schedules DiskDone 0 ticks DiskInt]).

Definition WriteRequest (d : Disk) (now sectorNumber : Z) (bs : list Z) : res (Disk * list (request F)) :=
  let ticks := ComputeLatency d now sectorNumber true in
  _ <- ASSERT (negb (active d)) ;;
  _ <- ASSERT (in_disk sectorNumber) ;;
  f <- Lseek (fileno d) (SectorSize * sectorNumber + MagicSize) ;;
  f <- WriteFile f bs ;;
  let d := UpdateLast (with_file f true d) now sectorNumber in
  Ok (d, [Counts numDiskWrites; Schedules DiskDone 0 ticks DiskInt]).

(** [Disk::HandleInterrupt]; the handler it calls is the client's. *)
Definition HandleInterrupt (d : Disk) : Disk := with_file (fileno d) false d.

(** ** How long a request takes *)

Definition head_ok (d : Disk) : Prop := 0 <= lastSector d < NumSectors.

Lemma ModuloDiff_spec to from :
  0 <= to -> 0 <= from -> ModuloDiff to from = (to - from) mod SectorsPerTrack.
Proof.
  intros. unfold ModuloDiff, SectorsPerTrack.
  rewrite (Z.rem_mod_nonneg to), (Z.rem_mod_nonneg from) by lia.
  pose proof (Z.mod_pos_bound to 32). pose proof (Z.mod_pos_bound from 32).
  rewrite Z.rem_mod_nonneg by lia. rewrite (Zminus_mod to from).
  by rewrite <- (Z.mod_add (to mod 32 - from mod 32) 1 32).
Qed.

(** The longest: a seek across the disk, and two rotations. *)
Definition max_latency : Z := (NumTracks - 1) * SeekTime + RotationTime + SectorsPerTrack * RotationTime.

Lemma TimeToSeek_spec d now i :
  head_ok d -> 0 <= i < NumSectors -> 0 <= now -> now + max_latency < 2 ^ 31 ->
  exists seek rotation, TimeToSeek d now i = (seek, rotation) /\
    seek = Z.abs (i / SectorsPerTrack - lastSector d / SectorsPerTrack) * SeekTime /\
    0 <= seek <= (NumTracks - 1) * SeekTime /\
    0 <= rotation < RotationTime /\ (now + seek + rotation) mod RotationTime = 0.
Proof.
  intros Hl Hi Hn Hm. unfold TimeToSeek, head_ok in *.
  rewrite !Z.quot_div_nonneg by (unfold SectorsPerTrack; lia).
  set (tr := Z.abs (i / SectorsPerTrack - lastSector d / SectorsPerTrack)).
  assert (0 <= tr <= NumTracks - 1) as Htr.
  { unfold tr, NumSectors, SectorsPerTrack, NumTracks in *. Z.div_mod_to_equations. lia. }
  unfold max_latency, SeekTime, RotationTime, SectorsPerTrack, NumTracks in *.
  change (2 ^ 31) with 2147483648 in *.
  assert (s32 (tr * 500) = tr * 500) as -> by (apply s32_small; word_lia).
  assert (s32 (now + tr * 500) = now + tr * 500) as -> by (apply s32_small; word_lia).
  rewrite Z.rem_mod_nonneg by lia. eexists _, _. split; [done|].
  destruct (Z.gtb_spec ((now + tr * 500) mod 500) 0); Z.div_mod_to_equations; lia.
Qed.

(** The track buffer: the disk has been reading the current track into it from the
    sector boundary [bufferInit] on. *)
Definition buffer_ok (d : Disk) : Prop := 0 <= bufferInit d < 2 ^ 31 /\ bufferInit d mod RotationTime = 0.

(** It has a sector of the track when the sector has come to the head since then. *)
Definition in_track_buffer (d : Disk) (now i : Z) : Prop :=
  i / SectorsPerTrack = lastSector d / SectorsPerTrack /\
  exists k, bufferInit d <= k * RotationTime < now /\ k mod SectorsPerTrack = i mod SectorsPerTrack.

(** One of [n] slots in a row from [b] on is that of sector [i] when [n] is large enough. *)
Lemma passed_by b t i : b < t /\ (i - b) mod SectorsPerTrack < t - b <->
  exists k, b <= k < t /\ k mod SectorsPerTrack = i mod SectorsPerTrack.
Proof.
  unfold SectorsPerTrack. pose proof (Z.mod_pos_bound (i - b) 32 ltac:(lia)). split.
  - intros [_ Hlt]. exists (b + (i - b) mod 32). split; [lia|].
    rewrite Z.add_mod_idemp_r by lia. f_equal. lia.
  - intros (k & Hk & E). assert ((i - b) mod 32 = (k - b) mod 32) as ->.
    { rewrite (Zminus_mod i), (Zminus_mod k). by rewrite E. }
    pose proof (Z.mod_le (k - b) 32). lia.
Qed.

(** The test of [ComputeLatency], at the sector boundary [t] the head waits for. *)
Lemma buffer_test d now i t :
  0 <= now -> 0 <= i -> buffer_ok d -> now <= t < now + RotationTime -> t mod RotationTime = 0 -> t < 2 ^ 31 ->
  (Z.quot (s32 (t - bufferInit d)) RotationTime >? ModuloDiff i (Z.quot (bufferInit d) RotationTime)) = true <->
  exists k, bufferInit d <= k * RotationTime < now /\ k mod SectorsPerTrack = i mod SectorsPerTrack.
Proof.
  intros Hn Hi [[Hb0 Hb] Hbm] Ht Htm Hts. unfold RotationTime in *. change (2 ^ 31) with 2147483648 in *.
  rewrite s32_small by (unfold is_s32; lia). rewrite (Z.quot_div_nonneg (bufferInit d)) by lia.
  rewrite ModuloDiff_spec by (try lia; apply Z.div_pos; lia).
  pose proof (Z.div_mod (bufferInit d) 500) as Eb. pose proof (Z.div_mod t 500) as Et.
  set (b := bufferInit d / 500) in *. set (q := t / 500) in *.
  assert (Z.quot (t - bufferInit d) 500 = q - b) as ->.
  { replace (t - bufferInit d) with ((q - b) * 500) by lia. apply Z.quot_mul. lia. }
  rewrite Z.gtb_lt. pose proof (Z.mod_pos_bound (i - b) SectorsPerTrack ltac:(done)). split.
  - intros H0. destruct (proj1 (passed_by b q i)) as (k & Hk & E); [lia|]. exists k. split; [lia|done].
  - intros (k & Hk & E). apply (passed_by b q i). exists k. split; [lia|done].
Qed.

(** What [ComputeLatency] computes: from the track buffer, or from the disk. *)
Lemma latency_shape d now i writing (seek := Z.abs (i / SectorsPerTrack - lastSector d / SectorsPerTrack) * SeekTime) :
  head_ok d -> 0 <= i < NumSectors -> 0 <= now -> now + max_latency < 2 ^ 31 ->
  0 <= seek <= (NumTracks - 1) * SeekTime /\
  exists rot (t := now + seek + rot), 0 <= rot < RotationTime /\ t mod RotationTime = 0 /\
    ComputeLatency d now i writing =
      if negb writing && (seek =? 0) &&
         (Z.quot (s32 (t - bufferInit d)) RotationTime >? ModuloDiff i (Z.quot (bufferInit d) RotationTime))
      then RotationTime
      else seek + rot + (i - t / RotationTime) mod SectorsPerTrack * RotationTime + RotationTime.
Proof.
  intros Hd Hi Hn Hm. unfold ComputeLatency.
  destruct (TimeToSeek_spec d now i Hd Hi Hn Hm) as (sk & rot & -> & Hsk & Hskb & Hrot & Hal).
  fold seek in Hsk. subst sk. unfold max_latency in *. split; [done|]. exists rot. cbv zeta. split; [done|]. split; [done|].
  unfold SeekTime, RotationTime, SectorsPerTrack, NumTracks in *. change (2 ^ 31) with 2147483648 in *.
  rewrite (s32_small (now + seek + rot)) by (unfold is_s32; lia). destruct (_ && _); [done|].
  rewrite (Z.quot_div_nonneg (now + seek + rot)) by lia. rewrite ModuloDiff_spec by (try lia; apply Z.div_pos; lia).
  unfold SectorsPerTrack. pose proof (Z.mod_pos_bound (i - (now + seek + rot) / 500) 32 ltac:(lia)) as Hmd.
  rewrite (s32_small (rot + _)), s32_small by (unfold is_s32; lia). lia.
Qed.

Lemma latency_bounds d now i writing :
  head_ok d -> 0 <= i < NumSectors -> 0 <= now -> now + max_latency < 2 ^ 31 ->
  RotationTime <= ComputeLatency d now i writing <= max_latency.
Proof.
  intros Hd Hi Hn Hm. destruct (latency_shape d now i writing Hd Hi Hn Hm) as (Hs & rot & Hr & _ & ->).
  revert Hs. generalize (Z.abs (i / SectorsPerTrack - lastSector d / SectorsPerTrack) * SeekTime). intros seek Hs.
  unfold max_latency, SeekTime, RotationTime, SectorsPerTrack, NumTracks in *.
  pose proof (Z.mod_pos_bound (i - (now + seek + rot) / 500) 32 ltac:(lia)). destruct (_ && _); lia.
Qed.

(** The two ways a request goes, told apart by what the track buffer has. *)
Lemma latency_cases d now i writing (seek := Z.abs (i / SectorsPerTrack - lastSector d / SectorsPerTrack) * SeekTime) :
  head_ok d -> buffer_ok d -> 0 <= i < NumSectors -> 0 <= now -> now + max_latency < 2 ^ 31 ->
  0 <= seek <= (NumTracks - 1) * SeekTime /\
  ((writing = false /\ in_track_buffer d now i) /\ ComputeLatency d now i writing = RotationTime \/
   ~ (writing = false /\ in_track_buffer d now i) /\
   exists rot, 0 <= rot < RotationTime /\ (now + seek + rot) mod RotationTime = 0 /\
     ComputeLatency d now i writing =
       seek + rot + (i - (now + seek + rot) / RotationTime) mod SectorsPerTrack * RotationTime + RotationTime).
Proof.
  intros Hd Hb Hi Hn Hm. destruct (latency_shape d now i writing Hd Hi Hn Hm) as (Hs & rot & Hr & Hal & ->).
  fold seek in Hs, Hal. fold seek. split; [done|].
  assert (seek = 0 <-> i / SectorsPerTrack = lastSector d / SectorsPerTrack) as Hsame.
  { unfold seek, SeekTime. lia. }
  assert (seek = 0 -> (Z.quot (s32 (now + seek + rot - bufferInit d)) RotationTime >?
      ModuloDiff i (Z.quot (bufferInit d) RotationTime)) = true <->
    exists k, bufferInit d <= k * RotationTime < now /\ k mod SectorsPerTrack = i mod SectorsPerTrack) as Htest.
  { intros Es. apply buffer_test; try done; try lia. unfold max_latency, SeekTime, RotationTime, SectorsPerTrack, NumTracks in *. lia. }
  destruct (_ && _) eqn:Eb.
  - apply andb_true_iff in Eb as [[Ew%negb_true_iff Es%Z.eqb_eq]%andb_true_iff Et]. left. split; [|done].
    split; [done|]. split; [by apply Hsame|by apply Htest].
  - right. split; [|by exists rot]. intros (Ew & Es & Ek). apply Hsame in Es.
    by rewrite Ew, (proj2 (Z.eqb_eq _ _) Es), (proj2 (Htest Es) Ek) in Eb.
Qed.

(** A request leaves the head on its sector; a seek empties the track buffer. *)
Lemma UpdateLast_buffer d now i :
  head_ok d -> buffer_ok d -> 0 <= i < NumSectors -> 0 <= now -> now + max_latency < 2 ^ 31 ->
  lastSector (UpdateLast d now i) = i /\ buffer_ok (UpdateLast d now i).
Proof.
  intros Hd Hb Hi Hn Hm. unfold UpdateLast.
  destruct (TimeToSeek_spec d now i Hd Hi Hn Hm) as (sk & rot & -> & _ & Hskb & Hrot & Hal). split; [done|].
  unfold buffer_ok. cbn [bufferInit]. destruct (sk =? 0); [done|].
  unfold max_latency, SeekTime, RotationTime, SectorsPerTrack, NumTracks in *. change (2 ^ 31) with 2147483648 in *.
  rewrite s32_small by (unfold is_s32; lia). lia.
Qed.


(** ** What the file holds *)

Record disk_ok (d : Disk) : Prop := {
  do_length : zlen (fbytes (fileno d)) = DiskSize;
  do_bytes : Forall is_byte (fbytes (fileno d));
  do_magic : bytes_of (fbytes (fileno d)) 0 MagicSize = int_bytes MagicNumber;
  do_head : head_ok d
}.

Definition content (d : Disk) (i : Z) : list Z :=
  bytes_of (fbytes (fileno d)) (SectorSize * i + MagicSize) SectorSize.

Lemma sector_place (d : Disk) i :
  disk_ok d -> 0 <= i < NumSectors -> 0 <= SectorSize * i + MagicSize /\
    SectorSize * i + MagicSize + SectorSize <= zlen (fbytes (fileno d)).
Proof.
  intros [Hl _ _ _] Hi. rewrite Hl. unfold DiskSize, MagicSize. generalize NumSectors Hi. intros n Hn.
  unfold SectorSize. lia.
Qed.

Lemma content_is_sector d i : disk_ok d -> 0 <= i < NumSectors -> is_sector (content d i).
Proof.
  intros Hd Hi. destruct (sector_place d i Hd Hi) as [H1 H2]. split.
  - apply bytes_of_length; [done|unfold SectorSize; lia|done].
  - apply bytes_of_bytes, Hd.
Qed.

Lemma UpdateLast_ok d now i :
  disk_ok d -> 0 <= i < NumSectors -> disk_ok (UpdateLast d now i).
Proof.
  intros [H1 H2 H3 H4] Hi. unfold UpdateLast. destruct (TimeToSeek d now i) as [seek rotate].
  split; [exact H1|exact H2|exact H3|exact Hi].
Qed.

Lemma UpdateLast_file d now i : fileno (UpdateLast d now i) = fileno d /\ active (UpdateLast d now i) = active d.
Proof. unfold UpdateLast. destruct (TimeToSeek d now i) as [seek rotate]. split; reflexivity. Qed.

Lemma in_disk_true i : 0 <= i < NumSectors -> in_disk i = true.
Proof. intros. unfold in_disk. apply andb_true_iff. split; [apply Z.geb_le|apply Z.ltb_lt]; lia. Qed.

Lemma Lseek_ok f o : 0 <= o -> Lseek f o = Ok (mkHostFile (fbytes f) o).
Proof. intros. unfold Lseek. by rewrite (proj2 (Z.geb_le o 0)) by lia. Qed.

Lemma ReadRequest_ok d now i :
  disk_ok d -> active d = false -> 0 <= i < NumSectors ->
  exists d', ReadRequest d now i =
      Ok (d', content d i, [Counts numDiskReads; Schedules DiskDone 0 (ComputeLatency d now i false) DiskInt]) /\
    disk_ok d' /\ active d' = true /\ forall j, content d' j = content d j.
Proof.
  intros Hd Ha Hi. destruct (sector_place d i Hd Hi) as [H1 H2]. destruct (content_is_sector d i Hd Hi) as [Hl _].
  unfold ReadRequest. rewrite Ha, in_disk_true, Lseek_ok by done. cbn [ASSERT bindr negb].
  unfold HostRead. cbn [fbytes foffset]. fold (content d i). rewrite Hl, Z.eqb_refl. cbn [ASSERT bindr].
  eexists. split; [done|]. set (d1 := with_file _ _ _). destruct (UpdateLast_file d1 now i) as [Ef Ea].
  split; [|split; [done|intros j; unfold content; by rewrite Ef]].
  apply UpdateLast_ok; [|done]. destruct Hd. by split.
Qed.

Lemma WriteRequest_ok d now i bs :
  disk_ok d -> active d = false -> 0 <= i < NumSectors -> is_sector bs ->
  exists d', WriteRequest d now i bs =
      Ok (d', [Counts numDiskWrites; Schedules DiskDone 0 (ComputeLatency d now i true) DiskInt]) /\
    disk_ok d' /\ active d' = true /\
    forall j, 0 <= j < NumSectors -> content d' j = if j =? i then bs else content d j.
Proof.
  intros Hd Ha Hi [Hbs Hby]. destruct (sector_place d i Hd Hi) as [H1 H2].
  unfold WriteRequest. rewrite Ha, in_disk_true, Lseek_ok by done. cbn [ASSERT bindr negb].
  unfold WriteFile. cbn [fbytes foffset bindr].
  assert (SectorSize * i + MagicSize + zlen bs <= zlen (fbytes (fileno d))) as H2' by by rewrite Hbs.
  replace (Z.to_nat (SectorSize * i + MagicSize + zlen bs - zlen (fbytes (fileno d)))) with 0%nat by lia.
  cbn [replicate]. rewrite app_nil_r.
  eexists. split; [done|]. set (d1 := with_file _ _ _). destruct (UpdateLast_file d1 now i) as [Ef Ea].
  split; [|split; [done|]].
  - apply UpdateLast_ok; [|done]. destruct Hd as [D1 D2 D3 D4]. split; cbn; [|by apply patch_bytes| |exact D4].
    + rewrite length_patch; [exact D1|lia|lia].
    + rewrite bytes_of_patch_other; [exact D3|exact H1|exact H2'|..]; unfold MagicSize, SectorSize in *; lia.
  - intros j Hj. unfold content. rewrite Ef. cbn [d1 fileno with_file fbytes].
    destruct (Z.eqb_spec j i) as [->|Hne].
    + pose proof (bytes_of_patch (fbytes (fileno d)) (SectorSize * i + MagicSize) bs H1 H2') as E.
      by rewrite Hbs in E.
    + destruct (sector_place d j Hd Hj) as [H3 _]. apply bytes_of_patch_other; [exact H1|exact H2'|exact H3|..];
        rewrite ?Hbs; unfold SectorSize in *; lia.
Qed.

Lemma HandleInterrupt_ok d :
  disk_ok d -> disk_ok (HandleInterrupt d) /\ active (HandleInterrupt d) = false /\
    forall j, content (HandleInterrupt d) j = content d j.
Proof.
  intros [H1 H2 H3 H4]. split; [split; [exact H1|exact H2|exact H3|exact H4]|]. split; [reflexivity|].
  intros j. reflexivity.
Qed.

(** ** A disk that is made, and one that is opened again *)

Lemma bytes_of_app_l (a b : list Z) n : zlen a = n -> bytes_of (a ++ b) 0 n = a.
Proof. intros <-. unfold bytes_of. by rewrite Nat2Z.id, drop_0, take_app_length. Qed.

Lemma WriteFile_new bs : WriteFile (mkHostFile [] 0) bs = Ok (mkHostFile bs (zlen bs)).
Proof.
  unfold WriteFile, patch. cbn [fbytes foffset]. f_equal. f_equal.
  rewrite take_0, drop_ge; [by rewrite app_nil_r|]. cbn [app]. rewrite length_replicate. cbn [length]. lia.
Qed.

Lemma Disk_new_ok : exists d, Disk_new None = Ok d /\ disk_ok d /\ active d = false.
Proof.
  unfold Disk_new. rewrite WriteFile_new. cbn [bindr].
  assert (zlen (int_bytes MagicNumber) = 4) as Hm by by rewrite length_int_bytes.
  assert (8 <= DiskSize) as Hd by (vm_compute; discriminate).
  rewrite Lseek_ok by lia. cbn [bindr fbytes]. unfold WriteFile. cbn [fbytes foffset bindr].
  eexists. split; [done|]. split; [|done].
  assert (zlen (int_bytes 0) = 4) as Hz by by rewrite length_int_bytes.
  rewrite Hm, Hz. set (g := int_bytes MagicNumber ++ _).
  assert (zlen g = DiskSize) as Hg.
  { unfold g. rewrite length_app, length_replicate. lia. }
  split; cbn [fileno fbytes lastSector].
  - rewrite length_patch; [exact Hg|lia|lia].
  - apply patch_bytes; [|apply int_bytes_bytes]. apply Forall_app. split; [apply int_bytes_bytes|].
    apply Forall_replicate. unfold is_byte. lia.
  - unfold MagicSize. rewrite bytes_of_patch_other; [|lia..]. by apply bytes_of_app_l.
  - unfold head_ok. cbn [lastSector]. split; [lia|]. vm_compute. reflexivity.
Qed.

(** The sectors are still there when the disk is opened again. *)
Lemma Disk_reopen d :
  disk_ok d -> exists d', Disk_new (Some (fbytes (fileno d))) = Ok d' /\ disk_ok d' /\ active d' = false /\
    forall j, content d' j = content d j.
Proof.
  intros [H1 H2 H3 H4]. unfold Disk_new, HostRead. cbn [fbytes foffset]. rewrite H3.
  assert (zlen (int_bytes MagicNumber) =? MagicSize = true) as -> by (by rewrite length_int_bytes).
  cbn [ASSERT bindr]. rewrite int_at_bytes by (vm_compute; split; congruence).
  rewrite Z.eqb_refl. cbn [ASSERT bindr].
  eexists. split; [done|]. split; [|split; [done|intros j; reflexivity]].
  split; [exact H1|exact H2|exact H3|]. unfold head_ok. cbn [lastSector]. split; [lia|].
  vm_compute. reflexivity.
Qed.

(** What is on the disk outlives the machine.  After a write, and the interrupt
    that ends it, a machine started later on the file that stands for the disk
    finds the disk in order and idle, and reads back the sector written and, in
    all the other sectors, what they held. *)
Theorem disk_persists (d : Disk) (now later i j : Z) (bs : list Z) :
  disk_ok d -> active d = false -> 0 <= i < NumSectors -> 0 <= j < NumSectors -> is_sector bs ->
  exists d1 rs d2 d3 rs',
    WriteRequest d now i bs = Ok (d1, rs) /\
    Disk_new (Some (fbytes (fileno (HandleInterrupt d1)))) = Ok d2 /\ disk_ok d2 /\
    ReadRequest d2 later j = Ok (d3, if j =? i then bs else content d j, rs').
Proof.
  intros Hd Ha Hi Hj Hb. destruct (WriteRequest_ok d now i bs Hd Ha Hi Hb) as (d1 & E1 & Hd1 & _ & H1).
  destruct (HandleInterrupt_ok d1 Hd1) as (Hh & _ & Hk).
  destruct (Disk_reopen (HandleInterrupt d1) Hh) as (d2 & E2 & Hd2 & Ha2 & H2).
  destruct (ReadRequest_ok d2 later j Hd2 Ha2 Hj) as (d3 & E3 & _).
  eexists d1, _, d2, d3, _. split; [exact E1|]. split; [exact E2|]. split; [exact Hd2|].
  rewrite E3, H2, Hk, H1 by exact Hj. reflexivity.
Qed.
End Disk.


Lemma disk_persists_witness :
  let host := i386 in
  exists d d1 rs d2 d3 rs' bs, WriteRequest tt d 0 5 (replicate 128 9) = Ok (d1, rs) /\
    Disk_new (Some (fbytes (fileno (HandleInterrupt d1)))) = Ok d2 /\
    ReadRequest tt d2 0 5 = Ok (d3, bs, rs') /\ bs = replicate 128 9.
Proof.
  intros host. destruct (Disk_new_ok (host := i386)) as (d & _ & Hd & Ha).
  destruct (disk_persists (host := i386) tt d 0 0 5 5 (replicate 128 9) Hd Ha) as (d1 & rs & d2 & d3 & rs' & H1 & H2 & _ & H3).
  - split; vm_compute; congruence.
  - split; vm_compute; congruence.
  - split; [reflexivity|]. apply Forall_replicate. unfold is_byte. lia.
  - exists d, d1, rs, d2, d3, rs', (replicate 128 9). rewrite Z.eqb_refl in H3. by split_and!.
Defined.
