(* ===== verification/SynchDisk.v ===== *)
(** The synchronous disk (filesys/synchdisk.h, filesys/synchdisk.cc): a lock so
    that only one request is at the disk, a semaphore to wait for its interrupt.

    Two views of it.  To the file system, which calls it with nobody else around,
    it is a [SectorStore].  To threads that call it at the same time it is a
    [Client] of the synchronization routines, a monitor whose lock protects the
    disk; the device's interrupt is the client's [on_irq]. *)
From Stdlib Require Import ZArith Lia Bool.
From stdpp Require Import base numbers list gmap fin_maps fin_sets.
From S2P Require Import Prelude Lists Machine Threads Synch System Steps Conditions Monitor Requests Interrupt Sectors Disk.

Section SynchDisk.
Context {host : Host}.

(** The clock when the disk's [n]-th request is made; it has room for the longest
    request. *)
Context (clock : nat -> Z).
Definition clock_ok : Prop := forall n, 0 <= clock n /\ clock n + max_latency < 2 ^ 31.

(** The disk and the number of requests it has had. *)
Record Drive := mkDrive { drive : Disk; turns : nat }.

(** What the controller makes of the disk's requests: it asserts that the
    interrupt lies ahead. *)
Definition scheduled (rs : list (request unit)) : res unit :=
  ASSERT (forallb (fun n => n >? 0) (delays rs)).

Definition start_read (v : Drive) (i : Z) : res (Drive * list Z) :=
  '(d, bs, rs) <- ReadRequest tt (drive v) (clock (turns v)) i ;;
  _ <- scheduled rs ;;
  Ok (mkDrive d (S (turns v)), bs).

Definition start_write (v : Drive) (i : Z) (bs : list Z) : res Drive :=
  '(d, rs) <- WriteRequest tt (drive v) (clock (turns v)) i bs ;;
  _ <- scheduled rs ;;
  Ok (mkDrive d (S (turns v))).

(** The interrupt that ends the request. *)
Definition finish (v : Drive) : Drive := mkDrive (HandleInterrupt (drive v)) (turns v).

(** *** One caller at a time *)

#[export] Instance SynchDisk_store : SectorStore Drive := {|
  ReadSector i v := '(v, bs) <- start_read v i ;; Ok (finish v, bs);
  WriteSector i bs v := v <- start_write v i bs ;; Ok (finish v)
|}.

Definition drive_ok (v : Drive) : Prop := disk_ok (drive v) /\ active (drive v) = false.

Lemma scheduled_ok n ty c :
  0 < n -> scheduled [Counts c; Schedules tt 0 n ty] = Ok tt.
Proof. intros Hn. unfold scheduled. cbn. by rewrite (proj2 (Z.gtb_lt n 0)). Qed.

Lemma latency_positive d n i w :
  clock_ok -> disk_ok d -> 0 <= i < NumSectors -> 0 < ComputeLatency d (clock n) i w.
Proof.
  intros Hc Hd Hi. destruct (Hc n) as [H1 H2].
  destruct (latency_bounds d (clock n) i w (do_head d Hd) Hi H1 H2) as [H _]. unfold RotationTime in H. lia.
Qed.

Lemma start_read_ok v i :
  clock_ok -> disk_ok (drive v) -> active (drive v) = false -> 0 <= i < NumSectors ->
  exists v', start_read v i = Ok (v', content (drive v) i) /\ disk_ok (drive v') /\ active (drive v') = true /\
    forall j, content (drive v') j = content (drive v) j.
Proof.
  intros Hc Hd Ha Hi. unfold start_read.
  destruct (ReadRequest_ok tt (drive v) (clock (turns v)) i Hd Ha Hi) as (d' & -> & H). cbn [bindr].
  rewrite scheduled_ok by by apply latency_positive. cbn [bindr]. by eexists.
Qed.

Lemma start_write_ok v i bs :
  clock_ok -> disk_ok (drive v) -> active (drive v) = false -> 0 <= i < NumSectors -> is_sector bs ->
  exists v', start_write v i bs = Ok v' /\ disk_ok (drive v') /\ active (drive v') = true /\
    forall j, 0 <= j < NumSectors -> content (drive v') j = if j =? i then bs else content (drive v) j.
Proof.
  intros Hc Hd Ha Hi Hb. unfold start_write.
  destruct (WriteRequest_ok tt (drive v) (clock (turns v)) i bs Hd Ha Hi Hb) as (d' & -> & H). cbn [bindr].
  rewrite scheduled_ok by by apply latency_positive. cbn [bindr]. by eexists.
Qed.

#[export] Instance SynchDisk_laws (Hc : clock_ok) : SectorStoreLaws Drive.
Proof.
  refine {| disk_wf := drive_ok; sector := fun v => content (drive v) |}.
  - intros v i [Hd _]. by apply content_is_sector.
  - intros v i [Hd Ha] Hi. destruct (start_read_ok v i Hc Hd Ha Hi) as (v' & E & Hd' & _ & Hk).
    destruct (HandleInterrupt_ok (drive v') Hd') as (H1 & H2 & H3).
    exists (finish v'). cbn. rewrite E. cbn [bindr]. split; [done|]. split; [by split|].
    intros j _. cbn. by rewrite H3.
  - intros v i bs [Hd Ha] Hi Hb. destruct (start_write_ok v i bs Hc Hd Ha Hi Hb) as (v' & E & Hd' & _ & Hk).
    destruct (HandleInterrupt_ok (drive v') Hd') as (H1 & H2 & H3).
    exists (finish v'). cbn. rewrite E. cbn [bindr]. split; [done|]. split; [by split|].
    intros j Hj. cbn. rewrite H3. by apply Hk.
Defined.

(** *** Many callers

    ReadSector and WriteSector are operations of one request: Acquire, ReadRequest
    or WriteRequest, P, Release. *)
Inductive disk_job := Rd (i : Z) | Wr (i : Z) (bs : list Z).

#[export] Instance SynchDisk_device : Device Drive disk_job (list Z) := {|
  dev_start v j :=
    match j with
    | Rd i => start_read v i
    | Wr i bs => v <- start_write v i bs ;; Ok (v, [])
    end;
  dev_busy v := active (drive v);
  dev_finish := finish
|}.

(** The disk as an array of sectors; a read answers what the sector holds. *)
Definition sectors_step (s : Z -> list Z) (j : disk_job) : (Z -> list Z) * list Z :=
  match j with
  | Rd i => (s, s i)
  | Wr i bs => (fun k => if k =? i then bs else s k, [])
  end.

Definition drive_rep (v : Drive) (s : Z -> list Z) : Prop :=
  disk_ok (drive v) /\ forall i, 0 <= i < NumSectors -> content (drive v) i = s i.

#[export] Instance SynchDisk_device_laws (Hc : clock_ok) : DeviceLaws Drive disk_job (list Z) (Z -> list Z).
Proof.
  refine {| dev_rep := drive_rep; dev_step := sectors_step;
    job_ok := fun j => match j with Rd i => 0 <= i < NumSectors | Wr i bs => 0 <= i < NumSectors /\ is_sector bs end |}.
  - intros v s [i|i bs] [Hd Hs] Hb Hj; cbn in Hb, Hj |- *.
    + destruct (start_read_ok v i Hc Hd Hb Hj) as (v' & -> & Hd' & Ha' & Hk). rewrite Hs by done.
      eexists. split; [done|]. split; [|done]. split; [done|]. intros k Hk'. rewrite Hk. by apply Hs.
    + destruct Hj as [Hi Hbs]. destruct (start_write_ok v i bs Hc Hd Hb Hi Hbs) as (v' & -> & Hd' & Ha' & Hk).
      cbn [bindr]. eexists. split; [done|]. split; [|done]. split; [done|]. intros k Hk'. rewrite Hk by done.
      destruct (k =? i); [done|]. by apply Hs.
  - intros v s [Hd Hs]. destruct (HandleInterrupt_ok (drive v) Hd) as (H1 & H2 & H3).
    split; [|exact H2]. split; [exact H1|]. intros i Hi. cbn. rewrite H3. by apply Hs.
Defined.

Section Runs.
Context {Q : Type -> Type} `{!Queue Q, !QueueLaws Q} (init : positive -> Z) (semaphore lock : positive).
Hypothesis Hc : clock_ok.
#[local] Existing Instance SynchDisk_device_laws.
#[local] Instance disk_client : Client (rq_pc disk_job) (rq_data Drive disk_job (list Z)) :=
  requests semaphore lock.

(** C7: threads may use the synchronous disk at the same time.  Whatever they ask
    for and however they are interleaved, the ASSERT of the disk that it serves
    one request at a time never fails, a caller goes on only when its request is
    over, and the operations are atomic: the sectors of the disk are those that
    the requests, one after the other in the order they were made, leave behind,
    and every read has put in its caller's buffer what the sector held then. *)
Theorem SynchDisk_atomic (s0 s : Sys Q (rq_pc disk_job) (rq_data Drive disk_job (list Z))) (chs : list choice) :
  init semaphore = 0 -> booted init s0 -> runs s0 chs s -> small init (log s) ->
  (forall t x, ctls s0 !! t = Some x ->
     site_typed (rq_code (DeviceLaws0 := SynchDisk_device_laws Hc)) (rq_held lock) x ∅) ->
  trace (data s0) = [] -> ops (data s0) = [] -> drive_ok (dev (data s0)) ->
  exists sectors,
    replays (DeviceLaws0 := SynchDisk_device_laws Hc)
      (content (drive (dev (data s0)))) (trace (data s)) sectors /\
    (forall i, 0 <= i < NumSectors -> content (drive (dev (data s))) i = sectors i) /\
    (forall t started todo ts, ctls s !! t = Some (At (Holding started todo ts)) ->
       active (drive (dev (data s))) = false /\
       match todo with [] => True | j :: _ => is_ok (dev_start (dev (data s)) j) end).
Proof.
  intros Hi Hb Hr Hsm Hst Htr Hop [Hd Ha].
  destruct (requests_atomic (DeviceLaws0 := SynchDisk_device_laws Hc) semaphore lock init (content (drive (dev (data s0)))) Hi s0 s chs Hb Hr Hsm Hst Htr Hop)
    as (cur & (sectors & [_ Hs] & Hrep & _) & Hat & Hok); [by split|done|].
  exists sectors. split; [done|]. split; [done|].
  intros t started todo ts Hp. split; [apply (Hat t _ Hp); set_solver|].
  destruct todo as [|j todo]; [done|]. by eapply Hok.
Qed.
End Runs.
End SynchDisk.

(** ** Two threads at one disk *)

#[local] Existing Instance i386.

Definition demo_clock (n : nat) : Z := 0.
Definition demo_buffer : list Z := replicate 128 7.
Definition demo_drive : Drive :=
  mkDrive (match Disk_new None with Ok d => d | Err _ => mkDisk (mkHostFile [] 0) false 0 0 end) 0.

(** Thread 1 writes sector 3, thread 2 reads it. *)
Definition demo_disk : Sys NList.List (rq_pc disk_job) (rq_data Drive disk_job (list Z)) :=
  boot 1%positive (Between [Spawn 2; Do [Wr 3 demo_buffer]]) [(2%positive, 0, Between [Do [Rd 3]])]
    [(1%positive, 0)] [1%positive] [] (mkRq demo_drive [] []).
#[local] Instance demo_disk_client : Client (rq_pc disk_job) (rq_data Drive disk_job (list Z)) :=
  disk_client demo_clock 1 1.
Definition demo_turns : list choice :=
  concat (replicate 6 [mkChoice [] false; mkChoice [1%positive] false]).
Definition demo_disk_end : Sys NList.List (rq_pc disk_job) (rq_data Drive disk_job (list Z)) :=
  match run demo_turns demo_disk with Ok s => s | Err _ => demo_disk end.

Lemma demo_disk_runs : runs demo_disk demo_turns demo_disk_end.
Proof.
  apply run_reaches. unfold demo_disk_end.
  assert (match run demo_turns demo_disk with Ok _ => true | Err _ => false end = true) as H by (vm_compute; reflexivity).
  by destruct (run demo_turns demo_disk).
Qed.

Lemma demo_drive_ok : drive_ok demo_drive.
Proof. unfold demo_drive. destruct Disk_new_ok as (d & -> & Hd). exact Hd. Qed.

Lemma demo_clock_ok : clock_ok demo_clock.
Proof. intros n. split; vm_compute; congruence. Qed.

Lemma demo_sector_ok : 0 <= 3 < NumSectors /\ is_sector demo_buffer.
Proof.
  split; [split; vm_compute; congruence|]. split; [reflexivity|]. apply Forall_replicate. unfold is_byte. lia.
Qed.

(** Thread 2 has read what thread 1 has written. *)
Lemma SynchDisk_atomic_witness :
  trace (data demo_disk_end) = [(1%positive, Wr 3 demo_buffer, []); (2%positive, Rd 3, demo_buffer)] /\
  exists sectors, replays (DeviceLaws0 := SynchDisk_device_laws demo_clock demo_clock_ok)
    (content (drive demo_drive)) (trace (data demo_disk_end)) sectors.
Proof.
  split; [vm_compute; reflexivity|].
  destruct (SynchDisk_atomic demo_clock (first_value [(1%positive, 0)]) 1 1
    demo_clock_ok demo_disk demo_disk_end demo_turns) as (sectors & Hrep & _).
  - reflexivity.
  - apply boot_booted; [by repeat constructor|apply NoDup_singleton].
  - exact demo_disk_runs.
  - assert (zlen (log demo_disk_end) < 100) as Hlog by (vm_compute; done).
    apply small_first_value; [repeat constructor; cbn; lia|lia].
  - intros t x Hx. destruct demo_sector_ok as [H1 H2].
    apply boot_sites in Hx as [->|(y & Hy & ->)]; [by repeat constructor|].
    apply list_elem_of_singleton in Hy as ->. by repeat constructor.
  - reflexivity.
  - reflexivity.
  - exact demo_drive_ok.
  - exists sectors. exact Hrep.
Defined.
