(* ===== verification/FileHdr.v ===== *)
(** File headers and open files (filesys/filehdr.h, filehdr.cc, openfile.h,
    openfile.cc, without FILESYS_STUB).  A header, one sector on the disk, holds
    the length of a file and the sectors of its data; an open file is a header in
    memory and a position.  Reads and writes of any range are turned into reads
    and writes of whole sectors. *)
From Stdlib Require Import ZArith Lia Bool.
From stdpp Require Import base numbers list.
From S2P Require Import Prelude Bitmap Machine Sectors.

Definition NumDirect : Z := (SectorSize - 2 * 4) / 4.
Definition MaxFileSize : Z := NumDirect * SectorSize.

Record FileHeader := mkFileHeader {
  numBytes : Z;
  numSectors : Z;
  dataSectors : list Z
}.

Definition set_dataSectors (h : FileHeader) (ds : list Z) : FileHeader :=
  mkFileHeader (numBytes h) (numSectors h) ds.

(** [Allocate] on the header [h] of a [new FileHeader]; TRUE or FALSE. *)
Definition Allocate (h : FileHeader) (freeMap : BitMap.BitMap) (fileSize : Z)
  : res (FileHeader * BitMap.BitMap * bool) :=
  let h := mkFileHeader fileSize (divRoundUp fileSize SectorSize) (dataSectors h) in
  n <- BitMap.NumClear freeMap ;;
  if n <? numSectors h then Ok (h, freeMap, false)
  else
    '(h, freeMap) <- for_range 0 (numSectors h) (fun i '(h, freeMap) =>
        '(freeMap, s) <- BitMap.Find freeMap ;;
        ds <- aset (dataSectors h) i s ;; Ok (set_dataSectors h ds, freeMap)) (h, freeMap) ;;
    Ok (h, freeMap, true).

Definition Deallocate (h : FileHeader) (freeMap : BitMap.BitMap) : res BitMap.BitMap :=
  for_range 0 (numSectors h) (fun i freeMap =>
    s <- aget (dataSectors h) i ;;
    marked <- BitMap.Test freeMap s ;;
    _ <- ASSERT marked ;;
    BitMap.Clear freeMap s) freeMap.

Definition ByteToSector (h : FileHeader) (offset : Z) : res Z :=
  aget (dataSectors h) (Z.quot offset SectorSize).

Definition FileLength (h : FileHeader) : Z := numBytes h.

Record OpenFile := mkOpenFile { hdr : FileHeader; seekPosition : Z }.

Definition Seek (f : OpenFile) (position : Z) : OpenFile := mkOpenFile (hdr f) position.
Definition Length (f : OpenFile) : Z := FileLength (hdr f).

Section FileHdr.
Context {host : Host} {D : Type} `{!SectorStore D}.

(** The bytes of the object in memory, as FetchFrom and WriteBack see it. *)
Definition hdr_bytes (h : FileHeader) : list Z :=
  int_bytes (numBytes h) ++ int_bytes (numSectors h) ++ concat (int_bytes <$> dataSectors h).
Definition hdr_of_bytes (bs : list Z) : FileHeader :=
  mkFileHeader (int_at bs 0) (int_at bs 4)
    ((fun i => int_at bs (8 + 4 * Z.of_nat i)) <$> seq 0 (Z.to_nat NumDirect)).

Definition FetchFrom (sector : Z) (d : D) : res (D * FileHeader) :=
  '(d, bs) <- ReadSector sector d ;; Ok (d, hdr_of_bytes bs).

Definition WriteBack (h : FileHeader) (sector : Z) (d : D) : res D :=
  WriteSector sector (hdr_bytes h) d.

(** [new OpenFile(sector)]. *)
Definition OpenFile_new (sector : Z) (d : D) : res (D * OpenFile) :=
  '(d, h) <- FetchFrom sector d ;; Ok (d, mkOpenFile h 0).

(** [fresh] is what [new char[]] leaves in the buffer of the whole sectors; the
    bytes read are the answer, and their number what the method returns. *)
Definition ReadAt (fresh : nat -> Z) (f : OpenFile) (numBytes position : Z) (d : D) : res (D * list Z) :=
  let fileLength := FileLength (hdr f) in
  if (numBytes <=? 0) || (fileLength <=? position) then Ok (d, [])
  else
    let numBytes := if fileLength <? s32 (position + numBytes) then s32 (fileLength - position) else numBytes in
    let firstSector := divRoundDown position SectorSize in
    let lastSector := divRoundDown (s32 (s32 (position + numBytes) - 1)) SectorSize in
    let numSectors := 1 + lastSector - firstSector in
    let buf := new_bytes fresh (numSectors * SectorSize) in
    '(d, buf) <- for_range firstSector (lastSector + 1) (fun i '(d, buf) =>
        s <- ByteToSector (hdr f) (i * SectorSize) ;;
        '(d, bs) <- ReadSector s d ;;
        buf <- store_bytes buf ((i - firstSector) * SectorSize) bs ;; Ok (d, buf)) (d, buf) ;;
    into <- load_bytes buf (position - firstSector * SectorSize) (Z.to_nat numBytes) ;;
    Ok (d, into).

(** [ReadAt(&buf[a], n, position)] on a buffer of the caller. *)
Definition ReadAt_into (fresh : nat -> Z) (f : OpenFile) (buf : list Z) (a n position : Z) (d : D) : res (D * list Z) :=
  '(d, bs) <- ReadAt fresh f n position d ;;
  buf <- store_bytes buf a bs ;; Ok (d, buf).

(** The number of bytes written. *)
Definition WriteAt (fresh : nat -> Z) (f : OpenFile) (from : list Z) (numBytes position : Z) (d : D) : res (D * Z) :=
  let fileLength := FileLength (hdr f) in
  if (numBytes <=? 0) || (fileLength <=? position) then Ok (d, 0)
  else
    let numBytes := if fileLength <? s32 (position + numBytes) then s32 (fileLength - position) else numBytes in
    let firstSector := divRoundDown position SectorSize in
    let lastSector := divRoundDown (s32 (s32 (position + numBytes) - 1)) SectorSize in
    let numSectors := 1 + lastSector - firstSector in
    let buf := new_bytes fresh (numSectors * SectorSize) in
    let firstAligned := position =? firstSector * SectorSize in
    let lastAligned := position + numBytes =? (lastSector + 1) * SectorSize in
    '(d, buf) <- (if negb firstAligned then ReadAt_into fresh f buf 0 SectorSize (firstSector * SectorSize) d
                  else Ok (d, buf)) ;;
    '(d, buf) <- (if negb lastAligned && (negb (firstSector =? lastSector) || firstAligned)
                  then ReadAt_into fresh f buf ((lastSector - firstSector) * SectorSize) SectorSize
                         (lastSector * SectorSize) d
                  else Ok (d, buf)) ;;
    bs <- load_bytes from 0 (Z.to_nat numBytes) ;;
    buf <- store_bytes buf (position - firstSector * SectorSize) bs ;;
    d <- for_range firstSector (lastSector + 1) (fun i d =>
        s <- ByteToSector (hdr f) (i * SectorSize) ;;
        bs <- load_bytes buf ((i - firstSector) * SectorSize) (Z.to_nat SectorSize) ;;
        WriteSector s bs d) d ;;
    Ok (d, numBytes).

(** [Read] and [Write] go on from the position of the open file. *)
Definition Read (fresh : nat -> Z) (f : OpenFile) (numBytes : Z) (d : D) : res (D * OpenFile * list Z) :=
  '(d, into) <- ReadAt fresh f numBytes (seekPosition f) d ;;
  Ok (d, mkOpenFile (hdr f) (s32 (seekPosition f + zlen into)), into).

Definition Write (fresh : nat -> Z) (f : OpenFile) (from : list Z) (numBytes : Z) (d : D)
  : res (D * OpenFile * Z) :=
  '(d, result) <- WriteAt fresh f from numBytes (seekPosition f) d ;;
  Ok (d, mkOpenFile (hdr f) (s32 (seekPosition f + result)), result).
End FileHdr.

(** ** The bytes of a file *)

(** The sectors the header gives to the file. *)
Definition data (h : FileHeader) : list Z := take (Z.to_nat (numSectors h)) (dataSectors h).

(** A header with room for its length, in distinct sectors of the disk. *)
Record hdr_wf (h : FileHeader) : Prop := {
  hw_bytes : 0 <= numBytes h <= MaxFileSize;
  hw_sectors : numSectors h = divRoundUp (numBytes h) SectorSize;
  hw_len : zlen (dataSectors h) = NumDirect;
  hw_range : Forall (fun s => 0 <= s < NumSectors) (data h);
  hw_nodup : NoDup (data h)
}.

Lemma hdr_bound h : hdr_wf h -> 0 <= numBytes h <= 3840.
Proof. intros Hh. exact (hw_bytes h Hh). Qed.

Lemma hdr_room h : hdr_wf h -> 0 <= numSectors h <= NumDirect /\
  numBytes h <= SectorSize * numSectors h < numBytes h + SectorSize /\ zlen (data h) = numSectors h.
Proof.
  intros [Hb Hs Hl _ _]. pose proof (divRoundUp_bounds (numBytes h) SectorSize ltac:(lia) ltac:(done)).
  rewrite <- Hs in *. unfold MaxFileSize, NumDirect in *. change SectorSize with 128 in *.
  unfold data. rewrite length_take. lia.
Qed.

Section FileContents.
Context {host : Host} {D : Type} `{!SectorStore D, !SectorStoreLaws D}.

(** What the sectors of a file hold, and the part that is the file. *)
Definition raw (d : D) (h : FileHeader) : list Z := concat (sector d <$> data h).
Definition contents (d : D) (h : FileHeader) : list Z := take (Z.to_nat (numBytes h)) (raw d h).

Lemma data_lookup h i : hdr_wf h -> 0 <= i < numSectors h ->
  exists s, aget (dataSectors h) i = Ok s /\ data h !! Z.to_nat i = Some s /\ 0 <= s < NumSectors.
Proof.
  intros Hh Hi. pose proof (hdr_room h Hh) as (? & _ & ?).
  destruct (lookup_lt_is_Some_2 (data h) (Z.to_nat i)) as [s Hs]; [lia|].
  exists s. split; [|split; [done|]].
  - apply aget_Ok. split; [lia|]. unfold data in Hs. by rewrite lookup_take_lt in Hs by lia.
  - pose proof (hw_range h Hh) as Hr. by apply (Forall_lookup_1 _ _ _ _ Hr Hs).
Qed.

Lemma sectors_length d h : disk_wf d -> hdr_wf h ->
  Forall (fun l => length l = Z.to_nat SectorSize) (sector d <$> data h).
Proof.
  intros Hd Hh. apply Forall_fmap. eapply Forall_impl; [by apply hw_range|]. intros s Hs. cbn.
  destruct (sector_is d s Hd Hs) as [H _]. lia.
Qed.

Lemma raw_length d h : disk_wf d -> hdr_wf h -> zlen (raw d h) = SectorSize * numSectors h.
Proof.
  intros Hd Hh. unfold raw. rewrite (concat_length _ _ (sectors_length d h Hd Hh)), length_fmap.
  pose proof (hdr_room h Hh). change SectorSize with 128 in *. lia.
Qed.

Lemma raw_sector d h i s : disk_wf d -> hdr_wf h -> 0 <= i -> data h !! Z.to_nat i = Some s ->
  bytes_of (raw d h) (SectorSize * i) SectorSize = sector d s.
Proof.
  intros Hd Hh Hi Hs. unfold bytes_of, raw.
  rewrite <- (concat_slice (sector d <$> data h) (Z.to_nat SectorSize) (Z.to_nat i) (sector d s)).
  - rewrite Z2Nat.inj_mul by (done || lia). done.
  - by apply sectors_length.
  - by rewrite list_lookup_fmap, Hs.
Qed.

(** Disks that agree on the sectors of a file. *)
Lemma raw_ext d d' h : (forall s, s ∈ data h -> sector d' s = sector d s) -> raw d' h = raw d h.
Proof.
  intros H. unfold raw. f_equal. induction (data h) as [|s l IH]; [done|]. cbn.
  rewrite IH by (intros; apply H; by right). rewrite H by left. done.
Qed.

Lemma contents_ext d d' h : (forall s, s ∈ data h -> sector d' s = sector d s) -> contents d' h = contents d h.
Proof. intros H. unfold contents. by rewrite (raw_ext d). Qed.

Lemma same_sectors d d' h : hdr_wf h -> (forall j, 0 <= j < NumSectors -> sector d' j = sector d j) ->
  raw d' h = raw d h.
Proof.
  intros Hh H. apply raw_ext. intros s Hs. apply H. pose proof (hw_range h Hh) as Hr.
  rewrite Forall_forall in Hr. by apply Hr.
Qed.

Lemma contents_length d h : disk_wf d -> hdr_wf h -> zlen (contents d h) = numBytes h.
Proof.
  intros Hd Hh. unfold contents. pose proof (raw_length d h Hd Hh). pose proof (hdr_room h Hh).
  pose proof (hw_bytes h Hh). rewrite length_take. lia.
Qed.

Lemma contents_slice d h p n : disk_wf d -> hdr_wf h -> 0 <= p -> 0 <= n -> p + n <= numBytes h ->
  bytes_of (contents d h) p n = bytes_of (raw d h) p n.
Proof.
  intros Hd Hh Hp Hn Hl. change (contents d h) with (bytes_of (raw d h) 0 (numBytes h)).
  rewrite bytes_of_bytes_of by lia. done.
Qed.

(** ** Reading *)

(** The sectors a range of bytes touches. *)
Lemma sector_range p n : 0 <= p -> 0 < n ->
  let first := p / 128 in let last := (p + n - 1) / 128 in
  0 <= first <= last /\ 128 * first <= p < 128 * first + 128 /\ 128 * last < p + n <= 128 * last + 128.
Proof. intros Hp Hn. cbn zeta. Z.to_euclidean_division_equations. lia. Qed.

Lemma read_loop d h buf first n :
  disk_wf d -> hdr_wf h -> 0 <= first -> 0 <= n -> first + n <= numSectors h -> zlen buf = SectorSize * n ->
  exists d' buf',
    for_range first (first + n) (fun i '(d, buf) =>
        s <- ByteToSector h (i * SectorSize) ;;
        '(d, bs) <- ReadSector s d ;;
        buf <- store_bytes buf ((i - first) * SectorSize) bs ;; Ok (d, buf)) (d, buf) = Ok (d', buf') /\
    disk_wf d' /\ (forall j, 0 <= j < NumSectors -> sector d' j = sector d j) /\
    buf' = bytes_of (raw d h) (SectorSize * first) (SectorSize * n).
Proof.
  intros Hd Hh Hf Hn Hle Hbuf. change SectorSize with 128 in *.
  destruct (for_range_inv (fun i (st : D * list Z) => disk_wf st.1 /\
      (forall j, 0 <= j < NumSectors -> sector st.1 j = sector d j) /\ zlen st.2 = 128 * n /\
      bytes_of st.2 0 (128 * (i - first)) = bytes_of (raw d h) (128 * first) (128 * (i - first)))
    first (first + n) (fun i '(d, buf) =>
        s <- ByteToSector h (i * SectorSize) ;;
        '(d, bs) <- ReadSector s d ;;
        buf <- store_bytes buf ((i - first) * SectorSize) bs ;; Ok (d, buf)) (d, buf))
    as ((d' & buf') & E & Hd' & Hs & Hl & Hb); [lia| | |].
  - cbn. rewrite Z.sub_diag. done.
  - intros i (d1 & b1) Hi (Hd1 & Hs1 & Hl1 & Hb1). cbn [fst snd] in *.
    unfold ByteToSector. rewrite Z.quot_mul by done.
    destruct (data_lookup h i Hh ltac:(lia)) as (s & -> & Hsec & Hr). cbn [bindr].
    destruct (ReadSector_ok d1 s Hd1 Hr) as (d2 & -> & Hd2 & Hs2). cbn [bindr].
    pose proof (sector_is d1 s Hd1 Hr) as [Hlen _]. change SectorSize with 128 in *.
    rewrite store_bytes_in by lia. cbn [bindr]. eexists. split; [done|]. cbn [fst snd].
    split; [done|]. split; [intros j Hj; by rewrite Hs2, Hs1|]. split.
    + rewrite length_patch by lia. done.
    + replace (128 * (i + 1 - first)) with ((i - first) * 128 + zlen (sector d1 s)) at 1 by lia.
      rewrite bytes_of_patch_grow by lia. rewrite (Z.mul_comm (i - first) 128), Hb1.
      replace (128 * (i + 1 - first)) with (128 * (i - first) + 128) by lia.
      rewrite bytes_of_split by lia. f_equal. rewrite Hs1 by done.
      replace (128 * first + 128 * (i - first)) with (SectorSize * i) by (change SectorSize with 128; lia).
      symmetry. apply (raw_sector d h i s); (done || lia).
  - exists d', buf'. split; [exact E|]. cbn [fst snd] in *. split; [done|]. split; [done|].
    replace (first + n - first) with n in Hb by lia. rewrite <- Hb, <- Hl. symmetry. apply bytes_of_all.
Qed.

(** ReadAt gives the bytes of the file in the range, as many as there are. *)
Lemma ReadAt_spec fresh f n p d :
  disk_wf d -> hdr_wf (hdr f) -> 0 <= p -> is_s32 (p + n) ->
  exists d', ReadAt fresh f n p d = Ok (d', bytes_of (contents d (hdr f)) p n) /\ disk_wf d' /\
    forall j, 0 <= j < NumSectors -> sector d' j = sector d j.
Proof.
  intros Hd Hh Hp Hn. unfold ReadAt, FileLength. set (h := hdr f) in *.
  pose proof (contents_length d h Hd Hh) as Hlen. pose proof (hdr_room h Hh) as (Hns & Hroom & _).
  pose proof (hdr_bound h Hh) as Hnb. change SectorSize with 128 in *.
  destruct ((n <=? 0) || (numBytes h <=? p)) eqn:Ec.
  { exists d. split; [|done]. f_equal. f_equal. unfold bytes_of.
    apply orb_true_iff in Ec as [?%Z.leb_le|?%Z.leb_le].
    - by replace (Z.to_nat n) with 0%nat by lia.
    - rewrite drop_ge by lia. by rewrite take_nil. }
  apply orb_false_iff in Ec as [Hn0%Z.leb_gt Hp0%Z.leb_gt]. rewrite (s32_small (p + n)) by done.
  set (m := if numBytes h <? p + n then s32 (numBytes h - p) else n).
  assert (0 < m /\ p + m <= numBytes h /\ (m = n \/ numBytes h < p + n /\ m = numBytes h - p)) as (Hm0 & Hm1 & Hm2).
  { unfold m. destruct (Z.ltb_spec (numBytes h) (p + n)); [|lia].
    rewrite s32_small by (unfold is_s32 in *; lia). lia. }
  assert (bytes_of (contents d h) p n = bytes_of (raw d h) p m) as Hcm.
  { rewrite <- (contents_slice d h p m) by (done || lia). destruct Hm2 as [->|[? ->]]; [done|].
    unfold bytes_of. rewrite !take_ge; [done|..]; rewrite length_drop; lia. }
  rewrite (s32_small (p + m)) by (unfold is_s32 in *; lia).
  rewrite (s32_small (p + m - 1)) by (unfold is_s32 in *; lia). clearbody m. unfold divRoundDown.
  rewrite !Z.quot_div_nonneg by lia.
  pose proof (sector_range p m Hp Hm0) as Hsr. cbn zeta in Hsr.
  set (first := p / 128) in *. set (last := (p + m - 1) / 128) in *. destruct Hsr as (Hfl & Hf & Hl).
  destruct (read_loop d h (new_bytes fresh ((1 + last - first) * 128)) first (1 + last - first) Hd Hh)
    as (d' & buf' & E & Hd' & Hs & Hb).
  { lia. } { lia. } { lia. }
  { rewrite length_new_bytes by lia. change SectorSize with 128. lia. }
  replace (first + (1 + last - first)) with (last + 1) in E by lia.
  change SectorSize with 128 in *. rewrite E. cbn [bindr]. pose proof (raw_length d h Hd Hh) as Hraw.
  change SectorSize with 128 in *.
  rewrite load_bytes_of by (subst buf'; rewrite ?bytes_of_length; lia). cbn [bindr].
  exists d'. split; [|done]. f_equal. f_equal. rewrite Hcm, Hb, bytes_of_bytes_of by lia. f_equal. lia.
Qed.

(** ** Writing *)

Lemma ReadAt_into_spec fresh f buf a n p d :
  disk_wf d -> hdr_wf (hdr f) -> 0 <= p -> 0 <= n -> is_s32 (p + n) -> 0 <= a -> a + n <= zlen buf ->
  exists d', ReadAt_into fresh f buf a n p d = Ok (d', patch buf a (bytes_of (contents d (hdr f)) p n)) /\
    disk_wf d' /\ forall j, 0 <= j < NumSectors -> sector d' j = sector d j.
Proof.
  intros Hd Hh Hp Hn Hs Ha Hl. unfold ReadAt_into.
  destruct (ReadAt_spec fresh f n p d Hd Hh Hp Hs) as (d' & -> & ? & ?). cbn [bindr].
  assert (zlen (bytes_of (contents d (hdr f)) p n) <= n) by (unfold bytes_of; rewrite length_take; lia).
  rewrite store_bytes_in by lia. by exists d'.
Qed.

(** The last loop of WriteAt. *)
Lemma write_loop d h buf first n :
  disk_wf d -> hdr_wf h -> 0 <= first -> 0 <= n -> first + n <= numSectors h -> zlen buf = SectorSize * n ->
  Forall is_byte buf ->
  exists d',
    for_range first (first + n) (fun i d =>
        s <- ByteToSector h (i * SectorSize) ;;
        bs <- load_bytes buf ((i - first) * SectorSize) (Z.to_nat SectorSize) ;;
        WriteSector s bs d) d = Ok d' /\
    disk_wf d' /\ (forall j, 0 <= j < NumSectors -> j ∉ data h -> sector d' j = sector d j) /\
    raw d' h = patch (raw d h) (SectorSize * first) buf.
Proof.
  intros Hd Hh Hf Hn Hle Hbuf Hbytes. change SectorSize with 128 in *.
  destruct (for_range_inv (fun i d' => disk_wf d' /\
      (forall j, 0 <= j < NumSectors -> j ∉ data h -> sector d' j = sector d j) /\
      raw d' h = patch (raw d h) (128 * first) (bytes_of buf 0 (128 * (i - first))))
    first (first + n) (fun i d =>
        s <- ByteToSector h (i * SectorSize) ;;
        bs <- load_bytes buf ((i - first) * SectorSize) (Z.to_nat SectorSize) ;;
        WriteSector s bs d) d) as (d' & E & Hd' & Hs & Hr); [lia| | |].
  - rewrite Z.sub_diag, Z.mul_0_r. split; [done|]. split; [done|]. by rewrite patch_nil.
  - intros i d1 Hi (Hd1 & Hs1 & Hr1). unfold ByteToSector. rewrite Z.quot_mul by done.
    destruct (data_lookup h i Hh ltac:(lia)) as (s & -> & Hsec & Hrange). cbn [bindr].
    change SectorSize with 128. rewrite load_bytes_of by lia. cbn [bindr].
    set (bs := bytes_of buf ((i - first) * 128) 128).
    assert (is_sector bs) as Hbs by (split; [apply (bytes_of_length buf _ 128); lia|by apply bytes_of_bytes]).
    destruct (WriteSector_ok d1 s bs Hd1 Hrange Hbs) as (d2 & -> & Hd2 & Hs2).
    exists d2. split; [done|]. split; [done|]. split.
    + intros j Hj Hnot. rewrite Hs2 by done. rewrite (proj2 (Z.eqb_neq j s)); [by apply Hs1|].
      intros ->. apply Hnot. by eapply list_elem_of_lookup_2.
    + assert (raw d2 h = patch (raw d1 h) (128 * i) bs) as ->.
      { unfold raw at 1. replace (sector d2 <$> data h) with (<[Z.to_nat i := bs]> (sector d1 <$> data h)).
        - rewrite (concat_update _ 128); [|by apply sectors_length| |destruct Hbs; change SectorSize with 128 in *; lia].
          + f_equal. lia.
          + rewrite length_fmap. by eapply lookup_lt_Some.
        - apply list_eq. intros k. rewrite !list_lookup_fmap.
          destruct (decide (k = Z.to_nat i)) as [->|Hne].
          + rewrite list_lookup_insert_eq by (rewrite length_fmap; by eapply lookup_lt_Some).
            rewrite Hsec. cbn. by rewrite Hs2, Z.eqb_refl.
          + rewrite list_lookup_insert_ne, list_lookup_fmap by done.
            destruct (data h !! k) as [t|] eqn:Et; [|done]. cbn. f_equal.
            pose proof (hw_range h Hh) as Hrr. rewrite Hs2 by by apply (Forall_lookup_1 _ _ _ _ Hrr Et).
            rewrite (proj2 (Z.eqb_neq t s)); [done|]. intros ->. apply Hne.
            by apply (NoDup_lookup (data h) k (Z.to_nat i) s (hw_nodup h Hh)). }
      pose proof (raw_length d h Hd Hh) as Hlen. change SectorSize with 128 in *.
      rewrite Hr1. replace (128 * (i + 1 - first)) with (128 * (i - first) + 128) by lia.
      rewrite bytes_of_split by lia. rewrite Z.add_0_l.
      assert (zlen (bytes_of buf 0 (128 * (i - first))) = 128 * (i - first)) as Hb by (apply bytes_of_length; lia).
      assert (bytes_of buf (128 * (i - first)) 128 = bs) as -> by (unfold bs; f_equal; lia).
      replace (128 * i) with (128 * first + zlen (bytes_of buf 0 (128 * (i - first)))) by lia.
      destruct Hbs as [Hbl _]. change SectorSize with 128 in *.
      by apply patch_patch; lia.
  - exists d'. split; [done|]. split; [done|]. split; [done|]. rewrite Hr.
    replace (128 * (first + n - first)) with (zlen buf) by lia. by rewrite bytes_of_all.
Qed.
(** The buffer before it is written out: the bytes of the file around the range,
    and the new bytes in it. *)
Lemma contents_write d d' h buf first n p bs :
  disk_wf d -> hdr_wf h -> 0 <= first -> 0 <= n -> first + n <= numSectors h -> zlen buf = SectorSize * n ->
  SectorSize * first <= p -> p + zlen bs <= SectorSize * (first + n) -> p + zlen bs <= numBytes h ->
  raw d' h = patch (raw d h) (SectorSize * first) (patch buf (p - SectorSize * first) bs) ->
  (forall k, SectorSize * first <= k < numBytes h -> k < SectorSize * (first + n) -> k < p \/ p + zlen bs <= k ->
     buf !! Z.to_nat (k - SectorSize * first) = contents d h !! Z.to_nat k) ->
  contents d' h = patch (contents d h) p bs.
Proof.
  intros Hd Hh Hf Hn Hle Hbuf Hp Hpl Hpn Hr Hk.
  pose proof (raw_length d h Hd Hh) as Hraw. pose proof (contents_length d h Hd Hh) as Hlen.
  pose proof (hdr_room h Hh) as (_ & Hroom & _). change SectorSize with 128 in *.
  assert (zlen (patch buf (p - 128 * first) bs) = 128 * n) as Hpb by (rewrite length_patch by lia; lia).
  apply list_eq. intros k. unfold contents at 1.
  destruct (decide (k < Z.to_nat (numBytes h))%nat) as [Hlt|Hge].
  2: { rewrite lookup_take_ge by lia. symmetry. apply lookup_ge_None. rewrite length_patch by lia. lia. }
  rewrite lookup_take_lt, Hr by done. clear Hr.
  assert (raw d h !! k = contents d h !! k) as Hrc by (unfold contents; by rewrite lookup_take_lt).
  rewrite <- (Nat2Z.id k) in Hrc |- *. set (i := Z.of_nat k) in *.
  destruct (decide (128 * first <= i < 128 * (first + n))) as [Hin|Hin].
  - rewrite (lookup_patch_in (raw d h)) by lia.
    destruct (decide (p <= i < p + zlen bs)).
    + rewrite !lookup_patch_in by lia. f_equal. lia.
    + rewrite !lookup_patch_out by lia. apply Hk; lia.
  - rewrite !lookup_patch_out by lia. done.
Qed.

(** The reads that fill the first and the last sector of the buffer. *)
Lemma prefill fresh f buf first last p k d :
  disk_wf d -> hdr_wf (hdr f) -> 0 <= first <= last -> 128 * first <= p < 128 * first + 128 -> 0 < k ->
  128 * last < p + k <= 128 * last + 128 -> p + k <= numBytes (hdr f) ->
  zlen buf = 128 * (1 + last - first) -> Forall is_byte buf ->
  let firstAligned := p =? first * SectorSize in
  let lastAligned := p + k =? (last + 1) * SectorSize in
  exists d' buf',
    ('(d, buf) <- (if negb firstAligned then ReadAt_into fresh f buf 0 SectorSize (first * SectorSize) d
                  else Ok (d, buf)) ;;
     if negb lastAligned && (negb (first =? last) || firstAligned)
     then ReadAt_into fresh f buf ((last - first) * SectorSize) SectorSize (last * SectorSize) d
     else Ok (d, buf)) = Ok (d', buf') /\
    disk_wf d' /\ (forall j, 0 <= j < NumSectors -> sector d' j = sector d j) /\
    zlen buf' = zlen buf /\ Forall is_byte buf' /\
    forall i, 128 * first <= i < numBytes (hdr f) -> i < 128 * (last + 1) -> i < p \/ p + k <= i ->
      buf' !! Z.to_nat (i - 128 * first) = contents d (hdr f) !! Z.to_nat i.
Proof.
  intros Hd Hh Hfl Hf Hk Hl Hkn Hbuf Hby fa la. set (h := hdr f) in *. change SectorSize with 128 in *.
  pose proof (contents_length d h Hd Hh) as Hlen. pose proof (hdr_bound h Hh) as Hnb.
  set (A := bytes_of (contents d h) (128 * first) 128). set (B := bytes_of (contents d h) (128 * last) 128).
  assert (length A = Z.to_nat (Z.min 128 (numBytes h - 128 * first))) as HA
    by (unfold A, bytes_of; rewrite length_take, length_drop; lia).
  assert (length B = Z.to_nat (Z.min 128 (numBytes h - 128 * last))) as HB
    by (unfold B, bytes_of; rewrite length_take, length_drop; lia).
  assert (Forall is_byte A /\ Forall is_byte B) as [HbA HbB].
  { split; apply bytes_of_bytes, Forall_take, Forall_concat, Forall_fmap;
      (eapply Forall_impl; [by apply (hw_range h)|]); intros s Hs; by apply sector_is. }
  assert (exists d1, (if negb fa then ReadAt_into fresh f buf 0 128 (first * 128) d else Ok (d, buf)) =
      Ok (d1, if fa then buf else patch buf 0 A) /\ disk_wf d1 /\
      forall j, 0 <= j < NumSectors -> sector d1 j = sector d j) as (d1 & -> & Hd1 & Hs1).
  { destruct fa; [by exists d|]. cbn [negb]. rewrite (Z.mul_comm first).
    apply (ReadAt_into_spec fresh f buf 0 128 (128 * first) d Hd Hh); try lia. unfold is_s32. lia. }
  cbn [bindr]. set (buf1 := if fa then buf else patch buf 0 A).
  assert (zlen buf1 = zlen buf /\ Forall is_byte buf1) as [Hl1 Hb1].
  { unfold buf1. destruct fa; [done|]. rewrite length_patch by lia. split; [done|by apply patch_bytes]. }
  set (second := negb la && (negb (first =? last) || fa)).
  assert (exists d2, (if second then ReadAt_into fresh f buf1 ((last - first) * 128) 128 (last * 128) d1
      else Ok (d1, buf1)) = Ok (d2, if second then patch buf1 (128 * (last - first)) B else buf1) /\ disk_wf d2 /\
      forall j, 0 <= j < NumSectors -> sector d2 j = sector d j) as (d2 & -> & Hd2 & Hs2).
  { destruct second; [|by exists d1]. rewrite (Z.mul_comm last), (Z.mul_comm (last - first)).
    destruct (ReadAt_into_spec fresh f buf1 (128 * (last - first)) 128 (128 * last) d1 Hd1 Hh)
      as (d2 & -> & Hd2 & Hs2); try lia; [unfold is_s32; lia|].
    exists d2. fold h. replace (contents d1 h) with (contents d h).
    - split; [done|]. split; [done|]. intros j Hj. by rewrite Hs2, Hs1.
    - symmetry. unfold contents. by rewrite (same_sectors d d1 h Hh Hs1). }
  eexists d2, _. split; [done|]. split; [done|]. split; [done|].
  split; [|split]; [destruct second; [rewrite length_patch by lia|]; lia|
    destruct second; [by apply patch_bytes|done]|].
  intros i Hi Hil Hio.
  assert (zlen A = Z.min 128 (numBytes h - 128 * first) /\ zlen B = Z.min 128 (numBytes h - 128 * last))
    as [HzA HzB] by lia.
  assert (forall m q, 0 <= q -> q <= i < q + 128 -> bytes_of m q 128 !! Z.to_nat (i - q) = m !! Z.to_nat i) as Hlook
    by (intros m q ??; rewrite lookup_bytes_of_in by lia; f_equal; lia).
  assert (fa = false -> i < 128 * first + 128 -> buf1 !! Z.to_nat (i - 128 * first) = contents d h !! Z.to_nat i) as H1.
  { intros Hfa Hi1. unfold buf1. rewrite Hfa, lookup_patch_in by lia. rewrite Z.sub_0_r. apply Hlook; lia. }
  destruct (decide (i < p)) as [Hip|Hip].
  - assert (fa = false) as Hfa by (apply Z.eqb_neq; lia).
    destruct second eqn:Es; [|apply H1; (done || lia)].
    assert (first <> last) as Hne.
    { unfold second in Es. rewrite Hfa, orb_false_r in Es. apply andb_true_iff in Es as [_ Es].
      by apply negb_true_iff, Z.eqb_neq in Es. }
    rewrite lookup_patch_out by lia. apply H1; (done || lia).
  - assert (la = false) as Hla by (apply Z.eqb_neq; lia).
    destruct second eqn:Es.
    + rewrite lookup_patch_in by lia.
      replace (i - 128 * first - 128 * (last - first)) with (i - 128 * last) by lia. apply Hlook; lia.
    + unfold second in Es. rewrite Hla in Es. cbn [negb andb] in Es.
      apply orb_false_iff in Es as [Es Hfa]. apply negb_false_iff, Z.eqb_eq in Es. apply H1; (done || lia).
Qed.

(** WriteAt puts the bytes in the range, up to the end of the file, and says how
    many; it keeps the rest of the file and every other sector. *)
Lemma WriteAt_spec fresh f from n p d :
  disk_wf d -> hdr_wf (hdr f) -> 0 <= p -> is_s32 (p + n) -> Forall is_byte from -> n <= zlen from ->
  let k := Z.max 0 (Z.min n (numBytes (hdr f) - p)) in
  exists d', WriteAt fresh f from n p d = Ok (d', k) /\ disk_wf d' /\
    contents d' (hdr f) = patch (contents d (hdr f)) p (bytes_of from 0 k) /\
    forall j, 0 <= j < NumSectors -> j ∉ data (hdr f) -> sector d' j = sector d j.
Proof.
  intros Hd Hh Hp Hn Hby Hfrom k. unfold WriteAt, FileLength. set (h := hdr f) in *.
  pose proof (contents_length d h Hd Hh) as Hlen. pose proof (hdr_room h Hh) as (Hns & Hroom & _).
  pose proof (hdr_bound h Hh) as Hnb. change SectorSize with 128 in *.
  destruct ((n <=? 0) || (numBytes h <=? p)) eqn:Ec.
  { assert (k = 0) as -> by (apply orb_true_iff in Ec as [?%Z.leb_le|?%Z.leb_le]; lia).
    exists d. split; [done|]. split; [done|]. split; [|done]. change (bytes_of from 0 0) with (@nil Z).
    by rewrite patch_nil. }
  apply orb_false_iff in Ec as [Hn0%Z.leb_gt Hp0%Z.leb_gt]. rewrite (s32_small (p + n)) by done.
  assert ((if numBytes h <? p + n then s32 (numBytes h - p) else n) = k) as ->.
  { destruct (Z.ltb_spec (numBytes h) (p + n)); [|lia].
    rewrite s32_small by (unfold is_s32 in *; lia). lia. }
  assert (0 < k /\ p + k <= numBytes h /\ k <= n) as (Hk0 & Hk1 & Hk2) by lia. clearbody k.
  rewrite (s32_small (p + k)) by (unfold is_s32 in *; lia).
  rewrite (s32_small (p + k - 1)) by (unfold is_s32 in *; lia). unfold divRoundDown.
  rewrite !Z.quot_div_nonneg by lia.
  pose proof (sector_range p k Hp Hk0) as Hsr. cbn zeta in Hsr.
  set (first := p / 128) in *. set (last := (p + k - 1) / 128) in *. destruct Hsr as (Hfl & Hf & Hl).
  set (buf := new_bytes fresh ((1 + last - first) * 128)).
  assert (zlen buf = 128 * (1 + last - first)) as Hbuf by (unfold buf; rewrite length_new_bytes; lia).
  assert (Forall is_byte buf) as Hbufb by apply new_bytes_bytes. clearbody buf.
  destruct (prefill fresh f buf first last p k d Hd Hh Hfl Hf Hk0 Hl Hk1 Hbuf Hbufb)
    as (d2 & buf2 & E & Hd2 & Hs2 & Hl2 & Hb2 & Hout). change SectorSize with 128 in *.
  revert E. match goal with |- context [bindr ?m _ = Ok (d2, buf2)] => set (fill := m) end.
  intros E. fold h in Hout.
  match type of E with bindr _ ?c = _ => set (cont := c) in E end.
  destruct fill as [[d1 buf1]|]; [|done]. cbn [bindr] in E |- *. unfold cont in E. clear cont.
  rewrite E. cbn [bindr].
  rewrite load_bytes_of by lia. cbn [bindr].
  assert (zlen (bytes_of from 0 k) = k) as Hbl by (apply bytes_of_length; lia).
  rewrite store_bytes_in by lia. cbn [bindr].
  set (buf3 := patch buf2 (p - first * 128) (bytes_of from 0 k)).
  assert (zlen buf3 = 128 * (1 + last - first)) as Hl3 by (unfold buf3; rewrite length_patch by lia; lia).
  destruct (write_loop d2 h buf3 first (1 + last - first) Hd2 Hh) as (d3 & Ew & Hd3 & Hs3 & Hr3);
    [lia|lia|lia|done|by apply patch_bytes; [|apply bytes_of_bytes]|].
  replace (first + (1 + last - first)) with (last + 1) in Ew by lia. change SectorSize with 128 in *.
  rewrite Ew. cbn [bindr]. exists d3. split; [done|]. split; [done|]. split.
  - rewrite (same_sectors d d2 h Hh Hs2) in Hr3.
    apply (contents_write d d3 h buf2 first (1 + last - first)); change SectorSize with 128; try (done || lia).
    + rewrite Hr3. unfold buf3. f_equal. f_equal. lia.
    + intros i Hi1 Hi2 Hi3. apply Hout; lia.
  - intros j Hj Hnot. by rewrite Hs3, Hs2.
Qed.

End FileContents.

(** ** Headers on the disk *)

Section Headers.
Context {host : Host}.

(** The fields of a header as an [int] can hold them. *)
Definition hdr_ints (h : FileHeader) : Prop :=
  is_s32 (numBytes h) /\ is_s32 (numSectors h) /\ Forall is_s32 (dataSectors h).

Lemma length_hdr_bytes h : zlen (dataSectors h) = NumDirect -> zlen (hdr_bytes h) = SectorSize.
Proof.
  intros Hl. unfold hdr_bytes. rewrite !length_app, !length_int_bytes.
  rewrite (concat_length _ 4) by (apply Forall_fmap, Forall_true; intros; apply length_int_bytes).
  rewrite length_fmap. change NumDirect with 30 in Hl. change SectorSize with 128. lia.
Qed.

Lemma hdr_is_sector h : zlen (dataSectors h) = NumDirect -> is_sector (hdr_bytes h).
Proof.
  intros Hl. split; [by apply length_hdr_bytes|]. unfold hdr_bytes.
  repeat apply Forall_app_2; try apply int_bytes_bytes.
  apply Forall_concat, Forall_fmap, Forall_true. intros. apply int_bytes_bytes.
Qed.

Lemma int_at_concat pre (zs : list Z) i z :
  zs !! i = Some z -> is_s32 z -> int_at (pre ++ concat (int_bytes <$> zs)) (zlen pre + 4 * Z.of_nat i) = z.
Proof.
  intros Hi Hz. unfold int_at, bytes_of.
  replace (Z.to_nat (zlen pre + 4 * Z.of_nat i)) with (length pre + 4 * i)%nat by lia.
  rewrite drop_app_add. change (Z.to_nat 4) with 4%nat. rewrite (concat_slice _ 4 i (int_bytes z)).
  - by apply int_at_bytes.
  - apply Forall_fmap, Forall_true. intros. apply length_int_bytes.
  - by rewrite list_lookup_fmap, Hi.
Qed.

Lemma hdr_of_bytes_bytes h :
  zlen (dataSectors h) = NumDirect -> hdr_ints h -> hdr_of_bytes (hdr_bytes h) = h.
Proof.
  intros Hl (Hb & Hs & Hd). destruct h as [nb ns ds]. cbn [numBytes numSectors dataSectors] in *.
  unfold hdr_of_bytes, hdr_bytes. cbn [numBytes numSectors dataSectors]. f_equal.
  - by apply (int_at_app []).
  - apply (int_at_app (int_bytes nb)); [done|by rewrite length_int_bytes].
  - change NumDirect with 30 in *. apply list_eq. intros i. rewrite list_lookup_fmap.
    destruct (decide (i < 30)%nat) as [Hi|Hi].
    + rewrite (proj2 (lookup_seq 0 (Z.to_nat 30) i i)) by lia.
      destruct (lookup_lt_is_Some_2 ds i) as [z Hz]; [lia|]. rewrite Hz. cbn [fmap option_fmap option_map]. f_equal.
      pose proof (int_at_concat (int_bytes nb ++ int_bytes ns) ds i z Hz (Forall_lookup_1 _ _ _ _ Hd Hz)) as H.
      by rewrite length_app, !length_int_bytes, <- app_assoc in H.
    + rewrite lookup_seq_ge by lia. symmetry. apply lookup_ge_None. lia.
Qed.

Lemma hdr_of_bytes_shape bs : zlen (dataSectors (hdr_of_bytes bs)) = NumDirect /\ hdr_ints (hdr_of_bytes bs).
Proof.
  split; [done|]. split_and!; try apply s32_range. apply Forall_fmap, Forall_true. intros. apply s32_range.
Qed.

Context {D : Type} `{!SectorStore D, !SectorStoreLaws D}.

(** A header that is written comes back the same. *)
Lemma WriteBack_spec h s d :
  disk_wf d -> 0 <= s < NumSectors -> zlen (dataSectors h) = NumDirect ->
  exists d', WriteBack h s d = Ok d' /\ disk_wf d' /\
    forall j, 0 <= j < NumSectors -> sector d' j = if j =? s then hdr_bytes h else sector d j.
Proof. intros Hd Hs Hl. apply WriteSector_ok; [done|done|by apply hdr_is_sector]. Qed.

Lemma FetchFrom_spec s d :
  disk_wf d -> 0 <= s < NumSectors ->
  exists d', FetchFrom s d = Ok (d', hdr_of_bytes (sector d s)) /\ disk_wf d' /\
    forall j, 0 <= j < NumSectors -> sector d' j = sector d j.
Proof.
  intros Hd Hs. unfold FetchFrom. destruct (ReadSector_ok d s Hd Hs) as (d' & -> & ? & ?). by exists d'.
Qed.
End Headers.

(** ** Open files as byte arrays *)

Section OpenFiles.
Context {host : Host} {D : Type} `{!SectorStore D, !SectorStoreLaws D}.

(** What a client may ask of an open file. *)
Inductive file_request :=
| FSeek (position : Z)
| FRead (numBytes : Z)
| FWrite (from : list Z)
| FReadAt (numBytes position : Z)
| FWriteAt (from : list Z) (position : Z)
| FLength.

(** The answer: the bytes read, and the number the method returns. *)
Definition file_step (fresh : nat -> Z) (f : OpenFile) (d : D) (r : file_request)
  : res (OpenFile * D * (list Z * Z)) :=
  match r with
  | FSeek p => Ok (Seek f p, d, ([], 0))
  | FRead n => '(d, f, bs) <- Read fresh f n d ;; Ok (f, d, (bs, zlen bs))
  | FWrite from => '(d, f, k) <- Write fresh f from (zlen from) d ;; Ok (f, d, ([], k))
  | FReadAt n p => '(d, bs) <- ReadAt fresh f n p d ;; Ok (f, d, (bs, zlen bs))
  | FWriteAt from p => '(d, k) <- WriteAt fresh f from (zlen from) p d ;; Ok (f, d, ([], k))
  | FLength => Ok (f, d, ([], Length f))
  end.

(** The same on the bytes of the file, whose number does not change. *)
Definition read_bytes (c : list Z) (n p : Z) : list Z := bytes_of c p n.
Definition write_bytes (c from : list Z) (p : Z) : list Z * Z :=
  let k := Z.max 0 (Z.min (zlen from) (zlen c - p)) in (patch c p (bytes_of from 0 k), k).
Definition bytes_step (c : list Z) (pos : Z) (r : file_request) : list Z * Z * (list Z * Z) :=
  match r with
  | FSeek p => (c, p, ([], 0))
  | FRead n => let bs := read_bytes c n pos in (c, pos + zlen bs, (bs, zlen bs))
  | FWrite from => let '(c, k) := write_bytes c from pos in (c, pos + k, ([], k))
  | FReadAt n p => let bs := read_bytes c n p in (c, pos, (bs, zlen bs))
  | FWriteAt from p => let '(c, k) := write_bytes c from p in (c, pos, ([], k))
  | FLength => (c, pos, ([], zlen c))
  end.

(** Positions and sizes for which the sums of the code stay in range. *)
Definition file_request_ok (r : file_request) : Prop :=
  match r with
  | FSeek p => 0 <= p < 2 ^ 30
  | FRead n => - 2 ^ 31 <= n < 2 ^ 30
  | FWrite from => zlen from < 2 ^ 30 /\ Forall is_byte from
  | FReadAt n p => 0 <= p < 2 ^ 30 /\ - 2 ^ 31 <= n < 2 ^ 30
  | FWriteAt from p => 0 <= p < 2 ^ 30 /\ zlen from < 2 ^ 30 /\ Forall is_byte from
  | FLength => True
  end.

Fixpoint file_run (fresh : nat -> Z) (f : OpenFile) (d : D) (rs : list file_request)
  : res (OpenFile * D * list (list Z * Z)) :=
  match rs with
  | [] => Ok (f, d, [])
  | r :: rs =>
      '(f, d, a) <- file_step fresh f d r ;;
      '(f, d, l) <- file_run fresh f d rs ;; Ok (f, d, a :: l)
  end.
Fixpoint bytes_run (c : list Z) (pos : Z) (rs : list file_request) : list Z * list (list Z * Z) :=
  match rs with
  | [] => (c, [])
  | r :: rs =>
      let '(c, pos, a) := bytes_step c pos r in
      let '(c, l) := bytes_run c pos rs in (c, a :: l)
  end.

Lemma zlen_bytes_of m p n : 0 <= p -> zlen (bytes_of m p n) = Z.max 0 (Z.min n (zlen m - p)).
Proof. intros. unfold bytes_of. rewrite length_take, length_drop. lia. Qed.

Lemma file_step_ok fresh f d r :
  disk_wf d -> hdr_wf (hdr f) -> 0 <= seekPosition f < 2 ^ 30 -> file_request_ok r ->
  let '(c, pos, a) := bytes_step (contents d (hdr f)) (seekPosition f) r in
  exists d', file_step fresh f d r = Ok (mkOpenFile (hdr f) pos, d', a) /\ disk_wf d' /\
    contents d' (hdr f) = c /\ 0 <= pos < 2 ^ 30 /\
    forall j, 0 <= j < NumSectors -> j ∉ data (hdr f) -> sector d' j = sector d j.
Proof.
  intros Hd Hh Hpos Hr. destruct f as [h pos]. cbn [hdr seekPosition] in *.
  pose proof (contents_length d h Hd Hh) as Hlen. pose proof (hdr_bound h Hh) as Hnb.
  assert (forall n p, 0 <= p < 2 ^ 30 -> - 2 ^ 31 <= n < 2 ^ 30 -> exists d',
    ReadAt fresh (mkOpenFile h pos) n p d = Ok (d', bytes_of (contents d h) p n) /\ disk_wf d' /\
    contents d' h = contents d h /\ forall j, 0 <= j < NumSectors -> j ∉ data h -> sector d' j = sector d j) as Hread.
  { intros n p Hp Hn. destruct (ReadAt_spec fresh (mkOpenFile h pos) n p d Hd Hh) as (d' & E & Hd' & Hs);
      [lia|unfold is_s32; lia|]. exists d'. split; [done|]. split; [done|]. split; [|by auto].
    unfold contents. by rewrite (same_sectors d d' h Hh Hs). }
  assert (forall from p, 0 <= p < 2 ^ 30 -> zlen from < 2 ^ 30 -> Forall is_byte from -> exists d',
    WriteAt fresh (mkOpenFile h pos) from (zlen from) p d = Ok (d', (write_bytes (contents d h) from p).2) /\
    disk_wf d' /\ contents d' h = (write_bytes (contents d h) from p).1 /\
    forall j, 0 <= j < NumSectors -> j ∉ data h -> sector d' j = sector d j) as Hwrite.
  { intros from p Hp Hn Hb. destruct (WriteAt_spec fresh (mkOpenFile h pos) from (zlen from) p d Hd Hh) as
      (d' & E & Hd' & Hc & Hs); [lia|unfold is_s32; lia|done|done|].
    cbn [hdr] in *. exists d'. unfold write_bytes. cbn [fst snd]. rewrite Hlen. done. }
  destruct r as [p|n|from|n p|from p|]; cbn [bytes_step file_request_ok] in *.
  - exists d. done.
  - destruct (Hread n pos) as (d' & E & Hd' & Hc & Hs); [lia..|]. exists d'.
    unfold file_step, Read. cbn [seekPosition]. rewrite E. cbn [bindr hdr].
    unfold read_bytes. pose proof (zlen_bytes_of (contents d h) pos n).
    rewrite s32_small by (unfold is_s32; lia). split_and!; try done; lia.
  - destruct Hr as [Hn Hb]. destruct (Hwrite from pos) as (d' & E & Hd' & Hc & Hs); [lia|done|done|].
    unfold write_bytes in *. cbn [fst snd] in *. exists d'. unfold file_step, Write. cbn [seekPosition].
    rewrite E. cbn [bindr hdr]. rewrite s32_small by (unfold is_s32; lia). split_and!; try done; lia.
  - destruct (Hread n p) as (d' & E & Hd' & Hc & Hs); [lia..|]. exists d'.
    unfold file_step. rewrite E. done.
  - destruct Hr as (Hp & Hn & Hb). destruct (Hwrite from p) as (d' & E & Hd' & Hc & Hs); [lia|done|done|].
    unfold write_bytes in *. cbn [fst snd] in *. exists d'. unfold file_step. rewrite E. done.
  - exists d. unfold file_step, Length, FileLength. cbn [hdr]. by rewrite Hlen.
Qed.

End OpenFiles.

#[local] Existing Instance i386.

(** A file of 300 bytes in sectors 7, 3 and 5: a write across a sector boundary
    from the current position, and reads of it. *)
Definition demo_header : FileHeader := mkFileHeader 300 3 ([7; 3; 5] ++ replicate 27 0).
Definition demo_requests : list file_request :=
  [FSeek 120; FWrite (replicate 20 65); FReadAt 14 110; FRead 400; FLength].

Lemma demo_header_wf : hdr_wf demo_header.
Proof.
  split; try done.
  - change NumSectors with 1024. cbv [data demo_header]. cbn. repeat constructor; lia.
  - apply (bool_decide_unpack (NoDup [7; 3; 5])). vm_compute. exact I.
Qed.

