(* ===== verification/FreeMap.v ===== *)
(** The map of free sectors: the bit map on the disk (BitMap::FetchFrom and
    BitMap::WriteBack of userprog/bitmap.cc), and what FileHeader::Allocate and
    FileHeader::Deallocate do to it. *)
From Stdlib Require Import ZArith Lia Bool.
From stdpp Require Import base numbers list.
From S2P Require Import Prelude Bitmap Machine Sectors FileHdr.

Section OnDisk.
Context {host : Host} {D : Type} `{!SectorStore D}.

(** The words of the map as bytes. *)
Definition map_bytes (b : BitMap.BitMap) : list Z := concat (host_bytes 4 <$> BitMap.map b).
Definition words_of_bytes (n : Z) (bs : list Z) : list Z :=
  (fun i => host_value (bytes_of bs (4 * Z.of_nat i) 4)) <$> seq 0 (Z.to_nat n).

Definition BitMap_FetchFrom (fresh : nat -> Z) (b : BitMap.BitMap) (file : OpenFile) (d : D)
  : res (D * BitMap.BitMap) :=
  '(d, bs) <- ReadAt fresh file (BitMap.numWords b * 4) 0 d ;;
  buf <- store_bytes (map_bytes b) 0 bs ;;
  Ok (d, BitMap.set_map b (words_of_bytes (BitMap.numWords b) buf)).

Definition BitMap_WriteBack (fresh : nat -> Z) (b : BitMap.BitMap) (file : OpenFile) (d : D) : res D :=
  '(d, _) <- WriteAt fresh file (map_bytes b) (BitMap.numWords b * 4) 0 d ;; Ok d.

End OnDisk.

(** ** Free sectors *)

Section Free.
Import BitMap.

(** The clear bits of a map, in order. *)
Definition clear_bits (b : BitMap) : list Z := filter (fun i => bit b i = false) (seqZ 0 (numBits b)).

Lemma clear_bits_elem b i : i ∈ clear_bits b <-> 0 <= i < numBits b /\ bit b i = false.
Proof. unfold clear_bits. rewrite list_elem_of_filter, elem_of_seqZ. naive_solver lia. Qed.

Lemma clear_bits_NoDup b : NoDup (clear_bits b).
Proof. apply NoDup_filter, NoDup_seqZ. Qed.

Lemma filter_fmap_bits b l :
  length (filter (fun x => x = false) (bit b <$> l)) = length (filter (fun i => bit b i = false) l).
Proof.
  induction l as [|i l IH]; [done|]. cbn [fmap list_fmap]. rewrite !filter_cons.
  destruct (bit b i) eqn:E; repeat case_decide; try done; cbn; by rewrite IH.
Qed.

Lemma NumClear_spec b : wf b -> NumClear b = Ok (zlen (clear_bits b)).
Proof.
  intros Hwf. unfold NumClear, for_range. pose proof (wf_bits b Hwf).
  rewrite for_n_NumClear by (done || lia). f_equal. change (drop (Z.to_nat 0) (bits b)) with (bits b).
  rewrite Z.add_0_l. f_equal. unfold clear_bits. rewrite <- filter_fmap_bits. f_equal. f_equal.
  unfold bits, seqZ. rewrite <- list_fmap_compose. apply list_fmap_ext. intros i x _. cbn. f_equal. lia.
Qed.

(** More room than has been taken leaves some. *)
Lemma pigeonhole (l l' : list Z) : NoDup l -> (length l' < length l)%nat -> exists x, x ∈ l /\ x ∉ l'.
Proof.
  intros Hnd Hlen. destruct (decide (Exists (fun x => x ∉ l') l)) as [H|H].
  - by apply Exists_exists.
  - apply not_Exists_Forall in H; [|apply _]. exfalso.
    assert (l ⊆+ l') as Hs.
    { apply NoDup_submseteq; [done|]. intros x Hx. rewrite Forall_forall in H. specialize (H x Hx).
      by apply dec_stable in H. }
    apply submseteq_length in Hs. lia.
Qed.

(** Marking clear bits takes them from the clear ones. *)
Lemma clear_bits_marked b b' l :
  numBits b' = numBits b -> NoDup l -> (forall s, s ∈ l -> 0 <= s < numBits b /\ bit b s = false) ->
  (forall s, 0 <= s < numBits b -> bit b' s = bit b s || bool_decide (s ∈ l)) ->
  clear_bits b ≡ₚ l ++ clear_bits b'.
Proof.
  intros Hn Hl Hc Hb. apply NoDup_Permutation; [apply clear_bits_NoDup| |].
  - apply NoDup_app. split; [done|]. split; [|apply clear_bits_NoDup].
    intros s Hs [Hr Hs']%clear_bits_elem. rewrite Hn in Hr. rewrite Hb, bool_decide_eq_true_2, orb_true_r in Hs' by done.
    done.
  - intros s. rewrite elem_of_app, !clear_bits_elem, Hn. split.
    + intros [Hr Hs]. destruct (decide (s ∈ l)); [by left|right]. split; [done|].
      by rewrite Hb, Hs, bool_decide_eq_false_2.
    + intros [Hs|[Hr Hs]]; [by apply Hc|]. split; [done|]. rewrite Hb in Hs by done. by apply orb_false_iff in Hs as [? _].
Qed.

(** Find on a map with a clear bit, and without. *)
Lemma Find_clear b :
  wf b ->
  if decide (clear_bits b = []) then Find b = Ok (b, -1)
  else exists b' i, Find b = Ok (b', i) /\ 0 <= i < numBits b /\ bit b i = false /\ wf b' /\ numBits b' = numBits b /\
    forall j, 0 <= j < numBits b -> bit b' j = bit b j || bool_decide (j ∈ [i]).
Proof.
  intros Hwf. destruct (decide (clear_bits b = [])) as [He|He].
  - rewrite Find_unfold by done. destruct (list_find _ _) as [[k x]|] eqn:E; [|done]. exfalso.
    apply list_find_Some in E as (Hk & -> & _). pose proof (lookup_lt_Some _ _ _ Hk) as Hlt.
    rewrite length_bits in Hlt. rewrite <- (Nat2Z.id k), lookup_bits in Hk by lia. injection Hk as Hk.
    assert (Z.of_nat k ∈ clear_bits b) as Hin by (apply clear_bits_elem; split; [lia|done]).
    rewrite He in Hin. by apply elem_of_nil in Hin.
  - destruct (clear_bits b) as [|j l] eqn:E; [done|].
    assert (j ∈ clear_bits b) as Hin by (rewrite E; by left). apply clear_bits_elem in Hin as [Hj Hb].
    destruct (Find_bit b j Hwf Hj Hb) as (b' & i & Hf & Hi & Hbi & Hw & Hn & Hbits).
    exists b', i. split_and!; try done; try lia. intros y Hy. rewrite Hbits by done.
    destruct (Z.eqb_spec y i) as [->|Hne].
    + rewrite bool_decide_eq_true_2 by by left. by rewrite orb_true_r.
    + rewrite bool_decide_eq_false_2 by by rewrite list_elem_of_singleton. by rewrite orb_false_r.
Qed.

(** The loop of Allocate. *)
Definition allocate_step (i : Z) (st : FileHeader * BitMap) : res (FileHeader * BitMap) :=
  let '(h, freeMap) := st in
  '(freeMap, s) <- Find freeMap ;;
  ds <- aset (dataSectors h) i s ;; Ok (set_dataSectors h ds, freeMap).

Definition allocated (h : FileHeader) (b : BitMap) (i : Z) (h' : FileHeader) (b' : BitMap) : Prop :=
  let l := take (Z.to_nat i) (dataSectors h') in
  wf b' /\ numBits b' = numBits b /\ numBytes h' = numBytes h /\ numSectors h' = numSectors h /\
  zlen (dataSectors h') = NumDirect /\ NoDup l /\
  (forall s, s ∈ l -> 0 <= s < numBits b /\ bit b s = false) /\
  (forall s, 0 <= s < numBits b -> bit b' s = bit b s || bool_decide (s ∈ l)) /\
  (Forall is_s32 (dataSectors h) -> numBits b < 2 ^ 31 -> Forall is_s32 (dataSectors h')).

Lemma allocate_loop h b n :
  wf b -> zlen (dataSectors h) = NumDirect -> 0 <= n <= NumDirect -> n <= zlen (clear_bits b) ->
  exists h' b', for_range 0 n allocate_step (h, b) = Ok (h', b') /\ allocated h b n h' b'.
Proof.
  intros Hwf Hlen Hn Hge. unfold allocated. change NumDirect with 30 in *.
  destruct (for_range_inv (fun i (st : FileHeader * BitMap) => allocated h b i st.1 st.2) 0 n allocate_step (h, b))
    as ((h' & b') & E & Hinv); [lia| | |by exists h', b'].
  - unfold allocated. cbn [fst snd]. change (take (Z.to_nat 0) (dataSectors h)) with (@nil Z).
    split_and!; try done; [constructor|intros s Hs; by apply elem_of_nil in Hs|].
    intros s _. rewrite bool_decide_eq_false_2 by apply not_elem_of_nil. by rewrite orb_false_r.
  - intros i [h1 b1] Hi (Hw1 & Hnb1 & Hby1 & Hns1 & Hl1 & Hnd1 & Hc1 & Hbit1 & Hint1). cbn [fst snd] in *.
    change NumDirect with 30 in *. set (l := take (Z.to_nat i) (dataSectors h1)) in *.
    assert (length l = Z.to_nat i) as Hll by (unfold l; rewrite length_take; lia).
    destruct (pigeonhole (clear_bits b) l (clear_bits_NoDup b)) as (x & Hx & Hxl); [lia|].
    apply clear_bits_elem in Hx as [Hxr Hxb]. unfold allocate_step.
    destruct (Find_bit b1 x Hw1) as (b2 & s & -> & Hs & Hsb & Hw2 & Hnb2 & Hbit2); [lia| |].
    { rewrite Hbit1, Hxb by done. by rewrite bool_decide_eq_false_2. }
    cbn [bindr]. rewrite aset_in by lia. cbn [bindr]. eexists. split; [done|]. rewrite Hnb1 in *.
    rewrite Hbit1 in Hsb by done. apply orb_false_iff in Hsb as [Hsb Hsl]. apply bool_decide_eq_false in Hsl.
    unfold allocated. cbn [fst snd set_dataSectors numBytes numSectors dataSectors].
    assert (take (Z.to_nat (i + 1)) (<[Z.to_nat i := s]> (dataSectors h1)) = l ++ [s]) as ->.
    { replace (Z.to_nat (i + 1)) with (S (Z.to_nat i)) by lia.
      rewrite (take_S_r _ _ s) by (by rewrite list_lookup_insert_eq by lia). by rewrite take_insert_ge. }
    split_and!; try done.
    + by rewrite length_insert.
    + apply NoDup_app. split; [done|]. split; [|apply NoDup_singleton].
      intros y Hy ->%list_elem_of_singleton. done.
    + intros y [Hy| ->%list_elem_of_singleton]%elem_of_app; [by apply Hc1|done].
    + intros y Hy. rewrite Hbit2, Hbit1 by done. destruct (Z.eqb_spec y s) as [->|Hne].
      * rewrite (bool_decide_eq_true_2 (s ∈ l ++ [s])) by (apply elem_of_app; right; by left). by rewrite orb_true_r.
      * f_equal. apply bool_decide_ext. rewrite elem_of_app, list_elem_of_singleton. naive_solver.
    + intros Hf Hlt. apply Forall_insert; [by apply Hint1|]. unfold is_s32. lia.
Qed.

Lemma Allocate_unfold h b size :
  wf b ->
  Allocate h b size =
  let h := mkFileHeader size (divRoundUp size SectorSize) (dataSectors h) in
  if zlen (clear_bits b) <? divRoundUp size SectorSize then Ok (h, b, false)
  else '(h, b) <- for_range 0 (divRoundUp size SectorSize) allocate_step (h, b) ;; Ok (h, b, true).
Proof. intros Hwf. unfold Allocate. cbn [numSectors]. by rewrite NumClear_spec. Qed.

(** Allocate takes as many clear bits as the file has sectors, or none. *)
Lemma Allocate_spec h b size :
  wf b -> 0 <= size <= MaxFileSize -> zlen (dataSectors h) = NumDirect ->
  if zlen (clear_bits b) <? divRoundUp size SectorSize
  then exists h', Allocate h b size = Ok (h', b, false)
  else exists h' b', Allocate h b size = Ok (h', b', true) /\ wf b' /\ numBits b' = numBits b /\
    numBytes h' = size /\ numSectors h' = divRoundUp size SectorSize /\ zlen (dataSectors h') = NumDirect /\
    zlen (data h') = divRoundUp size SectorSize /\ NoDup (data h') /\
    (forall s, s ∈ data h' -> 0 <= s < numBits b /\ bit b s = false) /\
    (forall s, 0 <= s < numBits b -> bit b' s = bit b s || bool_decide (s ∈ data h')) /\
    (Forall is_s32 (dataSectors h) -> numBits b < 2 ^ 31 -> Forall is_s32 (dataSectors h')).
Proof.
  intros Hwf Hsz Hlen. rewrite Allocate_unfold by done. cbn zeta.
  pose proof (divRoundUp_bounds size SectorSize ltac:(lia) ltac:(done)) as Hb.
  set (n := divRoundUp size SectorSize) in *.
  assert (0 <= n <= NumDirect) as Hn
    by (change MaxFileSize with 3840 in *; change SectorSize with 128 in *; change NumDirect with 30; lia).
  destruct (Z.ltb_spec (zlen (clear_bits b)) n) as [Hlt|Hge]; [by eexists|].
  destruct (allocate_loop (mkFileHeader size n (dataSectors h)) b n Hwf Hlen Hn Hge) as (h' & b' & -> & Ha).
  destruct Ha as (Hw & Hnb & Hby & Hns & Hl & Hnd & Hc & Hbit & Hint). cbn [bindr numBytes numSectors] in *.
  exists h', b'. unfold data. rewrite Hns. split_and!; try done. rewrite length_take.
  change NumDirect with 30 in *. lia.
Qed.

Lemma for_n_app {S} a c i (body : Z -> S -> res S) s :
  for_n (a + c) i body s = (s <- for_n a i body s ;; for_n c (i + Z.of_nat a) body s).
Proof.
  revert i s. induction a as [|a IH]; intros i s; cbn [Nat.add for_n]; [cbn [bindr]; by rewrite Z.add_0_r|].
  destruct (body i s) as [s1|]; cbn [bindr]; [|done]. rewrite IH.
  by replace (i + 1 + Z.of_nat a) with (i + Z.of_nat (Datatypes.S a)) by lia.
Qed.

(** A file that needs more sectors than a header has room for. *)
Lemma Allocate_overrun h b size :
  wf b -> NumDirect < divRoundUp size SectorSize -> divRoundUp size SectorSize <= zlen (clear_bits b) ->
  zlen (dataSectors h) = NumDirect -> Allocate h b size = Err WildAccess.
Proof.
  intros Hwf Hbig Hroom Hlen. rewrite Allocate_unfold by done. cbn zeta.
  set (n := divRoundUp size SectorSize) in *. rewrite (proj2 (Z.ltb_ge _ _)) by lia.
  set (h0 := mkFileHeader size n (dataSectors h)).
  destruct (allocate_loop h0 b NumDirect Hwf Hlen ltac:(done) ltac:(lia)) as (h1 & b1 & E & Ha).
  destruct Ha as (Hw1 & Hnb1 & _ & _ & Hl1 & Hnd1 & Hc1 & Hbit1 & _).
  unfold for_range in *. change NumDirect with 30 in *. rewrite Z.sub_0_r in *.
  replace (Z.to_nat n) with (Z.to_nat 30 + Datatypes.S (Z.to_nat (n - 31)))%nat by lia.
  rewrite for_n_app, E. cbn [bindr for_n]. change (0 + Z.of_nat (Z.to_nat 30)) with 30.
  destruct (pigeonhole (clear_bits b) (take (Z.to_nat 30) (dataSectors h1)) (clear_bits_NoDup b)) as (x & Hx & Hxl).
  { rewrite length_take. lia. }
  apply clear_bits_elem in Hx as [Hxr Hxb]. unfold allocate_step at 1.
  destruct (Find_bit b1 x Hw1) as (b2 & s & -> & _); [lia| |].
  { rewrite Hbit1, Hxb by done. by rewrite bool_decide_eq_false_2. }
  cbn [bindr]. unfold aset. rewrite Hl1. done.
Qed.

(** The header Allocate leaves. *)
Lemma allocated_hdr h n size :
  0 <= size <= MaxFileSize -> n = NumSectors -> numBytes h = size -> numSectors h = divRoundUp size SectorSize ->
  zlen (dataSectors h) = NumDirect -> NoDup (data h) -> (forall s, s ∈ data h -> 0 <= s < n) ->
  Forall is_s32 (dataSectors h) -> hdr_wf h /\ hdr_ints h.
Proof.
  intros Hsz -> Hby Hns Hl Hnd Hr Hi. split.
  - split; [by rewrite Hby|by rewrite Hns, Hby|done|by apply Forall_forall|done].
  - pose proof (divRoundUp_bounds size SectorSize ltac:(lia) ltac:(done)) as Hb. change MaxFileSize with 3840 in Hsz.
    change SectorSize with 128 in *. split; [rewrite Hby|split; [rewrite Hns|done]]; unfold is_s32; lia.
Qed.

(** Deallocate clears the bits of the file's sectors, which must be marked. *)
Lemma Deallocate_spec h b :
  wf b -> hdr_wf h -> NumSectors <= numBits b -> (forall s, s ∈ data h -> bit b s = true) ->
  exists b', Deallocate h b = Ok b' /\ wf b' /\ numBits b' = numBits b /\
    forall s, 0 <= s < numBits b -> bit b' s = bit b s && negb (bool_decide (s ∈ data h)).
Proof.
  intros Hwf Hh Hnum Hm. unfold Deallocate. pose proof (hdr_room h Hh) as (Hn & _ & Hlen).
  destruct (for_range_inv (fun i b' => wf b' /\ numBits b' = numBits b /\
      forall s, 0 <= s < numBits b -> bit b' s = bit b s && negb (bool_decide (s ∈ take (Z.to_nat i) (data h))))
    0 (numSectors h) (fun i freeMap =>
      s <- aget (dataSectors h) i ;; marked <- Test freeMap s ;; _ <- ASSERT marked ;; Clear freeMap s) b)
    as (b' & -> & Hw & Hnb & Hbit); [lia| | |].
  - change (take (Z.to_nat 0) (data h)) with (@nil Z). split_and!; try done. intros s _.
    rewrite bool_decide_eq_false_2 by apply not_elem_of_nil. by rewrite andb_true_r.
  - intros i b1 Hi (Hw1 & Hnb1 & Hbit1). destruct (data_lookup h i Hh Hi) as (s & -> & Hs & Hr). cbn [bindr].
    assert (s ∉ take (Z.to_nat i) (data h)) as Hnot.
    { intros Hin. apply list_elem_of_lookup_1 in Hin as [j Hj]. rewrite lookup_take in Hj.
      case_decide; [|done]. pose proof (NoDup_lookup _ _ _ _ (hw_nodup h Hh) Hj Hs). lia. }
    rewrite Test_bits by (done || lia). cbn [bindr]. rewrite Hbit1 by lia.
    rewrite (Hm s) by (by eapply list_elem_of_lookup_2). rewrite bool_decide_eq_false_2 by done. cbn [negb andb ASSERT bindr].
    destruct (Clear_bit b1 s Hw1) as (b2 & -> & Hw2 & Hnb2 & Hbit2); [lia|]. exists b2. split; [done|].
    rewrite Hnb1 in *. split; [done|]. split; [done|]. intros y Hy. rewrite Hbit2, Hbit1 by done.
    replace (Z.to_nat (i + 1)) with (S (Z.to_nat i)) by lia. rewrite (take_S_r _ _ s) by done.
    destruct (Z.eqb_spec y s) as [->|Hne].
    + rewrite (bool_decide_eq_true_2 (s ∈ _ ++ [s])) by (apply elem_of_app; right; by left). by rewrite andb_false_r.
    + f_equal. f_equal. apply bool_decide_ext. rewrite elem_of_app, list_elem_of_singleton. naive_solver.
  - exists b'. split; [done|]. split; [done|]. split; [done|]. intros s Hs. rewrite Hbit by done.
    rewrite take_ge by lia. done.
Qed.
End Free.

(** ** The map on the disk *)

Section MapFile.
Context {host : Host}.

Lemma map_words_lengths b : Forall (fun l => length l = 4%nat) (host_bytes 4 <$> BitMap.map b).
Proof. apply Forall_fmap, Forall_true. intros. apply length_host_bytes. Qed.

Lemma length_map_bytes b : BitMap.wf b -> zlen (map_bytes b) = 4 * BitMap.numWords b.
Proof.
  intros Hb. unfold map_bytes. rewrite (concat_length _ 4 (map_words_lengths b)), length_fmap.
  rewrite <- (BitMap.wf_len b Hb). lia.
Qed.

Lemma map_bytes_bytes b : Forall is_byte (map_bytes b).
Proof.
  unfold map_bytes. apply Forall_concat, Forall_fmap, Forall_true. intros w. apply (int_bytes_bytes w).
Qed.

Lemma words_of_bytes_bytes b : BitMap.wf b -> words_of_bytes (BitMap.numWords b) (map_bytes b) = BitMap.map b.
Proof.
  intros Hb. unfold words_of_bytes. rewrite <- (BitMap.wf_len b Hb), Nat2Z.id. apply list_eq. intros i.
  rewrite list_lookup_fmap. destruct (decide (i < length (BitMap.map b))%nat) as [Hi|Hi].
  - rewrite (proj2 (lookup_seq 0 (length (BitMap.map b)) i i)) by lia.
    destruct (lookup_lt_is_Some_2 _ i Hi) as [w Hw]. rewrite Hw. cbn [fmap option_fmap option_map]. f_equal.
    assert (bytes_of (map_bytes b) (4 * Z.of_nat i) 4 = host_bytes 4 w) as ->.
    { unfold bytes_of. replace (Z.to_nat (4 * Z.of_nat i)) with (4 * i)%nat by lia.
      change (Z.to_nat 4) with 4%nat. apply (concat_slice (host_bytes 4 <$> BitMap.map b)); [apply map_words_lengths|].
      by rewrite list_lookup_fmap, Hw. }
    rewrite host_value_bytes. change (256 ^ Z.of_nat 4) with (2 ^ 32). apply (u32_small w).
    by apply (Forall_lookup_1 _ _ _ _ (BitMap.wf_word b Hb) Hw).
  - rewrite lookup_seq_ge by lia. symmetry. apply lookup_ge_None. lia.
Qed.

Context {D : Type} `{!SectorStore D, !SectorStoreLaws D}.

Lemma BitMap_WriteBack_spec fresh b f d :
  BitMap.wf b -> disk_wf d -> hdr_wf (hdr f) -> numBytes (hdr f) = 4 * BitMap.numWords b ->
  exists d', BitMap_WriteBack fresh b f d = Ok d' /\ disk_wf d' /\ contents d' (hdr f) = map_bytes b /\
    forall j, 0 <= j < NumSectors -> j ∉ data (hdr f) -> sector d' j = sector d j.
Proof.
  intros Hb Hd Hh Hn. unfold BitMap_WriteBack. pose proof (hdr_bound _ Hh). pose proof (length_map_bytes b Hb) as Hl.
  destruct (WriteAt_spec fresh f (map_bytes b) (BitMap.numWords b * 4) 0 d Hd Hh) as (d' & E & Hd' & Hc & Hs).
  { lia. } { unfold is_s32. lia. } { apply map_bytes_bytes. } { lia. }
  rewrite E. cbn [bindr]. exists d'. split; [done|]. split; [done|]. split; [|done]. rewrite Hc.
  replace (Z.max 0 _) with (zlen (map_bytes b)) by lia.
  rewrite bytes_of_all. pose proof (contents_length d _ Hd Hh). unfold patch.
  rewrite (drop_ge (contents _ _)) by lia. by rewrite app_nil_r.
Qed.

(** Reading a map of the same size from the disk. *)
Lemma BitMap_FetchFrom_spec fresh b b0 f d :
  BitMap.wf b -> BitMap.wf b0 -> BitMap.numBits b = BitMap.numBits b0 ->
  disk_wf d -> hdr_wf (hdr f) -> contents d (hdr f) = map_bytes b ->
  exists d', BitMap_FetchFrom fresh b0 f d = Ok (d', b) /\ disk_wf d' /\
    forall j, 0 <= j < NumSectors -> sector d' j = sector d j.
Proof.
  intros Hb Hb0 Hn Hd Hh Hc. unfold BitMap_FetchFrom. pose proof (hdr_bound _ Hh).
  assert (BitMap.numWords b = BitMap.numWords b0) as Hw
    by (rewrite (BitMap.wf_words b Hb), (BitMap.wf_words b0 Hb0); congruence).
  pose proof (length_map_bytes b Hb) as Hl. pose proof (length_map_bytes b0 Hb0) as Hl0.
  pose proof (contents_length d _ Hd Hh) as Hlc. rewrite Hc in Hlc.
  destruct (ReadAt_spec fresh f (BitMap.numWords b0 * 4) 0 d Hd Hh) as (d' & -> & Hd' & Hs);
    [lia|unfold is_s32; lia|]. cbn [bindr]. rewrite Hc.
  replace (BitMap.numWords b0 * 4) with (zlen (map_bytes b)) by lia. rewrite bytes_of_all.
  rewrite store_bytes_in by lia. cbn [bindr]. exists d'. split; [|done]. f_equal. f_equal.
  unfold patch. rewrite (drop_ge (map_bytes b0)) by lia.
  change (take (Z.to_nat 0) (map_bytes b0)) with (@nil Z). rewrite app_nil_l, app_nil_r, <- Hw.
  rewrite words_of_bytes_bytes by done. unfold BitMap.set_map. rewrite <- Hn, <- Hw. by destruct b.
Qed.
End MapFile.
