(* ===== verification/Directory.v ===== *)
(** Directories (filesys/directory.h, directory.cc): a table of pairs of a file
    name and the sector of the file's header, kept in memory as an array of structs
    and on the disk as the bytes of that array. *)
From Stdlib Require Import ZArith Lia Bool.
From stdpp Require Import base numbers list gmap fin_maps.
From S2P Require Import Prelude Bitmap Machine Sectors FileHdr.

(** ** Two functions of the C library, on arrays of characters *)

(** [strncmp]: zero exactly when the first [n] characters agree, up to a zero. *)
Fixpoint strncmp (n : nat) (s1 s2 : list Z) : res Z :=
  match n with
  | O => Ok 0
  | S n =>
      match s1, s2 with
      | c1 :: s1, c2 :: s2 =>
          if c1 =? c2 then if c1 =? 0 then Ok 0 else strncmp n s1 s2 else Ok (c1 - c2)
      | _, _ => Err WildAccess
      end
  end.

(** The [n] characters [strncpy] stores: the string, filled up with zeros. *)
Fixpoint strncpy (n : nat) (src : list Z) : res (list Z) :=
  match n with
  | O => Ok []
  | S m =>
      match src with
      | [] => Err WildAccess
      | c :: src => if c =? 0 then Ok (replicate n 0) else l <- strncpy m src ;; Ok (c :: l)
      end
  end.

(** ** The class *)

Module Dir.

Definition FileNameMaxLen : Z := 9.

(** The padding the compiler puts behind [inUse] and [name] is part of what is
    written to the disk. *)
Record DirectoryEntry := mkDirectoryEntry {
  inUse : Z;
  pad1 : list Z;
  sector : Z;
  name : list Z;
  pad2 : list Z
}.
Definition sizeof_DirectoryEntry : Z := 20.

Definition set_inUse (v : Z) (e : DirectoryEntry) : DirectoryEntry :=
  mkDirectoryEntry v (pad1 e) (sector e) (name e) (pad2 e).
Definition set_name (n : list Z) (e : DirectoryEntry) : DirectoryEntry :=
  mkDirectoryEntry (inUse e) (pad1 e) (sector e) n (pad2 e).
Definition set_sector (s : Z) (e : DirectoryEntry) : DirectoryEntry :=
  mkDirectoryEntry (inUse e) (pad1 e) s (name e) (pad2 e).

Record Directory := mkDirectory { tableSize : Z; table : list DirectoryEntry }.

Definition set_table (t : list DirectoryEntry) (dir : Directory) : Directory := mkDirectory (tableSize dir) t.

Definition used (e : DirectoryEntry) : bool := negb (inUse e =? 0).

Definition FindIndex (dir : Directory) (nm : list Z) : res Z :=
  r <- for_ret 0 (tableSize dir) (fun i _ =>
        e <- aget (table dir) i ;;
        if used e then
          c <- strncmp (Z.to_nat FileNameMaxLen) (name e) nm ;;
          Ok (if c =? 0 then inr i else inl tt)
        else Ok (inl tt)) tt ;;
  Ok (match r with inl _ => -1 | inr i => i end).

Definition Find (dir : Directory) (nm : list Z) : res Z :=
  i <- FindIndex dir nm ;;
  if negb (i =? -1) then e <- aget (table dir) i ;; Ok (sector e) else Ok (-1).

(** [Add] fills the first free entry. *)
Definition Add (dir : Directory) (nm : list Z) (newSector : Z) : res (Directory * bool) :=
  i <- FindIndex dir nm ;;
  if negb (i =? -1) then Ok (dir, false)
  else
    r <- for_ret 0 (tableSize dir) (fun i _ =>
          e <- aget (table dir) i ;;
          if negb (used e) then
            l <- strncpy (Z.to_nat FileNameMaxLen) nm ;;
            n <- store_bytes (name e) 0 l ;;
            t <- aset (table dir) i (set_sector newSector (set_name n (set_inUse 1 e))) ;;
            Ok (inr (set_table t dir))
          else Ok (inl tt)) tt ;;
    Ok (match r with inl _ => (dir, false) | inr dir => (dir, true) end).

Definition Remove (dir : Directory) (nm : list Z) : res (Directory * bool) :=
  i <- FindIndex dir nm ;;
  if i =? -1 then Ok (dir, false)
  else
    e <- aget (table dir) i ;;
    t <- aset (table dir) i (set_inUse 0 e) ;; Ok (set_table t dir, true).

(** What [List] prints with the format %s for the array [a]: it needs a zero. *)
Fixpoint c_string (a : list Z) : res (list Z) :=
  match a with
  | [] => Err WildAccess
  | c :: a => if c =? 0 then Ok [] else l <- c_string a ;; Ok (c :: l)
  end.

Definition List (dir : Directory) : res (list (list Z)) :=
  for_range 0 (tableSize dir) (fun i out =>
    e <- aget (table dir) i ;;
    if used e then s <- c_string (name e) ;; Ok (out ++ [s]) else Ok out) [].

Section OnDisk.
Context {host : Host}.

Definition entry_bytes (e : DirectoryEntry) : list Z :=
  inUse e :: pad1 e ++ int_bytes (sector e) ++ name e ++ pad2 e.
Definition entry_of_bytes (bs : list Z) : DirectoryEntry :=
  mkDirectoryEntry (host_value (bytes_of bs 0 1)) (bytes_of bs 1 3) (int_at bs 4) (bytes_of bs 8 10) (bytes_of bs 18 2).
Definition table_bytes (t : list DirectoryEntry) : list Z := concat (entry_bytes <$> t).
Definition table_of_bytes (n : Z) (bs : list Z) : list DirectoryEntry :=
  (fun i => entry_of_bytes (bytes_of bs (sizeof_DirectoryEntry * Z.of_nat i) sizeof_DirectoryEntry))
    <$> seq 0 (Z.to_nat n).

(** [fresh] is what [new DirectoryEntry[size]] leaves in the table. *)
Definition Directory_new (fresh : nat -> Z) (size : Z) : res Directory :=
  t <- for_range 0 size (fun i t => e <- aget t i ;; aset t i (set_inUse 0 e))
         (table_of_bytes size (new_bytes fresh (sizeof_DirectoryEntry * size))) ;;
  Ok (mkDirectory size t).

Context {D : Type} `{!SectorStore D}.

(** ReadAt overwrites as much of the table as the file has. *)
Definition Directory_FetchFrom (fresh : nat -> Z) (dir : Directory) (file : OpenFile) (d : D)
  : res (D * Directory) :=
  '(d, bs) <- ReadAt fresh file (tableSize dir * sizeof_DirectoryEntry) 0 d ;;
  buf <- store_bytes (table_bytes (table dir)) 0 bs ;;
  Ok (d, set_table (table_of_bytes (tableSize dir) buf) dir).

Definition Directory_WriteBack (fresh : nat -> Z) (dir : Directory) (file : OpenFile) (d : D) : res D :=
  '(d, _) <- WriteAt fresh file (table_bytes (table dir)) (tableSize dir * sizeof_DirectoryEntry) 0 d ;;
  Ok d.
End OnDisk.
End Dir.

(** ** Names *)

(** What of a string the first [n] characters determine. *)
Fixpoint key_n (n : nat) (s : list Z) : list Z :=
  match n, s with
  | S n, c :: s => if c =? 0 then [] else c :: key_n n s
  | _, _ => []
  end.
Abbreviation key := (key_n 9).

(** An array the two functions do not read past. *)
Fixpoint readable (n : nat) (s : list Z) : bool :=
  match n with
  | O => true
  | S n => match s with [] => false | c :: s => (c =? 0) || readable n s end
  end.

Lemma strncmp_key n a b :
  readable n a = true -> readable n b = true ->
  exists c, strncmp n a b = Ok c /\ (c = 0 <-> key_n n a = key_n n b).
Proof.
  revert a b. induction n as [|n IH]; intros [|x a] [|y b] Ha Hb; cbn in *; try done.
  - by exists 0.
  - by exists 0.
  - by exists 0.
  - by exists 0.
  - destruct (Z.eqb_spec x y) as [->|Hne].
    + destruct (Z.eqb_spec y 0); [by exists 0|]. destruct (IH a b Ha Hb) as (c & -> & Hc).
      exists c. split; [done|]. rewrite Hc. split; congruence.
    + exists (x - y). split; [done|]. split; [lia|]. intros H. destruct (Z.eqb_spec x 0), (Z.eqb_spec y 0); simplify_eq; lia.
Qed.

Lemma strncpy_key n s :
  readable n s = true ->
  exists l, strncpy n s = Ok l /\ length l = n /\ (forall r, key_n n (l ++ r) = key_n n s) /\
    (Forall is_byte s -> Forall is_byte l).
Proof.
  revert s. induction n as [|n IH]; intros s Hs.
  - exists []. split; [done|]. split; [done|]. split; [done|]. intros _. constructor.
  - destruct s as [|c s]; [done|]. cbn in Hs |- *. destruct (Z.eqb_spec c 0) as [->|Hc].
    + exists (replicate (S n) 0). split; [done|]. split; [by rewrite length_replicate|].
      split; [done|]. intros _. apply Forall_replicate. unfold is_byte. lia.
    + destruct (IH s Hs) as (l & -> & Hl & Hk & Hb). cbn. exists (c :: l). split; [done|].
      split; [cbn; lia|]. split; [|intros Hf; inversion Hf; subst; constructor; auto].
      intros r. cbn. rewrite (proj2 (Z.eqb_neq c 0)) by done. by rewrite Hk.
Qed.

Lemma readable_long n s : (n <= length s)%nat -> readable n s = true.
Proof.
  revert s. induction n as [|n IH]; intros [|c s] Hl; cbn in *; try done; [lia|].
  rewrite IH by lia. apply orb_true_r.
Qed.

(** ** The map a table represents *)

Section Table.
Import Dir.

Record entry_wf (e : DirectoryEntry) : Prop := {
  ew_inUse : is_byte (inUse e);
  ew_pad1 : length (pad1 e) = 3%nat /\ Forall is_byte (pad1 e);
  ew_sector : is_s32 (sector e);
  ew_name : length (name e) = 10%nat /\ Forall is_byte (name e);
  ew_pad2 : length (pad2 e) = 2%nat /\ Forall is_byte (pad2 e)
}.

(** The files of a table: their names, as far as the table tells them apart, and
    the sectors of their headers. *)
Definition files (t : list DirectoryEntry) : list (list Z * Z) :=
  omap (fun e => if used e then Some (key (name e), sector e) else None) t.

Record dir_wf (dir : Directory) : Prop := {
  dw_size : tableSize dir = zlen (table dir);
  dw_entries : Forall entry_wf (table dir);
  dw_names : NoDup (files (table dir)).*1
}.

Definition dir_map (dir : Directory) : gmap (list Z) Z := list_to_map (files (table dir)).

Lemma entry_readable e : entry_wf e -> readable 9 (name e) = true.
Proof. intros He. apply readable_long. destruct (ew_name e He). lia. Qed.

Lemma files_used t i e : t !! i = Some e -> used e = true -> (key (name e), sector e) ∈ files t.
Proof. intros Hi Hu. apply list_elem_of_omap. exists e. split; [by eapply list_elem_of_lookup_2|by rewrite Hu]. Qed.

Lemma files_key t k : k ∈ (files t).*1 ->
  exists i e, t !! i = Some e /\ used e = true /\ key (name e) = k.
Proof.
  intros Hk. apply list_elem_of_fmap in Hk as ([k' s] & -> & Hin).
  apply list_elem_of_omap in Hin as (e & Hin & He). destruct (used e) eqn:Hu; [|done].
  apply list_elem_of_lookup_1 in Hin as [i Hi]. exists i, e. naive_solver.
Qed.

Lemma files_insert t i e e' :
  t !! i = Some e ->
  exists l l', files t = l ++ files [e] ++ l' /\ files (<[i := e']> t) = l ++ files [e'] ++ l'.
Proof.
  intros Hi. exists (files (take i t)), (files (drop (S i) t)).
  assert (forall a b, files (a ++ b) = files a ++ files b) as Happ by (intros; apply omap_app). split.
  - rewrite <- !Happ. cbn [app]. by rewrite take_drop_middle.
  - rewrite insert_take_drop by (by eapply lookup_lt_Some). by rewrite <- !Happ.
Qed.

Lemma dir_map_None dir k : dir_map dir !! k = None <-> k ∉ (files (table dir)).*1.
Proof. symmetry. apply not_elem_of_list_to_map. Qed.

Lemma dir_map_Some dir i e : dir_wf dir -> table dir !! i = Some e -> used e = true ->
  dir_map dir !! key (name e) = Some (sector e).
Proof. intros Hd Hi Hu. apply elem_of_list_to_map_1; [apply Hd|by apply (files_used _ i)]. Qed.

(** The number of files, and when there is no room. *)
Lemma dir_map_size dir : dir_wf dir -> size (dir_map dir) = length (files (table dir)).
Proof. intros Hd. unfold dir_map. rewrite map_size_list_to_map; [done|apply Hd]. Qed.

Lemma files_length t : (length (files t) <= length t)%nat /\
  (length (files t) = length t <-> Forall (fun e => used e = true) t).
Proof.
  induction t as [|e t [IH1 IH2]]; [split; [done|]; by split|].
  unfold files in *. cbn [omap list_omap length]. destruct (used e) eqn:Hu; cbn [length].
  - split; [lia|]. rewrite Forall_cons. split; [intros; split; [done|apply IH2; lia]|].
    intros [_ H]. f_equal. by apply IH2.
  - split; [lia|]. rewrite Forall_cons. split; [lia|]. intros [? _]. congruence.
Qed.

Lemma FindIndex_spec dir nm :
  dir_wf dir -> readable 9 nm = true ->
  (dir_map dir !! key nm = None /\ FindIndex dir nm = Ok (-1)) \/
  (exists i e, FindIndex dir nm = Ok i /\ 0 <= i < tableSize dir /\ table dir !! Z.to_nat i = Some e /\
     used e = true /\ key (name e) = key nm /\ dir_map dir !! key nm = Some (sector e)).
Proof.
  intros Hd Hnm. unfold FindIndex.
  edestruct (for_ret_inv (fun i (_ : unit) => forall j e, 0 <= j < i -> table dir !! Z.to_nat j = Some e ->
      used e = true -> key (name e) <> key nm)
    (fun i => 0 <= i < tableSize dir /\ exists e, table dir !! Z.to_nat i = Some e /\
      used e = true /\ key (name e) = key nm) 0 (tableSize dir)) as [(u & -> & H)|(i & -> & Hi & e & He & Hu & Hk)].
  - rewrite (dw_size dir Hd). lia.
  - intros j e Hj. lia.
  - intros i u Hi HP. pose proof (dw_size dir Hd) as Hsz.
    destruct (aget_in (table dir) i) as (e & -> & He); [lia|]. cbn [bindr].
    pose proof (Forall_lookup_1 _ _ _ _ (dw_entries dir Hd) He) as Hwf.
    assert (used e = true -> key (name e) <> key nm -> forall j e, 0 <= j < i + 1 ->
      table dir !! Z.to_nat j = Some e -> used e = true -> key (name e) <> key nm) as Hnext.
    { intros Hu Hk j e' Hj He'. destruct (decide (j = i)) as [->|]; [by simplify_eq|]. apply (HP j); [lia|done]. }
    destruct (used e) eqn:Hu.
    + destruct (strncmp_key 9 (name e) nm (entry_readable e Hwf) Hnm) as (c & Hc & Hiff).
      change (Z.to_nat FileNameMaxLen) with 9%nat. rewrite Hc. cbn [bindr].
      destruct (Z.eqb_spec c 0) as [Hz|Hz].
      * right. exists i. split; [done|]. split; [done|]. exists e. split; [done|]. split; [done|]. by apply Hiff.
      * left. exists tt. split; [done|]. apply Hnext; [done|]. intros Hk. by apply Hz, Hiff.
    + left. exists tt. split; [done|]. intros j e' Hj He' Hu'.
      destruct (decide (j = i)) as [->|]; [by simplify_eq; congruence|]. apply (HP j); [lia|done|done].
  - left. cbn [bindr]. split; [|done]. apply dir_map_None. intros Hin.
    apply files_key in Hin as (i & e & He & Hu & Hk).
    apply (H (Z.of_nat i) e); [|by rewrite Nat2Z.id|done|done].
    apply lookup_lt_Some in He. rewrite (dw_size dir Hd). lia.
  - right. exists i, e. cbn [bindr]. split_and!; try done; try lia.
    rewrite <- Hk. by apply (dir_map_Some dir (Z.to_nat i)).
Qed.

Lemma Find_spec dir nm :
  dir_wf dir -> readable 9 nm = true ->
  Find dir nm = Ok (match dir_map dir !! key nm with Some s => s | None => -1 end).
Proof.
  intros Hd Hnm. unfold Find. destruct (FindIndex_spec dir nm Hd Hnm) as [[-> ->]|(i & e & -> & Hi & He & _ & _ & ->)];
    [done|]. cbn [bindr]. rewrite (proj2 (Z.eqb_neq i (-1))) by lia. cbn [negb].
  rewrite (proj2 (aget_Ok _ _ e)) by (split; [lia|done]). done.
Qed.

Lemma entry_set_used e v : is_byte v -> entry_wf e -> entry_wf (set_inUse v e).
Proof. intros Hv []. by split. Qed.

Lemma Add_spec dir nm s :
  dir_wf dir -> readable 9 nm = true -> Forall is_byte nm -> is_s32 s ->
  if bool_decide (dir_map dir !! key nm = None /\ Z.of_nat (size (dir_map dir)) < tableSize dir) then
    exists dir', Add dir nm s = Ok (dir', true) /\ dir_wf dir' /\ tableSize dir' = tableSize dir /\
      dir_map dir' = <[key nm := s]> (dir_map dir)
  else Add dir nm s = Ok (dir, false).
Proof.
  intros Hd Hnm Hb Hs. unfold Add.
  destruct (FindIndex_spec dir nm Hd Hnm) as [[Hnone ->]|(i & e & -> & Hi & He & _ & _ & Hsome)]; cbn [bindr].
  2: { rewrite bool_decide_eq_false_2 by (intros [? _]; congruence).
       rewrite (proj2 (Z.eqb_neq i (-1))) by lia. done. }
  cbn [negb Z.eqb]. change (-1 =? -1) with true. cbn [negb].
  rewrite dir_map_size by done. pose proof (dw_size dir Hd) as Hsz.
  edestruct (for_ret_inv (fun i (_ : unit) => Forall (fun e => used e = true) (take (Z.to_nat i) (table dir)))
    (fun dir' => exists i e n, table dir !! i = Some e /\ used e = false /\ length n = 10%nat /\ Forall is_byte n /\
       key n = key nm /\ dir' = set_table (<[i := set_sector s (set_name n (set_inUse 1 e))]> (table dir)) dir)
    0 (tableSize dir)) as [(u & -> & H)|(dir' & -> & (i & e & n & He & Hu & Hl & Hbn & Hk & ->))]; cbn [bindr].
  - lia.
  - constructor.
  - intros i u Hi HP. destruct (aget_in (table dir) i) as (e & -> & He); [lia|]. cbn [bindr].
    destruct (used e) eqn:Hu; cbn [negb].
    + left. exists tt. split; [done|]. replace (Z.to_nat (i + 1)) with (S (Z.to_nat i)) by lia.
      rewrite (take_S_r _ _ e) by done. apply Forall_app. split; [done|]. by constructor.
    + right. change (Z.to_nat FileNameMaxLen) with 9%nat.
      destruct (strncpy_key 9 nm Hnm) as (l & -> & Hl & Hk & Hbl). cbn [bindr].
      pose proof (Forall_lookup_1 _ _ _ _ (dw_entries dir Hd) He) as Hwf. destruct (ew_name e Hwf) as [Hn Hnb].
      rewrite store_bytes_in by lia. cbn [bindr]. rewrite aset_in by lia. cbn [bindr].
      eexists. split; [done|]. exists (Z.to_nat i), e, (patch (name e) 0 l). split; [done|]. split; [done|].
      split; [|split; [|split; [|done]]].
      * enough (zlen (patch (name e) 0 l) = 10) by lia. rewrite length_patch by lia. lia.
      * apply patch_bytes; [done|by apply Hbl].
      * unfold patch. change (take (Z.to_nat 0) (name e)) with (@nil Z). apply Hk.
  - rewrite bool_decide_eq_false_2; [done|]. intros [_ Hlt]. rewrite take_ge in H by lia.
    apply (proj2 (proj2 (files_length _))) in H. lia.
  - rewrite bool_decide_eq_true_2.
    2: { split; [done|]. destruct (decide (length (files (table dir)) = length (table dir))) as [Heq|Hne].
         - apply (proj2 (files_length _)) in Heq. pose proof (Forall_lookup_1 _ _ _ _ Heq He). cbn in *. congruence.
         - destruct (files_length (table dir)). lia. }
    eexists. split; [done|]. set (e' := set_sector _ _).
    destruct (files_insert (table dir) i e e' He) as (l & l' & Ht & Ht').
    unfold files in Ht at 2. cbn [omap list_omap] in Ht. rewrite Hu in Ht. cbn [app] in Ht.
    change (files [e']) with [(key n, s)] in Ht'. rewrite Hk in Ht'.
    pose proof (dw_names dir Hd) as Hnd. rewrite Ht, fmap_app in Hnd.
    apply dir_map_None in Hnone. rewrite Ht, fmap_app in Hnone. apply not_elem_of_app in Hnone as [Hn1 Hn2].
    assert (NoDup (l ++ (key nm, s) :: l').*1) as Hnew.
    { rewrite fmap_app. cbn. apply NoDup_app in Hnd as (Hd1 & Hd2 & Hd3).
      apply NoDup_app. split; [done|]. split; [|by constructor].
      intros x Hx [->|Hx']%elem_of_cons; [done|]. by apply (Hd2 x). }
    split; [|split; [done|]].
    + split; cbn [table tableSize set_table].
      * by rewrite length_insert.
      * apply Forall_insert; [apply Hd|]. destruct (Forall_lookup_1 _ _ _ _ (dw_entries dir Hd) He).
        split; cbn; try done.
      * by rewrite Ht'.
    + unfold dir_map. cbn [table set_table]. rewrite Ht, Ht'. cbn [app].
      by rewrite (list_to_map_proper (l ++ (key nm, s) :: l') ((key nm, s) :: l ++ l') Hnew
        (Permutation_sym (Permutation_middle _ _ _))).
Qed.

Lemma Remove_spec dir nm :
  dir_wf dir -> readable 9 nm = true ->
  exists dir', Remove dir nm = Ok (dir', bool_decide (is_Some (dir_map dir !! key nm))) /\ dir_wf dir' /\
    tableSize dir' = tableSize dir /\ dir_map dir' = delete (key nm) (dir_map dir).
Proof.
  intros Hd Hnm. unfold Remove.
  destruct (FindIndex_spec dir nm Hd Hnm) as [[Hnone ->]|(i & e & -> & Hi & He & Hu & Hk & Hsome)]; cbn [bindr].
  { rewrite Hnone, bool_decide_eq_false_2 by (by intros [? ?]). exists dir. rewrite delete_id by done. done. }
  rewrite (proj2 (Z.eqb_neq i (-1))) by lia. rewrite Hsome, bool_decide_eq_true_2 by (by eexists).
  pose proof (dw_size dir Hd) as Hsz.
  rewrite (proj2 (aget_Ok _ _ e)) by (split; [lia|done]). cbn [bindr]. rewrite aset_in by lia. cbn [bindr].
  eexists. split; [done|]. set (e' := set_inUse 0 e).
  destruct (files_insert (table dir) (Z.to_nat i) e e' He) as (l & l' & Ht & Ht').
  unfold files in Ht at 2. cbn [omap list_omap] in Ht. rewrite Hu, Hk in Ht. cbn [app] in Ht.
  change (files [e']) with (@nil (list Z * Z)) in Ht'. cbn [app] in Ht'.
  pose proof (dw_names dir Hd) as Hnd. rewrite Ht, fmap_app in Hnd. cbn in Hnd.
  apply NoDup_app in Hnd as (Hd1 & Hd2 & Hd3). apply NoDup_cons in Hd3 as [Hd3 Hd4].
  assert (key nm ∉ l.*1) as Hnl by (intros Hin; apply (Hd2 _ Hin); left).
  split; [|split; [done|]].
  - split; cbn [table tableSize set_table].
    + by rewrite length_insert.
    + apply Forall_insert; [apply Hd|]. apply entry_set_used; [unfold is_byte; lia|].
      by apply (Forall_lookup_1 _ _ _ _ (dw_entries dir Hd) He).
    + rewrite Ht', fmap_app. apply NoDup_app. split; [done|]. split; [|done].
      intros x Hx Hx'. apply (Hd2 x Hx). by right.
  - unfold dir_map. cbn [table set_table]. rewrite Ht, Ht', !list_to_map_app.
    cbn [list_to_map foldr]. rewrite delete_union.
    rewrite (delete_id (list_to_map l)) by (by apply not_elem_of_list_to_map_1).
    rewrite delete_insert_id; [done|]. by apply not_elem_of_list_to_map_1.
Qed.
End Table.

(** ** Directories on the disk *)

Section DirectoryFile.
Import Dir.
Context {host : Host}.

Lemma host_value_byte b : host_value [b] = b.
Proof. unfold host_value. destruct HOST_IS_BIG_ENDIAN; cbn; lia. Qed.

Lemma length_entry_bytes e : entry_wf e -> length (entry_bytes e) = 20%nat.
Proof.
  intros [_ [H1 _] _ [Hn _] [H2 _]]. unfold entry_bytes. cbn [length].
  rewrite !length_app, length_int_bytes, H1, Hn, H2. done.
Qed.

Lemma entry_bytes_bytes e : entry_wf e -> Forall is_byte (entry_bytes e).
Proof.
  intros [Hu [_ H1] _ [_ Hn] [_ H2]]. constructor; [done|].
  repeat apply Forall_app_2; try done. apply int_bytes_bytes.
Qed.

(** A slice of a sequence of parts, by the lengths of the parts before it. *)
Lemma bytes_of_part pre x post p n :
  zlen pre = p -> zlen x = n -> bytes_of (pre ++ x ++ post) p n = x.
Proof. intros <- <-. unfold bytes_of. by rewrite !Nat2Z.id, drop_app_length, take_app_length. Qed.

Lemma entry_of_bytes_bytes e : entry_wf e -> entry_of_bytes (entry_bytes e) = e.
Proof.
  intros [_ [H1 _] Hs [Hn _] [H2 _]]. destruct e as [u p1 sec n p2]. cbn [inUse pad1 Dir.sector name pad2] in *.
  unfold entry_of_bytes, entry_bytes. cbn [inUse pad1 Dir.sector name pad2]. f_equal.
  - change (u :: p1 ++ int_bytes sec ++ n ++ p2) with ([] ++ [u] ++ p1 ++ int_bytes sec ++ n ++ p2).
    by rewrite bytes_of_part, host_value_byte.
  - apply (bytes_of_part [u] p1); [done|lia].
  - apply (int_at_app (u :: p1)); [done|cbn [length]; lia].
  - replace (u :: p1 ++ int_bytes sec ++ n ++ p2) with ((u :: p1 ++ int_bytes sec) ++ n ++ p2)
      by (cbn; by rewrite <- app_assoc).
    apply bytes_of_part; [cbn [length]; rewrite length_app, length_int_bytes; lia|lia].
  - replace (u :: p1 ++ int_bytes sec ++ n ++ p2) with ((u :: p1 ++ int_bytes sec ++ n) ++ p2 ++ [])
      by (cbn; by rewrite app_nil_r, <- !app_assoc).
    apply bytes_of_part; [cbn [length]; rewrite !length_app, length_int_bytes; lia|lia].
Qed.

Lemma table_entry_lengths t : Forall entry_wf t -> Forall (fun l => length l = 20%nat) (entry_bytes <$> t).
Proof. intros H. apply Forall_fmap. eapply Forall_impl; [exact H|]. apply length_entry_bytes. Qed.

Lemma length_table_bytes t : Forall entry_wf t -> zlen (table_bytes t) = 20 * zlen t.
Proof.
  intros H. unfold table_bytes. rewrite (concat_length _ 20 (table_entry_lengths t H)), length_fmap. lia.
Qed.

Lemma table_bytes_bytes t : Forall entry_wf t -> Forall is_byte (table_bytes t).
Proof.
  intros H. apply Forall_concat, Forall_fmap. eapply Forall_impl; [exact H|]. apply entry_bytes_bytes.
Qed.

Lemma table_of_bytes_bytes t : Forall entry_wf t -> table_of_bytes (zlen t) (table_bytes t) = t.
Proof.
  intros H. unfold table_of_bytes, sizeof_DirectoryEntry. rewrite Nat2Z.id. apply list_eq. intros i.
  rewrite list_lookup_fmap. destruct (decide (i < length t)%nat) as [Hi|Hi].
  - rewrite (proj2 (lookup_seq 0 (length t) i i)) by lia.
    destruct (lookup_lt_is_Some_2 t i Hi) as [e He]. rewrite He. cbn [fmap option_fmap option_map]. f_equal.
    assert (bytes_of (table_bytes t) (20 * Z.of_nat i) 20 = entry_bytes e) as ->.
    { unfold bytes_of. replace (Z.to_nat (20 * Z.of_nat i)) with (20 * i)%nat by lia.
      change (Z.to_nat 20) with 20%nat. apply (concat_slice (entry_bytes <$> t)); [by apply table_entry_lengths|].
      by rewrite list_lookup_fmap, He. }
    apply entry_of_bytes_bytes. by apply (Forall_lookup_1 _ _ _ _ H He).
  - rewrite lookup_seq_ge by lia. symmetry. apply lookup_ge_None. lia.
Qed.

Lemma entry_of_bytes_wf bs : zlen bs = 20 -> Forall is_byte bs -> entry_wf (entry_of_bytes bs).
Proof.
  intros Hl Hb. unfold entry_of_bytes.
  assert (forall p n, 0 <= p -> 0 <= n -> p + n <= 20 -> length (bytes_of bs p n) = Z.to_nat n) as Hlen
    by (intros; pose proof (bytes_of_length bs p n); lia).
  split; cbn; try (split; [rewrite Hlen by lia; done|by apply bytes_of_bytes]); [|apply s32_range].
  pose proof (bytes_of_bytes bs 0 1 Hb) as H1. specialize (Hlen 0 1).
  destruct (bytes_of bs 0 1) as [|b [|]]; try (cbn in Hlen; lia). rewrite host_value_byte. by inversion H1.
Qed.

Lemma table_of_bytes_wf n bs :
  0 <= n -> zlen bs = 20 * n -> Forall is_byte bs ->
  zlen (table_of_bytes n bs) = n /\ Forall entry_wf (table_of_bytes n bs).
Proof.
  intros Hn Hl Hb. unfold table_of_bytes, sizeof_DirectoryEntry. split; [rewrite length_fmap, length_seq; lia|].
  apply Forall_fmap, Forall_seq. intros i Hi. cbn. apply entry_of_bytes_wf; [|by apply bytes_of_bytes].
  apply bytes_of_length; lia.
Qed.

(** A new directory is empty. *)
Lemma Directory_new_spec fresh size :
  0 <= size ->
  exists dir, Directory_new fresh size = Ok dir /\ tableSize dir = size /\ dir_wf dir /\ dir_map dir = ∅.
Proof.
  intros Hs. unfold Directory_new.
  destruct (table_of_bytes_wf size (new_bytes fresh (sizeof_DirectoryEntry * size))) as [Hl Hw];
    [done|by apply length_new_bytes; unfold sizeof_DirectoryEntry; lia|apply new_bytes_bytes|].
  destruct (for_range_inv (fun i t => zlen t = size /\ Forall entry_wf t /\
      Forall (fun e => used e = false) (take (Z.to_nat i) t)) 0 size
    (fun i t => e <- aget t i ;; aset t i (set_inUse 0 e))
    (table_of_bytes size (new_bytes fresh (sizeof_DirectoryEntry * size)))) as (t & -> & Hlt & Hwt & Hu); [done|done| |].
  - intros i t Hi (Hlt & Hwt & Hu). destruct (aget_in t i) as (e & -> & He); [lia|]. cbn [bindr].
    rewrite aset_in by lia. eexists. split; [done|]. split; [by rewrite length_insert|]. split.
    + apply Forall_insert; [done|]. apply entry_set_used; [unfold is_byte; lia|].
      by apply (Forall_lookup_1 _ _ _ _ Hwt He).
    + replace (Z.to_nat (i + 1)) with (S (Z.to_nat i)) by lia.
      rewrite (take_S_r _ _ (set_inUse 0 e)) by (by rewrite list_lookup_insert_eq by lia).
      rewrite take_insert_ge by lia. apply Forall_app. split; [done|]. by constructor.
  - cbn [bindr]. eexists. split; [done|]. split; [done|]. rewrite take_ge in Hu by lia.
    assert (files t = []) as Hf.
    { clear -Hu. induction Hu as [|e t He _ IH]; [done|]. unfold files in *. cbn [omap list_omap]. by rewrite He. }
    split; [|unfold dir_map; cbn [table]; by rewrite Hf].
    split; cbn [table tableSize]; [done|done|]. rewrite Hf. constructor.
Qed.

Context {D : Type} `{!SectorStore D, !SectorStoreLaws D}.

Lemma Directory_WriteBack_spec fresh dir f d :
  dir_wf dir -> disk_wf d -> hdr_wf (hdr f) -> numBytes (hdr f) = 20 * tableSize dir ->
  exists d', Directory_WriteBack fresh dir f d = Ok d' /\ disk_wf d' /\
    contents d' (hdr f) = table_bytes (table dir) /\
    forall j, 0 <= j < NumSectors -> j ∉ data (hdr f) -> Sectors.sector d' j = Sectors.sector d j.
Proof.
  intros Hdir Hd Hh Hn. unfold Directory_WriteBack. pose proof (hdr_bound _ Hh) as Hb.
  pose proof (length_table_bytes (table dir) (dw_entries dir Hdir)) as Hl. rewrite <- (dw_size dir Hdir) in Hl.
  destruct (WriteAt_spec fresh f (table_bytes (table dir)) (tableSize dir * sizeof_DirectoryEntry) 0 d Hd Hh)
    as (d' & E & Hd' & Hc & Hs).
  { lia. } { unfold is_s32, sizeof_DirectoryEntry. lia. } { by apply table_bytes_bytes, dw_entries. }
  { unfold sizeof_DirectoryEntry. lia. }
  rewrite E. cbn [bindr]. exists d'. split; [done|]. split; [done|]. split; [|done]. rewrite Hc.
  replace (Z.max 0 _) with (zlen (table_bytes (table dir))) by (unfold sizeof_DirectoryEntry; lia).
  rewrite bytes_of_all. pose proof (contents_length d _ Hd Hh). unfold patch.
  rewrite (drop_ge (contents _ _)) by lia. by rewrite app_nil_r.
Qed.

Lemma Directory_FetchFrom_spec fresh dir f d t :
  dir_wf dir -> disk_wf d -> hdr_wf (hdr f) -> contents d (hdr f) = table_bytes t -> Forall entry_wf t ->
  zlen t = tableSize dir ->
  exists d', Directory_FetchFrom fresh dir f d = Ok (d', mkDirectory (tableSize dir) t) /\ disk_wf d' /\
    forall j, 0 <= j < NumSectors -> Sectors.sector d' j = Sectors.sector d j.
Proof.
  intros Hdir Hd Hh Hc Ht Hl. unfold Directory_FetchFrom, sizeof_DirectoryEntry.
  pose proof (length_table_bytes t Ht) as Hlt. pose proof (contents_length d _ Hd Hh) as Hlc.
  pose proof (length_table_bytes (table dir) (dw_entries dir Hdir)) as Hld. rewrite <- (dw_size dir Hdir) in Hld.
  rewrite Hc in Hlc. pose proof (hdr_bound _ Hh).
  destruct (ReadAt_spec fresh f (tableSize dir * 20) 0 d Hd Hh) as (d' & -> & Hd' & Hs);
    [lia|unfold is_s32; lia|]. cbn [bindr]. rewrite Hc.
  replace (tableSize dir * 20) with (zlen (table_bytes t)) by lia. rewrite bytes_of_all.
  rewrite store_bytes_in by lia. cbn [bindr]. exists d'. split; [|done]. f_equal. f_equal.
  unfold set_table. f_equal. unfold patch. rewrite (drop_ge (table_bytes (table dir))) by lia.
  change (take (Z.to_nat 0) (table_bytes (table dir))) with (@nil Z). rewrite app_nil_l, app_nil_r, <- Hl.
  by apply table_of_bytes_bytes.
Qed.
End DirectoryFile.

(** ** A directory as a finite map *)

Inductive dir_request :=
| DFind (nm : list Z)
| DAdd (nm : list Z) (newSector : Z)
| DRemove (nm : list Z).

Definition dir_step (dir : Dir.Directory) (r : dir_request) : res (Dir.Directory * Z) :=
  match r with
  | DFind nm => s <- Dir.Find dir nm ;; Ok (dir, s)
  | DAdd nm s => '(dir, b) <- Dir.Add dir nm s ;; Ok (dir, Z.b2z b)
  | DRemove nm => '(dir, b) <- Dir.Remove dir nm ;; Ok (dir, Z.b2z b)
  end.

(** A map from the first nine characters of a name to a sector, with room for
    [size] names. *)
Definition map_step (room : Z) (m : gmap (list Z) Z) (r : dir_request) : gmap (list Z) Z * Z :=
  match r with
  | DFind nm => (m, default (-1) (m !! key nm))
  | DAdd nm s =>
      if bool_decide (m !! key nm = None /\ Z.of_nat (size m) < room) then (<[key nm := s]> m, 1) else (m, 0)
  | DRemove nm => (delete (key nm) m, Z.b2z (bool_decide (is_Some (m !! key nm))))
  end.

Fixpoint dir_run (dir : Dir.Directory) (rs : list dir_request) : res (Dir.Directory * list Z) :=
  match rs with
  | [] => Ok (dir, [])
  | r :: rs => '(dir, a) <- dir_step dir r ;; '(dir, l) <- dir_run dir rs ;; Ok (dir, a :: l)
  end.
Fixpoint map_run (room : Z) (m : gmap (list Z) Z) (rs : list dir_request) : gmap (list Z) Z * list Z :=
  match rs with
  | [] => (m, [])
  | r :: rs => let '(m, a) := map_step room m r in let '(m, l) := map_run room m rs in (m, a :: l)
  end.

(** Names that end, or are long enough, and sectors that are an [int]. *)
Definition dir_request_ok (r : dir_request) : Prop :=
  match r with
  | DFind nm | DRemove nm => readable 9 nm = true
  | DAdd nm s => readable 9 nm = true /\ Forall is_byte nm /\ is_s32 s
  end.

Lemma dir_step_ok dir r :
  dir_wf dir -> dir_request_ok r ->
  exists dir', dir_step dir r = Ok (dir', (map_step (Dir.tableSize dir) (dir_map dir) r).2) /\ dir_wf dir' /\
    Dir.tableSize dir' = Dir.tableSize dir /\ dir_map dir' = (map_step (Dir.tableSize dir) (dir_map dir) r).1.
Proof.
  intros Hd Hr. destruct r as [nm|nm s|nm]; cbn [dir_step map_step fst snd dir_request_ok] in *.
  - rewrite Find_spec by done. cbn [bindr]. exists dir. split; [|done]. by destruct (dir_map dir !! key nm).
  - destruct Hr as (Hr & Hb & Hs). pose proof (Add_spec dir nm s Hd Hr Hb Hs) as H. case_bool_decide.
    + destruct H as (dir' & -> & ?). by exists dir'.
    + rewrite H. by exists dir.
  - destruct (Remove_spec dir nm Hd Hr) as (dir' & -> & ?). by exists dir'.
Qed.

(** C27: a directory is a finite map from names, told apart by their first nine
    characters, to sectors, with a fixed number of places.  Any sequence of Find,
    Add and Remove on a new directory, whatever the memory of its table held,
    answers what the map answers: Find the sector or -1, Add FALSE for a name that
    is there or when the table is full, Remove FALSE for a name that is not there;
    no call reads or writes out of an array; and when the table is written to a file
    and read back into another directory, that one represents the same map. *)
Theorem Directory_refines {host : Host} {D : Type} `{!SectorStore D, !SectorStoreLaws D}
    (fresh : nat -> Z) (room : Z) (rs : list dir_request) (d : D) (file : OpenFile) (dir2 : Dir.Directory) :
  0 <= room -> Forall dir_request_ok rs ->
  disk_wf d -> hdr_wf (hdr file) -> numBytes (hdr file) = Dir.sizeof_DirectoryEntry * room ->
  dir_wf dir2 -> Dir.tableSize dir2 = room ->
  exists dir dir',
    Dir.Directory_new fresh room = Ok dir /\
    dir_run dir rs = Ok (dir', (map_run room ∅ rs).2) /\ dir_map dir' = (map_run room ∅ rs).1 /\
    exists d1 d2 dir3,
      Dir.Directory_WriteBack fresh dir' file d = Ok d1 /\
      Dir.Directory_FetchFrom fresh dir2 file d1 = Ok (d2, dir3) /\
      Dir.tableSize dir3 = room /\ dir_map dir3 = (map_run room ∅ rs).1.
Proof.
  intros Hroom Hrs Hd Hh Hn Hd2 Hs2.
  destruct (Directory_new_spec fresh room Hroom) as (dir & -> & Hsize & Hwf & Hm).
  assert (forall dir, dir_wf dir -> Dir.tableSize dir = room -> exists dir',
    dir_run dir rs = Ok (dir', (map_run room (dir_map dir) rs).2) /\ dir_wf dir' /\
    Dir.tableSize dir' = room /\ dir_map dir' = (map_run room (dir_map dir) rs).1) as Hrun.
  { clear -Hrs. induction Hrs as [|r rs Hr _ IH]; intros dir Hwf <-; [by exists dir|]. cbn [dir_run map_run].
    destruct (dir_step_ok dir r Hwf Hr) as (dir1 & -> & Hwf1 & Hsz1 & Hm1). cbn [bindr].
    destruct (map_step (Dir.tableSize dir) (dir_map dir) r) as [m a]. cbn [fst snd] in *.
    destruct (IH dir1 Hwf1 Hsz1) as (dir2 & -> & Hwf2 & Hsz2 & Hm2). cbn [bindr]. exists dir2.
    rewrite Hm1 in *. by destruct (map_run (Dir.tableSize dir) m rs). }
  destruct (Hrun dir Hwf Hsize) as (dir' & Hr & Hwf' & Hsize' & Hm'). rewrite Hm in Hr, Hm'.
  exists dir, dir'. split; [done|]. split; [done|]. split; [done|].
  unfold Dir.sizeof_DirectoryEntry in Hn.
  destruct (Directory_WriteBack_spec fresh dir' file d Hwf' Hd Hh) as (d1 & -> & Hd1 & Hc1 & _); [lia|].
  destruct (Directory_FetchFrom_spec fresh dir2 file d1 (Dir.table dir') Hd2 Hd1 Hh Hc1) as (d2 & E2 & _).
  { by apply dw_entries. } { rewrite <- (dw_size dir' Hwf'). congruence. }
  eexists d1, d2, _. split; [done|]. split; [exact E2|]. split; [done|]. done.
Qed.

(** ** The terminating byte of a long name *)

Lemma strncpy_full n s :
  length (key_n n s) = n -> strncpy n s = Ok (key_n n s) /\ Forall (fun c => c <> 0) (key_n n s).
Proof.
  revert s. induction n as [|n IH]; intros [|c s] Hl; cbn in *; try done.
  destruct (Z.eqb_spec c 0); [done|]. injection Hl as Hl. destruct (IH s Hl) as [-> Hf]. split; [done|]. by constructor.
Qed.

Lemma readable_full n s : length (key_n n s) = n -> readable n s = true.
Proof.
  revert s. induction n as [|n IH]; intros [|c s] Hl; cbn in *; try done.
  destruct (Z.eqb_spec c 0); [done|]. injection Hl as Hl. by rewrite IH.
Qed.

Lemma c_string_overrun a : Forall (fun c => c <> 0) a -> Dir.c_string a = Err WildAccess.
Proof. induction 1 as [|c a Hc _ IH]; cbn; [done|]. rewrite (proj2 (Z.eqb_neq c 0)) by done. by rewrite IH. Qed.

(** The first entry of a new table: unused, and its name as it was allocated. *)
Lemma Directory_new_first {host : Host} fresh room :
  0 < room -> (forall i, u8 (fresh i) <> 0) ->
  exists dir e t, Dir.Directory_new fresh room = Ok dir /\ Dir.table dir = e :: t /\ Dir.used e = false /\
    Forall (fun c => c <> 0) (Dir.name e) /\ length (Dir.name e) = 10%nat.
Proof.
  intros Hroom Hfresh. unfold Dir.Directory_new, Dir.sizeof_DirectoryEntry.
  set (mem := new_bytes fresh (20 * room)). set (t0 := Dir.table_of_bytes room mem).
  assert (Forall (fun c => c <> 0) mem) as Hmem by (apply Forall_fmap, Forall_true; intros; apply Hfresh).
  assert (zlen mem = 20 * room) as Hlen by (apply length_new_bytes; lia).
  assert (Forall (fun e => Forall (fun c => c <> 0) (Dir.name e) /\ length (Dir.name e) = 10%nat) t0) as Ht0.
  { unfold t0, Dir.table_of_bytes. apply Forall_fmap, Forall_seq. intros i Hi. cbn.
    unfold Dir.sizeof_DirectoryEntry. rewrite bytes_of_bytes_of by lia. split; [by apply Forall_take, Forall_drop|].
    pose proof (bytes_of_length mem (20 * Z.of_nat i + 8) 10). lia. }
  destruct (for_range_inv (fun i t => zlen t = room /\
      Forall (fun e => Forall (fun c => c <> 0) (Dir.name e) /\ length (Dir.name e) = 10%nat) t /\
      (0 < i -> exists e t', t = e :: t' /\ Dir.used e = false)) 0 room
    (fun i t => e <- aget t i ;; aset t i (Dir.set_inUse 0 e)) t0) as (t & -> & Hl & Hn & He); [lia| | |].
  - split; [|split; [done|lia]]. unfold t0, Dir.table_of_bytes. rewrite length_fmap, length_seq. lia.
  - intros i t Hi (Hl & Hn & He). destruct (aget_in t i) as (e & -> & Hi'); [lia|]. cbn [bindr].
    rewrite aset_in by lia. eexists. split; [done|]. split; [by rewrite length_insert|]. split.
    + apply Forall_insert; [done|]. by apply (Forall_lookup_1 _ _ _ _ Hn Hi').
    + intros _. destruct (decide (i = 0)) as [->|Hne].
      * destruct t as [|x t]; [done|]. cbn in Hi'. injection Hi' as ->. by eexists _, _.
      * destruct He as (x & t' & -> & Hx); [lia|]. replace (Z.to_nat i) with (S (Z.to_nat (i - 1))) by lia.
        by eexists _, _.
  - cbn [bindr]. destruct (He Hroom) as (e & t' & -> & Hu). inversion Hn as [|?? [H1 H2] _]; subst.
    by eexists _, e, t'.
Qed.

(** The array of a name has a place for a terminating zero that Add never
    writes.  When the memory of the table holds no zeros, as operator new may leave
    it, a name of nine or more characters makes List read past the end of the array. *)
Theorem List_overrun {host : Host} (fresh : nat -> Z) (room : Z) (nm : list Z) (s : Z) :
  0 < room -> (forall i, u8 (fresh i) <> 0) -> length (key nm) = 9%nat ->
  exists dir dir', Dir.Directory_new fresh room = Ok dir /\ Dir.Add dir nm s = Ok (dir', true) /\
    Dir.List dir' = Err WildAccess.
Proof.
  intros Hroom Hfresh Hnm. destruct (Directory_new_first fresh room Hroom Hfresh) as (dir & e & t & E & Ht & Hu & Hn & Hl).
  destruct (Directory_new_spec fresh room ltac:(lia)) as (dir0 & E0 & Hsz & Hwf & Hm).
  rewrite E in E0. injection E0 as <-. subst room.
  destruct (strncpy_full 9 nm Hnm) as [Hcpy Hnz].
  set (e' := Dir.set_sector s (Dir.set_name (patch (Dir.name e) 0 (key nm)) (Dir.set_inUse 1 e))).
  exists dir, (Dir.set_table (e' :: t) dir). split; [done|]. split.
  - unfold Dir.Add. destruct (FindIndex_spec dir nm Hwf (readable_full 9 nm Hnm)) as [[_ ->]|(i & x & _ & _ & _ & _ & _ & H)];
      [|by rewrite Hm, lookup_empty in H].
    cbn [bindr]. change (-1 =? -1) with true. cbn [negb]. unfold for_ret.
    replace (Z.to_nat (Dir.tableSize dir - 0)) with (S (Z.to_nat (Dir.tableSize dir - 1))) by lia.
    cbn [for_ret_n]. rewrite Ht. change (aget (e :: t) 0) with (Ok (A := Dir.DirectoryEntry) e). cbn [bindr].
    rewrite Hu. cbn [negb]. change (Z.to_nat Dir.FileNameMaxLen) with 9%nat. rewrite Hcpy. cbn [bindr].
    rewrite store_bytes_in by lia. cbn [bindr]. rewrite aset_in by (cbn [length]; lia). done.
  - unfold Dir.List, for_range. cbn [Dir.set_table Dir.tableSize Dir.table].
    replace (Z.to_nat (Dir.tableSize dir - 0)) with (S (Z.to_nat (Dir.tableSize dir - 1))) by lia.
    cbn [for_n]. change (aget (e' :: t) 0) with (Ok (A := Dir.DirectoryEntry) e'). cbn [bindr].
    change (Dir.used e') with true. cbn [Dir.name e' Dir.set_sector Dir.set_name].
    rewrite c_string_overrun; [done|]. unfold patch. change (take (Z.to_nat 0) (Dir.name e)) with (@nil Z).
    rewrite app_nil_l. apply Forall_app_2; [done|]. by apply Forall_drop.
Qed.

#[local] Existing Instance i386.

Definition demo_names : list dir_request :=
  [DAdd [97; 0] 5; DAdd [97; 98; 0] 6; DAdd [97; 0] 7; DAdd [99; 0] 8; DFind [97; 98; 0]; DRemove [97; 0]; DFind [97; 0]].
Definition demo_dir_header : FileHeader := mkFileHeader 40 1 ([9] ++ replicate 29 0).
Definition demo_dir2 : Dir.Directory :=
  match Dir.Directory_new (fun i => Z.of_nat (7 * i)) 2 with Ok dir => dir | Err _ => Dir.mkDirectory 0 [] end.

Lemma Directory_refines_witness :
  map_run 2 ∅ demo_names = ({[ [97; 98] := 6 ]}, [1; 1; 0; 0; 6; 1; -1]) /\
  exists dir dir', Dir.Directory_new (fun i => Z.of_nat i) 2 = Ok dir /\
    dir_run dir demo_names = Ok (dir', [1; 1; 0; 0; 6; 1; -1]).
Proof.
  assert (hdr_wf demo_dir_header) as Hh.
  { split; try done.
    - change NumSectors with 1024. cbv [data demo_dir_header]. cbn. repeat constructor; lia.
    - apply (bool_decide_unpack (NoDup [9])). vm_compute. exact I. }
  assert (dir_wf demo_dir2 /\ Dir.tableSize demo_dir2 = 2) as [Hd2 Hs2].
  { unfold demo_dir2. destruct (Directory_new_spec (fun i => Z.of_nat (7 * i)) 2) as (dir & -> & ? & ? & _); [lia|done]. }
  assert (map_run 2 ∅ demo_names = ({[ [97; 98] := 6 ]}, [1; 1; 0; 0; 6; 1; -1])) as Hm by (vm_compute; reflexivity).
  split; [exact Hm|].
  assert (Forall dir_request_ok demo_names) as Hrs by (unfold demo_names; repeat constructor; cbn; unfold is_byte, is_s32; lia).
  destruct (Directory_refines (fun i => Z.of_nat i) 2 demo_names Array.blank (mkOpenFile demo_dir_header 0) demo_dir2
    ltac:(lia) Hrs Array.blank_wf Hh ltac:(reflexivity) Hd2 Hs2) as (dir & dir' & Hn & Hr & _).
  exists dir, dir'. rewrite Hm in Hr. split; [exact Hn|exact Hr].
Defined.

Lemma List_overrun_witness :
  length (key (replicate 9 97 ++ [0])) = 9%nat /\
  exists dir dir', Dir.Directory_new (fun _ => 7) 10 = Ok dir /\ Dir.Add dir (replicate 9 97 ++ [0]) 5 = Ok (dir', true) /\
    Dir.List dir' = Err WildAccess.
Proof.
  split; [reflexivity|]. apply (List_overrun (fun _ => 7) 10 (replicate 9 97 ++ [0]) 5); [lia|by intros|reflexivity].
Defined.
