(* ===== verification/FileSys.v ===== *)
(** The file system (filesys/filesys.h, filesys.cc, without FILESYS_STUB): files
    found by name through one directory, on a disk whose free sectors a bit map
    records; the bit map and the directory are files themselves, with their
    headers in sectors 0 and 1.  An operation reads both, works on the copies in
    memory, and writes them back only when it has succeeded. *)
From Stdlib Require Import ZArith Lia Bool.
From stdpp Require Import base numbers list gmap fin_maps.
From S2P Require Import Prelude Bitmap Machine Sectors FileHdr FreeMap Directory.

Definition FreeMapSector : Z := 0.
Definition DirectorySector : Z := 1.
Definition FreeMapFileSize : Z := Z.quot NumSectors BitMap.BitsInByte.
Definition NumDirEntries : Z := 10.
Definition DirectoryFileSize : Z := Dir.sizeof_DirectoryEntry * NumDirEntries.

Record FileSystem := mkFileSystem { freeMapFile : OpenFile; directoryFile : OpenFile }.

Section FileSys.
Context {host : Host} {D : Type} `{!SectorStore D}.

(** [new FileHeader]. *)
Definition FileHeader_new (fresh : nat -> Z) : FileHeader := hdr_of_bytes (new_bytes fresh SectorSize).

(** [fresh i] is what the [i]-th allocation of an operation finds in memory. *)
Definition FileSystem_new (fresh : nat -> nat -> Z) (format : bool) (d : D) : res (D * FileSystem) :=
  if format then
    freeMap <- BitMap.BitMap_new (fresh 0%nat) NumSectors ;;
    directory <- Dir.Directory_new (fresh 1%nat) NumDirEntries ;;
    freeMap <- BitMap.Mark freeMap FreeMapSector ;;
    freeMap <- BitMap.Mark freeMap DirectorySector ;;
    '(mapHdr, freeMap, ok) <- Allocate (FileHeader_new (fresh 2%nat)) freeMap FreeMapFileSize ;;
    _ <- ASSERT ok ;;
    '(dirHdr, freeMap, ok) <- Allocate (FileHeader_new (fresh 3%nat)) freeMap DirectoryFileSize ;;
    _ <- ASSERT ok ;;
    d <- WriteBack mapHdr FreeMapSector d ;;
    d <- WriteBack dirHdr DirectorySector d ;;
    '(d, freeMapFile) <- OpenFile_new FreeMapSector d ;;
    '(d, directoryFile) <- OpenFile_new DirectorySector d ;;
    d <- BitMap_WriteBack (fresh 4%nat) freeMap freeMapFile d ;;
    d <- Dir.Directory_WriteBack (fresh 5%nat) directory directoryFile d ;;
    Ok (d, mkFileSystem freeMapFile directoryFile)
  else
    '(d, freeMapFile) <- OpenFile_new FreeMapSector d ;;
    '(d, directoryFile) <- OpenFile_new DirectorySector d ;;
    Ok (d, mkFileSystem freeMapFile directoryFile).

(** [new Directory(NumDirEntries)] and FetchFrom, with which every operation starts. *)
Definition fetch_directory (fresh : nat -> nat -> Z) (fs : FileSystem) (d : D) : res (D * Dir.Directory) :=
  directory <- Dir.Directory_new (fresh 0%nat) NumDirEntries ;;
  Dir.Directory_FetchFrom (fresh 1%nat) directory (directoryFile fs) d.

(** [new BitMap(NumSectors)] and FetchFrom. *)
Definition fetch_freeMap (fresh : nat -> nat -> Z) (fs : FileSystem) (d : D) : res (D * BitMap.BitMap) :=
  freeMap <- BitMap.BitMap_new (fresh 2%nat) NumSectors ;;
  BitMap_FetchFrom (fresh 3%nat) freeMap (freeMapFile fs) d.

Definition Create (fresh : nat -> nat -> Z) (fs : FileSystem) (nm : list Z) (initialSize : Z) (d : D)
  : res (D * bool) :=
  '(d, directory) <- fetch_directory fresh fs d ;;
  s <- Dir.Find directory nm ;;
  if negb (s =? -1) then Ok (d, false)
  else
    '(d, freeMap) <- fetch_freeMap fresh fs d ;;
    '(freeMap, sector) <- BitMap.Find freeMap ;;
    if sector =? -1 then Ok (d, false)
    else
      '(directory, added) <- Dir.Add directory nm sector ;;
      if negb added then Ok (d, false)
      else
        '(hdr, freeMap, ok) <- Allocate (FileHeader_new (fresh 4%nat)) freeMap initialSize ;;
        if negb ok then Ok (d, false)
        else
          d <- WriteBack hdr sector d ;;
          d <- Dir.Directory_WriteBack (fresh 5%nat) directory (directoryFile fs) d ;;
          d <- BitMap_WriteBack (fresh 6%nat) freeMap (freeMapFile fs) d ;;
          Ok (d, true).

Definition Open (fresh : nat -> nat -> Z) (fs : FileSystem) (nm : list Z) (d : D) : res (D * option OpenFile) :=
  '(d, directory) <- fetch_directory fresh fs d ;;
  sector <- Dir.Find directory nm ;;
  if 0 <=? sector then '(d, f) <- OpenFile_new sector d ;; Ok (d, Some f) else Ok (d, None).

Definition Remove (fresh : nat -> nat -> Z) (fs : FileSystem) (nm : list Z) (d : D) : res (D * bool) :=
  '(d, directory) <- fetch_directory fresh fs d ;;
  sector <- Dir.Find directory nm ;;
  if sector =? -1 then Ok (d, false)
  else
    '(d, fileHdr) <- FetchFrom sector d ;;
    '(d, freeMap) <- fetch_freeMap fresh fs d ;;
    freeMap <- Deallocate fileHdr freeMap ;;
    freeMap <- BitMap.Clear freeMap sector ;;
    '(directory, _) <- Dir.Remove directory nm ;;
    d <- BitMap_WriteBack (fresh 4%nat) freeMap (freeMapFile fs) d ;;
    d <- Dir.Directory_WriteBack (fresh 5%nat) directory (directoryFile fs) d ;;
    Ok (d, true).

(** The names FileSystem::List prints. *)
Definition FileSystem_List (fresh : nat -> nat -> Z) (fs : FileSystem) (d : D) : res (D * list (list Z)) :=
  '(d, directory) <- fetch_directory fresh fs d ;;
  l <- Dir.List directory ;; Ok (d, l).
End FileSys.

(** ** The invariant *)

Section Invariant.
Context {host : Host} {D : Type} `{!SectorStore D, !SectorStoreLaws D}.

(** The header in a sector, and the sectors of the file it is the header of. *)
Definition header_at (d : D) (s : Z) : FileHeader := hdr_of_bytes (sector d s).
Definition file_sectors (d : D) (s : Z) : list Z := s :: data (header_at d s).

(** The headers of the two files that describe the disk. *)
Abbreviation mh fs := (hdr (freeMapFile fs)).
Abbreviation dh fs := (hdr (directoryFile fs)).

(** Everything that is in use, for files [m]. *)
Definition in_use (d : D) (fs : FileSystem) (m : gmap (list Z) Z) : list Z :=
  [FreeMapSector; DirectorySector] ++ data (mh fs) ++ data (dh fs) ++
  concat (file_sectors d <$> (map_to_list m).*2).

Record fs_wf (d : D) (fs : FileSystem) (dir : Dir.Directory) (bm : BitMap.BitMap) : Prop := {
  fw_disk : disk_wf d;
  fw_mh : hdr_wf (mh fs) /\ numBytes (mh fs) = FreeMapFileSize /\ header_at d FreeMapSector = mh fs;
  fw_dh : hdr_wf (dh fs) /\ numBytes (dh fs) = DirectoryFileSize /\ header_at d DirectorySector = dh fs;
  fw_bm : BitMap.wf bm /\ BitMap.numBits bm = NumSectors /\ contents d (mh fs) = map_bytes bm;
  fw_dir : dir_wf dir /\ Dir.tableSize dir = NumDirEntries /\ contents d (dh fs) = Dir.table_bytes (Dir.table dir);
  fw_files : forall k s, dir_map dir !! k = Some s -> 0 <= s < NumSectors /\ hdr_wf (header_at d s);
  fw_nodup : NoDup (in_use d fs (dir_map dir));
  fw_marked : forall s, 0 <= s < NumSectors ->
    BitMap.bit bm s = bool_decide (s ∈ in_use d fs (dir_map dir))
}.

(** The files by name, with their bytes. *)
Definition fs_view (d : D) (dir : Dir.Directory) : gmap (list Z) (list Z) :=
  (fun s => contents d (header_at d s)) <$> dir_map dir.

Lemma file_sectors_ext d d' s :
  sector d' s = sector d s -> file_sectors d' s = file_sectors d s.
Proof. intros H. unfold file_sectors, header_at. by rewrite H. Qed.

Lemma file_in_use d fs m k s x : m !! k = Some s -> x ∈ file_sectors d s -> x ∈ in_use d fs m.
Proof.
  intros Hk Hx. unfold in_use. do 3 (apply elem_of_app; right). apply elem_of_concat.
  exists (file_sectors d s). split; [|done]. apply list_elem_of_fmap. exists s. split; [done|].
  apply list_elem_of_fmap. exists (k, s). split; [done|]. by apply elem_of_map_to_list.
Qed.

Lemma in_use_insert d fs m k s :
  m !! k = None -> in_use d fs (<[k := s]> m) ≡ₚ file_sectors d s ++ in_use d fs m.
Proof.
  intros Hk. unfold in_use. rewrite (map_to_list_insert m k s Hk). cbn [fmap list_fmap concat snd].
  solve_Permutation.
Qed.

Lemma in_use_ext d d' fs m :
  (forall k s, m !! k = Some s -> sector d' s = sector d s) -> in_use d' fs m = in_use d fs m.
Proof.
  intros H. unfold in_use. do 3 f_equal. f_equal. apply list_fmap_ext. intros i s Hs. apply file_sectors_ext.
  rewrite list_lookup_fmap in Hs. destruct (map_to_list m !! i) as [[k s']|] eqn:E; [|done]. injection Hs as <-.
  apply (H k). apply elem_of_map_to_list. by eapply list_elem_of_lookup_2.
Qed.

(** Changing only sectors that no file uses. *)
Lemma fs_view_ext d d' fs dir :
  (forall s, s ∈ in_use d fs (dir_map dir) -> s ∉ data (mh fs) -> s ∉ data (dh fs) ->
     s <> FreeMapSector -> s <> DirectorySector -> sector d' s = sector d s) ->
  NoDup (in_use d fs (dir_map dir)) ->
  (forall k s, dir_map dir !! k = Some s -> header_at d' s = header_at d s /\
     contents d' (header_at d s) = contents d (header_at d s)) /\
  (forall k s, dir_map dir !! k = Some s -> sector d' s = sector d s) /\
  fs_view d' dir = fs_view d dir.
Proof.
  intros H Hnd.
  assert (forall k s x, dir_map dir !! k = Some s -> x ∈ file_sectors d s -> sector d' x = sector d x) as Hs.
  { intros k s x Hk Hx. pose proof (file_in_use d fs _ _ _ _ Hk Hx) as Hin.
    assert (x ∈ concat (file_sectors d <$> (map_to_list (dir_map dir)).*2)) as Hc.
    { apply elem_of_concat. exists (file_sectors d s). split; [|done]. apply list_elem_of_fmap. exists s.
      split; [done|]. apply list_elem_of_fmap. exists (k, s). split; [done|]. by apply elem_of_map_to_list. }
    unfold in_use in Hnd. apply NoDup_app in Hnd as (_ & H1 & Hnd). apply NoDup_app in Hnd as (_ & H2 & Hnd).
    apply NoDup_app in Hnd as (_ & H3 & _).
    assert (x ∉ [FreeMapSector; DirectorySector]) as Hx0.
    { intros Hx'. apply (H1 x Hx'). apply elem_of_app. right. apply elem_of_app. by right. }
    apply H; [done| | | |].
    - intros Hx'. apply (H2 x Hx'). apply elem_of_app. by right.
    - intros Hx'. by apply (H3 x Hx').
    - intros ->. apply Hx0. by left.
    - intros ->. apply Hx0. right. by left. }
  assert (forall k s, dir_map dir !! k = Some s -> sector d' s = sector d s) as Hh
    by (intros k s Hk; apply (Hs k s s Hk); by left).
  assert (forall k s, dir_map dir !! k = Some s -> header_at d' s = header_at d s /\
     contents d' (header_at d s) = contents d (header_at d s)) as Hc.
  { intros k s Hk. split; [unfold header_at; by rewrite (Hh k)|]. apply contents_ext. intros x Hx.
    apply (Hs k s x Hk). by right. }
  split; [done|]. split; [done|]. unfold fs_view. apply map_fmap_ext. intros k s Hk.
  destruct (Hc k s Hk) as [-> ->]. done.
Qed.

(** Reading leaves everything as it is. *)
Lemma fs_wf_same d d' fs dir bm :
  fs_wf d fs dir bm -> disk_wf d' -> (forall j, 0 <= j < NumSectors -> sector d' j = sector d j) ->
  fs_wf d' fs dir bm /\ fs_view d' dir = fs_view d dir.
Proof.
  intros Hw Hd' Hs.
  assert (forall s, s ∈ in_use d fs (dir_map dir) -> sector d' s = sector d s) as Hsame.
  { intros s Hin. apply Hs. unfold in_use in Hin. rewrite !elem_of_app in Hin.
    pose proof (hw_range _ (proj1 (fw_mh _ _ _ _ Hw))) as H1. pose proof (hw_range _ (proj1 (fw_dh _ _ _ _ Hw))) as H2.
    rewrite Forall_forall in H1, H2. destruct Hin as [Hin|[Hin|[Hin|Hin]]]; [|by apply H1|by apply H2|].
    - unfold FreeMapSector, DirectorySector in Hin. change NumSectors with 1024.
      apply elem_of_cons in Hin as [->|Hin]; [lia|]. apply list_elem_of_singleton in Hin. lia.
    - apply elem_of_concat in Hin as (l & Hl & Hin). apply list_elem_of_fmap in Hl as (x & -> & Hx).
      apply list_elem_of_fmap in Hx as ([k y] & -> & Hky). apply elem_of_map_to_list in Hky.
      destruct (fw_files _ _ _ _ Hw k y Hky) as [Hy Hhy]. apply elem_of_cons in Hin as [->|Hin]; [done|].
      pose proof (hw_range _ Hhy) as H3. rewrite Forall_forall in H3. by apply H3. }
  destruct (fs_view_ext d d' fs dir) as (Hh & Hsec & Hv); [by intros; apply Hsame|apply Hw|].
  split; [|done]. destruct Hw as [_ Hmh Hdh Hbm Hdir Hf Hnd Hmk].
  assert (0 <= 0 < NumSectors /\ 0 <= 1 < NumSectors) as [H0 H1] by (change NumSectors with 1024; lia).
  assert (in_use d' fs (dir_map dir) = in_use d fs (dir_map dir)) as Hu by (by apply in_use_ext).
  split; [done| | | | | | |].
  - unfold header_at in *. by rewrite Hs.
  - unfold header_at in *. by rewrite Hs.
  - unfold contents in *. by rewrite (same_sectors d d' _ (proj1 Hmh) Hs).
  - unfold contents in *. by rewrite (same_sectors d d' _ (proj1 Hdh) Hs).
  - intros k s Hk. destruct (Hh k s Hk) as [-> _]. by apply (Hf k).
  - by rewrite Hu.
  - by rewrite Hu.
Qed.

(** ** What every operation starts with *)

Lemma fetch_directory_spec fresh d fs dir bm :
  fs_wf d fs dir bm ->
  exists d', fetch_directory fresh fs d = Ok (d', dir) /\ disk_wf d' /\
    forall j, 0 <= j < NumSectors -> sector d' j = sector d j.
Proof.
  intros Hw. unfold fetch_directory. destruct (fw_dir _ _ _ _ Hw) as (Hdir & Hsz & Hc).
  destruct (Directory_new_spec (fresh 0%nat) NumDirEntries ltac:(done)) as (dir0 & -> & Hsz0 & Hw0 & _). cbn [bindr].
  destruct (Directory_FetchFrom_spec (fresh 1%nat) dir0 (directoryFile fs) d (Dir.table dir) Hw0) as (d' & -> & ? & ?);
    try done.
  - apply Hw.
  - apply Hw.
  - by apply dw_entries.
  - rewrite <- (dw_size dir Hdir). congruence.
  - exists d'. rewrite Hsz0, <- Hsz. by destruct dir.
Qed.

Lemma fetch_freeMap_spec fresh d fs dir bm :
  fs_wf d fs dir bm ->
  exists d', fetch_freeMap fresh fs d = Ok (d', bm) /\ disk_wf d' /\
    forall j, 0 <= j < NumSectors -> sector d' j = sector d j.
Proof.
  intros Hw. unfold fetch_freeMap. destruct (fw_bm _ _ _ _ Hw) as (Hbm & Hn & Hc).
  destruct (BitMap.BitMap_new_bits (fresh 2%nat) NumSectors ltac:(done)) as (b0 & -> & Hb0 & Hn0 & _). cbn [bindr].
  destruct (BitMap_FetchFrom_spec (fresh 3%nat) bm b0 (freeMapFile fs) d Hbm Hb0) as (d' & -> & ? & ?);
    [congruence|apply Hw|apply Hw|done|]. by exists d'.
Qed.

(** The two files of the disk have no sector in common, and neither has 0 or 1. *)
Lemma disk_files_disjoint d fs m :
  NoDup (in_use d fs m) ->
  (forall s, s ∈ data (mh fs) -> s ∉ data (dh fs)) /\
  (forall s, s ∈ data (mh fs) \/ s ∈ data (dh fs) -> s <> FreeMapSector /\ s <> DirectorySector).
Proof.
  intros Hnd. unfold in_use in Hnd. apply NoDup_app in Hnd as (_ & H1 & Hnd). apply NoDup_app in Hnd as (_ & H2 & _). split.
  - intros s Hs Hs'. apply (H2 s Hs). apply elem_of_app. by left.
  - intros s Hs.
    assert (s ∉ [FreeMapSector; DirectorySector]) as Hn.
    { intros Hin. apply (H1 s Hin). rewrite !elem_of_app. naive_solver. }
    split; intros ->; apply Hn; [by left|right; by left].
Qed.

(** Writing both back, in either order. *)
Lemma commit fresh fresh' d fs dir bm :
  disk_wf d -> hdr_wf (mh fs) /\ numBytes (mh fs) = FreeMapFileSize ->
  hdr_wf (dh fs) /\ numBytes (dh fs) = DirectoryFileSize ->
  (forall s, s ∈ data (mh fs) -> s ∉ data (dh fs)) ->
  BitMap.wf bm -> BitMap.numBits bm = NumSectors -> dir_wf dir -> Dir.tableSize dir = NumDirEntries ->
  let final d' := disk_wf d' /\ contents d' (mh fs) = map_bytes bm /\ contents d' (dh fs) = Dir.table_bytes (Dir.table dir) /\
    forall j, 0 <= j < NumSectors -> j ∉ data (mh fs) -> j ∉ data (dh fs) -> sector d' j = sector d j in
  (exists d1 d2, Dir.Directory_WriteBack fresh dir (directoryFile fs) d = Ok d1 /\
     BitMap_WriteBack fresh' bm (freeMapFile fs) d1 = Ok d2 /\ final d2) /\
  (exists d1 d2, BitMap_WriteBack fresh bm (freeMapFile fs) d = Ok d1 /\
     Dir.Directory_WriteBack fresh' dir (directoryFile fs) d1 = Ok d2 /\ final d2).
Proof.
  intros Hd [Hmh Hmn] [Hdh Hdn] Hdis Hbm Hn Hdir Hsz final.
  assert (numBytes (mh fs) = 4 * BitMap.numWords bm) as Hmn' by (rewrite (BitMap.wf_words bm Hbm), Hn, Hmn; done).
  assert (numBytes (dh fs) = 20 * Dir.tableSize dir) as Hdn' by (rewrite Hsz, Hdn; done).
  assert (forall h s, hdr_wf h -> s ∈ data h -> 0 <= s < NumSectors) as Hr.
  { intros h s Hh Hs. pose proof (hw_range h Hh) as H. rewrite Forall_forall in H. by apply H. }
  split.
  - destruct (Directory_WriteBack_spec fresh dir (directoryFile fs) d Hdir Hd Hdh Hdn') as (d1 & -> & Hd1 & Hc1 & Hs1).
    destruct (BitMap_WriteBack_spec fresh' bm (freeMapFile fs) d1 Hbm Hd1 Hmh Hmn') as (d2 & E2 & Hd2 & Hc2 & Hs2).
    exists d1, d2. split; [done|]. split; [done|]. split; [done|]. split; [done|]. split.
    + rewrite <- Hc1. apply contents_ext. intros s Hs. apply Hs2; [by apply (Hr _ _ Hdh)|]. intros Hs'. by apply (Hdis s).
    + intros j Hj Hjm Hjd. by rewrite Hs2, Hs1.
  - destruct (BitMap_WriteBack_spec fresh bm (freeMapFile fs) d Hbm Hd Hmh Hmn') as (d1 & -> & Hd1 & Hc1 & Hs1).
    destruct (Directory_WriteBack_spec fresh' dir (directoryFile fs) d1 Hdir Hd1 Hdh Hdn') as (d2 & E2 & Hd2 & Hc2 & Hs2).
    exists d1, d2. split; [done|]. split; [done|]. split; [done|]. split; [|split; [done|]].
    + rewrite <- Hc1. apply contents_ext. intros s Hs. apply Hs2; [by apply (Hr _ _ Hmh)|]. by apply Hdis.
    + intros j Hj Hjm Hjd. by rewrite Hs2, Hs1.
Qed.

(** The number of free sectors. *)
Definition free (bm : BitMap.BitMap) : Z := zlen (clear_bits bm).

(** Header and directory entry of the free map and the directory never move. *)
Lemma in_use_range d fs dir bm s : fs_wf d fs dir bm -> s ∈ in_use d fs (dir_map dir) -> 0 <= s < NumSectors.
Proof.
  intros Hw Hin. unfold in_use in Hin. rewrite !elem_of_app in Hin.
  pose proof (hw_range _ (proj1 (fw_mh _ _ _ _ Hw))) as H1. pose proof (hw_range _ (proj1 (fw_dh _ _ _ _ Hw))) as H2.
  rewrite Forall_forall in H1, H2. destruct Hin as [Hin|[Hin|[Hin|Hin]]]; [|by apply H1|by apply H2|].
  - unfold FreeMapSector, DirectorySector in Hin. change NumSectors with 1024.
    apply elem_of_cons in Hin as [->|Hin]; [lia|]. apply list_elem_of_singleton in Hin. lia.
  - apply elem_of_concat in Hin as (l & Hl & Hin). apply list_elem_of_fmap in Hl as (x & -> & Hx).
    apply list_elem_of_fmap in Hx as ([k y] & -> & Hky). apply elem_of_map_to_list in Hky.
    destruct (fw_files _ _ _ _ Hw k y Hky) as [Hy Hhy]. apply elem_of_cons in Hin as [->|Hin]; [done|].
    pose proof (hw_range _ Hhy) as H3. rewrite Forall_forall in H3. by apply H3.
Qed.

Lemma create_commit fresh fresh' d fs dir bm dir' bm' k s0 h :
  fs_wf d fs dir bm -> dir_map dir !! k = None -> hdr_wf h -> hdr_ints h -> 0 <= s0 < NumSectors ->
  NoDup (s0 :: data h) -> (forall x, x ∈ s0 :: data h -> BitMap.bit bm x = false) ->
  BitMap.wf bm' -> BitMap.numBits bm' = NumSectors ->
  (forall x, 0 <= x < NumSectors -> BitMap.bit bm' x = BitMap.bit bm x || bool_decide (x ∈ s0 :: data h)) ->
  dir_wf dir' -> Dir.tableSize dir' = NumDirEntries -> dir_map dir' = <[k := s0]> (dir_map dir) ->
  exists d1 d2 d3, WriteBack h s0 d = Ok d1 /\
    Dir.Directory_WriteBack fresh dir' (directoryFile fs) d1 = Ok d2 /\
    BitMap_WriteBack fresh' bm' (freeMapFile fs) d2 = Ok d3 /\
    fs_wf d3 fs dir' bm' /\ fs_view d3 dir' = <[k := contents d3 h]> (fs_view d dir).
Proof.
  intros Hw Hk Hh Hints Hs0 Hnd0 Hfree Hbm' Hn' Hbit' Hdir' Hsz' Hm'.
  pose proof (fw_nodup _ _ _ _ Hw) as Hnd. destruct (fw_mh _ _ _ _ Hw) as (Hmh & Hmn & Hmat).
  destruct (fw_dh _ _ _ _ Hw) as (Hdh & Hdn & Hdat).
  assert (forall x, x ∈ in_use d fs (dir_map dir) -> x ∉ s0 :: data h) as Hnew.
  { intros x Hx Hin. pose proof (Hfree x Hin) as Hf. rewrite (fw_marked _ _ _ _ Hw) in Hf by by apply (in_use_range d fs dir bm).
    by rewrite bool_decide_eq_true_2 in Hf. }
  assert (FreeMapSector ∈ in_use d fs (dir_map dir) /\ DirectorySector ∈ in_use d fs (dir_map dir)) as [Hin0 Hin1]
    by (split; [left|right; left]).
  assert (forall x, x ∈ data (mh fs) -> x ∈ in_use d fs (dir_map dir)) as Hinm.
  { intros x Hx. unfold in_use. apply elem_of_app. right. apply elem_of_app. by left. }
  assert (forall x, x ∈ data (dh fs) -> x ∈ in_use d fs (dir_map dir)) as Hind.
  { intros x Hx. unfold in_use. apply elem_of_app. right. apply elem_of_app. right. apply elem_of_app. by left. }
  assert (s0 ∈ s0 :: data h) as Hs0h by left.
  destruct (WriteBack_spec h s0 d (fw_disk _ _ _ _ Hw) Hs0 (hw_len h Hh)) as (d1 & -> & Hd1 & Hsec1).
  destruct (disk_files_disjoint d fs _ Hnd) as [Hdis Hnot01].
  destruct (commit fresh fresh' d1 fs dir' bm' Hd1 (conj Hmh Hmn) (conj Hdh Hdn) Hdis Hbm' Hn' Hdir' Hsz')
    as [(d2 & d3 & E2 & E3 & Hd3 & Hcm & Hcd & Hsec3) _].
  assert (forall j, 0 <= j < NumSectors -> j ∉ data (mh fs) -> j ∉ data (dh fs) -> j <> s0 -> sector d3 j = sector d j)
    as Hsec by (intros j Hj ?? Hne; rewrite Hsec3, Hsec1 by done; by rewrite (proj2 (Z.eqb_neq j s0))).
  assert (sector d3 s0 = hdr_bytes h) as Hs0sec.
  { rewrite Hsec3, Hsec1, Z.eqb_refl; [done|done|done| |].
    - intros Hin. by apply (Hnew s0 (Hinm _ Hin)).
    - intros Hin. by apply (Hnew s0 (Hind _ Hin)). }
  assert (header_at d3 s0 = h) as Hat by (unfold header_at; rewrite Hs0sec; apply hdr_of_bytes_bytes; [apply Hh|done]).
  destruct (fs_view_ext d d3 fs dir) as (Hold & Hsold & Hview); [|done|].
  { intros x Hx ????. apply Hsec; [by apply (in_use_range d fs dir bm)|done|done|].
    intros ->. by apply (Hnew s0 Hx). }
  assert (in_use d3 fs (dir_map dir') ≡ₚ (s0 :: data h) ++ in_use d fs (dir_map dir)) as Huse.
  { rewrite Hm', in_use_insert by done. unfold file_sectors. rewrite Hat. f_equiv.
    by rewrite (in_use_ext d d3). }
  assert (forall s, s = FreeMapSector \/ s = DirectorySector -> sector d3 s = sector d s) as H01.
  { intros s Hs. assert (s ∈ in_use d fs (dir_map dir)) as Hin by by destruct Hs as [->| ->].
    apply Hsec; [by apply (in_use_range d fs dir bm)| | |].
    - intros Hx. by destruct (Hnot01 s (or_introl Hx)), Hs.
    - intros Hx. by destruct (Hnot01 s (or_intror Hx)), Hs.
    - intros ->. by apply (Hnew s0 Hin). }
  exists d1, d2, d3. split; [done|]. split; [done|]. split; [done|]. split.
  - split; try done.
    + split; [done|]. split; [done|]. unfold header_at. rewrite H01 by by left. exact Hmat.
    + split; [done|]. split; [done|]. unfold header_at. rewrite H01 by by right. exact Hdat.
    + intros k' s' Hk'. rewrite Hm' in Hk'. destruct (decide (k' = k)) as [->|Hne].
      * rewrite lookup_insert_eq in Hk'. injection Hk' as <-. by rewrite Hat.
      * rewrite lookup_insert_ne in Hk' by done. destruct (Hold k' s' Hk') as [-> _]. by apply (fw_files _ _ _ _ Hw k').
    + rewrite Huse. apply NoDup_app. split; [done|]. split; [|done]. intros x Hx Hx'. by apply (Hnew x).
    + intros x Hx. rewrite Hbit', (fw_marked _ _ _ _ Hw) by done.
      rewrite <- bool_decide_or. apply bool_decide_ext. rewrite Huse, elem_of_app. tauto.
  - unfold fs_view at 1. rewrite Hm', fmap_insert, Hat. f_equal. exact Hview.
Qed.

(** ** The operations *)

Lemma FileHeader_new_shape fresh :
  zlen (dataSectors (FileHeader_new fresh)) = NumDirect /\ Forall is_s32 (dataSectors (FileHeader_new fresh)).
Proof. destruct (hdr_of_bytes_shape (new_bytes fresh SectorSize)) as [H (_ & _ & H2)]. done. Qed.

(** Taking a sector for the header and then the sectors of the data. *)
Lemma allocate_file fresh bm bm1 s0 size :
  BitMap.wf bm -> BitMap.numBits bm = NumSectors -> 0 <= s0 < NumSectors -> BitMap.bit bm s0 = false ->
  BitMap.wf bm1 -> BitMap.numBits bm1 = BitMap.numBits bm ->
  (forall j, 0 <= j < BitMap.numBits bm -> BitMap.bit bm1 j = BitMap.bit bm j || bool_decide (j ∈ [s0])) ->
  0 <= size <= MaxFileSize ->
  if free bm <? 1 + divRoundUp size SectorSize
  then exists h, Allocate (FileHeader_new fresh) bm1 size = Ok (h, bm1, false)
  else exists h bm', Allocate (FileHeader_new fresh) bm1 size = Ok (h, bm', true) /\
    BitMap.wf bm' /\ BitMap.numBits bm' = NumSectors /\ hdr_wf h /\ hdr_ints h /\ numBytes h = size /\
    NoDup (s0 :: data h) /\ (forall x, x ∈ s0 :: data h -> BitMap.bit bm x = false) /\
    (forall x, 0 <= x < NumSectors -> BitMap.bit bm' x = BitMap.bit bm x || bool_decide (x ∈ s0 :: data h)) /\
    free bm' = free bm - 1 - divRoundUp size SectorSize.
Proof.
  intros Hbm Hn Hs0 Hb0 Hbm1 Hn1 Hbit1 Hsz. destruct (FileHeader_new_shape fresh) as [Hlen Hints].
  assert (clear_bits bm ≡ₚ [s0] ++ clear_bits bm1) as Hclear.
  { apply clear_bits_marked; [done|apply NoDup_singleton| |done].
    intros s ->%list_elem_of_singleton. by rewrite Hn. }
  assert (free bm = 1 + zlen (clear_bits bm1)) as Hfree by (unfold free; rewrite Hclear, length_app; cbn; lia).
  pose proof (Allocate_spec (FileHeader_new fresh) bm1 size Hbm1 Hsz Hlen) as Ha.
  destruct (Z.ltb_spec (zlen (clear_bits bm1)) (divRoundUp size SectorSize)).
  { destruct Ha as [h Ha]. rewrite (proj2 (Z.ltb_lt _ _)) by lia. by exists h. }
  rewrite (proj2 (Z.ltb_ge _ _)) by lia.
  destruct Ha as (h & bm' & E & Hw' & Hn' & Hby & Hns & Hl & Hdl & Hnd & Hc & Hbit & Hi).
  assert (clear_bits bm1 ≡ₚ data h ++ clear_bits bm') as Hclear' by by apply clear_bits_marked.
  assert (s0 ∉ data h) as Hs0h.
  { intros Hin. destruct (Hc s0 Hin) as [_ Hf]. rewrite Hbit1, bool_decide_eq_true_2, orb_true_r in Hf; [done|by left|].
    by rewrite Hn. }
  destruct (allocated_hdr h (BitMap.numBits bm1) size Hsz ltac:(congruence) Hby Hns Hl Hnd (fun s Hs => proj1 (Hc s Hs)))
    as [Hh Hhi]; [apply Hi; [done|by rewrite Hn1, Hn]|].
  exists h, bm'. split; [done|]. split; [done|]. split; [congruence|]. split_and!; try done.
  - by apply NoDup_cons.
  - intros x [->|Hx]%elem_of_cons; [done|]. destruct (Hc x Hx) as [Hr Hf]. rewrite Hn1 in Hr.
    rewrite Hbit1 in Hf by done. by apply orb_false_iff in Hf as [? _].
  - intros x Hx. rewrite <- Hn in Hx. rewrite Hbit, Hbit1 by (congruence || (rewrite Hn1; done)).
    rewrite <- orb_assoc, <- bool_decide_or. f_equal. apply bool_decide_ext.
    set_solver.
  - unfold free in *. rewrite Hclear', length_app in Hfree. lia.
Qed.

(** Create, on each of its branches. *)
Lemma Create_spec fresh d fs dir bm nm size :
  fs_wf d fs dir bm -> readable 9 nm = true -> Forall is_byte nm -> 0 <= size <= MaxFileSize ->
  if bool_decide (dir_map dir !! key nm = None /\ Z.of_nat (base.size (dir_map dir)) < NumDirEntries /\
                  1 + divRoundUp size SectorSize <= free bm)
  then exists d' dir' bm' c, Create fresh fs nm size d = Ok (d', true) /\ fs_wf d' fs dir' bm' /\ zlen c = size /\
    fs_view d' dir' = <[key nm := c]> (fs_view d dir) /\ free bm' = free bm - 1 - divRoundUp size SectorSize
  else exists d', Create fresh fs nm size d = Ok (d', false) /\ fs_wf d' fs dir bm /\ fs_view d' dir = fs_view d dir.
Proof.
  intros Hw Hnm Hb Hsz. unfold Create.
  destruct (fetch_directory_spec fresh d fs dir bm Hw) as (d1 & -> & Hd1 & Hs1). cbn [bindr].
  destruct (fs_wf_same d d1 fs dir bm Hw Hd1 Hs1) as [Hw1 Hv1]. destruct (fw_dir _ _ _ _ Hw) as (Hdir & Hdsz & _).
  rewrite Find_spec by done. cbn [bindr].
  destruct (dir_map dir !! key nm) as [s|] eqn:Ek.
  { rewrite bool_decide_eq_false_2 by (by intros [? _]). destruct (fw_files _ _ _ _ Hw _ _ Ek) as [Hr _].
    rewrite (proj2 (Z.eqb_neq s (-1))) by lia. by exists d1. }
  change (-1 =? -1) with true. cbn [negb].
  destruct (fetch_freeMap_spec fresh d1 fs dir bm Hw1) as (d2 & -> & Hd2 & Hs2). cbn [bindr].
  destruct (fs_wf_same d1 d2 fs dir bm Hw1 Hd2 Hs2) as [Hw2 Hv2]. rewrite Hv1 in Hv2.
  destruct (fw_bm _ _ _ _ Hw) as (Hbm & Hn & _). pose proof (Find_clear bm Hbm) as Hfind.
  pose proof (divRoundUp_bounds size SectorSize ltac:(lia) ltac:(done)) as Hround. change SectorSize with 128 in Hround.
  destruct (decide (clear_bits bm = [])) as [Hnil|Hnil].
  { rewrite Hfind. cbn [bindr]. rewrite bool_decide_eq_false_2; [by exists d2|].
    intros (_ & _ & Hf). unfold free in Hf. rewrite Hnil in Hf. change SectorSize with 128 in Hf. cbn [length] in Hf. lia. }
  destruct Hfind as (bm1 & s0 & -> & Hs0 & Hb0 & Hbm1 & Hn1 & Hbit1). cbn [bindr].
  rewrite (proj2 (Z.eqb_neq s0 (-1))) by lia. rewrite Hn in Hs0.
  pose proof (Add_spec dir nm s0 Hdir Hnm Hb) as Hadd. rewrite Ek, Hdsz in Hadd.
  assert (is_s32 s0) as Hs32 by (change NumSectors with 1024 in Hs0; unfold is_s32; lia). specialize (Hadd Hs32).
  destruct (decide (Z.of_nat (base.size (dir_map dir)) < NumDirEntries)) as [Hroom|Hroom].
  2: { rewrite bool_decide_eq_false_2 in Hadd by (by intros [_ ?]). rewrite Hadd. cbn [bindr negb].
       rewrite bool_decide_eq_false_2 by (by intros (_ & ? & _)). by exists d2. }
  rewrite bool_decide_eq_true_2 in Hadd by done. destruct Hadd as (dir' & -> & Hdir' & Hsz' & Hm'). cbn [bindr negb].
  pose proof (allocate_file (fresh 4%nat) bm bm1 s0 size Hbm Hn Hs0 Hb0 Hbm1 Hn1 Hbit1 Hsz) as Ha.
  destruct (Z.ltb_spec (free bm) (1 + divRoundUp size SectorSize)) as [Hlt|Hge].
  { destruct Ha as [h ->]. cbn [bindr negb]. rewrite bool_decide_eq_false_2 by (intros (_ & _ & ?); lia). by exists d2. }
  rewrite bool_decide_eq_true_2 by done.
  destruct Ha as (h & bm' & -> & Hbm' & Hn' & Hh & Hints & Hby & Hnd & Hclear & Hbit' & Hfree). cbn [bindr negb].
  destruct (create_commit (fresh 5%nat) (fresh 6%nat) d2 fs dir bm dir' bm' (key nm) s0 h Hw2 Ek Hh Hints Hs0 Hnd Hclear
    Hbm' Hn' Hbit' Hdir' ltac:(congruence) Hm') as (d3 & d4 & d5 & -> & E4 & E5 & Hw5 & Hv5).
  cbn [bindr]. rewrite E4. cbn [bindr]. rewrite E5. cbn [bindr].
  exists d5, dir', bm', (contents d5 h). split; [done|]. split; [done|]. split; [|split; [by rewrite Hv5, Hv2|done]].
  rewrite contents_length; [done|apply Hw5|done].
Qed.

(** Open gives a file whose bytes are those of the name. *)
Lemma Open_spec fresh d fs dir bm nm :
  fs_wf d fs dir bm -> readable 9 nm = true ->
  exists d' o, Open fresh fs nm d = Ok (d', o) /\ fs_wf d' fs dir bm /\ fs_view d' dir = fs_view d dir /\
    match o with
    | None => fs_view d dir !! key nm = None
    | Some f => seekPosition f = 0 /\ hdr_wf (hdr f) /\ fs_view d dir !! key nm = Some (contents d' (hdr f)) /\
        exists s, dir_map dir !! key nm = Some s /\ hdr f = header_at d' s
    end.
Proof.
  intros Hw Hnm. unfold Open.
  destruct (fetch_directory_spec fresh d fs dir bm Hw) as (d1 & -> & Hd1 & Hs1). cbn [bindr].
  destruct (fs_wf_same d d1 fs dir bm Hw Hd1 Hs1) as [Hw1 Hv1]. destruct (fw_dir _ _ _ _ Hw) as (Hdir & _).
  rewrite Find_spec by done. cbn [bindr]. destruct (dir_map dir !! key nm) as [s|] eqn:Ek.
  - destruct (fw_files _ _ _ _ Hw1 _ _ Ek) as [Hr Hh]. rewrite (proj2 (Z.leb_le 0 s)) by lia. unfold OpenFile_new.
    destruct (FetchFrom_spec s d1 Hd1 Hr) as (d2 & -> & Hd2 & Hs2). cbn [bindr].
    destruct (fs_wf_same d1 d2 fs dir bm Hw1 Hd2 Hs2) as [Hw2 Hv2]. eexists d2, _. split; [done|]. split; [done|].
    split; [congruence|]. split; [done|]. split; [done|]. cbn [hdr].
    change (hdr_of_bytes (sector d1 s)) with (header_at d1 s).
    assert (header_at d2 s = header_at d1 s) as Hat by (unfold header_at; by rewrite Hs2). split.
    + rewrite <- Hv1, <- Hv2. unfold fs_view. rewrite lookup_fmap, Ek. cbn. by rewrite Hat.
    + exists s. by rewrite Hat.
  - change (0 <=? -1) with false. eexists d1, None. split; [done|]. split; [done|]. split; [done|].
    unfold fs_view. by rewrite lookup_fmap, Ek.
Qed.

(** Giving back the sectors of a file. *)
Lemma free_file bm l bm1 bm' s0 :
  BitMap.wf bm -> BitMap.numBits bm1 = BitMap.numBits bm -> BitMap.numBits bm' = BitMap.numBits bm ->
  NoDup (s0 :: l) -> (forall x, x ∈ s0 :: l -> 0 <= x < BitMap.numBits bm /\ BitMap.bit bm x = true) ->
  (forall x, 0 <= x < BitMap.numBits bm -> BitMap.bit bm1 x = BitMap.bit bm x && negb (bool_decide (x ∈ l))) ->
  (forall x, 0 <= x < BitMap.numBits bm -> BitMap.bit bm' x = if x =? s0 then false else BitMap.bit bm1 x) ->
  (forall x, 0 <= x < BitMap.numBits bm -> BitMap.bit bm' x = BitMap.bit bm x && negb (bool_decide (x ∈ s0 :: l))) /\
  free bm' = free bm + 1 + zlen l.
Proof.
  intros Hbm Hn1 Hn' Hnd Hm Hbit1 Hbit'.
  assert (forall x, 0 <= x < BitMap.numBits bm ->
    BitMap.bit bm' x = BitMap.bit bm x && negb (bool_decide (x ∈ s0 :: l))) as Hb.
  { intros x Hx. rewrite Hbit', Hbit1 by done. destruct (Z.eqb_spec x s0) as [->|Hne].
    - rewrite bool_decide_eq_true_2 by by left. by rewrite andb_false_r.
    - f_equal. f_equal. apply bool_decide_ext. rewrite elem_of_cons. tauto. }
  split; [done|].
  assert (clear_bits bm' ≡ₚ (s0 :: l) ++ clear_bits bm) as Hp.
  { apply clear_bits_marked; [done|done| |].
    - intros x Hx. rewrite Hn'. destruct (Hm x Hx) as [Hr _]. split; [done|]. rewrite Hb by done.
      by rewrite (bool_decide_eq_true_2 _ Hx), andb_false_r.
    - intros x Hx. rewrite Hn' in Hx. rewrite Hb by done. case_bool_decide as Hin.
      + rewrite orb_true_r. by apply Hm.
      + by rewrite andb_true_r, orb_false_r. }
  unfold free. rewrite Hp, length_app. cbn [length]. lia.
Qed.

Lemma remove_commit fresh fresh' d fs dir bm dir' bm' k s0 :
  fs_wf d fs dir bm -> dir_map dir !! k = Some s0 ->
  BitMap.wf bm' -> BitMap.numBits bm' = NumSectors ->
  dir_wf dir' -> Dir.tableSize dir' = NumDirEntries -> dir_map dir' = delete k (dir_map dir) ->
  (forall x, 0 <= x < NumSectors ->
     BitMap.bit bm' x = BitMap.bit bm x && negb (bool_decide (x ∈ file_sectors d s0))) ->
  exists d1 d2, BitMap_WriteBack fresh bm' (freeMapFile fs) d = Ok d1 /\
    Dir.Directory_WriteBack fresh' dir' (directoryFile fs) d1 = Ok d2 /\
    fs_wf d2 fs dir' bm' /\ fs_view d2 dir' = delete k (fs_view d dir).
Proof.
  intros Hw Hk Hbm' Hn' Hdir' Hsz' Hm' Hbit'.
  pose proof (fw_nodup _ _ _ _ Hw) as Hnd. destruct (fw_mh _ _ _ _ Hw) as (Hmh & Hmn & Hmat).
  destruct (fw_dh _ _ _ _ Hw) as (Hdh & Hdn & Hdat).
  destruct (disk_files_disjoint d fs _ Hnd) as [Hdis Hnot01].
  destruct (commit fresh fresh' d fs dir' bm' (fw_disk _ _ _ _ Hw) (conj Hmh Hmn) (conj Hdh Hdn) Hdis Hbm' Hn' Hdir' Hsz')
    as [_ (d1 & d2 & E1 & E2 & Hd2 & Hcm & Hcd & Hsec)].
  destruct (fs_view_ext d d2 fs dir) as (Hold & Hsold & Hview); [|done|].
  { intros x Hx ????. apply Hsec; [by apply (in_use_range d fs dir bm)|done|done]. }
  assert (forall s, s = FreeMapSector \/ s = DirectorySector -> sector d2 s = sector d s) as H01.
  { intros s Hs. apply Hsec.
    - change NumSectors with 1024. unfold FreeMapSector, DirectorySector in Hs. lia.
    - intros Hx. by destruct (Hnot01 s (or_introl Hx)), Hs.
    - intros Hx. by destruct (Hnot01 s (or_intror Hx)), Hs. }
  set (m := dir_map dir) in *. assert (m = <[k := s0]> (delete k m)) as Hmi by (by rewrite insert_delete_id).
  assert (in_use d fs m ≡ₚ file_sectors d s0 ++ in_use d fs (delete k m)) as Huse.
  { rewrite Hmi at 1. apply in_use_insert. apply lookup_delete_eq. }
  assert (in_use d2 fs (dir_map dir') = in_use d fs (delete k m)) as Huse'.
  { rewrite Hm'. apply in_use_ext. intros k' s' Hk'. apply lookup_delete_Some in Hk' as [_ Hk']. by apply (Hsold k'). }
  rewrite Huse in Hnd. apply NoDup_app in Hnd as (_ & Hnd2 & Hnd3).
  exists d1, d2. split; [done|]. split; [done|]. split.
  - split; try done.
    + split; [done|]. split; [done|]. unfold header_at. rewrite H01 by by left. exact Hmat.
    + split; [done|]. split; [done|]. unfold header_at. rewrite H01 by by right. exact Hdat.
    + intros k' s' Hk'. rewrite Hm' in Hk'. apply lookup_delete_Some in Hk' as [_ Hk'].
      destruct (Hold k' s' Hk') as [-> _]. by apply (fw_files _ _ _ _ Hw k').
    + by rewrite Huse'.
    + intros x Hx. rewrite Hbit', (fw_marked _ _ _ _ Hw), Huse' by done.
      destruct (decide (x ∈ file_sectors d s0)) as [Hin|Hin].
      * rewrite (bool_decide_eq_true_2 _ Hin), andb_false_r. symmetry. apply bool_decide_eq_false_2. by apply Hnd2.
      * rewrite (bool_decide_eq_false_2 _ Hin), andb_true_r. apply bool_decide_ext. fold m. rewrite Huse, elem_of_app. tauto.
  - unfold fs_view at 1. rewrite Hm', fmap_delete. f_equal. exact Hview.
Qed.

Lemma Remove_file_spec fresh d fs dir bm nm :
  fs_wf d fs dir bm -> readable 9 nm = true ->
  match fs_view d dir !! key nm with
  | None => exists d', Remove fresh fs nm d = Ok (d', false) /\ fs_wf d' fs dir bm /\ fs_view d' dir = fs_view d dir
  | Some c => exists d' dir' bm', Remove fresh fs nm d = Ok (d', true) /\ fs_wf d' fs dir' bm' /\
      fs_view d' dir' = delete (key nm) (fs_view d dir) /\
      free bm' = free bm + 1 + divRoundUp (zlen c) SectorSize
  end.
Proof.
  intros Hw Hnm. unfold Remove.
  destruct (fetch_directory_spec fresh d fs dir bm Hw) as (d1 & -> & Hd1 & Hs1). cbn [bindr].
  destruct (fs_wf_same d d1 fs dir bm Hw Hd1 Hs1) as [Hw1 Hv1]. destruct (fw_dir _ _ _ _ Hw) as (Hdir & Hdsz & _).
  rewrite Find_spec by done. cbn [bindr]. unfold fs_view at 1. rewrite lookup_fmap.
  destruct (dir_map dir !! key nm) as [s|] eqn:Ek; cbn [fmap option_fmap option_map].
  2: { change (-1 =? -1) with true. by exists d1. }
  destruct (fw_files _ _ _ _ Hw1 _ _ Ek) as [Hr Hh]. rewrite (proj2 (Z.eqb_neq s (-1))) by lia.
  destruct (FetchFrom_spec s d1 Hd1 Hr) as (d2 & -> & Hd2 & Hs2). cbn [bindr].
  change (hdr_of_bytes (sector d1 s)) with (header_at d1 s).
  destruct (fs_wf_same d1 d2 fs dir bm Hw1 Hd2 Hs2) as [Hw2 Hv2].
  destruct (fetch_freeMap_spec fresh d2 fs dir bm Hw2) as (d3 & -> & Hd3 & Hs3). cbn [bindr].
  destruct (fs_wf_same d2 d3 fs dir bm Hw2 Hd3 Hs3) as [Hw3 Hv3].
  assert (header_at d3 s = header_at d1 s) as Hat by (unfold header_at; by rewrite Hs3, Hs2).
  assert (header_at d s = header_at d1 s) as Hat0 by (unfold header_at; by rewrite Hs1).
  rewrite <- Hat in Hh |- *. rewrite <- Hat in Hat0. rewrite Hat0. set (h := header_at d3 s) in *.
  destruct (fw_bm _ _ _ _ Hw) as (Hbm & Hn & _).
  set (m := dir_map dir) in *. assert (m = <[key nm := s]> (delete (key nm) m)) as Hmi by (by rewrite insert_delete_id).
  assert (in_use d3 fs m ≡ₚ (s :: data h) ++ in_use d3 fs (delete (key nm) m)) as Huse.
  { rewrite Hmi at 1. apply in_use_insert. apply lookup_delete_eq. }
  pose proof (fw_nodup _ _ _ _ Hw3) as Hnd. fold m in Hnd. rewrite Huse in Hnd.
  apply NoDup_app in Hnd as (Hnd1 & Hnd2 & Hnd3).
  assert (forall x, x ∈ s :: data h -> 0 <= x < BitMap.numBits bm /\ BitMap.bit bm x = true) as Hmark.
  { intros x Hx. assert (x ∈ in_use d3 fs m) as Hin by (rewrite Huse; apply elem_of_app; by left).
    pose proof (in_use_range d3 fs dir bm x Hw3 Hin) as Hxr. rewrite Hn. split; [done|].
    rewrite (fw_marked _ _ _ _ Hw3) by done. by apply bool_decide_eq_true_2. }
  destruct (Deallocate_spec h bm Hbm Hh) as (bm1 & -> & Hbm1 & Hn1 & Hbit1); [rewrite Hn; done| |].
  { intros x Hx. apply Hmark. by right. }
  cbn [bindr]. destruct (BitMap.Clear_bit bm1 s Hbm1) as (bm' & -> & Hbm' & Hn' & Hbit'); [rewrite Hn1, Hn; lia|].
  cbn [bindr]. rewrite Hn1 in Hn', Hbit'.
  destruct (free_file bm (data h) bm1 bm' s Hbm Hn1 Hn' Hnd1 Hmark Hbit1 Hbit') as [Hbits Hfree].
  destruct (Remove_spec dir nm Hdir Hnm) as (dir' & -> & Hdir' & Hsz' & Hm'). cbn [bindr].
  destruct (remove_commit (fresh 4%nat) (fresh 5%nat) d3 fs dir bm dir' bm' (key nm) s Hw3 Ek Hbm' ltac:(congruence) Hdir'
    ltac:(congruence) Hm') as (d4 & d5 & -> & E5 & Hw5 & Hv5).
  { intros x Hx. rewrite <- Hn in Hx. by apply Hbits. }
  cbn [bindr]. rewrite E5. cbn [bindr]. exists d5, dir', bm'. split; [done|]. split; [done|]. split; [congruence|].
  rewrite Hfree. destruct (hdr_room h Hh) as (_ & _ & ->). rewrite (hw_sectors h Hh).
  rewrite <- (contents_length d h (fw_disk _ _ _ _ Hw) Hh). done.
Qed.

(** Writing to a file changes that file only. *)
Lemma write_file_view d d' fs dir bm k s :
  fs_wf d fs dir bm -> dir_map dir !! k = Some s -> disk_wf d' ->
  (forall j, 0 <= j < NumSectors -> j ∉ data (header_at d s) -> sector d' j = sector d j) ->
  fs_wf d' fs dir bm /\ header_at d' s = header_at d s /\
  fs_view d' dir = <[k := contents d' (header_at d s)]> (fs_view d dir).
Proof.
  intros Hw Hk Hd' Hsec. set (m := dir_map dir) in *. set (h := header_at d s) in *.
  assert (m = <[k := s]> (delete k m)) as Hmi by (by rewrite insert_delete_id).
  assert (in_use d fs m ≡ₚ (s :: data h) ++ in_use d fs (delete k m)) as Huse.
  { rewrite Hmi at 1. apply in_use_insert. apply lookup_delete_eq. }
  pose proof (fw_nodup _ _ _ _ Hw) as Hnd. fold m in Hnd. pose proof Hnd as Hnd0. rewrite Huse in Hnd0.
  apply NoDup_app in Hnd0 as (Hnd1 & Hnd2 & _). apply NoDup_cons in Hnd1 as [Hsh _].
  assert (forall x, x ∈ in_use d fs (delete k m) -> sector d' x = sector d x) as Hother.
  { intros x Hx. apply Hsec.
    - apply (in_use_range d fs dir bm x Hw). fold m. rewrite Huse. apply elem_of_app. by right.
    - intros Hin. apply (Hnd2 x); [by right|done]. }
  assert (sector d' s = sector d s) as Hss by (apply Hsec; [by apply (fw_files _ _ _ _ Hw k)|done]).
  assert (forall k' s', m !! k' = Some s' -> sector d' s' = sector d s') as Hheads.
  { intros k' s' Hk'. destruct (decide (k' = k)) as [->|Hne]; [congruence|]. apply Hother.
    apply (file_in_use d fs _ k' s'); [by rewrite lookup_delete_ne|by left]. }
  assert (forall h', (forall x, x ∈ data h' -> x ∈ in_use d fs (delete k m)) -> contents d' h' = contents d h') as Hcont.
  { intros h' Hin. apply contents_ext. intros x Hx. by apply Hother, Hin. }
  assert (forall x, x ∈ data (mh fs) \/ x ∈ data (dh fs) -> x ∈ in_use d fs (delete k m)) as Hfiles.
  { intros x Hx. unfold in_use. rewrite !elem_of_app. tauto. }
  assert (FreeMapSector ∈ in_use d fs (delete k m) /\ DirectorySector ∈ in_use d fs (delete k m)) as [Hin0 Hin1]
    by (split; [left|right; left]).
  assert (in_use d' fs m = in_use d fs m) as Huse' by (by apply in_use_ext).
  split; [|split].
  - destruct (fw_mh _ _ _ _ Hw) as (? & ? & ?), (fw_dh _ _ _ _ Hw) as (? & ? & ?), (fw_bm _ _ _ _ Hw) as (? & ? & ?),
      (fw_dir _ _ _ _ Hw) as (? & ? & ?). split; try done.
    + split; [done|]. split; [done|]. unfold header_at. by rewrite Hother.
    + split; [done|]. split; [done|]. unfold header_at. by rewrite Hother.
    + split; [done|]. split; [done|]. rewrite Hcont; [done|]. intros x Hx. apply Hfiles. by left.
    + split; [done|]. split; [done|]. rewrite Hcont; [done|]. intros x Hx. apply Hfiles. by right.
    + intros k' s' Hk'. unfold header_at. rewrite (Hheads k' s' Hk'). by apply (fw_files _ _ _ _ Hw k').
    + fold m. by rewrite Huse'.
    + fold m. rewrite Huse'. apply (fw_marked _ _ _ _ Hw).
  - unfold h, header_at. by rewrite Hss.
  - unfold fs_view. fold m. apply map_eq. intros k'. rewrite lookup_fmap. destruct (decide (k' = k)) as [->|Hne].
    + rewrite lookup_insert_eq, Hk. cbn. unfold header_at at 1. by rewrite Hss.
    + rewrite lookup_insert_ne, lookup_fmap by done. destruct (m !! k') as [s'|] eqn:Ek'; [|done]. cbn. f_equal.
      unfold header_at at 1. rewrite (Hheads k' s' Ek'). apply Hcont. intros x Hx.
      apply (file_in_use d fs _ k' s'); [by rewrite lookup_delete_ne|by right].
Qed.

(** ** Starting *)

Lemma mount_spec fresh d fs dir bm :
  fs_wf d fs dir bm ->
  exists d' fs', FileSystem_new fresh false d = Ok (d', fs') /\ fs_wf d' fs' dir bm /\ fs_view d' dir = fs_view d dir.
Proof.
  intros Hw. unfold FileSystem_new, OpenFile_new.
  assert (0 <= 0 < NumSectors /\ 0 <= 1 < NumSectors) as [H0 H1] by (change NumSectors with 1024; lia).
  destruct (FetchFrom_spec FreeMapSector d (fw_disk _ _ _ _ Hw) H0) as (d1 & -> & Hd1 & Hs1). cbn [bindr].
  destruct (FetchFrom_spec DirectorySector d1 Hd1 H1) as (d2 & -> & Hd2 & Hs2). cbn [bindr].
  change (hdr_of_bytes (sector d FreeMapSector)) with (header_at d FreeMapSector).
  change (hdr_of_bytes (sector d1 DirectorySector)) with (header_at d1 DirectorySector).
  assert (header_at d1 DirectorySector = header_at d DirectorySector) as -> by (unfold header_at; by rewrite Hs1).
  destruct (fw_mh _ _ _ _ Hw) as (Hmh & Hmn & ->), (fw_dh _ _ _ _ Hw) as (Hdh & Hdn & ->).
  destruct (fs_wf_same d d2 fs dir bm Hw Hd2) as [Hw2 Hv2]; [intros j Hj; by rewrite Hs2, Hs1|].
  eexists d2, _. split; [done|]. split; [|done]. by destruct Hw2.
Qed.

(** The free map of an empty disk, with the sectors of the two headers taken. *)
Lemma format_map fresh :
  exists b0 b1 b2, BitMap.BitMap_new fresh NumSectors = Ok b0 /\ BitMap.Mark b0 FreeMapSector = Ok b1 /\
    BitMap.Mark b1 DirectorySector = Ok b2 /\ BitMap.wf b2 /\ BitMap.numBits b2 = NumSectors /\ free b2 = NumSectors - 2 /\
    forall j, 0 <= j < NumSectors -> BitMap.bit b2 j = bool_decide (j ∈ [FreeMapSector; DirectorySector]).
Proof.
  destruct (BitMap.BitMap_new_bits fresh NumSectors ltac:(done)) as (b0 & E0 & Hb0 & Hn0 & Hbits0).
  assert (0 <= 0 < NumSectors /\ 0 <= 1 < NumSectors) as [H0 H1] by (change NumSectors with 1024; lia).
  assert (forall j, 0 <= j < NumSectors -> BitMap.bit b0 j = false) as Hf0.
  { intros j Hj. rewrite <- Hn0 in Hj. pose proof (BitMap.lookup_bits b0 j Hj) as Hl. rewrite Hbits0 in Hl.
    apply lookup_replicate in Hl as [? _]. done. }
  destruct (BitMap.Mark_bit b0 FreeMapSector Hb0) as (b1 & E1 & Hb1 & Hn1 & Hbit1); [by rewrite Hn0|].
  destruct (BitMap.Mark_bit b1 DirectorySector Hb1) as (b2 & E2 & Hb2 & Hn2 & Hbit2); [by rewrite Hn1, Hn0|].
  assert (forall j, 0 <= j < NumSectors -> BitMap.bit b2 j = bool_decide (j ∈ [FreeMapSector; DirectorySector])) as Hbit.
  { intros j Hj. rewrite Hbit2, Hbit1, Hf0 by congruence. unfold FreeMapSector, DirectorySector.
    destruct (Z.eqb_spec j 1) as [->|]; [symmetry; apply bool_decide_eq_true_2; right; by left|].
    destruct (Z.eqb_spec j 0) as [->|]; [symmetry; apply bool_decide_eq_true_2; by left|].
    symmetry. apply bool_decide_eq_false_2. rewrite elem_of_cons, list_elem_of_singleton. tauto. }
  exists b0, b1, b2. split; [exact E0|]. split; [exact E1|]. split; [exact E2|]. split; [exact Hb2|].
  split; [congruence|]. split; [|exact Hbit].
  assert (clear_bits b0 ≡ₚ [FreeMapSector; DirectorySector] ++ clear_bits b2) as Hp.
  { apply clear_bits_marked; [congruence| | |].
    - apply (bool_decide_unpack (NoDup [0; 1])). vm_compute. exact I.
    - intros s Hs. assert (0 <= s < NumSectors) as Hr.
      { unfold FreeMapSector, DirectorySector in Hs. apply elem_of_cons in Hs as [->|Hs]; [done|].
        by apply list_elem_of_singleton in Hs as ->. }
      rewrite Hn0. split; [done|by apply Hf0].
    - intros s Hs. rewrite Hn0 in Hs. by rewrite Hbit, Hf0. }
  assert (zlen (clear_bits b0) = NumSectors) as Hlen.
  { unfold clear_bits. rewrite filter_keep, length_seqZ, Hn0; [done|]. apply Forall_forall. intros j Hj.
    apply elem_of_seqZ in Hj. apply Hf0. lia. }
  unfold free. rewrite Hp, length_app in Hlen. cbn [length] in Hlen. lia.
Qed.

(** The two headers written and read back. *)
Lemma write_headers d h0 h1 :
  disk_wf d -> hdr_wf h0 -> hdr_ints h0 -> hdr_wf h1 -> hdr_ints h1 ->
  exists d1 d2 d3 d4, WriteBack h0 FreeMapSector d = Ok d1 /\ WriteBack h1 DirectorySector d1 = Ok d2 /\
    OpenFile_new FreeMapSector d2 = Ok (d3, mkOpenFile h0 0) /\
    OpenFile_new DirectorySector d3 = Ok (d4, mkOpenFile h1 0) /\
    disk_wf d4 /\ header_at d4 FreeMapSector = h0 /\ header_at d4 DirectorySector = h1.
Proof.
  intros Hd Hh0 Hi0 Hh1 Hi1.
  assert (0 <= FreeMapSector < NumSectors /\ 0 <= DirectorySector < NumSectors) as [H0 H1]
    by (change NumSectors with 1024; unfold FreeMapSector, DirectorySector; lia).
  destruct (WriteBack_spec h0 FreeMapSector d Hd H0 (hw_len h0 Hh0)) as (d1 & E1 & Hd1 & Hs1).
  destruct (WriteBack_spec h1 DirectorySector d1 Hd1 H1 (hw_len h1 Hh1)) as (d2 & E2 & Hd2 & Hs2).
  assert (header_at d2 FreeMapSector = h0) as Hat0.
  { unfold header_at. rewrite Hs2, Hs1 by done. apply hdr_of_bytes_bytes; [apply Hh0|done]. }
  assert (header_at d2 DirectorySector = h1) as Hat1.
  { unfold header_at. rewrite Hs2, Z.eqb_refl by done. apply hdr_of_bytes_bytes; [apply Hh1|done]. }
  destruct (FetchFrom_spec FreeMapSector d2 Hd2 H0) as (d3 & E3 & Hd3 & Hs3).
  destruct (FetchFrom_spec DirectorySector d3 Hd3 H1) as (d4 & E4 & Hd4 & Hs4).
  exists d1, d2, d3, d4. split; [done|]. split; [done|]. unfold OpenFile_new, header_at in *. rewrite E3, E4. cbn [bindr].
  rewrite !Hs4, !Hs3, Hat0, Hat1 by done. done.
Qed.

Lemma format_spec fresh d :
  disk_wf d ->
  exists d' fs dir bm, FileSystem_new fresh true d = Ok (d', fs) /\ fs_wf d' fs dir bm /\ fs_view d' dir = ∅ /\
    free bm = NumSectors - 5.
Proof.
  intros Hd. unfold FileSystem_new.
  destruct (format_map (fresh 0%nat)) as (b0 & b1 & b2 & -> & E1 & E2 & Hb2 & Hn2 & Hfree2 & Hbit2). cbn [bindr].
  destruct (Directory_new_spec (fresh 1%nat) NumDirEntries ltac:(done)) as (dir & -> & Hsz & Hdir & Hm). cbn [bindr].
  rewrite E1. cbn [bindr]. rewrite E2. cbn [bindr].
  destruct (FileHeader_new_shape (fresh 2%nat)) as [Hl3 Hi3]. destruct (FileHeader_new_shape (fresh 3%nat)) as [Hl4 Hi4].
  assert (forall n, n = FreeMapFileSize \/ n = DirectoryFileSize -> 0 <= n <= MaxFileSize) as Hsizes.
  { intros n Hn. change FreeMapFileSize with 128 in Hn. change DirectoryFileSize with 200 in Hn.
    change MaxFileSize with 3840. lia. }
  pose proof (Allocate_spec _ b2 FreeMapFileSize Hb2 (Hsizes _ (or_introl eq_refl)) Hl3) as Ha.
  change (divRoundUp FreeMapFileSize SectorSize) with 1 in Ha. unfold free in Hfree2. change NumSectors with 1024 in Hfree2.
  rewrite (proj2 (Z.ltb_ge _ _)) in Ha by lia.
  destruct Ha as (h3 & b3 & -> & Hb3 & Hn3 & Hby3 & Hns3 & Hlen3 & Hdl3 & Hnd3 & Hc3 & Hbit3 & Hint3). cbn [bindr ASSERT].
  assert (clear_bits b2 ≡ₚ data h3 ++ clear_bits b3) as Hp3 by by apply clear_bits_marked.
  pose proof (Allocate_spec _ b3 DirectoryFileSize Hb3 (Hsizes _ (or_intror eq_refl)) Hl4) as Ha.
  change (divRoundUp DirectoryFileSize SectorSize) with 2 in Ha.
  assert (zlen (clear_bits b3) = 1021) as Hfree3 by (rewrite Hp3, length_app in Hfree2; lia).
  rewrite (proj2 (Z.ltb_ge _ _)) in Ha by lia.
  destruct Ha as (h4 & b4 & -> & Hb4 & Hn4 & Hby4 & Hns4 & Hlen4 & Hdl4 & Hnd4 & Hc4 & Hbit4 & Hint4). cbn [bindr ASSERT].
  assert (clear_bits b3 ≡ₚ data h4 ++ clear_bits b4) as Hp4 by by apply clear_bits_marked.
  assert (forall x, x ∈ data h3 -> 0 <= x < NumSectors /\ x ∉ [FreeMapSector; DirectorySector]) as Hx3.
  { intros x Hx. destruct (Hc3 x Hx) as [Hr Hf]. rewrite Hn2 in Hr. split; [done|].
    rewrite Hbit2 in Hf by done. by apply bool_decide_eq_false in Hf. }
  assert (forall x, x ∈ data h4 -> 0 <= x < NumSectors /\ x ∉ [FreeMapSector; DirectorySector] /\ x ∉ data h3) as Hx4.
  { intros x Hx. destruct (Hc4 x Hx) as [Hr Hf]. rewrite Hn3, Hn2 in Hr. split; [done|].
    rewrite Hbit3, Hbit2 in Hf by (done || by rewrite Hn2). apply orb_false_iff in Hf as [Hf1 Hf2].
    by apply bool_decide_eq_false in Hf1, Hf2. }
  destruct (allocated_hdr h3 NumSectors FreeMapFileSize (Hsizes _ (or_introl eq_refl)) eq_refl Hby3 Hns3 Hlen3 Hnd3
    (fun x Hx => proj1 (Hx3 x Hx))) as [Hh3 Hhi3]; [apply Hint3; [done|by rewrite Hn2]|].
  destruct (allocated_hdr h4 NumSectors DirectoryFileSize (Hsizes _ (or_intror eq_refl)) eq_refl Hby4 Hns4 Hlen4 Hnd4
    (fun x Hx => proj1 (Hx4 x Hx))) as [Hh4 Hhi4]; [apply Hint4; [done|by rewrite Hn3, Hn2]|].
  destruct (write_headers d h3 h4 Hd Hh3 Hhi3 Hh4 Hhi4) as (d1 & d2 & d3 & d4 & -> & E5 & E6 & E7 & Hd4 & Hat0 & Hat1).
  cbn [bindr]. rewrite E5. cbn [bindr]. rewrite E6. cbn [bindr]. rewrite E7. cbn [bindr].
  set (fs := mkFileSystem (mkOpenFile h3 0) (mkOpenFile h4 0)).
  destruct (commit (fresh 4%nat) (fresh 5%nat) d4 fs dir b4 Hd4 (conj Hh3 Hby3) (conj Hh4 Hby4)) as
    [_ (d5 & d6 & E8 & E9 & Hd6 & Hcm & Hcd & Hsec)]; [intros x Hx Hx'; destruct (Hx4 x Hx') as (_ & _ & Hno); by apply Hno|done|congruence|done|done|].
  change (mkOpenFile h3 0) with (freeMapFile fs). change (mkOpenFile h4 0) with (directoryFile fs).
  rewrite E8. cbn [bindr]. rewrite E9. cbn [bindr].
  assert (forall x, x ∈ [FreeMapSector; DirectorySector] -> sector d6 x = sector d4 x) as H01.
  { intros x Hx. apply Hsec.
    - unfold FreeMapSector, DirectorySector in Hx. change NumSectors with 1024.
      apply elem_of_cons in Hx as [->|Hx]; [lia|]. apply list_elem_of_singleton in Hx. lia.
    - intros Hin. by apply (Hx3 x Hin).
    - intros Hin. destruct (Hx4 x Hin) as (_ & Hno & _). by apply Hno. }
  assert (in_use d6 fs (dir_map dir) = [FreeMapSector; DirectorySector] ++ data h3 ++ data h4) as Huse.
  { unfold in_use. rewrite Hm, map_to_list_empty. cbn. by rewrite app_nil_r. }
  exists d6, fs, dir, b4. split; [done|]. split; [split|].
  - done.
  - split; [done|]. split; [done|]. unfold header_at in *. rewrite H01 by by left. exact Hat0.
  - split; [done|]. split; [done|]. unfold header_at in *. rewrite H01 by (right; by left). exact Hat1.
  - split; [done|]. split; [congruence|done].
  - done.
  - intros k s. by rewrite Hm, lookup_empty.
  - rewrite Huse. apply NoDup_app. split; [apply (bool_decide_unpack (NoDup [0; 1])); vm_compute; exact I|]. split.
    + intros x Hx Hin. apply elem_of_app in Hin as [Hin|Hin]; [by apply (Hx3 x Hin)|destruct (Hx4 x Hin) as (_ & Hno & _); by apply Hno].
    + apply NoDup_app. split; [done|]. split; [|done]. intros x Hx Hin. destruct (Hx4 x Hin) as (_ & _ & Hno). by apply Hno.
  - intros x Hx. rewrite Hbit4, Hbit3, Hbit2 by (done || congruence || (rewrite ?Hn3, ?Hn2; done)).
    rewrite <- !bool_decide_or. apply bool_decide_ext. rewrite Huse, !elem_of_app. tauto.
  - split; [unfold fs_view; by rewrite Hm, fmap_empty|]. unfold free. rewrite Hp4, length_app in Hfree3.
    change NumSectors with 1024. lia.
Qed.

(** ** The file system as a map from names to contents *)

(** What a client does: make a file, write or read a part of a file that it opens
    for it, remove a file, and start the system again on the same disk. *)
Inductive fs_request :=
| RCreate (nm : list Z) (initialSize : Z)
| RWriteFile (nm from : list Z) (position : Z)
| RReadFile (nm : list Z) (numBytes position : Z)
| RRemove (nm : list Z)
| RRemount.

(** The answer: the bytes read, and a number: 1 or 0 for TRUE or FALSE, the number
    of bytes read or written, -1 for a file that could not be opened. *)
Definition fs_step (fresh : nat -> nat -> Z) (fs : FileSystem) (d : D) (r : fs_request)
  : res (FileSystem * D * (list Z * Z)) :=
  match r with
  | RCreate nm size => '(d, b) <- Create fresh fs nm size d ;; Ok (fs, d, ([], Z.b2z b))
  | RWriteFile nm from p =>
      '(d, o) <- Open fresh fs nm d ;;
      match o with
      | None => Ok (fs, d, ([], -1))
      | Some f => '(d, k) <- WriteAt (fresh 9%nat) f from (zlen from) p d ;; Ok (fs, d, ([], k))
      end
  | RReadFile nm n p =>
      '(d, o) <- Open fresh fs nm d ;;
      match o with
      | None => Ok (fs, d, ([], -1))
      | Some f => '(d, bs) <- ReadAt (fresh 9%nat) f n p d ;; Ok (fs, d, (bs, zlen bs))
      end
  | RRemove nm => '(d, b) <- Remove fresh fs nm d ;; Ok (fs, d, ([], Z.b2z b))
  | RRemount => '(d, fs) <- FileSystem_new fresh false d ;; Ok (fs, d, ([], 0))
  end.

Fixpoint fs_run (fresh : nat -> nat -> Z) (fs : FileSystem) (d : D) (rs : list fs_request)
  : res (FileSystem * D * list (list Z * Z)) :=
  match rs with
  | [] => Ok (fs, d, [])
  | r :: rs =>
      '(fs, d, a) <- fs_step fresh fs d r ;;
      '(fs, d, l) <- fs_run fresh fs d rs ;; Ok (fs, d, a :: l)
  end.

(** The specification: a map from names to contents and a number of free sectors.
    The bytes of a new file are whatever its sectors held. *)
Definition view := (gmap (list Z) (list Z) * Z)%type.
Definition sectors_for (size : Z) : Z := 1 + divRoundUp size SectorSize.
Definition fits (v : view) (nm : list Z) (size : Z) : Prop :=
  v.1 !! key nm = None /\ Z.of_nat (base.size v.1) < NumDirEntries /\ sectors_for size <= v.2.

Inductive view_step : view -> fs_request -> list Z * Z -> view -> Prop :=
| view_create v fr nm size c :
    fits (v, fr) nm size -> zlen c = size ->
    view_step (v, fr) (RCreate nm size) ([], 1) (<[key nm := c]> v, fr - sectors_for size)
| view_create_fails v nm size :
    ~ fits v nm size -> view_step v (RCreate nm size) ([], 0) v
| view_write v fr nm from p c :
    v !! key nm = Some c ->
    view_step (v, fr) (RWriteFile nm from p) ([], (write_bytes c from p).2) (<[key nm := (write_bytes c from p).1]> v, fr)
| view_read v fr nm n p c :
    v !! key nm = Some c ->
    view_step (v, fr) (RReadFile nm n p) (read_bytes c n p, zlen (read_bytes c n p)) (v, fr)
| view_write_fails v fr nm from p :
    v !! key nm = None -> view_step (v, fr) (RWriteFile nm from p) ([], -1) (v, fr)
| view_read_fails v fr nm n p :
    v !! key nm = None -> view_step (v, fr) (RReadFile nm n p) ([], -1) (v, fr)
| view_remove v fr nm c :
    v !! key nm = Some c ->
    view_step (v, fr) (RRemove nm) ([], 1) (delete (key nm) v, fr + sectors_for (zlen c))
| view_remove_fails v fr nm :
    v !! key nm = None -> view_step (v, fr) (RRemove nm) ([], 0) (v, fr)
| view_remount v : view_step v RRemount ([], 0) v.

Inductive view_run : view -> list fs_request -> list (list Z * Z) -> view -> Prop :=
| view_done v : view_run v [] [] v
| view_more v r a v1 rs l v2 : view_step v r a v1 -> view_run v1 rs l v2 -> view_run v (r :: rs) (a :: l) v2.

(** Names that end, sizes a header can describe, and ranges that are an [int]. *)
Definition fs_request_ok (r : fs_request) : Prop :=
  match r with
  | RCreate nm size => readable 9 nm = true /\ Forall is_byte nm /\ 0 <= size <= MaxFileSize
  | RWriteFile nm from p => readable 9 nm = true /\ Forall is_byte from /\ 0 <= p /\ is_s32 (p + zlen from)
  | RReadFile nm n p => readable 9 nm = true /\ 0 <= p /\ is_s32 (p + n)
  | RRemove nm => readable 9 nm = true
  | RRemount => True
  end.

(** The states of the file system that represent a view. *)
Definition represents (d : D) (fs : FileSystem) (v : view) : Prop :=
  exists dir bm, fs_wf d fs dir bm /\ fs_view d dir = v.1 /\ free bm = v.2.

Lemma fs_view_size d dir : base.size (fs_view d dir) = base.size (dir_map dir).
Proof. unfold fs_view. apply map_size_fmap. Qed.

Lemma fs_view_None d dir k : fs_view d dir !! k = None <-> dir_map dir !! k = None.
Proof. unfold fs_view. rewrite lookup_fmap. by destruct (dir_map dir !! k). Qed.

Lemma fs_step_ok fresh d fs v r :
  represents d fs v -> fs_request_ok r ->
  exists d' fs' a v', fs_step fresh fs d r = Ok (fs', d', a) /\ view_step v r a v' /\ represents d' fs' v'.
Proof.
  intros (dir & bm & Hw & Hv & Hf) Hr. destruct v as [v fr]. cbn [fst snd] in *. subst v fr.
  destruct r as [nm size|nm from p|nm n p|nm|]; cbn [fs_request_ok fs_step] in *.
  - destruct Hr as (Hnm & Hb & Hsz). pose proof (Create_spec fresh d fs dir bm nm size Hw Hnm Hb Hsz) as H.
    assert (fits (fs_view d dir, free bm) nm size <-> (dir_map dir !! key nm = None /\
      Z.of_nat (base.size (dir_map dir)) < NumDirEntries /\ 1 + divRoundUp size SectorSize <= free bm)) as Hfits.
    { unfold fits. cbn [fst snd]. by rewrite fs_view_size, fs_view_None. }
    case_bool_decide as Hc.
    + destruct H as (d' & dir' & bm' & c & -> & Hw' & Hl & Hv' & Hf'). cbn [bindr]. eexists d', fs, _, _.
      split; [done|]. split; [apply (view_create _ _ nm size c); [by apply Hfits|done]|].
      exists dir', bm'. split; [done|]. split; [done|]. cbn [snd]. rewrite Hf'. unfold sectors_for. lia.
    + destruct H as (d' & -> & Hw' & Hv'). cbn [bindr]. eexists d', fs, _, _.
      split; [done|]. split; [apply view_create_fails; by rewrite Hfits|]. by exists dir, bm.
  - destruct Hr as (Hnm & Hb & Hp & Hrange).
    destruct (Open_spec fresh d fs dir bm nm Hw Hnm) as (d1 & o & -> & Hw1 & Hv1 & Ho). cbn [bindr].
    destruct o as [f|].
    2: { eexists d1, fs, _, _. split; [done|]. split; [by apply view_write_fails|]. by exists dir, bm. }
    destruct Ho as (_ & Hh & Hc & s & Hs & Hat).
    destruct (WriteAt_spec (fresh 9%nat) f from (zlen from) p d1 (fw_disk _ _ _ _ Hw1) Hh Hp Hrange Hb ltac:(lia))
      as (d2 & -> & Hd2 & Hc2 & Hs2). cbn [bindr].
    rewrite Hat in Hs2. destruct (write_file_view d1 d2 fs dir bm _ s Hw1 Hs Hd2 Hs2) as (Hw2 & _ & Hv2).
    rewrite <- (contents_length d1 (hdr f) (fw_disk _ _ _ _ Hw1) Hh) in *.
    eexists d2, fs, _, _. split; [done|].
    split; [apply (view_write _ _ nm from p (contents d1 (hdr f)) Hc)|].
    exists dir, bm. split; [done|]. split; [|done]. cbn [fst]. rewrite Hv2, Hv1. f_equal. rewrite <- Hat. exact Hc2.
  - destruct Hr as (Hnm & Hp & Hrange).
    destruct (Open_spec fresh d fs dir bm nm Hw Hnm) as (d1 & o & -> & Hw1 & Hv1 & Ho). cbn [bindr].
    destruct o as [f|].
    2: { eexists d1, fs, _, _. split; [done|]. split; [by apply view_read_fails|]. by exists dir, bm. }
    destruct Ho as (_ & Hh & Hc & _).
    destruct (ReadAt_spec (fresh 9%nat) f n p d1 (fw_disk _ _ _ _ Hw1) Hh Hp Hrange) as (d2 & -> & Hd2 & Hs2). cbn [bindr].
    destruct (fs_wf_same d1 d2 fs dir bm Hw1 Hd2 Hs2) as [Hw2 Hv2].
    eexists d2, fs, _, _. split; [done|]. split; [apply (view_read _ _ nm n p _ Hc)|].
    exists dir, bm. split; [done|]. cbn [fst snd]. split; [congruence|done].
  - pose proof (Remove_file_spec fresh d fs dir bm nm Hw Hr) as H. destruct (fs_view d dir !! key nm) as [c|] eqn:Ek.
    + destruct H as (d' & dir' & bm' & -> & Hw' & Hv' & Hf'). cbn [bindr]. eexists d', fs, _, _.
      split; [done|]. split; [by apply view_remove|]. exists dir', bm'. split; [done|]. split; [done|].
      cbn [snd]. rewrite Hf'. unfold sectors_for. lia.
    + destruct H as (d' & -> & Hw' & Hv'). cbn [bindr]. eexists d', fs, _, _.
      split; [done|]. split; [by apply view_remove_fails|]. by exists dir, bm.
  - destruct (mount_spec fresh d fs dir bm Hw) as (d' & fs' & -> & Hw' & Hv'). cbn [bindr].
    eexists d', fs', _, _. split; [done|]. split; [apply view_remount|]. by exists dir, bm.
Qed.

(** C1: the file system is a map from names to contents.  On any disk, after it has
    been formatted, every sequence of creating, writing, reading and removing files,
    with the system started again in between, runs without a failed assertion or an
    access out of bounds, and answers what the map does: a new file has the size
    asked for, up to MaxFileSize; a write changes the bytes of its range in its file, a read gives them
    back, and no other file is touched; Create fails exactly for a name that exists,
    a full directory or too few free sectors, and then nothing has changed; a removed
    file is gone and all of its sectors are free again.  No sector is ever shared or
    lost, since the number of free sectors is accounted for to the last one. *)
Theorem FileSystem_refines (fresh : nat -> nat -> Z) (d : D) (rs : list fs_request) :
  disk_wf d -> Forall fs_request_ok rs ->
  exists d0 fs0 d' fs' answers v,
    FileSystem_new fresh true d = Ok (d0, fs0) /\
    fs_run fresh fs0 d0 rs = Ok (fs', d', answers) /\
    view_run (∅, NumSectors - 5) rs answers v /\ represents d' fs' v.
Proof.
  intros Hd Hrs. destruct (format_spec fresh d Hd) as (d0 & fs0 & dir & bm & E & Hw & Hv & Hf).
  assert (forall d fs v, represents d fs v -> exists d' fs' l v', fs_run fresh fs d rs = Ok (fs', d', l) /\
    view_run v rs l v' /\ represents d' fs' v') as Hrun.
  { clear -Hrs. induction Hrs as [|r rs Hr _ IH]; intros d fs v Hrep.
    - exists d, fs, [], v. split; [done|]. split; [constructor|done].
    - destruct (fs_step_ok fresh d fs v r Hrep Hr) as (d1 & fs1 & a & v1 & E & Hst & Hrep1).
      destruct (IH d1 fs1 v1 Hrep1) as (d2 & fs2 & l & v2 & E2 & Hr2 & Hrep2).
      exists d2, fs2, (a :: l), v2. cbn [fs_run]. rewrite E. cbn [bindr]. rewrite E2. cbn [bindr].
      split; [done|]. split; [by apply (view_more v r a v1)|done]. }
  destruct (Hrun d0 fs0 (∅, NumSectors - 5)) as (d' & fs' & l & v & Er & Hr & Hrep);
    [exists dir, bm; split; [exact Hw|split; [exact Hv|exact Hf]]|].
  exists d0, fs0, d', fs', l, v. split; [exact E|split; [exact Er|split; [exact Hr|exact Hrep]]].
Qed.

(** A file header has room for 30 sectors, and nothing checks that the file fits.
    Creating a file of more than 3840 bytes on a disk with enough free sectors and
    room in the directory writes past the end of the header's array. *)
Theorem Create_overrun (fresh : nat -> nat -> Z) (d : D) (fs : FileSystem) (v : view) (nm : list Z) (size : Z) :
  represents d fs v -> readable 9 nm = true -> Forall is_byte nm ->
  fits v nm size -> MaxFileSize < size -> Create fresh fs nm size d = Err WildAccess.
Proof.
  intros (dir & bm & Hw & Hv & Hf) Hnm Hb (Hk & Hroom & Hfree) Hbig. destruct v as [v fr]. cbn [fst snd] in *. subst v fr.
  rewrite fs_view_size in Hroom. apply fs_view_None in Hk. unfold Create.
  destruct (fetch_directory_spec fresh d fs dir bm Hw) as (d1 & -> & Hd1 & Hs1). cbn [bindr].
  destruct (fs_wf_same d d1 fs dir bm Hw Hd1 Hs1) as [Hw1 _]. destruct (fw_dir _ _ _ _ Hw) as (Hdir & Hdsz & _).
  rewrite Find_spec, Hk by done. cbn [bindr]. change (-1 =? -1) with true. cbn [negb].
  destruct (fetch_freeMap_spec fresh d1 fs dir bm Hw1) as (d2 & -> & Hd2 & Hs2). cbn [bindr].
  destruct (fw_bm _ _ _ _ Hw) as (Hbm & Hn & _). pose proof (Find_clear bm Hbm) as Hfind.
  change MaxFileSize with 3840 in Hbig. unfold sectors_for in Hfree. change NumSectors with 1024 in Hn.
  pose proof (divRoundUp_bounds size SectorSize ltac:(lia) ltac:(done)) as Hround. change SectorSize with 128 in *.
  unfold free in Hfree. destruct (decide (clear_bits bm = [])) as [Hnil|Hnil];
    [rewrite Hnil in Hfree; cbn [length] in Hfree; lia|].
  destruct Hfind as (bm1 & s0 & -> & Hs0 & Hb0 & Hbm1 & Hn1 & Hbit1). cbn [bindr].
  rewrite (proj2 (Z.eqb_neq s0 (-1))) by lia.
  assert (is_s32 s0) as Hs32 by (unfold is_s32; lia).
  pose proof (Add_spec dir nm s0 Hdir Hnm Hb Hs32) as Hadd. rewrite Hdsz, bool_decide_eq_true_2 in Hadd by done.
  destruct Hadd as (dir' & -> & _). cbn [bindr negb].
  assert (clear_bits bm ≡ₚ [s0] ++ clear_bits bm1) as Hclear.
  { apply clear_bits_marked; [done|apply NoDup_singleton| |done]. by intros s ->%list_elem_of_singleton. }
  rewrite Allocate_overrun; [done|done|change NumDirect with 30; change SectorSize with 128; lia| |apply FileHeader_new_shape].
  rewrite Hclear, length_app in Hfree. cbn [length] in Hfree. change SectorSize with 128. lia.
Qed.
End Invariant.

(** ** A disk of zeros *)

#[local] Existing Instance i386.

Definition demo_memory (i j : nat) : Z := Z.of_nat (37 * i + j).

(** Two files, one written across a sector boundary, read after starting again. *)
Definition demo_session : list fs_request :=
  [RCreate [97; 0] 300; RCreate [98; 0] 10; RCreate [97; 0] 5; RWriteFile [97; 0] [1; 2; 3; 4] 126; RRemount;
   RReadFile [97; 0] 6 125; RReadFile [98; 0] 20 8; RRemove [97; 0]; RReadFile [97; 0] 1 0].

Definition demo_answers : res (list (list Z * Z)) :=
  '(d, fs) <- FileSystem_new demo_memory true Array.blank ;;
  '(_, _, l) <- fs_run demo_memory fs d demo_session ;; Ok l.

Lemma FileSystem_refines_witness :
  exists v, view_run (∅, NumSectors - 5) demo_session
    [([], 1); ([], 1); ([], 0); ([], 4); ([], 0); ([0; 1; 2; 3; 4; 0], 6); ([0; 0], 2); ([], 1); ([], -1)] v.
Proof.
  assert (Forall fs_request_ok demo_session) as Hrs.
  { unfold demo_session. change MaxFileSize with 3840 in *.
    repeat constructor; cbn; change MaxFileSize with 3840; unfold is_byte, is_s32; lia. }
  assert (demo_answers =
    Ok [([], 1); ([], 1); ([], 0); ([], 4); ([], 0); ([0; 1; 2; 3; 4; 0], 6); ([0; 0], 2); ([], 1); ([], -1)]) as Ha
    by (vm_compute; reflexivity).
  destruct (FileSystem_refines demo_memory Array.blank demo_session Array.blank_wf Hrs)
    as (d0 & fs0 & d' & fs' & answers & v & E & Er & Hv & _).
  unfold demo_answers in Ha. rewrite E in Ha. cbn [bindr] in Ha. rewrite Er in Ha. cbn [bindr] in Ha.
  injection Ha as <-. exists v. exact Hv.
Defined.

Lemma Create_overrun_witness :
  exists d fs v, represents d fs v /\ fits v [97; 0] 4000 /\ Create demo_memory fs [97; 0] 4000 d = Err WildAccess.
Proof.
  destruct (format_spec demo_memory Array.blank Array.blank_wf) as (d & fs & dir & bm & _ & Hw & Hv & Hf).
  assert (represents d fs (∅, NumSectors - 5)) as Hr by (exists dir, bm; split; [exact Hw|split; [exact Hv|exact Hf]]).
  assert (fits (∅, NumSectors - 5) [97; 0] 4000) as Hfit.
  { unfold fits, sectors_for. cbn [fst snd]. rewrite lookup_empty, map_size_empty. split; [done|].
    change NumDirEntries with 10. change NumSectors with 1024. change (divRoundUp 4000 SectorSize) with 32. lia. }
  assert (Forall is_byte [97; 0]) as Hb by (repeat constructor; unfold is_byte; lia).
  exists d, fs, (∅, NumSectors - 5). split; [exact Hr|]. split; [exact Hfit|].
  apply (Create_overrun demo_memory d fs (∅, NumSectors - 5) [97; 0] 4000 Hr); [reflexivity|exact Hb|exact Hfit|].
  change MaxFileSize with 3840. lia.
Defined.
